(** * MapFrontier: the conflict and economy core

    A shallow embedding of the server side of the multiplayer world
    platform: the Sequelize models [Player], [Country], [War] and
    [BorderPush] (attributes, hooks and instance methods), the game routes
    that declare and end wars and start, join and defend border pushes, and
    the periodic border-push update of the socket handler; then the
    properties of wars, border pushes and resource balances that hold of
    them.

    Conventions of the embedding.
    - A table is the list of its rows; a model instance is a row together
      with the values it had when it was loaded or last saved (what
      Sequelize keeps in [_previousDataValues] to answer [changed]).
      Methods take the instance and return it as they leave it.
    - UUIDs are natural numbers; dates are integer milliseconds.
    - JavaScript numbers held in FLOAT columns are real numbers: rounding,
      infinities and NaN are outside the model.  INTEGER columns are
      integers.
    - [new Date()] and [Date.now()] read a wall clock: the n-th read of a run
      returns [wall_clock n].
    - An exception leaves the store as it is when it is thrown; every
      INSERT and UPDATE is recorded, by its table, in the order of issue.
    - A bulk [Model.update] is one UPDATE statement; Sequelize runs the
      instance hooks for it only under the option [individualHooks].
    - Every request handler and every run of the periodic update executes
      against the store without interleaving with another one.
    - Attribute validators, geometry columns, the history table, request
      validation and the authentication middleware are not part of this
      first part, and its [save] writes the whole row.  The last part
      ([Checked]) embeds the validators of [BorderPush], its [save] by
      columns, the middleware and the schema of the routes of border
      pushes, and two declarations of war that overlap; what the
      development says of joins, of defences and of the bounds of
      [push_speed] under the validators is said there. *)

From Stdlib Require Import ZArith List Bool String Reals Lra Lia.
Import ListNotations.

Local Open Scope Z_scope.

(** ** Identifiers and enumerations *)

Definition Id : Type := nat.

Definition same_id (a b : Id) : bool := Nat.eqb a b.

Definition opt_is (a : option Id) (b : Id) : bool :=
  match a with
  | Some x => same_id x b
  | None => false
  end.

(** ** Rows of the four tables *)

Module players.

Record t : Type := mk {
  id : Id;
  country_id : option Id;
  resources : Z;
  wars_declared : Z
}.

Definition set_resources (v : Z) (r : t) : t :=
  {| id := id r; country_id := country_id r; resources := v;
     wars_declared := wars_declared r |}.

Definition set_wars_declared (v : Z) (r : t) : t :=
  {| id := id r; country_id := country_id r; resources := resources r;
     wars_declared := v |}.

End players.

Module countries.

Record t : Type := mk {
  id : Id;
  is_claimed : bool;
  owner_id : option Id;
  resources : Z;
  resource_generation_rate : R;
  terrain_modifier : R;
  is_at_war : bool;
  active_wars : Z;
  wars_won : Z;
  wars_lost : Z;
  territory_lost : R;
  territory_gained : R
}.

Definition set_resources (v : Z) (r : t) : t :=
  {| id := id r; is_claimed := is_claimed r; owner_id := owner_id r;
     resources := v; resource_generation_rate := resource_generation_rate r;
     terrain_modifier := terrain_modifier r; is_at_war := is_at_war r;
     active_wars := active_wars r; wars_won := wars_won r;
     wars_lost := wars_lost r; territory_lost := territory_lost r;
     territory_gained := territory_gained r |}.

Definition set_is_at_war (v : bool) (r : t) : t :=
  {| id := id r; is_claimed := is_claimed r; owner_id := owner_id r;
     resources := resources r;
     resource_generation_rate := resource_generation_rate r;
     terrain_modifier := terrain_modifier r; is_at_war := v;
     active_wars := active_wars r; wars_won := wars_won r;
     wars_lost := wars_lost r; territory_lost := territory_lost r;
     territory_gained := territory_gained r |}.

Definition set_active_wars (v : Z) (r : t) : t :=
  {| id := id r; is_claimed := is_claimed r; owner_id := owner_id r;
     resources := resources r;
     resource_generation_rate := resource_generation_rate r;
     terrain_modifier := terrain_modifier r; is_at_war := is_at_war r;
     active_wars := v; wars_won := wars_won r; wars_lost := wars_lost r;
     territory_lost := territory_lost r;
     territory_gained := territory_gained r |}.

Definition set_wars_won (v : Z) (r : t) : t :=
  {| id := id r; is_claimed := is_claimed r; owner_id := owner_id r;
     resources := resources r;
     resource_generation_rate := resource_generation_rate r;
     terrain_modifier := terrain_modifier r; is_at_war := is_at_war r;
     active_wars := active_wars r; wars_won := v; wars_lost := wars_lost r;
     territory_lost := territory_lost r;
     territory_gained := territory_gained r |}.

Definition set_wars_lost (v : Z) (r : t) : t :=
  {| id := id r; is_claimed := is_claimed r; owner_id := owner_id r;
     resources := resources r;
     resource_generation_rate := resource_generation_rate r;
     terrain_modifier := terrain_modifier r; is_at_war := is_at_war r;
     active_wars := active_wars r; wars_won := wars_won r; wars_lost := v;
     territory_lost := territory_lost r;
     territory_gained := territory_gained r |}.

End countries.

Module wars.

(** [DataTypes.ENUM('active', 'ended', 'ceasefire')] *)
Inductive Status : Type :=
| active
| ended
| ceasefire.

Definition status_eqb (a b : Status) : bool :=
  match a, b with
  | active, active | ended, ended | ceasefire, ceasefire => true
  | _, _ => false
  end.

Record t : Type := mk {
  id : Id;
  aggressor_country_id : Id;
  defender_country_id : Id;
  declared_by : Id;
  declared_at : Z;
  status : Status;
  ended_at : option Z;
  ended_by : option Id;
  winner_country_id : option Id;
  duration_minutes : Z;
  total_border_pushes : Z
}.

Definition set_status (v : Status) (r : t) : t :=
  {| id := id r; aggressor_country_id := aggressor_country_id r;
     defender_country_id := defender_country_id r;
     declared_by := declared_by r; declared_at := declared_at r; status := v;
     ended_at := ended_at r; ended_by := ended_by r;
     winner_country_id := winner_country_id r;
     duration_minutes := duration_minutes r;
     total_border_pushes := total_border_pushes r |}.

Definition set_ended_at (v : option Z) (r : t) : t :=
  {| id := id r; aggressor_country_id := aggressor_country_id r;
     defender_country_id := defender_country_id r;
     declared_by := declared_by r; declared_at := declared_at r;
     status := status r; ended_at := v; ended_by := ended_by r;
     winner_country_id := winner_country_id r;
     duration_minutes := duration_minutes r;
     total_border_pushes := total_border_pushes r |}.

Definition set_ended_by (v : option Id) (r : t) : t :=
  {| id := id r; aggressor_country_id := aggressor_country_id r;
     defender_country_id := defender_country_id r;
     declared_by := declared_by r; declared_at := declared_at r;
     status := status r; ended_at := ended_at r; ended_by := v;
     winner_country_id := winner_country_id r;
     duration_minutes := duration_minutes r;
     total_border_pushes := total_border_pushes r |}.

Definition set_winner_country_id (v : option Id) (r : t) : t :=
  {| id := id r; aggressor_country_id := aggressor_country_id r;
     defender_country_id := defender_country_id r;
     declared_by := declared_by r; declared_at := declared_at r;
     status := status r; ended_at := ended_at r; ended_by := ended_by r;
     winner_country_id := v; duration_minutes := duration_minutes r;
     total_border_pushes := total_border_pushes r |}.

Definition set_duration_minutes (v : Z) (r : t) : t :=
  {| id := id r; aggressor_country_id := aggressor_country_id r;
     defender_country_id := defender_country_id r;
     declared_by := declared_by r; declared_at := declared_at r;
     status := status r; ended_at := ended_at r; ended_by := ended_by r;
     winner_country_id := winner_country_id r; duration_minutes := v;
     total_border_pushes := total_border_pushes r |}.

Definition set_total_border_pushes (v : Z) (r : t) : t :=
  {| id := id r; aggressor_country_id := aggressor_country_id r;
     defender_country_id := defender_country_id r;
     declared_by := declared_by r; declared_at := declared_at r;
     status := status r; ended_at := ended_at r; ended_by := ended_by r;
     winner_country_id := winner_country_id r;
     duration_minutes := duration_minutes r; total_border_pushes := v |}.

End wars.

Module border_pushes.

(** [DataTypes.ENUM('active', 'successful', 'failed', 'cancelled')] *)
Inductive Status : Type :=
| active
| successful
| failed
| cancelled.

Definition status_eqb (a b : Status) : bool :=
  match a, b with
  | active, active | successful, successful
  | failed, failed | cancelled, cancelled => true
  | _, _ => false
  end.

Record t : Type := mk {
  id : Id;
  war_id : Id;
  player_id : Id;
  source_country_id : Id;
  target_country_id : Id;
  started_at : Z;
  ended_at : option Z;
  status : Status;
  push_strength : R;
  resistance_strength : R;
  terrain_modifier : R;
  distance_pushed : R;
  territory_gained : R;
  resources_consumed : Z;
  supporting_soldiers : Z;
  defending_soldiers : Z;
  duration_seconds : Z;
  push_speed : R;
  last_update : Z
}.

Definition set_ended_at (v : option Z) (r : t) : t :=
  {| id := id r; war_id := war_id r; player_id := player_id r;
     source_country_id := source_country_id r;
     target_country_id := target_country_id r; started_at := started_at r;
     ended_at := v; status := status r; push_strength := push_strength r;
     resistance_strength := resistance_strength r;
     terrain_modifier := terrain_modifier r;
     distance_pushed := distance_pushed r;
     territory_gained := territory_gained r;
     resources_consumed := resources_consumed r;
     supporting_soldiers := supporting_soldiers r;
     defending_soldiers := defending_soldiers r;
     duration_seconds := duration_seconds r; push_speed := push_speed r;
     last_update := last_update r |}.

Definition set_status (v : Status) (r : t) : t :=
  {| id := id r; war_id := war_id r; player_id := player_id r;
     source_country_id := source_country_id r;
     target_country_id := target_country_id r; started_at := started_at r;
     ended_at := ended_at r; status := v; push_strength := push_strength r;
     resistance_strength := resistance_strength r;
     terrain_modifier := terrain_modifier r;
     distance_pushed := distance_pushed r;
     territory_gained := territory_gained r;
     resources_consumed := resources_consumed r;
     supporting_soldiers := supporting_soldiers r;
     defending_soldiers := defending_soldiers r;
     duration_seconds := duration_seconds r; push_speed := push_speed r;
     last_update := last_update r |}.

Definition set_push_strength (v : R) (r : t) : t :=
  {| id := id r; war_id := war_id r; player_id := player_id r;
     source_country_id := source_country_id r;
     target_country_id := target_country_id r; started_at := started_at r;
     ended_at := ended_at r; status := status r; push_strength := v;
     resistance_strength := resistance_strength r;
     terrain_modifier := terrain_modifier r;
     distance_pushed := distance_pushed r;
     territory_gained := territory_gained r;
     resources_consumed := resources_consumed r;
     supporting_soldiers := supporting_soldiers r;
     defending_soldiers := defending_soldiers r;
     duration_seconds := duration_seconds r; push_speed := push_speed r;
     last_update := last_update r |}.

Definition set_resistance_strength (v : R) (r : t) : t :=
  {| id := id r; war_id := war_id r; player_id := player_id r;
     source_country_id := source_country_id r;
     target_country_id := target_country_id r; started_at := started_at r;
     ended_at := ended_at r; status := status r;
     push_strength := push_strength r; resistance_strength := v;
     terrain_modifier := terrain_modifier r;
     distance_pushed := distance_pushed r;
     territory_gained := territory_gained r;
     resources_consumed := resources_consumed r;
     supporting_soldiers := supporting_soldiers r;
     defending_soldiers := defending_soldiers r;
     duration_seconds := duration_seconds r; push_speed := push_speed r;
     last_update := last_update r |}.

Definition set_distance_pushed (v : R) (r : t) : t :=
  {| id := id r; war_id := war_id r; player_id := player_id r;
     source_country_id := source_country_id r;
     target_country_id := target_country_id r; started_at := started_at r;
     ended_at := ended_at r; status := status r;
     push_strength := push_strength r;
     resistance_strength := resistance_strength r;
     terrain_modifier := terrain_modifier r; distance_pushed := v;
     territory_gained := territory_gained r;
     resources_consumed := resources_consumed r;
     supporting_soldiers := supporting_soldiers r;
     defending_soldiers := defending_soldiers r;
     duration_seconds := duration_seconds r; push_speed := push_speed r;
     last_update := last_update r |}.

Definition set_territory_gained (v : R) (r : t) : t :=
  {| id := id r; war_id := war_id r; player_id := player_id r;
     source_country_id := source_country_id r;
     target_country_id := target_country_id r; started_at := started_at r;
     ended_at := ended_at r; status := status r;
     push_strength := push_strength r;
     resistance_strength := resistance_strength r;
     terrain_modifier := terrain_modifier r;
     distance_pushed := distance_pushed r; territory_gained := v;
     resources_consumed := resources_consumed r;
     supporting_soldiers := supporting_soldiers r;
     defending_soldiers := defending_soldiers r;
     duration_seconds := duration_seconds r; push_speed := push_speed r;
     last_update := last_update r |}.

Definition set_supporting_soldiers (v : Z) (r : t) : t :=
  {| id := id r; war_id := war_id r; player_id := player_id r;
     source_country_id := source_country_id r;
     target_country_id := target_country_id r; started_at := started_at r;
     ended_at := ended_at r; status := status r;
     push_strength := push_strength r;
     resistance_strength := resistance_strength r;
     terrain_modifier := terrain_modifier r;
     distance_pushed := distance_pushed r;
     territory_gained := territory_gained r;
     resources_consumed := resources_consumed r; supporting_soldiers := v;
     defending_soldiers := defending_soldiers r;
     duration_seconds := duration_seconds r; push_speed := push_speed r;
     last_update := last_update r |}.

Definition set_defending_soldiers (v : Z) (r : t) : t :=
  {| id := id r; war_id := war_id r; player_id := player_id r;
     source_country_id := source_country_id r;
     target_country_id := target_country_id r; started_at := started_at r;
     ended_at := ended_at r; status := status r;
     push_strength := push_strength r;
     resistance_strength := resistance_strength r;
     terrain_modifier := terrain_modifier r;
     distance_pushed := distance_pushed r;
     territory_gained := territory_gained r;
     resources_consumed := resources_consumed r;
     supporting_soldiers := supporting_soldiers r; defending_soldiers := v;
     duration_seconds := duration_seconds r; push_speed := push_speed r;
     last_update := last_update r |}.

Definition set_duration_seconds (v : Z) (r : t) : t :=
  {| id := id r; war_id := war_id r; player_id := player_id r;
     source_country_id := source_country_id r;
     target_country_id := target_country_id r; started_at := started_at r;
     ended_at := ended_at r; status := status r;
     push_strength := push_strength r;
     resistance_strength := resistance_strength r;
     terrain_modifier := terrain_modifier r;
     distance_pushed := distance_pushed r;
     territory_gained := territory_gained r;
     resources_consumed := resources_consumed r;
     supporting_soldiers := supporting_soldiers r;
     defending_soldiers := defending_soldiers r; duration_seconds := v;
     push_speed := push_speed r; last_update := last_update r |}.

Definition set_push_speed (v : R) (r : t) : t :=
  {| id := id r; war_id := war_id r; player_id := player_id r;
     source_country_id := source_country_id r;
     target_country_id := target_country_id r; started_at := started_at r;
     ended_at := ended_at r; status := status r;
     push_strength := push_strength r;
     resistance_strength := resistance_strength r;
     terrain_modifier := terrain_modifier r;
     distance_pushed := distance_pushed r;
     territory_gained := territory_gained r;
     resources_consumed := resources_consumed r;
     supporting_soldiers := supporting_soldiers r;
     defending_soldiers := defending_soldiers r;
     duration_seconds := duration_seconds r; push_speed := v;
     last_update := last_update r |}.

Definition set_last_update (v : Z) (r : t) : t :=
  {| id := id r; war_id := war_id r; player_id := player_id r;
     source_country_id := source_country_id r;
     target_country_id := target_country_id r; started_at := started_at r;
     ended_at := ended_at r; status := status r;
     push_strength := push_strength r;
     resistance_strength := resistance_strength r;
     terrain_modifier := terrain_modifier r;
     distance_pushed := distance_pushed r;
     territory_gained := territory_gained r;
     resources_consumed := resources_consumed r;
     supporting_soldiers := supporting_soldiers r;
     defending_soldiers := defending_soldiers r;
     duration_seconds := duration_seconds r; push_speed := push_speed r;
     last_update := v |}.

End border_pushes.

(** ** Model instances

    An instance holds the current attribute values and those of the last
    load or save; [changed] compares the two. *)

Record Instance (A : Type) : Type := mkInstance {
  dataValues : A;
  _previousDataValues : A
}.

Arguments mkInstance {A} _ _.
Arguments dataValues {A} _.
Arguments _previousDataValues {A} _.

(** An instance as a finder returns it. *)
Definition build {A : Type} (r : A) : Instance A :=
  {| dataValues := r; _previousDataValues := r |}.

(** An assignment [this.x = v]. *)
Definition assign {A : Type} (f : A -> A) (this : Instance A) : Instance A :=
  {| dataValues := f (dataValues this);
     _previousDataValues := _previousDataValues this |}.

(** The state of an instance once [save] has written it. *)
Definition saved {A : Type} (this : Instance A) : Instance A :=
  build (dataValues this).

(** ** Progress reports and socket events *)

(** The object [calculateCurrentProgress] returns. *)
Record Progress : Type := mkProgress {
  distance : R;
  territory : R;
  isActive : bool
}.

Inductive Payload : Type :=
| war_declared (war_id aggressor defender : Id) (declared_at : Z)
| war_ended (war_id : Id)
| border_push_started (push_id war_id : Id)
| border_push_incoming (push_id attacker_country war_id : Id)
| border_push_support_added (push_id : Id) (total_supporters : Z)
    (new_strength new_speed : R)
| border_push_defense_added (push_id : Id) (total_defenders : Z)
    (new_resistance new_speed : R)
| border_push_completed (push_id : Id) (territory_gained : R)
| border_push_lost (push_id : Id) (territory_lost : R)
| border_push_progress (push_id : Id) (progress : Progress) (timestamp : Z).

(** [io.emit] addresses every socket ([to_country = None]);
    [io.to(`country_${id}`).emit] addresses one room. *)
Record Emit : Type := mkEmit {
  to_country : option Id;
  payload : Payload
}.

(** ** The world a handler runs in

    Besides the four tables the world holds the emissions made so far, the
    clock, the UUID supply, the environment, and [written]: the name of
    the table of every INSERT and UPDATE issued so far, in order. *)

(** The variables of [process.env] the routes read; an unset variable is
    [None]. *)
Record Env : Type := mkEnv {
  WAR_DECLARATION_COOLDOWN_MS : option Z;
  BORDER_PUSH_COOLDOWN_MS : option Z
}.

(** [parseInt(process.env.X) || fallback]: an unset variable parses to NaN,
    and NaN and 0 are falsy. *)
Definition parseInt_or (x : option Z) (fallback : Z) : Z :=
  match x with
  | Some v => if v =? 0 then fallback else v
  | None => fallback
  end.

Record World : Type := mkWorld {
  tbl_players : list players.t;
  tbl_countries : list countries.t;
  tbl_wars : list wars.t;
  tbl_border_pushes : list border_pushes.t;
  emitted : list Emit;
  wall_clock : nat -> Z;
  clock_reads : nat;
  uuid_counter : nat;
  process_env : Env;
  written : list string
}.

Definition with_players (v : list players.t) (w : World) : World :=
  {| tbl_players := v; tbl_countries := tbl_countries w;
     tbl_wars := tbl_wars w; tbl_border_pushes := tbl_border_pushes w;
     emitted := emitted w; wall_clock := wall_clock w;
     clock_reads := clock_reads w; uuid_counter := uuid_counter w;
     process_env := process_env w;
     written := written w ++ ["players"%string] |}.

Definition with_countries (v : list countries.t) (w : World) : World :=
  {| tbl_players := tbl_players w; tbl_countries := v;
     tbl_wars := tbl_wars w; tbl_border_pushes := tbl_border_pushes w;
     emitted := emitted w; wall_clock := wall_clock w;
     clock_reads := clock_reads w; uuid_counter := uuid_counter w;
     process_env := process_env w;
     written := written w ++ ["countries"%string] |}.

Definition with_wars (v : list wars.t) (w : World) : World :=
  {| tbl_players := tbl_players w; tbl_countries := tbl_countries w;
     tbl_wars := v; tbl_border_pushes := tbl_border_pushes w;
     emitted := emitted w; wall_clock := wall_clock w;
     clock_reads := clock_reads w; uuid_counter := uuid_counter w;
     process_env := process_env w;
     written := written w ++ ["wars"%string] |}.

Definition with_border_pushes (v : list border_pushes.t) (w : World) : World :=
  {| tbl_players := tbl_players w; tbl_countries := tbl_countries w;
     tbl_wars := tbl_wars w; tbl_border_pushes := v;
     emitted := emitted w; wall_clock := wall_clock w;
     clock_reads := clock_reads w; uuid_counter := uuid_counter w;
     process_env := process_env w;
     written := written w ++ ["border_pushes"%string] |}.

Definition with_emitted (v : list Emit) (w : World) : World :=
  {| tbl_players := tbl_players w; tbl_countries := tbl_countries w;
     tbl_wars := tbl_wars w; tbl_border_pushes := tbl_border_pushes w;
     emitted := v; wall_clock := wall_clock w;
     clock_reads := clock_reads w; uuid_counter := uuid_counter w;
     process_env := process_env w;
     written := written w |}.

Definition with_clock_reads (v : nat) (w : World) : World :=
  {| tbl_players := tbl_players w; tbl_countries := tbl_countries w;
     tbl_wars := tbl_wars w; tbl_border_pushes := tbl_border_pushes w;
     emitted := emitted w; wall_clock := wall_clock w;
     clock_reads := v; uuid_counter := uuid_counter w;
     process_env := process_env w;
     written := written w |}.

Definition with_uuid_counter (v : nat) (w : World) : World :=
  {| tbl_players := tbl_players w; tbl_countries := tbl_countries w;
     tbl_wars := tbl_wars w; tbl_border_pushes := tbl_border_pushes w;
     emitted := emitted w; wall_clock := wall_clock w;
     clock_reads := clock_reads w; uuid_counter := v;
     process_env := process_env w;
     written := written w |}.

(** ** Computations: state, and exceptions that keep the state *)

Inductive Outcome (A : Type) : Type :=
| Returned (a : A)
| Threw (message : string).

Arguments Returned {A} _.
Arguments Threw {A} _.

Definition M (A : Type) : Type := World -> Outcome A * World.

Definition ret {A : Type} (a : A) : M A := fun w => (Returned a, w).

Definition bind {A B : Type} (c : M A) (k : A -> M B) : M B :=
  fun w =>
    match c w with
    | (Returned a, w') => k a w'
    | (Threw e, w') => (Threw e, w')
    end.

Definition throw {A : Type} (message : string) : M A :=
  fun w => (Threw message, w).

Definition try_catch {A : Type} (c : M A) (handler : string -> M A) : M A :=
  fun w =>
    match c w with
    | (Returned a, w') => (Returned a, w')
    | (Threw e, w') => handler e w'
    end.

Definition gets {A : Type} (f : World -> A) : M A :=
  fun w => (Returned (f w), w).

Definition modify (f : World -> World) : M unit :=
  fun w => (Returned tt, f w).

Declare Scope js_scope.
Delimit Scope js_scope with js.
Notation "x <- c ;; k" := (bind c (fun x => k))
  (at level 61, c at next level, right associativity) : js_scope.
Notation "c ;; k" := (bind c (fun _ => k))
  (at level 61, right associativity) : js_scope.
Local Open Scope js_scope.

(** [for (const x of xs) { body }] *)
Fixpoint for_of {A : Type} (xs : list A) (body : A -> M unit) : M unit :=
  match xs with
  | [] => ret tt
  | x :: rest => body x ;; for_of rest body
  end.

(** [new Date()], [Date.now()]. *)
Definition new_Date : M Z :=
  fun w => (Returned (wall_clock w (clock_reads w)),
            with_clock_reads (S (clock_reads w)) w).

(** [DataTypes.UUIDV4] as a default value. *)
Definition UUIDV4 : M Id :=
  fun w => (Returned (uuid_counter w),
            with_uuid_counter (S (uuid_counter w)) w).

(** [io.emit(...)] and [io.to(room).emit(...)]. *)
Definition emit (to : option Id) (p : Payload) : M unit :=
  modify (fun w => with_emitted (emitted w ++ [mkEmit to p]) w).

(** [Math.floor(ms / d)] for an integer [ms] and a positive integer [d]. *)
Definition floor_div (ms d : Z) : Z := ms / d.

(** [UPDATE ... WHERE <sel>]: every selected row is rewritten. *)
Definition update_where {A : Type} (sel : A -> bool) (f : A -> A)
  (rows : list A) : list A :=
  map (fun r => if sel r then f r else r) rows.

(** ** [Math] *)

Definition Math_max (a b : R) : R := Rmax a b.
Definition Math_min (a b : R) : R := Rmin a b.
Definition Math_sqrt (a : R) : R := sqrt a.
Definition Math_PI : R := PI.

(** ** Player *)

Module Player.

(** [this.save()]: [UPDATE players ... WHERE id = this.id].  The update
    hook of the model only concerns the password and the online flag. *)
Definition save (this : Instance players.t) : M (Instance players.t) :=
  modify (fun w =>
    with_players
      (update_where
         (fun r => same_id (players.id r) (players.id (dataValues this)))
         (fun _ => dataValues this) (tbl_players w)) w) ;;
  ret (saved this).

(** [Player.prototype.consumeResources]: the result pairs the truth value
    of what the method returns ([false], or the saved instance) with the
    instance after the call. *)
Definition consumeResources (amount : Z) (this : Instance players.t)
  : M (bool * Instance players.t) :=
  if players.resources (dataValues this) <? amount then
    ret (false, this)
  else
    let this := assign (players.set_resources
                          (players.resources (dataValues this) - amount)) this in
    this <- save this ;;
    ret (true, this).

(** [player.increment('wars_declared')] *)
Definition increment_wars_declared (this : Instance players.t) : M unit :=
  modify (fun w =>
    with_players
      (update_where
         (fun r => same_id (players.id r) (players.id (dataValues this)))
         (fun r => players.set_wars_declared (players.wars_declared r + 1) r)
         (tbl_players w)) w).

End Player.

(** ** Country *)

Module Country.

(** [this.save()]: the update hook only stamps [last_activity], which the
    rows here do not carry. *)
Definition save (this : Instance countries.t) : M (Instance countries.t) :=
  modify (fun w =>
    with_countries
      (update_where
         (fun r => same_id (countries.id r) (countries.id (dataValues this)))
         (fun _ => dataValues this) (tbl_countries w)) w) ;;
  ret (saved this).

(** [Country.prototype.consumeResources] *)
Definition consumeResources (amount : Z) (this : Instance countries.t)
  : M (bool * Instance countries.t) :=
  if countries.resources (dataValues this) <? amount then
    ret (false, this)
  else
    let this := assign (countries.set_resources
                          (countries.resources (dataValues this) - amount)) this in
    this <- save this ;;
    ret (true, this).

(** [Country.findByPk] *)
Definition findByPk (pk : Id) : M (option (Instance countries.t)) :=
  gets (fun w =>
    option_map build
      (find (fun r => same_id (countries.id r) pk) (tbl_countries w))).

(** [Country.update(values, { where: { id: ids } })] *)
Definition update (f : countries.t -> countries.t) (ids : list Id) : M unit :=
  modify (fun w =>
    with_countries
      (update_where (fun r => existsb (same_id (countries.id r)) ids) f
         (tbl_countries w)) w).

End Country.

(** [country.update(values)] on an instance: assign, then save. *)
Definition Country_instance_update (f : countries.t -> countries.t)
  (this : Instance countries.t) : M (Instance countries.t) :=
  Country.save (assign f this).

(** [findOne({ where, order: [[key, 'DESC']] })]: a selected row whose key
    is greatest. *)
Fixpoint latest {A : Type} (key : A -> Z) (rows : list A) : option A :=
  match rows with
  | [] => None
  | r :: rest =>
      match latest key rest with
      | None => Some r
      | Some r' => if key r' <=? key r then Some r else Some r'
      end
  end.

(** ** War *)

Module War.

(** [war.changed('status')] *)
Definition changed_status (this : Instance wars.t) : bool :=
  negb (wars.status_eqb (wars.status (dataValues this))
          (wars.status (_previousDataValues this))).

Definition is_ended (s : wars.Status) : bool := wars.status_eqb s wars.ended.
Definition is_active (s : wars.Status) : bool := wars.status_eqb s wars.active.

(** The [where] of the route's [existingWar] query: an active war between
    the two countries, in one direction or the other. *)
Definition active_between (a b : Id) (r : wars.t) : bool :=
  ((same_id (wars.aggressor_country_id r) a
    && same_id (wars.defender_country_id r) b)
   || (same_id (wars.aggressor_country_id r) b
       && same_id (wars.defender_country_id r) a))
  && is_active (wars.status r).

(** The rows the partial unique index
    [unique_active_war_between_countries] compares a new row with. *)
Definition index_clash (r new : wars.t) : bool :=
  same_id (wars.aggressor_country_id r) (wars.aggressor_country_id new)
  && same_id (wars.defender_country_id r) (wars.defender_country_id new)
  && is_active (wars.status r) && is_active (wars.status new).

Definition beforeCreate (war : wars.t) : M unit :=
  if same_id (wars.aggressor_country_id war) (wars.defender_country_id war)
  then throw "A country cannot declare war on itself"
  else ret tt.

Definition afterCreate (war : wars.t) : M unit :=
  Country.update
    (fun c => countries.set_active_wars (countries.active_wars c + 1)
                (countries.set_is_at_war true c))
    [wars.aggressor_country_id war; wars.defender_country_id war].

Definition beforeUpdate (war : Instance wars.t) : M (Instance wars.t) :=
  if changed_status war && is_ended (wars.status (dataValues war)) then
    now <- new_Date ;;
    let war := assign (wars.set_ended_at (Some now)) war in
    (* declared_at is a Date, hence truthy *)
    let durationMs := now - wars.declared_at (dataValues war) in
    ret (assign (wars.set_duration_minutes
                   (floor_div durationMs (1000 * 60))) war)
  else ret war.

Definition afterUpdate (war : Instance wars.t) : M unit :=
  if changed_status war && is_ended (wars.status (dataValues war)) then
    let aggressor := wars.aggressor_country_id (dataValues war) in
    let defender := wars.defender_country_id (dataValues war) in
    Country.update
      (fun c => countries.set_active_wars
                  (Z.max (countries.active_wars c - 1) 0) c)
      [aggressor; defender] ;;
    for_of [aggressor; defender] (fun countryId =>
      country <- Country.findByPk countryId ;;
      match country with
      | Some country =>
          if countries.active_wars (dataValues country) <=? 0 then
            Country_instance_update
              (fun c => countries.set_active_wars 0
                          (countries.set_is_at_war false c)) country ;;
            ret tt
          else ret tt
      | None => ret tt
      end) ;;
    match wars.winner_country_id (dataValues war) with
    | Some winner =>
        Country.update
          (fun c => countries.set_wars_won (countries.wars_won c + 1) c)
          [winner] ;;
        let loserCountryId :=
          if same_id winner aggressor then defender else aggressor in
        Country.update
          (fun c => countries.set_wars_lost (countries.wars_lost c + 1) c)
          [loserCountryId]
    | None => ret tt
    end
  else ret tt.

(** [this.save()] of a loaded instance: hook, UPDATE, hook. *)
Definition save (this : Instance wars.t) : M (Instance wars.t) :=
  this <- beforeUpdate this ;;
  modify (fun w =>
    with_wars
      (update_where
         (fun r => same_id (wars.id r) (wars.id (dataValues this)))
         (fun _ => dataValues this) (tbl_wars w)) w) ;;
  afterUpdate this ;;
  ret (saved this).

(** [War.create({ aggressor_country_id, defender_country_id, declared_by,
    reason })]: defaults, hook, INSERT under the unique index, hook. *)
Definition create (aggressor defender declared_by : Id) : M (Instance wars.t) :=
  id <- UUIDV4 ;;
  declared_at <- new_Date ;;
  let war :=
    {| wars.id := id;
       wars.aggressor_country_id := aggressor;
       wars.defender_country_id := defender;
       wars.declared_by := declared_by;
       wars.declared_at := declared_at;
       wars.status := wars.active;
       wars.ended_at := None;
       wars.ended_by := None;
       wars.winner_country_id := None;
       wars.duration_minutes := 0;
       wars.total_border_pushes := 0 |} in
  beforeCreate war ;;
  rows <- gets tbl_wars ;;
  if existsb (fun r => index_clash r war) rows then
    throw "SequelizeUniqueConstraintError"
  else
    modify (fun w => with_wars (tbl_wars w ++ [war]) w) ;;
    afterCreate war ;;
    ret (build war).

Definition findByPk (pk : Id) : M (option (Instance wars.t)) :=
  gets (fun w =>
    option_map build (find (fun r => same_id (wars.id r) pk) (tbl_wars w))).

(** [War.findOne({ where })] *)
Definition findOne (sel : wars.t -> bool) : M (option (Instance wars.t)) :=
  gets (fun w => option_map build (find sel (tbl_wars w))).

(** [War.findOne({ where, order: [['declared_at', 'DESC']] })] *)
Definition findOne_latest (sel : wars.t -> bool)
  : M (option (Instance wars.t)) :=
  gets (fun w =>
    option_map build (latest wars.declared_at (filter sel (tbl_wars w)))).

(** [War.increment('total_border_pushes', { where: { id } })] *)
Definition increment_total_border_pushes (pk : Id) : M unit :=
  modify (fun w =>
    with_wars
      (update_where (fun r => same_id (wars.id r) pk)
         (fun r => wars.set_total_border_pushes
                     (wars.total_border_pushes r + 1) r)
         (tbl_wars w)) w).

(** [War.prototype.canEndWar] *)
Definition canEndWar (playerId : Id) (this : Instance wars.t) : bool :=
  same_id (wars.declared_by (dataValues this)) playerId.

(** [War.prototype.endWar] *)
Definition endWar (endedBy : Id) (winnerCountryId : option Id)
  (this : Instance wars.t) : M (Instance wars.t) :=
  if negb (is_active (wars.status (dataValues this))) then
    throw "War is not active"
  else
    let this := assign (wars.set_status wars.ended) this in
    let this := assign (wars.set_ended_by (Some endedBy)) this in
    let this := assign (wars.set_winner_country_id winnerCountryId) this in
    now <- new_Date ;;
    let this := assign (wars.set_ended_at (Some now)) this in
    save this.

End War.

(** ** BorderPush *)

Module BorderPush.

(** [borderPush.changed('status')] *)
Definition changed_status (this : Instance border_pushes.t) : bool :=
  negb (border_pushes.status_eqb (border_pushes.status (dataValues this))
          (border_pushes.status (_previousDataValues this))).

Definition is_active (s : border_pushes.Status) : bool :=
  border_pushes.status_eqb s border_pushes.active.

(** [Math.max(0.1, Math.min(5.0, speed))] *)
Definition clamp_speed (speed : R) : R :=
  Math_max 0.1 (Math_min 5.0 speed).

Definition beforeCreate (borderPush : border_pushes.t) : border_pushes.t :=
  let baseSpeed := 1.0%R in
  let strengthMultiplier :=
    (border_pushes.push_strength borderPush
     / border_pushes.resistance_strength borderPush)%R in
  let terrainMultiplier :=
    (1 / border_pushes.terrain_modifier borderPush)%R in
  let borderPush :=
    border_pushes.set_push_speed
      (baseSpeed * strengthMultiplier * terrainMultiplier)%R borderPush in
  border_pushes.set_push_speed
    (Math_max 0.1 (Math_min 5.0 (border_pushes.push_speed borderPush)))
    borderPush.

Definition beforeUpdate (borderPush : Instance border_pushes.t)
  : M (Instance border_pushes.t) :=
  borderPush <-
    (if changed_status borderPush
        && negb (is_active (border_pushes.status (dataValues borderPush)))
     then
       ended_at <- new_Date ;;
       let borderPush :=
         assign (border_pushes.set_ended_at (Some ended_at)) borderPush in
       (* started_at is a Date, hence truthy *)
       let durationMs :=
         ended_at - border_pushes.started_at (dataValues borderPush) in
       ret (assign (border_pushes.set_duration_seconds
                      (floor_div durationMs 1000)) borderPush)
     else ret borderPush) ;;
  now <- new_Date ;;
  ret (assign (border_pushes.set_last_update now) borderPush).

Definition afterUpdate (borderPush : Instance border_pushes.t) : M unit :=
  if changed_status borderPush
     && negb (is_active (border_pushes.status (dataValues borderPush)))
  then War.increment_total_border_pushes
         (border_pushes.war_id (dataValues borderPush))
  else ret tt.

(** [this.save()] of a loaded instance: hook, UPDATE, hook. *)
Definition save (this : Instance border_pushes.t)
  : M (Instance border_pushes.t) :=
  this <- beforeUpdate this ;;
  modify (fun w =>
    with_border_pushes
      (update_where
         (fun r => same_id (border_pushes.id r)
                     (border_pushes.id (dataValues this)))
         (fun _ => dataValues this) (tbl_border_pushes w)) w) ;;
  afterUpdate this ;;
  ret (saved this).

(** [BorderPush.prototype.calculateCurrentProgress]: the result pairs the
    returned object with the instance after the call. *)
Definition calculateCurrentProgress (this : Instance border_pushes.t)
  : M (Progress * Instance border_pushes.t) :=
  if negb (is_active (border_pushes.status (dataValues this))) then
    ret ({| distance := border_pushes.distance_pushed (dataValues this);
            territory := border_pushes.territory_gained (dataValues this);
            isActive := false |}, this)
  else
    now <- new_Date ;;
    let elapsedSeconds :=
      (IZR (now - border_pushes.last_update (dataValues this)) / 1000)%R in
    let additionalDistance :=
      (border_pushes.push_speed (dataValues this) * elapsedSeconds)%R in
    ret ({| distance :=
              (border_pushes.distance_pushed (dataValues this)
               + additionalDistance)%R;
            territory := border_pushes.territory_gained (dataValues this);
            isActive := true |}, this).

(** [BorderPush.prototype.updateProgress] *)
Definition updateProgress (this : Instance border_pushes.t)
  : M (Instance border_pushes.t) :=
  if negb (is_active (border_pushes.status (dataValues this))) then
    ret this
  else
    r <- calculateCurrentProgress this ;;
    let '(progress, this) := r in
    let this := assign (border_pushes.set_distance_pushed (distance progress))
                  this in
    now <- new_Date ;;
    let this := assign (border_pushes.set_last_update now) this in
    let radiusKm := (border_pushes.distance_pushed (dataValues this) / 1000)%R in
    let this := assign (border_pushes.set_territory_gained
                          (Math_PI * radiusKm * radiusKm)%R) this in
    save this.

(** [BorderPush.prototype.addSupportingSoldier] *)
Definition addSupportingSoldier (this : Instance border_pushes.t)
  : M (Instance border_pushes.t) :=
  let this := assign (fun r => border_pushes.set_supporting_soldiers
                         (border_pushes.supporting_soldiers r + 1) r) this in
  let baseStrength := 1.0%R in
  let soldierMultiplier :=
    Math_sqrt (IZR (border_pushes.supporting_soldiers (dataValues this))) in
  let this := assign (border_pushes.set_push_strength
                        (baseStrength * soldierMultiplier)%R) this in
  let strengthMultiplier :=
    (border_pushes.push_strength (dataValues this)
     / border_pushes.resistance_strength (dataValues this))%R in
  let terrainMultiplier :=
    (1 / border_pushes.terrain_modifier (dataValues this))%R in
  let baseSpeed := 1.0%R in
  let this := assign (border_pushes.set_push_speed
                        (Math_max 0.1 (Math_min 5.0
                           (baseSpeed * strengthMultiplier
                            * terrainMultiplier)%R))) this in
  save this.

(** [BorderPush.prototype.addDefendingSoldier] *)
Definition addDefendingSoldier (this : Instance border_pushes.t)
  : M (Instance border_pushes.t) :=
  let this := assign (fun r => border_pushes.set_defending_soldiers
                         (border_pushes.defending_soldiers r + 1) r) this in
  let baseResistance := 1.0%R in
  let defenseMultiplier :=
    Math_sqrt (IZR (border_pushes.defending_soldiers (dataValues this))) in
  let this := assign (border_pushes.set_resistance_strength
                        (baseResistance * defenseMultiplier)%R) this in
  let strengthMultiplier :=
    (border_pushes.push_strength (dataValues this)
     / border_pushes.resistance_strength (dataValues this))%R in
  let terrainMultiplier :=
    (1 / border_pushes.terrain_modifier (dataValues this))%R in
  let baseSpeed := 1.0%R in
  let this := assign (border_pushes.set_push_speed
                        (Math_max 0.1 (Math_min 5.0
                           (baseSpeed * strengthMultiplier
                            * terrainMultiplier)%R))) this in
  save this.

(** [BorderPush.prototype.stopPush]; [reason] defaults to ['cancelled']. *)
Definition stopPush (reason : string) (this : Instance border_pushes.t)
  : M (Instance border_pushes.t) :=
  if negb (is_active (border_pushes.status (dataValues this))) then
    throw "Border push is not active"
  else
    this <- updateProgress this ;;
    let this :=
      assign (border_pushes.set_status
                (if String.eqb reason "successful"
                 then border_pushes.successful
                 else border_pushes.cancelled)) this in
    now <- new_Date ;;
    let this := assign (border_pushes.set_ended_at (Some now)) this in
    save this.

(** [BorderPush.findActivePushes] (the eager-loaded associations are not
    used by the caller) *)
Definition findActivePushes : M (list (Instance border_pushes.t)) :=
  gets (fun w =>
    map build
      (filter (fun r => is_active (border_pushes.status r))
         (tbl_border_pushes w))).

Definition findByPk (pk : Id) : M (option (Instance border_pushes.t)) :=
  gets (fun w =>
    option_map build
      (find (fun r => same_id (border_pushes.id r) pk) (tbl_border_pushes w))).

(** [BorderPush.findOne({ where, order: [['started_at', 'DESC']] })] *)
Definition findOne_latest (sel : border_pushes.t -> bool)
  : M (option (Instance border_pushes.t)) :=
  gets (fun w =>
    option_map build
      (latest border_pushes.started_at (filter sel (tbl_border_pushes w)))).

(** [BorderPush.create] with the attributes the route supplies; the other
    attributes take their defaults, then the hook runs and the row is
    inserted. *)
Definition create (war_id player_id source_country_id target_country_id : Id)
  (push_strength terrain_modifier : R) (resources_consumed : Z)
  : M (Instance border_pushes.t) :=
  id <- UUIDV4 ;;
  started_at <- new_Date ;;
  last_update <- new_Date ;;
  let borderPush :=
    {| border_pushes.id := id;
       border_pushes.war_id := war_id;
       border_pushes.player_id := player_id;
       border_pushes.source_country_id := source_country_id;
       border_pushes.target_country_id := target_country_id;
       border_pushes.started_at := started_at;
       border_pushes.ended_at := None;
       border_pushes.status := border_pushes.active;
       border_pushes.push_strength := push_strength;
       border_pushes.resistance_strength := 1.0%R;
       border_pushes.terrain_modifier := terrain_modifier;
       border_pushes.distance_pushed := 0%R;
       border_pushes.territory_gained := 0%R;
       border_pushes.resources_consumed := resources_consumed;
       border_pushes.supporting_soldiers := 1;
       border_pushes.defending_soldiers := 0;
       border_pushes.duration_seconds := 0;
       border_pushes.push_speed := 1.0%R;
       border_pushes.last_update := last_update |} in
  let borderPush := beforeCreate borderPush in
  modify (fun w =>
    with_border_pushes (tbl_border_pushes w ++ [borderPush]) w) ;;
  ret (build borderPush).

(** The options of a bulk [Model.update]: without [individualHooks] the
    statement is a single UPDATE and the instance hooks [beforeUpdate] and
    [afterUpdate] do not run. *)
Record UpdateOptions : Type := mkUpdateOptions {
  individualHooks : bool
}.

Definition default_options : UpdateOptions :=
  {| individualHooks := false |}.

(** [BorderPush.update({ status }, { where, ...options })] *)
Definition update (status : border_pushes.Status)
  (sel : border_pushes.t -> bool) (options : UpdateOptions) : M unit :=
  if individualHooks options then
    rows <- gets (fun w => filter sel (tbl_border_pushes w)) ;;
    for_of rows (fun r =>
      save (assign (border_pushes.set_status status) (build r)) ;;
      ret tt)
  else
    modify (fun w =>
      with_border_pushes
        (update_where sel (border_pushes.set_status status)
           (tbl_border_pushes w)) w).

End BorderPush.

(** ** The game routes

    Each handler is given the authenticated player ([req.player]) and the
    validated fields of the request, and answers with a status code and,
    for an error, its [error] string. *)

Record Response : Type := mkResponse {
  http_status : Z;
  error : option string
}.

Definition json_error (code : Z) (e : string) : M Response :=
  ret {| http_status := code; error := Some e |}.

Definition json_ok (code : Z) : M Response :=
  ret {| http_status := code; error := None |}.

Module game.

(** [POST /api/game/declare-war] *)
Definition declare_war (player : Instance players.t) (target_country_id : Id)
  : M Response :=
  try_catch
    (match players.country_id (dataValues player) with
     | None => json_error 400 "Bad Request"
     | Some country_id =>
     sourceCountry <- Country.findByPk country_id ;;
     match sourceCountry with
     | None => json_error 403 "Access Denied"
     | Some sourceCountry =>
     if negb (opt_is (countries.owner_id (dataValues sourceCountry))
                (players.id (dataValues player)))
     then json_error 403 "Access Denied" else
     targetCountry <- Country.findByPk target_country_id ;;
     match targetCountry with
     | None => json_error 404 "Not Found"
     | Some targetCountry =>
     if negb (countries.is_claimed (dataValues targetCountry))
     then json_error 400 "Bad Request" else
     if same_id (countries.id (dataValues sourceCountry))
          (countries.id (dataValues targetCountry))
     then json_error 400 "Bad Request" else
     (* Check if war already exists *)
     existingWar <-
       War.findOne
         (War.active_between (countries.id (dataValues sourceCountry))
            (countries.id (dataValues targetCountry))) ;;
     match existingWar with
     | Some _ => json_error 409 "Conflict"
     | None =>
     (* Check cooldown *)
     cooldown <-
       gets (fun w =>
         parseInt_or (WAR_DECLARATION_COOLDOWN_MS (process_env w)) 300000) ;;
     lastWar <-
       War.findOne_latest
         (fun r => same_id (wars.declared_by r)
                     (players.id (dataValues player))) ;;
     limited <-
       match lastWar with
       | Some lastWar =>
           now <- new_Date ;;
           let timeSinceLastWar :=
             now - wars.declared_at (dataValues lastWar) in
           ret (timeSinceLastWar <? cooldown)
       | None => ret false
       end ;;
     if (limited : bool) then json_error 429 "Rate Limited" else
     (* Create war *)
     war <-
       War.create (countries.id (dataValues sourceCountry))
         (countries.id (dataValues targetCountry))
         (players.id (dataValues player)) ;;
     Player.increment_wars_declared player ;;
     emit None
       (war_declared (wars.id (dataValues war))
          (countries.id (dataValues sourceCountry))
          (countries.id (dataValues targetCountry))
          (wars.declared_at (dataValues war))) ;;
     json_ok 201
     end end end end)
    (fun _ => json_error 500 "Internal Server Error").

(** [POST /api/game/border-push] *)
Definition border_push (player : Instance players.t) (target_country_id : Id)
  : M Response :=
  try_catch
    ((* Find active war *)
     war <-
       War.findOne
         (fun r =>
            opt_is (players.country_id (dataValues player))
              (wars.aggressor_country_id r)
            && same_id (wars.defender_country_id r) target_country_id
            && War.is_active (wars.status r)) ;;
     match war with
     | None => json_error 400 "Bad Request"
     | Some war =>
     (* Check border push cooldown *)
     cooldown <-
       gets (fun w =>
         parseInt_or (BORDER_PUSH_COOLDOWN_MS (process_env w)) 5000) ;;
     lastPush <-
       BorderPush.findOne_latest
         (fun r => same_id (border_pushes.player_id r)
                     (players.id (dataValues player))) ;;
     if match lastPush with
        | Some lastPush =>
            BorderPush.is_active (border_pushes.status (dataValues lastPush))
        | None => false
        end
     then json_error 400 "Bad Request" else
     limited <-
       match lastPush with
       | Some lastPush =>
           now <- new_Date ;;
           let timeSinceLastPush :=
             now - border_pushes.started_at (dataValues lastPush) in
           ret (timeSinceLastPush <? cooldown)
       | None => ret false
       end ;;
     if (limited : bool) then json_error 429 "Rate Limited" else
     (* Check if player has enough resources *)
     let resourceCost := 10 in
     if players.resources (dataValues player) <? resourceCost
     then json_error 400 "Insufficient Resources" else
     (* Create border push *)
     match players.country_id (dataValues player) with
     | None => throw "notNull Violation"
     | Some source_country_id =>
     borderPush <-
       BorderPush.create (wars.id (dataValues war))
         (players.id (dataValues player)) source_country_id
         target_country_id 1.0%R 1.0%R resourceCost ;;
     (* Consume resources *)
     Player.consumeResources resourceCost player ;;
     emit (Some source_country_id)
       (border_push_started (border_pushes.id (dataValues borderPush))
          (wars.id (dataValues war))) ;;
     emit (Some target_country_id)
       (border_push_incoming (border_pushes.id (dataValues borderPush))
          source_country_id (wars.id (dataValues war))) ;;
     json_ok 201
     end end)
    (fun _ => json_error 500 "Internal Server Error").

(** [POST /api/game/border-push/:id/join] *)
Definition border_push_join (player : Instance players.t) (id : Id)
  : M Response :=
  try_catch
    (borderPush <- BorderPush.findByPk id ;;
     match borderPush with
     | None => json_error 404 "Not Found"
     | Some borderPush =>
     if negb (BorderPush.is_active
                (border_pushes.status (dataValues borderPush)))
     then json_error 400 "Bad Request" else
     if negb (opt_is (players.country_id (dataValues player))
                (border_pushes.source_country_id (dataValues borderPush)))
     then json_error 403 "Access Denied" else
     borderPush <- BorderPush.addSupportingSoldier borderPush ;;
     emit (Some (border_pushes.source_country_id (dataValues borderPush)))
       (border_push_support_added
          (border_pushes.id (dataValues borderPush))
          (border_pushes.supporting_soldiers (dataValues borderPush))
          (border_pushes.push_strength (dataValues borderPush))
          (border_pushes.push_speed (dataValues borderPush))) ;;
     json_ok 200
     end)
    (fun _ => json_error 500 "Internal Server Error").

(** [POST /api/game/border-push/:id/defend] *)
Definition border_push_defend (player : Instance players.t) (id : Id)
  : M Response :=
  try_catch
    (borderPush <- BorderPush.findByPk id ;;
     match borderPush with
     | None => json_error 404 "Not Found"
     | Some borderPush =>
     if negb (BorderPush.is_active
                (border_pushes.status (dataValues borderPush)))
     then json_error 400 "Bad Request" else
     if negb (opt_is (players.country_id (dataValues player))
                (border_pushes.target_country_id (dataValues borderPush)))
     then json_error 403 "Access Denied" else
     borderPush <- BorderPush.addDefendingSoldier borderPush ;;
     emit (Some (border_pushes.target_country_id (dataValues borderPush)))
       (border_push_defense_added
          (border_pushes.id (dataValues borderPush))
          (border_pushes.defending_soldiers (dataValues borderPush))
          (border_pushes.resistance_strength (dataValues borderPush))
          (border_pushes.push_speed (dataValues borderPush))) ;;
     json_ok 200
     end)
    (fun _ => json_error 500 "Internal Server Error").

(** [POST /api/game/end-war/:id] *)
Definition end_war (player : Instance players.t) (id : Id) : M Response :=
  try_catch
    (war <- War.findByPk id ;;
     match war with
     | None => json_error 404 "Not Found"
     | Some war =>
     if negb (War.is_active (wars.status (dataValues war)))
     then json_error 400 "Bad Request" else
     if negb (War.canEndWar (players.id (dataValues player)) war)
     then json_error 403 "Access Denied" else
     (* End the war *)
     war <- War.endWar (players.id (dataValues player)) None war ;;
     (* End all active border pushes for this war *)
     BorderPush.update border_pushes.cancelled
       (fun r =>
          same_id (border_pushes.war_id r) (wars.id (dataValues war))
          && BorderPush.is_active (border_pushes.status r))
       BorderPush.default_options ;;
     emit None (war_ended (wars.id (dataValues war))) ;;
     json_ok 200
     end)
    (fun _ => json_error 500 "Internal Server Error").

End game.

(** ** The periodic border-push update of the socket handler *)

Module socketHandler.

(** The body of one iteration of the loop over [activePushes]. *)
Definition update_push (push : Instance border_pushes.t) : M unit :=
  r <- BorderPush.calculateCurrentProgress push ;;
  let '(progress, push) := r in
  if Rlt_dec 10000 (distance progress) then
    push <- BorderPush.stopPush "successful" push ;;
    emit (Some (border_pushes.source_country_id (dataValues push)))
      (border_push_completed (border_pushes.id (dataValues push))
         (territory progress)) ;;
    emit (Some (border_pushes.target_country_id (dataValues push)))
      (border_push_lost (border_pushes.id (dataValues push))
         (territory progress))
  else
    timestamp <- new_Date ;;
    let updateData :=
      border_push_progress (border_pushes.id (dataValues push))
        progress timestamp in
    emit (Some (border_pushes.source_country_id (dataValues push)))
      updateData ;;
    emit (Some (border_pushes.target_country_id (dataValues push)))
      updateData.

(** The callback [startPeriodicUpdates] runs every 5 seconds. *)
Definition border_push_tick : M unit :=
  try_catch
    (activePushes <- BorderPush.findActivePushes ;;
     for_of activePushes update_push)
    (fun _ => ret tt).

(** The handler of the socket message [border_push:update]. *)
Definition border_push_update (push_id : Id) : M unit :=
  try_catch
    (borderPush <- BorderPush.findByPk push_id ;;
     match borderPush with
     | None => ret tt
     | Some borderPush =>
     if negb (BorderPush.is_active
                (border_pushes.status (dataValues borderPush)))
     then ret tt else
     borderPush <- BorderPush.updateProgress borderPush ;;
     r <- BorderPush.calculateCurrentProgress borderPush ;;
     let '(progress, borderPush) := r in
     timestamp <- new_Date ;;
     let updateData :=
       border_push_progress (border_pushes.id (dataValues borderPush))
         progress timestamp in
     emit (Some (border_pushes.source_country_id (dataValues borderPush)))
       updateData ;;
     emit (Some (border_pushes.target_country_id (dataValues borderPush)))
       updateData
     end)
    (fun _ => ret tt).

End socketHandler.

(** ** Specifications of computations *)

(** [returns c w Q]: run in [w], [c] returns normally, with a value and a
    final world that satisfy [Q]. *)
Definition returns {A : Type} (c : M A) (w : World)
  (Q : A -> World -> Prop) : Prop :=
  exists a w', c w = (Returned a, w') /\ Q a w'.

(** The final world of a run, whatever its outcome. *)
Definition final {A : Type} (c : M A) (w : World) : World := snd (c w).

(** Two worlds hold the same rows. *)
Definition same_tables (w w' : World) : Prop :=
  tbl_players w' = tbl_players w
  /\ tbl_countries w' = tbl_countries w
  /\ tbl_wars w' = tbl_wars w
  /\ tbl_border_pushes w' = tbl_border_pushes w.

(** [w'] is [w] after some reads of the clock and some emissions. *)
Definition same_setting (w w' : World) : Prop :=
  wall_clock w' = wall_clock w /\ process_env w' = process_env w.

(** [keeps R c]: whatever its outcome, a run of [c] leads from a world to
    one that [R] relates to it. *)
Definition keeps {A : Type} (R : World -> World -> Prop) (c : M A) : Prop :=
  forall w, R w (final c w).

(** [total c]: [c] returns normally from every world. *)
Definition total {A : Type} (c : M A) : Prop :=
  forall w, exists a w', c w = (Returned a, w').

(** A relation between worlds that runs can be followed along: it is a
    preorder, and reading the clock, drawing a UUID and emitting do not
    leave it. *)
Class Trail (R : World -> World -> Prop) : Prop := {
  trail_refl : forall w, R w w;
  trail_trans : forall w1 w2 w3, R w1 w2 -> R w2 w3 -> R w1 w3;
  trail_clock : forall n w, R w (with_clock_reads n w);
  trail_uuid : forall n w, R w (with_uuid_counter n w);
  trail_emitted : forall es w, R w (with_emitted es w)
}.

(** Between [w] and [w'] no row of a player, a war or a border push was
    written. *)
Definition besides_countries (w w' : World) : Prop :=
  tbl_players w' = tbl_players w
  /\ tbl_wars w' = tbl_wars w
  /\ tbl_border_pushes w' = tbl_border_pushes w.

(** Between [w] and [w'] no row of a border push was written. *)
Definition pushes_kept (w w' : World) : Prop :=
  tbl_border_pushes w' = tbl_border_pushes w.

(** [post c w Q]: the outcome and the final world of the run of [c] in [w]
    satisfy [Q]. *)
Definition post {A : Type} (c : M A) (w : World)
  (Q : Outcome A -> World -> Prop) : Prop :=
  Q (fst (c w)) (snd (c w)).

(** [upholds Inv c Good]: from a world where [Inv] holds, a run of [c]
    ends in a world where [Inv] holds, and what it returns is [Good]. *)
Definition upholds {A : Type} (Inv : World -> Prop) (c : M A)
  (Good : A -> Prop) : Prop :=
  forall w, Inv w ->
    post c w (fun o w' =>
      Inv w' /\ match o with Returned a => Good a | Threw _ => True end).

(** Seconds between a stored [last_update] and a clock reading. *)
Definition elapsed_seconds (now last_update : Z) : R :=
  (IZR (now - last_update) / 1000)%R.

(** The threshold of the periodic update, in meters. *)
Definition threshold : R := 10000%R.

(** ** The contracts the specification states *)

Module Spec.

(** [clamp(x, lo, hi)] *)
Definition clamp (x lo hi : R) : R :=
  if Rlt_dec x lo then lo else if Rlt_dec hi x then hi else x.

(** The speed formula:
    [clamp(1.0 * (push_strength / resistance_strength)
           * (1 / terrain_modifier), 0.1, 5.0)]. *)
Definition push_speed (push_strength resistance_strength terrain_modifier : R)
  : R :=
  clamp (1.0 * (push_strength / resistance_strength)
         * (1 / terrain_modifier))%R 0.1%R 5.0%R.

(** The interval a push speed stays in. *)
Definition speed_in_bounds (v : R) : Prop := (0.1 <= v <= 5.0)%R.

(** [candidate_distance = distance_pushed + push_speed * elapsed] *)
Definition candidate_distance (distance_pushed push_speed elapsed : R) : R :=
  (distance_pushed + push_speed * elapsed)%R.

(** The ledger's debit, for an entity whose balance [balance] reads and
    whose rows are [rows]: below the amount the debit fails and nothing
    changes; otherwise it succeeds and the balance, of the instance and of
    its stored rows, is the old one minus the amount; and a balance that
    was not negative is not negative afterwards. *)
Definition debit {A : Type} (balance : A -> Z) (key : A -> Id)
  (rows : World -> list A)
  (consume : Z -> Instance A -> M (bool * Instance A)) : Prop :=
  forall (amount : Z) (this : Instance A) (w : World),
    let before := balance (dataValues this) in
    (before < amount ->
     consume amount this w = (Returned (false, this), w))
    /\ (amount <= before ->
        returns (consume amount this) w (fun r w' =>
          fst r = true
          /\ balance (dataValues (snd r)) = before - amount
          /\ forall row, In row (rows w') ->
               key row = key (dataValues this) ->
               balance row = before - amount))
    /\ (0 <= before ->
        returns (consume amount this) w (fun r w' =>
          0 <= balance (dataValues (snd r))
          /\ forall row, In row (rows w') ->
               key row = key (dataValues this) ->
               In row (rows w) \/ 0 <= balance row)).

(** An award of the territory of the push [p'] between the worlds [w] and
    [w']: the counter territory_gained of its source country and the
    counter territory_lost of its target country have grown by at least
    the territory_gained of the push. *)
Definition awarded (w w' : World) (p' : border_pushes.t) : Prop :=
  (forall c, In c (tbl_countries w) ->
     countries.id c = border_pushes.source_country_id p' ->
     exists c', In c' (tbl_countries w')
       /\ countries.id c' = countries.id c
       /\ (countries.territory_gained c + border_pushes.territory_gained p'
           <= countries.territory_gained c')%R)
  /\ (forall c, In c (tbl_countries w) ->
        countries.id c = border_pushes.target_country_id p' ->
        exists c', In c' (tbl_countries w')
          /\ countries.id c' = countries.id c
          /\ (countries.territory_lost c + border_pushes.territory_gained p'
              <= countries.territory_lost c')%R).

(** The conflict tick between [w] and [w']: every active push has its
    candidate progress, taken at a clock reading of the tick, committed;
    beyond the threshold it is then successful and its territory is
    awarded, otherwise it remains active. *)
Definition conflict_tick (w w' : World) : Prop :=
  forall p, In p (tbl_border_pushes w) ->
    border_pushes.status p = border_pushes.active ->
    exists (n : nat) (p' : border_pushes.t),
      (clock_reads w <= n < clock_reads w')%nat
      /\ In p' (tbl_border_pushes w')
      /\ border_pushes.id p' = border_pushes.id p
      /\ border_pushes.distance_pushed p'
         = candidate_distance (border_pushes.distance_pushed p)
             (border_pushes.push_speed p)
             (elapsed_seconds (wall_clock w n) (border_pushes.last_update p))
      /\ ((threshold < border_pushes.distance_pushed p')%R ->
          border_pushes.status p' = border_pushes.successful
          /\ awarded w w' p')
      /\ (~ (threshold < border_pushes.distance_pushed p')%R ->
          border_pushes.status p' = border_pushes.active).

(** The order the specification gives to the start of a push: in the run
    from [w] to [w'], a write to the table of the border pushes comes only
    after a write to the table of the players, the debit. *)
Definition debit_before_creation (w w' : World) : Prop :=
  forall pre post,
    written w' = written w ++ pre ++ "border_pushes"%string :: post ->
    In "players"%string pre.

End Spec.

(** ** Auxiliary notions *)

(** The condition under which the update hooks of BorderPush act on the
    status: it changed, and is no longer [active]. *)
Definition hook_fires (this : Instance border_pushes.t) : bool :=
  BorderPush.changed_status this
  && negb (BorderPush.is_active (border_pushes.status (dataValues this))).

(** [p'] is [p] but for the three attributes the update hook stamps. *)
Definition stamps_only (p p' : border_pushes.t) : Prop :=
  exists ended_at duration_seconds last_update,
    p' = border_pushes.set_last_update last_update
           (border_pushes.set_duration_seconds duration_seconds
              (border_pushes.set_ended_at ended_at p)).

(** The candidate distance of a stored push at a clock reading. *)
Definition candidate (p : border_pushes.t) (now : Z) : R :=
  Spec.candidate_distance (border_pushes.distance_pushed p)
    (border_pushes.push_speed p)
    (elapsed_seconds now (border_pushes.last_update p)).

(** The row [updateProgress] stores for an active push whose three clock
    reads (candidate, [last_update], update hook) return [t0], [t1], [t2]. *)
Definition committed (p : border_pushes.t) (t0 t1 t2 : Z) : border_pushes.t :=
  border_pushes.set_last_update t2
    (border_pushes.set_territory_gained
       (Math_PI * (candidate p t0 / 1000) * (candidate p t0 / 1000))%R
       (border_pushes.set_last_update t1
          (border_pushes.set_distance_pushed (candidate p t0) p))).

(** The status [stopPush] gives for a reason. *)
Definition stop_status (reason : string) : border_pushes.Status :=
  if String.eqb reason "successful"
  then border_pushes.successful
  else border_pushes.cancelled.

(** The row [stopPush] stores for an active push when the clock has been
    read [n] times before: three reads commit the progress, one stamps
    [ended_at], two more are the update hook's. *)
Definition stopped (reason : string) (p : border_pushes.t)
  (clock : nat -> Z) (n : nat) : border_pushes.t :=
  let row := committed p (clock n) (clock (1 + n)%nat) (clock (2 + n)%nat) in
  border_pushes.set_last_update (clock (5 + n)%nat)
    (border_pushes.set_duration_seconds
       (floor_div (clock (4 + n)%nat - border_pushes.started_at row) 1000)
       (border_pushes.set_ended_at (Some (clock (4 + n)%nat))
          (border_pushes.set_ended_at (Some (clock (3 + n)%nat))
             (border_pushes.set_status (stop_status reason) row)))).

(** [War.increment('total_border_pushes', ...)] on the rows of a table. *)
Definition count_push (war_id : Id) (rows : list wars.t) : list wars.t :=
  update_where (fun r => same_id (wars.id r) war_id)
    (fun r => wars.set_total_border_pushes (wars.total_border_pushes r + 1) r)
    rows.

(** The rows of a table whose key is [k], replaced by [v]. *)
Definition put_row (k : Id) (v : border_pushes.t)
  (rows : list border_pushes.t) : list border_pushes.t :=
  update_where (fun r => same_id (border_pushes.id r) k) (fun _ => v) rows.

(** What the query reports for an active stored push at a clock reading. *)
Definition report (p : border_pushes.t) (now : Z) : Progress :=
  {| distance := candidate p now;
     territory := border_pushes.territory_gained p;
     isActive := true |}.

(** The two notifications of a push left active, and the two of a push
    completed, as the periodic update emits them. *)
Definition progress_events (p : border_pushes.t) (t0 t1 : Z) : list Emit :=
  [ mkEmit (Some (border_pushes.source_country_id p))
      (border_push_progress (border_pushes.id p) (report p t0) t1);
    mkEmit (Some (border_pushes.target_country_id p))
      (border_push_progress (border_pushes.id p) (report p t0) t1) ].

Definition completion_events (p : border_pushes.t) : list Emit :=
  [ mkEmit (Some (border_pushes.source_country_id p))
      (border_push_completed (border_pushes.id p)
         (border_pushes.territory_gained p));
    mkEmit (Some (border_pushes.target_country_id p))
      (border_push_lost (border_pushes.id p)
         (border_pushes.territory_gained p)) ].

(** The primary key of an instance of BorderPush. *)
Definition push_key (i : Instance border_pushes.t) : Id :=
  border_pushes.id (dataValues i).

(** An emission of the periodic update about the push [p]: its push_id is
    that of [p] and the territory it carries is the territory_gained [p]
    holds. *)
Definition reports_stored_territory (p : border_pushes.t) (e : Emit) : Prop :=
  match payload e with
  | border_push_completed push_id territory_gained =>
      push_id = border_pushes.id p
      /\ territory_gained = border_pushes.territory_gained p
  | border_push_lost push_id territory_lost =>
      push_id = border_pushes.id p
      /\ territory_lost = border_pushes.territory_gained p
  | border_push_progress push_id progress _ =>
      push_id = border_pushes.id p
      /\ territory progress = border_pushes.territory_gained p
  | _ => False
  end.

(** The cost of a border push. *)
Definition resourceCost : Z := 10.

(** The active war the route of a new push finds for a player and a
    target. *)
Definition push_war (player : Instance players.t) (target : Id) (w : World)
  : option wars.t :=
  find (fun r =>
          opt_is (players.country_id (dataValues player))
            (wars.aggressor_country_id r)
          && same_id (wars.defender_country_id r) target
          && War.is_active (wars.status r)) (tbl_wars w).

(** The latest push the player started. *)
Definition last_push (player : Instance players.t) (w : World)
  : option border_pushes.t :=
  latest border_pushes.started_at
    (filter (fun r => same_id (border_pushes.player_id r)
                        (players.id (dataValues player)))
       (tbl_border_pushes w)).

(** The checks of the route of a new push that come before the check of
    the balance: an active war of the player's country against the target
    exists, the player's latest push if any is not active, and its start
    is at least the cooldown before the next clock reading. *)
Definition push_allowed (player : Instance players.t) (target : Id)
  (w : World) : Prop :=
  push_war player target w <> None
  /\ match last_push player w with
     | None => True
     | Some lastPush =>
         border_pushes.status lastPush <> border_pushes.active
         /\ parseInt_or (BORDER_PUSH_COOLDOWN_MS (process_env w)) 5000
            <= wall_clock w (clock_reads w)
               - border_pushes.started_at lastPush
     end.

(** Between [w] and [w'] no INSERT and no UPDATE was issued. *)
Definition nothing_written (w w' : World) : Prop :=
  written w' = written w
  /\ tbl_players w' = tbl_players w
  /\ tbl_countries w' = tbl_countries w
  /\ tbl_wars w' = tbl_wars w
  /\ tbl_border_pushes w' = tbl_border_pushes w.

(** The active wars between two countries, in either direction. *)
Definition active_wars_between (a b : Id) (rows : list wars.t) : list wars.t :=
  filter (War.active_between a b) rows.

(** At most one active war for every unordered pair of countries. *)
Definition at_most_one_active_war (w : World) : Prop :=
  forall a b : Id, (List.length (active_wars_between a b (tbl_wars w)) <= 1)%nat.

(** Between [w] and [w'] no pair of countries gained an active war. *)
Definition wars_settle (w w' : World) : Prop :=
  forall a b : Id,
    (List.length (active_wars_between a b (tbl_wars w'))
     <= List.length (active_wars_between a b (tbl_wars w)))%nat.

(** What the server is asked to do: the requests of the game routes, each
    with the authenticated player, the message [border_push:update], and
    a run of the periodic update. *)
Inductive Request : Type :=
| post_declare_war (player : Instance players.t) (target_country_id : Id)
| post_end_war (player : Instance players.t) (id : Id)
| post_border_push (player : Instance players.t) (target_country_id : Id)
| post_border_push_join (player : Instance players.t) (id : Id)
| post_border_push_defend (player : Instance players.t) (id : Id)
| on_border_push_update (push_id : Id)
| periodic_update.

(** The world after the server has handled a request. *)
Definition handle (r : Request) (w : World) : World :=
  match r with
  | post_declare_war player target => final (game.declare_war player target) w
  | post_end_war player id => final (game.end_war player id) w
  | post_border_push player target => final (game.border_push player target) w
  | post_border_push_join player id =>
      final (game.border_push_join player id) w
  | post_border_push_defend player id =>
      final (game.border_push_defend player id) w
  | on_border_push_update push_id =>
      final (socketHandler.border_push_update push_id) w
  | periodic_update => final socketHandler.border_push_tick w
  end.

(** The worlds the server reaches from one without wars and without
    border pushes, one request after the other. *)
Inductive reachable : World -> Prop :=
| reachable_start (w : World) :
    tbl_wars w = [] -> tbl_border_pushes w = [] -> reachable w
| reachable_handle (r : Request) (w : World) :
    reachable w -> reachable (handle r w).

(** The checks of the route that declares a war which come before the
    check for an existing war: the player has a country [source] and owns
    it, and the target [target] exists, is claimed and is another
    country. *)
Definition may_declare (player : Instance players.t) (target_country_id : Id)
  (w : World) (source target : countries.t) : Prop :=
  (exists c, players.country_id (dataValues player) = Some c
             /\ find (fun r => same_id (countries.id r) c) (tbl_countries w)
                = Some source)
  /\ countries.owner_id source = Some (players.id (dataValues player))
  /\ find (fun r => same_id (countries.id r) target_country_id)
       (tbl_countries w) = Some target
  /\ countries.is_claimed target = true
  /\ countries.id source <> countries.id target.

(** Every stored border push has its speed within the bounds. *)
Definition speeds_in_bounds (w : World) : Prop :=
  Forall (fun r => Spec.speed_in_bounds (border_pushes.push_speed r))
    (tbl_border_pushes w).

(** The same of the current values of an instance. *)
Definition speed_ok (i : Instance border_pushes.t) : Prop :=
  Spec.speed_in_bounds (border_pushes.push_speed (dataValues i)).

(** ** Sample data *)

Module Sample.

Definition env : Env :=
  {| WAR_DECLARATION_COOLDOWN_MS := None; BORDER_PUSH_COOLDOWN_MS := None |}.

Definition alice : players.t :=
  {| players.id := 1%nat; players.country_id := Some 10%nat;
     players.resources := 100; players.wars_declared := 0 |}.

Definition bob : players.t :=
  {| players.id := 2%nat; players.country_id := Some 20%nat;
     players.resources := 5; players.wars_declared := 0 |}.

Definition country (id owner : Id) : countries.t :=
  {| countries.id := id; countries.is_claimed := true;
     countries.owner_id := Some owner; countries.resources := 1000;
     countries.resource_generation_rate := 1%R;
     countries.terrain_modifier := 1%R; countries.is_at_war := false;
     countries.active_wars := 0; countries.wars_won := 0;
     countries.wars_lost := 0; countries.territory_lost := 0%R;
     countries.territory_gained := 0%R |}.

(** A world with two players, their two countries, no war and no push;
    the clock advances by five seconds at every read. *)
Definition peace : World :=
  {| tbl_players := [alice; bob];
     tbl_countries := [country 10%nat 1%nat; country 20%nat 2%nat];
     tbl_wars := [];
     tbl_border_pushes := [];
     emitted := [];
     wall_clock := fun n => 5000 * Z.of_nat n;
     clock_reads := 100%nat;
     uuid_counter := 1000%nat;
     process_env := env;
     written := [] |}.

Definition push (id : Id) (distance_pushed : R) : border_pushes.t :=
  {| border_pushes.id := id;
     border_pushes.war_id := 500%nat;
     border_pushes.player_id := 1%nat;
     border_pushes.source_country_id := 10%nat;
     border_pushes.target_country_id := 20%nat;
     border_pushes.started_at := 0;
     border_pushes.ended_at := None;
     border_pushes.status := border_pushes.active;
     border_pushes.push_strength := 1%R;
     border_pushes.resistance_strength := 1%R;
     border_pushes.terrain_modifier := 1%R;
     border_pushes.distance_pushed := distance_pushed;
     border_pushes.territory_gained := 0%R;
     border_pushes.resources_consumed := 10;
     border_pushes.supporting_soldiers := 1;
     border_pushes.defending_soldiers := 0;
     border_pushes.duration_seconds := 0;
     border_pushes.push_speed := 1%R;
     border_pushes.last_update := 495000 |}.

Definition war : wars.t :=
  {| wars.id := 500%nat;
     wars.aggressor_country_id := 10%nat;
     wars.defender_country_id := 20%nat;
     wars.declared_by := 1%nat;
     wars.declared_at := 0;
     wars.status := wars.active;
     wars.ended_at := None;
     wars.ended_by := None;
     wars.winner_country_id := None;
     wars.duration_minutes := 0;
     wars.total_border_pushes := 0 |}.

(** The same world at war, with two active pushes of country 10 against
    country 20, last updated five seconds before the next clock read: one
    has pushed 100 m, the other 9999 m. *)
Definition front : World :=
  {| tbl_players := [alice; bob];
     tbl_countries := [country 10%nat 1%nat; country 20%nat 2%nat];
     tbl_wars := [war];
     tbl_border_pushes := [push 7%nat 100%R; push 8%nat 9999%R];
     emitted := [];
     wall_clock := fun n => 5000 * Z.of_nat n;
     clock_reads := 100%nat;
     uuid_counter := 1000%nat;
     process_env := env;
     written := [] |}.

(** The world [front] after one run of the periodic update. *)
Definition front_after : World :=
  {| tbl_players := [alice; bob];
     tbl_countries := [country 10%nat 1%nat; country 20%nat 2%nat];
     tbl_wars := [wars.set_total_border_pushes 1 war];
     tbl_border_pushes :=
       [push 7%nat 100%R;
        stopped "successful" (push 8%nat 9999%R) (wall_clock front) 103%nat];
     emitted :=
       progress_events (push 7%nat 100%R) 500000 505000
       ++ completion_events (push 8%nat 9999%R);
     wall_clock := fun n => 5000 * Z.of_nat n;
     clock_reads := 109%nat;
     uuid_counter := 1000%nat;
     process_env := env;
     written := ["border_pushes"; "border_pushes"; "wars"]%string |}.

(** The world [peace] once country 10 is at war with country 20, with no
    push yet. *)
Definition at_war : World :=
  {| tbl_players := [alice; bob];
     tbl_countries := [country 10%nat 1%nat; country 20%nat 2%nat];
     tbl_wars := [war];
     tbl_border_pushes := [];
     emitted := [];
     wall_clock := fun n => 5000 * Z.of_nat n;
     clock_reads := 100%nat;
     uuid_counter := 1000%nat;
     process_env := env;
     written := [] |}.

(** The push the route stores when [alice] starts one in the world that
    her declaration of war on country 20 leaves. *)
Definition first_push : border_pushes.t :=
  BorderPush.beforeCreate
    {| border_pushes.id := 1001%nat;
       border_pushes.war_id := 1000%nat;
       border_pushes.player_id := 1%nat;
       border_pushes.source_country_id := 10%nat;
       border_pushes.target_country_id := 20%nat;
       border_pushes.started_at := 505000;
       border_pushes.ended_at := None;
       border_pushes.status := border_pushes.active;
       border_pushes.push_strength := 1.0%R;
       border_pushes.resistance_strength := 1.0%R;
       border_pushes.terrain_modifier := 1.0%R;
       border_pushes.distance_pushed := 0%R;
       border_pushes.territory_gained := 0%R;
       border_pushes.resources_consumed := 10;
       border_pushes.supporting_soldiers := 1;
       border_pushes.defending_soldiers := 0;
       border_pushes.duration_seconds := 0;
       border_pushes.push_speed := 1.0%R;
       border_pushes.last_update := 510000 |}.

(** The world [peace] after [alice] has declared war on country 20, and
    the world after she has then started a push. *)
Definition declared : World :=
  handle (post_declare_war (build alice) 20%nat) peace.

Definition campaign : World :=
  handle (post_border_push (build alice) 20%nat) declared.

End Sample.

(** * Further notions

    What the routes decide on, and the course of the server from any
    world. *)

(** The worlds the server reaches from [w0], one request after the
    other. *)
Inductive reaches (w0 : World) : World -> Prop :=
| reaches_start : reaches w0 w0
| reaches_handle (r : Request) (w : World) :
    reaches w0 w -> reaches w0 (handle r w).

(** The war of the route that ends one is stored, active, and declared by
    the player. *)
Definition may_end (player : Instance players.t) (id : Id) (w : World)
  : Prop :=
  exists row,
    find (fun r => same_id (wars.id r) id) (tbl_wars w) = Some row
    /\ wars.status row = wars.active
    /\ wars.declared_by row = players.id (dataValues player).

(** The latest war the player declared. *)
Definition last_war (player : Instance players.t) (w : World)
  : option wars.t :=
  latest wars.declared_at
    (filter (fun r => same_id (wars.declared_by r)
                        (players.id (dataValues player))) (tbl_wars w)).

(** The checks of the route that declares a war all pass: the earlier
    ones, no active war between the two countries, and the cooldown since
    the player's latest declaration. *)
Definition declaration_allowed (player : Instance players.t)
  (target_country_id : Id) (w : World) : Prop :=
  exists source target,
    may_declare player target_country_id w source target
    /\ find (War.active_between (countries.id source) (countries.id target))
         (tbl_wars w) = None
    /\ match last_war player w with
       | None => True
       | Some lastWar =>
           parseInt_or (WAR_DECLARATION_COOLDOWN_MS (process_env w)) 300000
           <= wall_clock w (clock_reads w) - wars.declared_at lastWar
       end.

(** ** The life of a stored border push *)

(** The row [addSupportingSoldier] stores for a push whose update hook
    reads [t] from the clock. *)
Definition joined (p : border_pushes.t) (t : Z) : border_pushes.t :=
  let p :=
    border_pushes.set_supporting_soldiers
      (border_pushes.supporting_soldiers p + 1) p in
  let p :=
    border_pushes.set_push_strength
      (1.0 * Math_sqrt (IZR (border_pushes.supporting_soldiers p)))%R p in
  let p :=
    border_pushes.set_push_speed
      (Math_max 0.1
         (Math_min 5.0
            (1.0
             * (border_pushes.push_strength p
                / border_pushes.resistance_strength p)
             * (1 / border_pushes.terrain_modifier p))%R)) p in
  border_pushes.set_last_update t p.

(** The row [addDefendingSoldier] stores for a push whose update hook
    reads [t] from the clock. *)
Definition defended (p : border_pushes.t) (t : Z) : border_pushes.t :=
  let p :=
    border_pushes.set_defending_soldiers
      (border_pushes.defending_soldiers p + 1) p in
  let p :=
    border_pushes.set_resistance_strength
      (1.0 * Math_sqrt (IZR (border_pushes.defending_soldiers p)))%R p in
  let p :=
    border_pushes.set_push_speed
      (Math_max 0.1
         (Math_min 5.0
            (1.0
             * (border_pushes.push_strength p
                / border_pushes.resistance_strength p)
             * (1 / border_pushes.terrain_modifier p))%R)) p in
  border_pushes.set_last_update t p.

(** The row the route that starts a push inserts. *)
Definition launched (id war_id player_id source target : Id)
  (started_at last_update : Z) : border_pushes.t :=
  BorderPush.beforeCreate
    {| border_pushes.id := id;
       border_pushes.war_id := war_id;
       border_pushes.player_id := player_id;
       border_pushes.source_country_id := source;
       border_pushes.target_country_id := target;
       border_pushes.started_at := started_at;
       border_pushes.ended_at := None;
       border_pushes.status := border_pushes.active;
       border_pushes.push_strength := 1.0%R;
       border_pushes.resistance_strength := 1.0%R;
       border_pushes.terrain_modifier := 1.0%R;
       border_pushes.distance_pushed := 0%R;
       border_pushes.territory_gained := 0%R;
       border_pushes.resources_consumed := resourceCost;
       border_pushes.supporting_soldiers := 1;
       border_pushes.defending_soldiers := 0;
       border_pushes.duration_seconds := 0;
       border_pushes.push_speed := 1.0%R;
       border_pushes.last_update := last_update |}.

(** What the requests do to a stored push, one after the other, under the
    wall clock [clock]: only an active push is written, by a commit of its
    progress ([border_push:update]), by the stop of the periodic update
    once its candidate distance has passed the threshold, by a join, by a
    defend, or by the bulk cancellation of the route that ends a war. *)
Inductive push_life (clock : nat -> Z)
  : border_pushes.t -> border_pushes.t -> Prop :=
| push_stays (p : border_pushes.t) : push_life clock p p
| push_then (p1 p2 p3 : border_pushes.t) :
    push_life clock p1 p2 -> push_life clock p2 p3 -> push_life clock p1 p3
| push_commits (p : border_pushes.t) (n : nat) :
    border_pushes.status p = border_pushes.active ->
    push_life clock p
      (committed p (clock n) (clock (S n)) (clock (S (S n))))
| push_stops (p : border_pushes.t) (n : nat) :
    border_pushes.status p = border_pushes.active ->
    (threshold < candidate p (clock n))%R ->
    push_life clock p (stopped "successful" p clock (S n))
| push_joins (p : border_pushes.t) (n : nat) :
    border_pushes.status p = border_pushes.active ->
    push_life clock p (joined p (clock n))
| push_defends (p : border_pushes.t) (n : nat) :
    border_pushes.status p = border_pushes.active ->
    push_life clock p (defended p (clock n))
| push_cancels (p : border_pushes.t) :
    border_pushes.status p = border_pushes.active ->
    push_life clock p (border_pushes.set_status border_pushes.cancelled p).

(** The keys of the stored pushes are distinct and were drawn from the
    counter. *)
Definition push_ids_fresh (w : World) : Prop :=
  NoDup (map border_pushes.id (tbl_border_pushes w))
  /\ Forall (fun r => (border_pushes.id r < uuid_counter w)%nat)
       (tbl_border_pushes w).

(** From [w] to [w'] every stored push has gone along its life, and the
    pushes added were launched with keys drawn from the counter. *)
Definition pushes_move (w w' : World) : Prop :=
  (uuid_counter w <= uuid_counter w')%nat
  /\ wall_clock w' = wall_clock w
  /\ exists rows' new,
       tbl_border_pushes w' = rows' ++ new
       /\ Forall2 (push_life (wall_clock w)) (tbl_border_pushes w) rows'
       /\ Forall (fun r =>
            exists war_id player_id source target started_at last_update,
              r = launched (border_pushes.id r) war_id player_id source
                    target started_at last_update
              /\ (uuid_counter w <= border_pushes.id r < uuid_counter w')%nat)
            new
       /\ NoDup (map border_pushes.id new).

(** [p'] is the push [p] at a later time: the attributes that identify a
    push and those fixed at its launch are the same, and no soldier has
    left. *)
Definition same_push (p p' : border_pushes.t) : Prop :=
  border_pushes.id p' = border_pushes.id p
  /\ border_pushes.war_id p' = border_pushes.war_id p
  /\ border_pushes.player_id p' = border_pushes.player_id p
  /\ border_pushes.source_country_id p' = border_pushes.source_country_id p
  /\ border_pushes.target_country_id p' = border_pushes.target_country_id p
  /\ border_pushes.started_at p' = border_pushes.started_at p
  /\ border_pushes.terrain_modifier p' = border_pushes.terrain_modifier p
  /\ border_pushes.resources_consumed p' = border_pushes.resources_consumed p
  /\ border_pushes.supporting_soldiers p
     <= border_pushes.supporting_soldiers p'
  /\ border_pushes.defending_soldiers p
     <= border_pushes.defending_soldiers p'.

(** The strengths and the speed of a push are those its soldier counts
    give: the strength is the root of the supporters, of which there is at
    least one, the resistance the root of the defenders once there is one
    and 1 before, the terrain modifier is 1, and the speed is the bounded
    quotient. *)
Definition coherent (p : border_pushes.t) : Prop :=
  1 <= border_pushes.supporting_soldiers p
  /\ 0 <= border_pushes.defending_soldiers p
  /\ border_pushes.push_strength p
     = sqrt (IZR (border_pushes.supporting_soldiers p))
  /\ border_pushes.resistance_strength p
     = (if border_pushes.defending_soldiers p =? 0 then 1%R
        else sqrt (IZR (border_pushes.defending_soldiers p)))
  /\ border_pushes.terrain_modifier p = 1%R
  /\ border_pushes.push_speed p
     = Rmax 0.1
         (Rmin 5.0
            (border_pushes.push_strength p
             / border_pushes.resistance_strength p)).

(** Every push stored as successful has gone beyond the threshold, and
    the speed of every stored push is within its bounds. *)
Definition won_beyond_threshold (p : border_pushes.t) : Prop :=
  Spec.speed_in_bounds (border_pushes.push_speed p)
  /\ (border_pushes.status p = border_pushes.successful ->
      (threshold < border_pushes.distance_pushed p)%R).

(** The wall clock never runs backwards. *)
Definition clock_monotone (clock : nat -> Z) : Prop :=
  forall n, clock n <= clock (S n).

(** ** Wars and the war ledger of the countries *)

(** [War.prototype.getDuration]: minutes from the declaration to the end
    of the war, or to now while it has none. *)
Definition War_getDuration (this : Instance wars.t) : M Z :=
  endTime <-
    match wars.ended_at (dataValues this) with
    | Some ended_at => ret ended_at
    | None => new_Date
    end ;;
  let startTime := wars.declared_at (dataValues this) in
  ret (floor_div (endTime - startTime) (1000 * 60)).

(** The row [War.create] inserts. *)
Definition declared_war (id aggressor defender declared_by : Id)
  (declared_at : Z) : wars.t :=
  {| wars.id := id;
     wars.aggressor_country_id := aggressor;
     wars.defender_country_id := defender;
     wars.declared_by := declared_by;
     wars.declared_at := declared_at;
     wars.status := wars.active;
     wars.ended_at := None;
     wars.ended_by := None;
     wars.winner_country_id := None;
     wars.duration_minutes := 0;
     wars.total_border_pushes := 0 |}.

(** The row the route that ends a war stores for the war [r], when
    [endWar] reads [t0] from the clock and the update hook [t1]. *)
Definition ended_war (r : wars.t) (endedBy : Id) (t0 t1 : Z) : wars.t :=
  let r := wars.set_status wars.ended r in
  let r := wars.set_ended_by (Some endedBy) r in
  let r := wars.set_winner_country_id None r in
  let r := wars.set_ended_at (Some t0) r in
  let r := wars.set_ended_at (Some t1) r in
  wars.set_duration_minutes
    (floor_div (t1 - wars.declared_at r) (1000 * 60)) r.

(** What the creation hook of a war does to a country of the war, and
    what the update hook does to it first. *)
Definition raised (c : countries.t) : countries.t :=
  countries.set_active_wars (countries.active_wars c + 1)
    (countries.set_is_at_war true c).

Definition lowered (c : countries.t) : countries.t :=
  countries.set_active_wars (Z.max (countries.active_wars c - 1) 0) c.

(** The second step of the update hook for the country [cid]: loaded by
    its key, it is stored as no longer at war when its count has come down
    to zero. *)
Definition settled (cid : Id) (rows : list countries.t) : list countries.t :=
  match find (fun r => same_id (countries.id r) cid) rows with
  | Some c =>
      if countries.active_wars c <=? 0 then
        update_where (fun r => same_id (countries.id r) (countries.id c))
          (fun _ => countries.set_active_wars 0
                      (countries.set_is_at_war false c)) rows
      else rows
  | None => rows
  end.

(** The countries of a war. *)
Definition war_countries (r : wars.t) : list Id :=
  [wars.aggressor_country_id r; wars.defender_country_id r].

Definition of_war (r : wars.t) (c : countries.t) : bool :=
  existsb (same_id (countries.id c)) (war_countries r).

(** [r'] is the war [r] with some more pushes counted. *)
Definition counted_war (r r' : wars.t) : Prop :=
  exists k, 0 <= k
    /\ r' = wars.set_total_border_pushes (wars.total_border_pushes r + k) r.

(** Between [w] and [w'] no country was written, and the wars only had
    pushes counted. *)
Definition wars_quiet (w w' : World) : Prop :=
  tbl_countries w' = tbl_countries w
  /\ Forall2 counted_war (tbl_wars w) (tbl_wars w').

(** What a request does to the wars and to the countries: it leaves the
    countries alone and at most counts pushes on wars; or it appends a war
    between two different countries, not at war with each other, and raises
    their counts; or it ends an active war, in the name of the player who
    declared it, and lowers and settles the counts of its countries. *)
Inductive war_step (w w' : World) : Prop :=
| step_quiet : wars_quiet w w' -> war_step w w'
| step_declared (war : wars.t) :
    war = declared_war (uuid_counter w) (wars.aggressor_country_id war)
            (wars.defender_country_id war) (wars.declared_by war)
            (wars.declared_at war) ->
    wars.aggressor_country_id war <> wars.defender_country_id war ->
    find (War.active_between (wars.aggressor_country_id war)
            (wars.defender_country_id war)) (tbl_wars w) = None ->
    uuid_counter w' = S (uuid_counter w) ->
    tbl_wars w' = tbl_wars w ++ [war] ->
    tbl_countries w' = update_where (of_war war) raised (tbl_countries w) ->
    war_step w w'
| step_ended (war : wars.t) (n : nat) :
    find (fun r => same_id (wars.id r) (wars.id war)) (tbl_wars w)
    = Some war ->
    wars.status war = wars.active ->
    tbl_wars w'
    = update_where (fun r => same_id (wars.id r) (wars.id war))
        (fun _ => ended_war war (wars.declared_by war) (wall_clock w n)
                    (wall_clock w (S n))) (tbl_wars w) ->
    tbl_countries w'
    = settled (wars.defender_country_id war)
        (settled (wars.aggressor_country_id war)
           (update_where (of_war war) lowered (tbl_countries w))) ->
    war_step w w'.

(** The keys of the stored wars are distinct and were drawn from the
    counter, the keys of the countries are distinct. *)
Definition war_ids_fresh (w : World) : Prop :=
  NoDup (map wars.id (tbl_wars w))
  /\ Forall (fun r => (wars.id r < uuid_counter w)%nat) (tbl_wars w)
  /\ NoDup (map countries.id (tbl_countries w)).

(** The active wars a country takes part in. *)
Definition takes_part (cid : Id) (r : wars.t) : bool :=
  (same_id (wars.aggressor_country_id r) cid
   || same_id (wars.defender_country_id r) cid)
  && War.is_active (wars.status r).

Definition active_wars_of (cid : Id) (rows : list wars.t) : Z :=
  Z.of_nat (List.length (filter (takes_part cid) rows)).

(** The war ledger of a country agrees with the stored wars: its count is
    the number of active wars it takes part in, and it is flagged at war
    exactly when that number is positive. *)
Definition ledger_agrees (rows : list wars.t) (c : countries.t) : Prop :=
  countries.active_wars c = active_wars_of (countries.id c) rows
  /\ countries.is_at_war c = (0 <? countries.active_wars c).

Definition war_ledger_agrees (w : World) : Prop :=
  Forall (ledger_agrees (tbl_wars w)) (tbl_countries w).

(** What a stored war records of its end: an active war nothing, an ended
    war the player who declared it as the one who ended it, no winner, the
    date, and the whole minutes since the declaration. *)
Definition end_recorded (r : wars.t) : Prop :=
  match wars.status r with
  | wars.active => wars.ended_at r = None /\ wars.ended_by r = None
  | wars.ended =>
      wars.ended_by r = Some (wars.declared_by r)
      /\ wars.winner_country_id r = None
      /\ exists t, wars.ended_at r = Some t
           /\ wars.duration_minutes r
              = floor_div (t - wars.declared_at r) (1000 * 60)
  | wars.ceasefire => False
  end.

(** ** More sample data *)

Module Story.

(** The sample world after [alice] has declared war on country 20 and
    then ended it. *)
Definition truce : World :=
  handle (post_end_war (build Sample.alice) 1000%nat) Sample.declared.

(** The war stored in that world. *)
Definition war_over : wars.t :=
  {| wars.id := 1000%nat;
     wars.aggressor_country_id := 10%nat;
     wars.defender_country_id := 20%nat;
     wars.declared_by := 1%nat;
     wars.declared_at := 500000;
     wars.status := wars.ended;
     wars.ended_at := Some 510000;
     wars.ended_by := Some 1%nat;
     wars.winner_country_id := None;
     wars.duration_minutes := 0;
     wars.total_border_pushes := 0 |}.

End Story.

(** ** The pushes counted on a war *)

(** Between [w] and [w'] no war was written. *)
Definition wars_kept (w w' : World) : Prop := tbl_wars w' = tbl_wars w.

(** The pushes of a war that are stored as successful. *)
Definition won_for (war_id : Id) (p : border_pushes.t) : bool :=
  same_id (border_pushes.war_id p) war_id
  && border_pushes.status_eqb (border_pushes.status p)
       border_pushes.successful.

Definition won_pushes (war_id : Id) (rows : list border_pushes.t) : Z :=
  Z.of_nat (List.length (filter (won_for war_id) rows)).

(** The counter [total_border_pushes] of every stored war is the number
    of its pushes stored as successful. *)
Definition pushes_counted (w : World) : Prop :=
  Forall (fun r => wars.total_border_pushes r
                   = won_pushes (wars.id r) (tbl_border_pushes w))
    (tbl_wars w).

(** The keys of the stored pushes and wars, and the wars the pushes refer
    to, were drawn from the counter, and the keys of the pushes are
    distinct. *)
Definition keys_drawn (w : World) : Prop :=
  push_ids_fresh w
  /\ Forall (fun p => (border_pushes.war_id p < uuid_counter w)%nat)
       (tbl_border_pushes w)
  /\ Forall (fun r => (wars.id r < uuid_counter w)%nat) (tbl_wars w).

(** ** One front for each player *)

(** Of two stored pushes of one player the earlier one is over, and was
    started before the later one. *)
Definition later_push (p q : border_pushes.t) : Prop :=
  border_pushes.player_id p = border_pushes.player_id q ->
  border_pushes.status p <> border_pushes.active
  /\ border_pushes.started_at p < border_pushes.started_at q.

Definition one_front (w : World) : Prop :=
  ForallOrdPairs later_push (tbl_border_pushes w).

(** The cooldown between two pushes of a player, as the route reads it
    from the environment, is positive. *)
Definition cooldown_positive (w : World) : Prop :=
  0 < parseInt_or (BORDER_PUSH_COOLDOWN_MS (process_env w)) 5000.

(** * Membership, movement and connections

    The second part embeds what the first leaves aside: the middleware
    ([authenticateToken], [requireCountryOwner], [checkMovementCooldown],
    [validateCoordinates]), the routes that move a player, join and leave
    a country, change its settings and log out, the models
    [PlayerMovement] and [CountryHistory], the connection handling of the
    socket handler and its timers for resources and statistics.  It has a
    store of its own, with the columns these handlers read and write.

    Conventions, beyond those of the first part.
    - [save] and [update] write columns, not rows: [save] the columns
      whose value differs from the one at the load or the last save of the
      instance, [update] the columns it is given, both together with what
      the update hook changed; an instance without a changed column issues
      no statement.  [increment] and [decrement] act on the stored value.
    - An instance is an object of the process: the one a socket holds
      ([socket.player]) is loaded at the handshake and lives as long as
      the connection, whatever is written to its row meanwhile.
    - A request carries the player id of its token, which is taken to
      verify; path parameters are ids.  The coordinates of a request
      body are JSON values, which [validateCoordinates] parses with
      [parseFloat]; those of a socket message are numbers or absent, a
      movement type is a string or absent.
    - [username], [display_name] and the other columns no handler here
      depends on are left out of rows and payloads, as are the timestamp
      columns Sequelize maintains.
    - A column of type ENUM holds one of its values; a statement that
      would store another one fails.
    - A promise that is not awaited runs once the handler that made it has
      returned. *)

Module Realm.

(** [{ type: 'Point', coordinates: [lng, lat] }], by its coordinates. *)
Definition Point : Type := (R * R)%type.

(** [_.isEqual], by which Sequelize tells whether a value changed. *)
Class IsEqual (T : Type) : Type := isEqual : T -> T -> bool.

#[global] Instance isEqual_Z : IsEqual Z := Z.eqb.

#[global] Instance isEqual_Id : IsEqual Id := Nat.eqb.

#[global] Instance isEqual_bool : IsEqual bool := Bool.eqb.

#[global] Instance isEqual_string : IsEqual string := String.eqb.

#[global] Instance isEqual_R : IsEqual R :=
  fun a b => if Req_dec_T a b then true else false.

#[global] Instance isEqual_option {T : Type} `{IsEqual T}
  : IsEqual (option T) :=
  fun a b =>
    match a, b with
    | Some x, Some y => isEqual x y
    | None, None => true
    | _, _ => false
    end.

#[global] Instance isEqual_Point : IsEqual Point :=
  fun a b => isEqual (fst a) (fst b) && isEqual (snd a) (snd b).

(** Comparisons of numbers. *)
Definition Rltb (a b : R) : bool := if Rlt_dec a b then true else false.

(** [Math.floor], [Math.ceil]. *)
Definition Math_floor (x : R) : Z := Int_part x.
Definition Math_ceil (x : R) : Z := - Int_part (- x).

(** ** Rows *)

Module players.

Record t : Type := mk {
  id : Id;
  country_id : option Id;
  current_position : option Point;
  last_movement : option Z;
  resources : Z;
  countries_owned : Z;
  is_online : bool;
  last_active : Z;
  is_banned : bool;
  ban_reason : option string;
  ban_expires : option Z
}.

Definition set_country_id (v : option Id) (r : t) : t :=
  {| id := id r; country_id := v; current_position := current_position r;
     last_movement := last_movement r; resources := resources r;
     countries_owned := countries_owned r; is_online := is_online r;
     last_active := last_active r; is_banned := is_banned r;
     ban_reason := ban_reason r; ban_expires := ban_expires r |}.

Definition set_current_position (v : option Point) (r : t) : t :=
  {| id := id r; country_id := country_id r; current_position := v;
     last_movement := last_movement r; resources := resources r;
     countries_owned := countries_owned r; is_online := is_online r;
     last_active := last_active r; is_banned := is_banned r;
     ban_reason := ban_reason r; ban_expires := ban_expires r |}.

Definition set_last_movement (v : option Z) (r : t) : t :=
  {| id := id r; country_id := country_id r;
     current_position := current_position r; last_movement := v;
     resources := resources r; countries_owned := countries_owned r;
     is_online := is_online r; last_active := last_active r;
     is_banned := is_banned r; ban_reason := ban_reason r;
     ban_expires := ban_expires r |}.

Definition set_resources (v : Z) (r : t) : t :=
  {| id := id r; country_id := country_id r;
     current_position := current_position r;
     last_movement := last_movement r; resources := v;
     countries_owned := countries_owned r; is_online := is_online r;
     last_active := last_active r; is_banned := is_banned r;
     ban_reason := ban_reason r; ban_expires := ban_expires r |}.

Definition set_countries_owned (v : Z) (r : t) : t :=
  {| id := id r; country_id := country_id r;
     current_position := current_position r;
     last_movement := last_movement r; resources := resources r;
     countries_owned := v; is_online := is_online r;
     last_active := last_active r; is_banned := is_banned r;
     ban_reason := ban_reason r; ban_expires := ban_expires r |}.

Definition set_is_online (v : bool) (r : t) : t :=
  {| id := id r; country_id := country_id r;
     current_position := current_position r;
     last_movement := last_movement r; resources := resources r;
     countries_owned := countries_owned r; is_online := v;
     last_active := last_active r; is_banned := is_banned r;
     ban_reason := ban_reason r; ban_expires := ban_expires r |}.

Definition set_last_active (v : Z) (r : t) : t :=
  {| id := id r; country_id := country_id r;
     current_position := current_position r;
     last_movement := last_movement r; resources := resources r;
     countries_owned := countries_owned r; is_online := is_online r;
     last_active := v; is_banned := is_banned r; ban_reason := ban_reason r;
     ban_expires := ban_expires r |}.

Definition set_is_banned (v : bool) (r : t) : t :=
  {| id := id r; country_id := country_id r;
     current_position := current_position r;
     last_movement := last_movement r; resources := resources r;
     countries_owned := countries_owned r; is_online := is_online r;
     last_active := last_active r; is_banned := v;
     ban_reason := ban_reason r; ban_expires := ban_expires r |}.

Definition set_ban_reason (v : option string) (r : t) : t :=
  {| id := id r; country_id := country_id r;
     current_position := current_position r;
     last_movement := last_movement r; resources := resources r;
     countries_owned := countries_owned r; is_online := is_online r;
     last_active := last_active r; is_banned := is_banned r; ban_reason := v;
     ban_expires := ban_expires r |}.

Definition set_ban_expires (v : option Z) (r : t) : t :=
  {| id := id r; country_id := country_id r;
     current_position := current_position r;
     last_movement := last_movement r; resources := resources r;
     countries_owned := countries_owned r; is_online := is_online r;
     last_active := last_active r; is_banned := is_banned r;
     ban_reason := ban_reason r; ban_expires := v |}.

(** The columns an UPDATE can name. *)
Inductive column : Type :=
| country_id_col
| current_position_col
| last_movement_col
| resources_col
| countries_owned_col
| is_online_col
| last_active_col
| is_banned_col
| ban_reason_col
| ban_expires_col.

Definition columns : list column :=
  [country_id_col; current_position_col; last_movement_col; resources_col;
     countries_owned_col; is_online_col; last_active_col; is_banned_col;
     ban_reason_col; ban_expires_col].

(** The two rows differ in the column ([_.isEqual] says no). *)
Definition differs (key : column) (a b : t) : bool :=
  match key with
  | country_id_col => negb (isEqual (country_id a) (country_id b))
  | current_position_col =>
      negb (isEqual (current_position a) (current_position b))
  | last_movement_col => negb (isEqual (last_movement a) (last_movement b))
  | resources_col => negb (isEqual (resources a) (resources b))
  | countries_owned_col =>
      negb (isEqual (countries_owned a) (countries_owned b))
  | is_online_col => negb (isEqual (is_online a) (is_online b))
  | last_active_col => negb (isEqual (last_active a) (last_active b))
  | is_banned_col => negb (isEqual (is_banned a) (is_banned b))
  | ban_reason_col => negb (isEqual (ban_reason a) (ban_reason b))
  | ban_expires_col => negb (isEqual (ban_expires a) (ban_expires b))
  end.

(** [UPDATE ... SET <fields>]: the row [old] with the columns [fields]
    taken from [new]. *)
Definition write (fields : column -> bool) (new old : t) : t :=
  {| id := id old;
     country_id :=
       if fields country_id_col then country_id new else country_id old;
     current_position :=
       if fields current_position_col then current_position new else current_position old;
     last_movement :=
       if fields last_movement_col then last_movement new else last_movement old;
     resources :=
       if fields resources_col then resources new else resources old;
     countries_owned :=
       if fields countries_owned_col then countries_owned new else countries_owned old;
     is_online :=
       if fields is_online_col then is_online new else is_online old;
     last_active :=
       if fields last_active_col then last_active new else last_active old;
     is_banned :=
       if fields is_banned_col then is_banned new else is_banned old;
     ban_reason :=
       if fields ban_reason_col then ban_reason new else ban_reason old;
     ban_expires :=
       if fields ban_expires_col then ban_expires new else ban_expires old |}.
(** One entry of the object given to [update]: a column and its value. *)
Inductive entry : Type :=
| country_id_is (v : option Id)
| current_position_is (v : option Point)
| last_movement_is (v : option Z)
| resources_is (v : Z)
| countries_owned_is (v : Z)
| is_online_is (v : bool)
| last_active_is (v : Z)
| is_banned_is (v : bool)
| ban_reason_is (v : option string)
| ban_expires_is (v : option Z).

Definition key (e : entry) : column :=
  match e with
  | country_id_is _ => country_id_col
  | current_position_is _ => current_position_col
  | last_movement_is _ => last_movement_col
  | resources_is _ => resources_col
  | countries_owned_is _ => countries_owned_col
  | is_online_is _ => is_online_col
  | last_active_is _ => last_active_col
  | is_banned_is _ => is_banned_col
  | ban_reason_is _ => ban_reason_col
  | ban_expires_is _ => ban_expires_col
  end.

Definition set (e : entry) : t -> t :=
  match e with
  | country_id_is v => set_country_id v
  | current_position_is v => set_current_position v
  | last_movement_is v => set_last_movement v
  | resources_is v => set_resources v
  | countries_owned_is v => set_countries_owned v
  | is_online_is v => set_is_online v
  | last_active_is v => set_last_active v
  | is_banned_is v => set_is_banned v
  | ban_reason_is v => set_ban_reason v
  | ban_expires_is v => set_ban_expires v
  end.

Definition column_eqb (a b : column) : bool :=
  match a, b with
  | country_id_col, country_id_col => true
  | current_position_col, current_position_col => true
  | last_movement_col, last_movement_col => true
  | resources_col, resources_col => true
  | countries_owned_col, countries_owned_col => true
  | is_online_col, is_online_col => true
  | last_active_col, last_active_col => true
  | is_banned_col, is_banned_col => true
  | ban_reason_col, ban_reason_col => true
  | ban_expires_col, ban_expires_col => true
  | _, _ => false
  end.
End players.

Module countries.

Record t : Type := mk {
  id : Id;
  is_claimed : bool;
  owner_id : option Id;
  claimed_at : option Z;
  soldier_count : Z;
  max_soldiers : Z;
  defense_strength : R;
  resources : Z;
  resource_generation_rate : R;
  last_activity : Z
}.

Definition set_is_claimed (v : bool) (r : t) : t :=
  {| id := id r; is_claimed := v; owner_id := owner_id r;
     claimed_at := claimed_at r; soldier_count := soldier_count r;
     max_soldiers := max_soldiers r; defense_strength := defense_strength r;
     resources := resources r;
     resource_generation_rate := resource_generation_rate r;
     last_activity := last_activity r |}.

Definition set_owner_id (v : option Id) (r : t) : t :=
  {| id := id r; is_claimed := is_claimed r; owner_id := v;
     claimed_at := claimed_at r; soldier_count := soldier_count r;
     max_soldiers := max_soldiers r; defense_strength := defense_strength r;
     resources := resources r;
     resource_generation_rate := resource_generation_rate r;
     last_activity := last_activity r |}.

Definition set_claimed_at (v : option Z) (r : t) : t :=
  {| id := id r; is_claimed := is_claimed r; owner_id := owner_id r;
     claimed_at := v; soldier_count := soldier_count r;
     max_soldiers := max_soldiers r; defense_strength := defense_strength r;
     resources := resources r;
     resource_generation_rate := resource_generation_rate r;
     last_activity := last_activity r |}.

Definition set_soldier_count (v : Z) (r : t) : t :=
  {| id := id r; is_claimed := is_claimed r; owner_id := owner_id r;
     claimed_at := claimed_at r; soldier_count := v;
     max_soldiers := max_soldiers r; defense_strength := defense_strength r;
     resources := resources r;
     resource_generation_rate := resource_generation_rate r;
     last_activity := last_activity r |}.

Definition set_max_soldiers (v : Z) (r : t) : t :=
  {| id := id r; is_claimed := is_claimed r; owner_id := owner_id r;
     claimed_at := claimed_at r; soldier_count := soldier_count r;
     max_soldiers := v; defense_strength := defense_strength r;
     resources := resources r;
     resource_generation_rate := resource_generation_rate r;
     last_activity := last_activity r |}.

Definition set_defense_strength (v : R) (r : t) : t :=
  {| id := id r; is_claimed := is_claimed r; owner_id := owner_id r;
     claimed_at := claimed_at r; soldier_count := soldier_count r;
     max_soldiers := max_soldiers r; defense_strength := v;
     resources := resources r;
     resource_generation_rate := resource_generation_rate r;
     last_activity := last_activity r |}.

Definition set_resources (v : Z) (r : t) : t :=
  {| id := id r; is_claimed := is_claimed r; owner_id := owner_id r;
     claimed_at := claimed_at r; soldier_count := soldier_count r;
     max_soldiers := max_soldiers r; defense_strength := defense_strength r;
     resources := v; resource_generation_rate := resource_generation_rate r;
     last_activity := last_activity r |}.

Definition set_resource_generation_rate (v : R) (r : t) : t :=
  {| id := id r; is_claimed := is_claimed r; owner_id := owner_id r;
     claimed_at := claimed_at r; soldier_count := soldier_count r;
     max_soldiers := max_soldiers r; defense_strength := defense_strength r;
     resources := resources r; resource_generation_rate := v;
     last_activity := last_activity r |}.

Definition set_last_activity (v : Z) (r : t) : t :=
  {| id := id r; is_claimed := is_claimed r; owner_id := owner_id r;
     claimed_at := claimed_at r; soldier_count := soldier_count r;
     max_soldiers := max_soldiers r; defense_strength := defense_strength r;
     resources := resources r;
     resource_generation_rate := resource_generation_rate r;
     last_activity := v |}.

(** The columns an UPDATE can name. *)
Inductive column : Type :=
| is_claimed_col
| owner_id_col
| claimed_at_col
| soldier_count_col
| max_soldiers_col
| defense_strength_col
| resources_col
| resource_generation_rate_col
| last_activity_col.

Definition columns : list column :=
  [is_claimed_col; owner_id_col; claimed_at_col; soldier_count_col;
     max_soldiers_col; defense_strength_col; resources_col;
     resource_generation_rate_col; last_activity_col].

(** The two rows differ in the column ([_.isEqual] says no). *)
Definition differs (key : column) (a b : t) : bool :=
  match key with
  | is_claimed_col => negb (isEqual (is_claimed a) (is_claimed b))
  | owner_id_col => negb (isEqual (owner_id a) (owner_id b))
  | claimed_at_col => negb (isEqual (claimed_at a) (claimed_at b))
  | soldier_count_col => negb (isEqual (soldier_count a) (soldier_count b))
  | max_soldiers_col => negb (isEqual (max_soldiers a) (max_soldiers b))
  | defense_strength_col =>
      negb (isEqual (defense_strength a) (defense_strength b))
  | resources_col => negb (isEqual (resources a) (resources b))
  | resource_generation_rate_col =>
      negb (isEqual (resource_generation_rate a) (resource_generation_rate b))
  | last_activity_col => negb (isEqual (last_activity a) (last_activity b))
  end.

(** [UPDATE ... SET <fields>]: the row [old] with the columns [fields]
    taken from [new]. *)
Definition write (fields : column -> bool) (new old : t) : t :=
  {| id := id old;
     is_claimed :=
       if fields is_claimed_col then is_claimed new else is_claimed old;
     owner_id :=
       if fields owner_id_col then owner_id new else owner_id old;
     claimed_at :=
       if fields claimed_at_col then claimed_at new else claimed_at old;
     soldier_count :=
       if fields soldier_count_col then soldier_count new else soldier_count old;
     max_soldiers :=
       if fields max_soldiers_col then max_soldiers new else max_soldiers old;
     defense_strength :=
       if fields defense_strength_col then defense_strength new else defense_strength old;
     resources :=
       if fields resources_col then resources new else resources old;
     resource_generation_rate :=
       if fields resource_generation_rate_col then resource_generation_rate new else resource_generation_rate old;
     last_activity :=
       if fields last_activity_col then last_activity new else last_activity old |}.
(** One entry of the object given to [update]: a column and its value. *)
Inductive entry : Type :=
| is_claimed_is (v : bool)
| owner_id_is (v : option Id)
| claimed_at_is (v : option Z)
| soldier_count_is (v : Z)
| max_soldiers_is (v : Z)
| defense_strength_is (v : R)
| resources_is (v : Z)
| resource_generation_rate_is (v : R)
| last_activity_is (v : Z).

Definition key (e : entry) : column :=
  match e with
  | is_claimed_is _ => is_claimed_col
  | owner_id_is _ => owner_id_col
  | claimed_at_is _ => claimed_at_col
  | soldier_count_is _ => soldier_count_col
  | max_soldiers_is _ => max_soldiers_col
  | defense_strength_is _ => defense_strength_col
  | resources_is _ => resources_col
  | resource_generation_rate_is _ => resource_generation_rate_col
  | last_activity_is _ => last_activity_col
  end.

Definition set (e : entry) : t -> t :=
  match e with
  | is_claimed_is v => set_is_claimed v
  | owner_id_is v => set_owner_id v
  | claimed_at_is v => set_claimed_at v
  | soldier_count_is v => set_soldier_count v
  | max_soldiers_is v => set_max_soldiers v
  | defense_strength_is v => set_defense_strength v
  | resources_is v => set_resources v
  | resource_generation_rate_is v => set_resource_generation_rate v
  | last_activity_is v => set_last_activity v
  end.

Definition column_eqb (a b : column) : bool :=
  match a, b with
  | is_claimed_col, is_claimed_col => true
  | owner_id_col, owner_id_col => true
  | claimed_at_col, claimed_at_col => true
  | soldier_count_col, soldier_count_col => true
  | max_soldiers_col, max_soldiers_col => true
  | defense_strength_col, defense_strength_col => true
  | resources_col, resources_col => true
  | resource_generation_rate_col, resource_generation_rate_col => true
  | last_activity_col, last_activity_col => true
  | _, _ => false
  end.
End countries.

Module player_movements.

(** The values of the column [movement_type]. *)
Definition movement_type_values : list string :=
  ["walk"; "run"; "teleport"; "spawn"; "border_cross"]%string.

Record t : Type := mk {
  id : Id;
  player_id : Id;
  from_position : option Point;
  to_position : Point;
  country_id : option Id;
  movement_type : string;
  distance_meters : R;
  duration_seconds : Z;
  speed_mps : R;
  resources_consumed : Z;
  is_valid : bool;
  violation_reason : option string;
  timestamp : Z
}.

Definition set_distance_meters (v : R) (r : t) : t :=
  {| id := id r; player_id := player_id r; from_position := from_position r;
     to_position := to_position r; country_id := country_id r;
     movement_type := movement_type r; distance_meters := v;
     duration_seconds := duration_seconds r; speed_mps := speed_mps r;
     resources_consumed := resources_consumed r; is_valid := is_valid r;
     violation_reason := violation_reason r; timestamp := timestamp r |}.

Definition set_speed_mps (v : R) (r : t) : t :=
  {| id := id r; player_id := player_id r; from_position := from_position r;
     to_position := to_position r; country_id := country_id r;
     movement_type := movement_type r; distance_meters := distance_meters r;
     duration_seconds := duration_seconds r; speed_mps := v;
     resources_consumed := resources_consumed r; is_valid := is_valid r;
     violation_reason := violation_reason r; timestamp := timestamp r |}.

Definition set_is_valid (v : bool) (r : t) : t :=
  {| id := id r; player_id := player_id r; from_position := from_position r;
     to_position := to_position r; country_id := country_id r;
     movement_type := movement_type r; distance_meters := distance_meters r;
     duration_seconds := duration_seconds r; speed_mps := speed_mps r;
     resources_consumed := resources_consumed r; is_valid := v;
     violation_reason := violation_reason r; timestamp := timestamp r |}.

Definition set_violation_reason (v : option string) (r : t) : t :=
  {| id := id r; player_id := player_id r; from_position := from_position r;
     to_position := to_position r; country_id := country_id r;
     movement_type := movement_type r; distance_meters := distance_meters r;
     duration_seconds := duration_seconds r; speed_mps := speed_mps r;
     resources_consumed := resources_consumed r; is_valid := is_valid r;
     violation_reason := v; timestamp := timestamp r |}.
End player_movements.

Module country_history.

Inductive EventType : Type :=
| claimed
| unclaimed
| owner_changed
| border_changed
| war_declared
| war_ended
| territory_gained
| territory_lost
| soldier_joined
| soldier_left.

(** What [old_value] and [new_value] hold in the events recorded here. *)
Record Value : Type := mkValue {
  owner_id : option Id;
  claimed_at : option Z
}.

Record t : Type := mk {
  id : Id;
  country_id : Id;
  event_type : EventType;
  old_value : option Value;
  new_value : option Value;
  player_id : option Id;
  timestamp : Z
}.

End country_history.

(** ** Connections and emissions *)

(** What [activeConnections] holds for a player. *)
Record Connection : Type := mkConnection {
  socketId : nat;
  connectedAt : Z
}.

(** A connected socket: its id, the instance the handshake loaded
    ([socket.player]) and the country rooms it has joined. *)
Record Socket : Type := mkSocket {
  socket_id : nat;
  socket_player : Instance players.t;
  socket_rooms : list Id
}.

(** [socket.emit], [socket.to(room).emit], [io.to(room).emit], [io.emit];
    a room is named by its country. *)
Inductive Target : Type :=
| to_socket (socket : nat)
| to_room_but (country : Id) (socket : nat)
| to_room (country : Id)
| to_all.

Inductive Event : Type :=
| player_joined_country (player_id : Id) (became_owner : option bool)
    (timestamp : Z)
| connection_established (player_id : Id) (country_id : option Id)
    (current_position : option Point) (resources : Z) (server_time : Z)
    (online_players : nat)
| error_event (message : string)
| player_moved (player_id : Id) (lat lng : R) (movement_type : string)
    (timestamp : Z)
| player_move_confirmed (lat lng : R) (timestamp : Z)
| country_joined (country : option countries.t) (became_owner : bool)
    (timestamp : Z)
| player_left_country (player_id : Id) (was_owner : bool) (timestamp : Z)
| country_left (was_owner : bool) (timestamp : Z)
| player_disconnected (player_id : Id) (timestamp : Z)
| server_stats (online_players active_countries : nat)
    (timestamp : option Z)
| country_resources_generated (country_id : Id) (resources generated : Z)
    (timestamp : Z).

Record Emit : Type := mkEmit {
  target : Target;
  event : Event
}.

(** ** The store *)

(** The variables of [process.env] read here. *)
Record Env : Type := mkEnv {
  MOVEMENT_COOLDOWN_MS : option Z;
  MAX_PLAYERS_PER_COUNTRY : option Z
}.

(** The tables, the connected sockets, the two maps of the socket
    handler, the emissions made so far, the clock, the UUID supply, the
    environment, and [app_io]: whether the Express application holds the
    socket server under its setting ['io'], where the routes look for it. *)
Record Store : Type := mkStore {
  tbl_players : list players.t;
  tbl_countries : list countries.t;
  tbl_player_movements : list player_movements.t;
  tbl_country_history : list country_history.t;
  sockets : list Socket;
  activeConnections : list (Id * Connection);
  countryRooms : list (Id * list Id);
  emitted : list Emit;
  wall_clock : nat -> Z;
  clock_reads : nat;
  uuid_counter : nat;
  process_env : Env;
  app_io : bool
}.

Definition with_players (v : list players.t) (s : Store) : Store :=
  {| tbl_players := v; tbl_countries := tbl_countries s;
     tbl_player_movements := tbl_player_movements s;
     tbl_country_history := tbl_country_history s; sockets := sockets s;
     activeConnections := activeConnections s;
     countryRooms := countryRooms s; emitted := emitted s;
     wall_clock := wall_clock s; clock_reads := clock_reads s;
     uuid_counter := uuid_counter s; process_env := process_env s;
     app_io := app_io s |}.

Definition with_countries (v : list countries.t) (s : Store) : Store :=
  {| tbl_players := tbl_players s; tbl_countries := v;
     tbl_player_movements := tbl_player_movements s;
     tbl_country_history := tbl_country_history s; sockets := sockets s;
     activeConnections := activeConnections s;
     countryRooms := countryRooms s; emitted := emitted s;
     wall_clock := wall_clock s; clock_reads := clock_reads s;
     uuid_counter := uuid_counter s; process_env := process_env s;
     app_io := app_io s |}.

Definition with_player_movements (v : list player_movements.t) (s : Store)
  : Store :=
  {| tbl_players := tbl_players s; tbl_countries := tbl_countries s;
     tbl_player_movements := v; tbl_country_history := tbl_country_history s;
     sockets := sockets s; activeConnections := activeConnections s;
     countryRooms := countryRooms s; emitted := emitted s;
     wall_clock := wall_clock s; clock_reads := clock_reads s;
     uuid_counter := uuid_counter s; process_env := process_env s;
     app_io := app_io s |}.

Definition with_country_history (v : list country_history.t) (s : Store)
  : Store :=
  {| tbl_players := tbl_players s; tbl_countries := tbl_countries s;
     tbl_player_movements := tbl_player_movements s;
     tbl_country_history := v; sockets := sockets s;
     activeConnections := activeConnections s;
     countryRooms := countryRooms s; emitted := emitted s;
     wall_clock := wall_clock s; clock_reads := clock_reads s;
     uuid_counter := uuid_counter s; process_env := process_env s;
     app_io := app_io s |}.

Definition with_sockets (v : list Socket) (s : Store) : Store :=
  {| tbl_players := tbl_players s; tbl_countries := tbl_countries s;
     tbl_player_movements := tbl_player_movements s;
     tbl_country_history := tbl_country_history s; sockets := v;
     activeConnections := activeConnections s;
     countryRooms := countryRooms s; emitted := emitted s;
     wall_clock := wall_clock s; clock_reads := clock_reads s;
     uuid_counter := uuid_counter s; process_env := process_env s;
     app_io := app_io s |}.

Definition with_activeConnections (v : list (Id * Connection)) (s : Store)
  : Store :=
  {| tbl_players := tbl_players s; tbl_countries := tbl_countries s;
     tbl_player_movements := tbl_player_movements s;
     tbl_country_history := tbl_country_history s; sockets := sockets s;
     activeConnections := v; countryRooms := countryRooms s;
     emitted := emitted s; wall_clock := wall_clock s;
     clock_reads := clock_reads s; uuid_counter := uuid_counter s;
     process_env := process_env s; app_io := app_io s |}.

Definition with_countryRooms (v : list (Id * list Id)) (s : Store) : Store :=
  {| tbl_players := tbl_players s; tbl_countries := tbl_countries s;
     tbl_player_movements := tbl_player_movements s;
     tbl_country_history := tbl_country_history s; sockets := sockets s;
     activeConnections := activeConnections s; countryRooms := v;
     emitted := emitted s; wall_clock := wall_clock s;
     clock_reads := clock_reads s; uuid_counter := uuid_counter s;
     process_env := process_env s; app_io := app_io s |}.

Definition with_emitted (v : list Emit) (s : Store) : Store :=
  {| tbl_players := tbl_players s; tbl_countries := tbl_countries s;
     tbl_player_movements := tbl_player_movements s;
     tbl_country_history := tbl_country_history s; sockets := sockets s;
     activeConnections := activeConnections s;
     countryRooms := countryRooms s; emitted := v;
     wall_clock := wall_clock s; clock_reads := clock_reads s;
     uuid_counter := uuid_counter s; process_env := process_env s;
     app_io := app_io s |}.

Definition with_clock_reads (v : nat) (s : Store) : Store :=
  {| tbl_players := tbl_players s; tbl_countries := tbl_countries s;
     tbl_player_movements := tbl_player_movements s;
     tbl_country_history := tbl_country_history s; sockets := sockets s;
     activeConnections := activeConnections s;
     countryRooms := countryRooms s; emitted := emitted s;
     wall_clock := wall_clock s; clock_reads := v;
     uuid_counter := uuid_counter s; process_env := process_env s;
     app_io := app_io s |}.

Definition with_uuid_counter (v : nat) (s : Store) : Store :=
  {| tbl_players := tbl_players s; tbl_countries := tbl_countries s;
     tbl_player_movements := tbl_player_movements s;
     tbl_country_history := tbl_country_history s; sockets := sockets s;
     activeConnections := activeConnections s;
     countryRooms := countryRooms s; emitted := emitted s;
     wall_clock := wall_clock s; clock_reads := clock_reads s;
     uuid_counter := v; process_env := process_env s; app_io := app_io s |}.

(** ** Computations *)

Definition Run (A : Type) : Type := Store -> Outcome A * Store.

Definition ret {A : Type} (a : A) : Run A := fun s => (Returned a, s).

Definition bind {A B : Type} (c : Run A) (k : A -> Run B) : Run B :=
  fun s =>
    match c s with
    | (Returned a, s') => k a s'
    | (Threw e, s') => (Threw e, s')
    end.

Definition throw {A : Type} (message : string) : Run A :=
  fun s => (Threw message, s).

Definition try_catch {A : Type} (c : Run A) (handler : string -> Run A)
  : Run A :=
  fun s =>
    match c s with
    | (Returned a, s') => (Returned a, s')
    | (Threw e, s') => handler e s'
    end.

Definition gets {A : Type} (f : Store -> A) : Run A :=
  fun s => (Returned (f s), s).

Definition modify (f : Store -> Store) : Run unit :=
  fun s => (Returned tt, f s).

Declare Scope realm_scope.
Delimit Scope realm_scope with realm.
Notation "x <- c ;; k" := (bind c (fun x => k))
  (at level 61, c at next level, right associativity) : realm_scope.
Notation "c ;; k" := (bind c (fun _ => k))
  (at level 61, right associativity) : realm_scope.
Local Open Scope realm_scope.

Fixpoint for_of {A : Type} (xs : list A) (body : A -> Run unit)
  : Run unit :=
  match xs with
  | [] => ret tt
  | x :: rest => body x ;; for_of rest body
  end.

Definition new_Date : Run Z :=
  fun s => (Returned (wall_clock s (clock_reads s)),
            with_clock_reads (S (clock_reads s)) s).

Definition UUIDV4 : Run Id :=
  fun s => (Returned (uuid_counter s),
            with_uuid_counter (S (uuid_counter s)) s).

Definition emit (to : Target) (e : Event) : Run unit :=
  modify (fun s => with_emitted (emitted s ++ [mkEmit to e]) s).

(** *** [Map] and [Set] on ids, in insertion order *)

Definition Map_has {V : Type} (k : Id) (m : list (Id * V)) : bool :=
  existsb (fun e => same_id (fst e) k) m.

Definition Map_get {V : Type} (k : Id) (m : list (Id * V)) : option V :=
  option_map snd (find (fun e => same_id (fst e) k) m).

Definition Map_set {V : Type} (k : Id) (v : V) (m : list (Id * V))
  : list (Id * V) :=
  if Map_has k m then
    map (fun e => if same_id (fst e) k then (k, v) else e) m
  else m ++ [(k, v)].

Definition Map_delete {V : Type} (k : Id) (m : list (Id * V))
  : list (Id * V) :=
  filter (fun e => negb (same_id (fst e) k)) m.

Definition Set_add (x : Id) (s : list Id) : list Id :=
  if existsb (same_id x) s then s else s ++ [x].

Definition Set_delete (x : Id) (s : list Id) : list Id :=
  filter (fun y => negb (same_id y x)) s.

(** ** Player *)

Module Player.

(** [this.changed(key)] *)
Definition changed (key : players.column) (this : Instance players.t)
  : bool :=
  players.differs key (_previousDataValues this) (dataValues this).

(** The update hook; its first half concerns the password. *)
Definition beforeUpdate (player : Instance players.t)
  : Run (Instance players.t) :=
  if changed players.is_online_col player
     && players.is_online (dataValues player) then
    now <- new_Date ;;
    ret (assign (players.set_last_active now) player)
  else ret player.

(** [this.save({ fields })] on a stored instance: the hook runs, the
    columns it changed join [fields], and one UPDATE writes them, unless
    there is no column to write or the instance has no changed column. *)
Definition save_fields (fields : players.column -> bool)
  (this : Instance players.t) : Run (Instance players.t) :=
  after <- beforeUpdate this ;;
  let fields := fun key =>
    fields key || (changed key after && negb (changed key this)) in
  if negb (existsb fields players.columns)
     || negb (existsb (fun key => changed key after) players.columns) then
    ret after
  else
    modify (fun s =>
      with_players
        (update_where
           (fun r => same_id (players.id r) (players.id (dataValues after)))
           (players.write fields (dataValues after)) (tbl_players s)) s) ;;
    ret {| dataValues := dataValues after;
           _previousDataValues :=
             players.write fields (dataValues after)
               (_previousDataValues after) |}.

(** [this.save()] *)
Definition save (this : Instance players.t) : Run (Instance players.t) :=
  save_fields (fun key => changed key this) this.

(** [this.set(values)] *)
Definition set (values : list players.entry) (this : Instance players.t)
  : Instance players.t :=
  fold_left (fun this e => assign (players.set e) this) values this.

(** The keys of [values]. *)
Definition keys (values : list players.entry) (key : players.column)
  : bool :=
  existsb (fun e => players.column_eqb (players.key e) key) values.

(** [this.update(values)] *)
Definition update (values : list players.entry)
  (this : Instance players.t) : Run (Instance players.t) :=
  save_fields (keys values) (set values this).

(** [this.increment('countries_owned')], [this.decrement(...)] *)
Definition increment_countries_owned (this : Instance players.t)
  : Run unit :=
  modify (fun s =>
    with_players
      (update_where
         (fun r => same_id (players.id r) (players.id (dataValues this)))
         (fun r => players.set_countries_owned
                     (players.countries_owned r + 1) r)
         (tbl_players s)) s).

Definition decrement_countries_owned (this : Instance players.t)
  : Run unit :=
  modify (fun s =>
    with_players
      (update_where
         (fun r => same_id (players.id r) (players.id (dataValues this)))
         (fun r => players.set_countries_owned
                     (players.countries_owned r - 1) r)
         (tbl_players s)) s).

(** [Player.findByPk] *)
Definition findByPk (pk : Id) : Run (option (Instance players.t)) :=
  gets (fun s =>
    option_map build
      (find (fun r => same_id (players.id r) pk) (tbl_players s))).

(** [Player.prototype.updatePosition] *)
Definition updatePosition (lat lng : R) (this : Instance players.t)
  : Run (Instance players.t) :=
  let this := assign (players.set_current_position (Some (lng, lat))) this in
  now <- new_Date ;;
  let this := assign (players.set_last_movement (Some now)) this in
  save this.

(** [Player.prototype.canMove] *)
Definition canMove (this : Instance players.t) : Run bool :=
  match players.last_movement (dataValues this) with
  | None => ret true
  | Some last_movement =>
      cooldown <- gets (fun s =>
        parseInt_or (MOVEMENT_COOLDOWN_MS (process_env s)) 1000) ;;
      now <- new_Date ;;
      let timeSinceLastMove := now - last_movement in
      ret (cooldown <=? timeSinceLastMove)
  end.

(** [Player.prototype.consumeResources]: the truth value of what the
    method returns, and the instance as the call leaves it. *)
Definition consumeResources (amount : Z) (this : Instance players.t)
  : Run (bool * Instance players.t) :=
  if players.resources (dataValues this) <? amount then
    ret (false, this)
  else
    let this := assign (players.set_resources
                          (players.resources (dataValues this) - amount))
                  this in
    this <- save this ;;
    ret (true, this).

End Player.

(** ** Country *)

Module Country.

Definition changed (key : countries.column) (this : Instance countries.t)
  : bool :=
  countries.differs key (_previousDataValues this) (dataValues this).

(** The update hook. *)
Definition beforeUpdate (country : Instance countries.t)
  : Run (Instance countries.t) :=
  if changed countries.is_claimed_col country
     || changed countries.soldier_count_col country then
    now <- new_Date ;;
    ret (assign (countries.set_last_activity now) country)
  else ret country.

Definition save_fields (fields : countries.column -> bool)
  (this : Instance countries.t) : Run (Instance countries.t) :=
  after <- beforeUpdate this ;;
  let fields := fun key =>
    fields key || (changed key after && negb (changed key this)) in
  if negb (existsb fields countries.columns)
     || negb (existsb (fun key => changed key after) countries.columns) then
    ret after
  else
    modify (fun s =>
      with_countries
        (update_where
           (fun r => same_id (countries.id r)
                       (countries.id (dataValues after)))
           (countries.write fields (dataValues after)) (tbl_countries s))
        s) ;;
    ret {| dataValues := dataValues after;
           _previousDataValues :=
             countries.write fields (dataValues after)
               (_previousDataValues after) |}.

Definition save (this : Instance countries.t)
  : Run (Instance countries.t) :=
  save_fields (fun key => changed key this) this.

Definition set (values : list countries.entry)
  (this : Instance countries.t) : Instance countries.t :=
  fold_left (fun this e => assign (countries.set e) this) values this.

Definition keys (values : list countries.entry) (key : countries.column)
  : bool :=
  existsb (fun e => countries.column_eqb (countries.key e) key) values.

Definition update (values : list countries.entry)
  (this : Instance countries.t) : Run (Instance countries.t) :=
  save_fields (keys values) (set values this).

Definition findByPk (pk : Id) : Run (option (Instance countries.t)) :=
  gets (fun s =>
    option_map build
      (find (fun r => same_id (countries.id r) pk) (tbl_countries s))).

(** [Country.findAll({ where: { is_claimed: true } })] *)
Definition findAll_claimed : Run (list (Instance countries.t)) :=
  gets (fun s => map build (filter countries.is_claimed (tbl_countries s))).

(** [Country.prototype.canAcceptNewSoldier] *)
Definition canAcceptNewSoldier (this : Instance countries.t) : bool :=
  countries.soldier_count (dataValues this)
  <? countries.max_soldiers (dataValues this).

(** [Country.prototype.addSoldier] *)
Definition addSoldier (this : Instance countries.t)
  : Run (Instance countries.t) :=
  if negb (canAcceptNewSoldier this) then
    throw "Country has reached maximum soldier capacity"
  else
    let this := assign (countries.set_soldier_count
                          (countries.soldier_count (dataValues this) + 1))
                  this in
    save this.

(** [Country.prototype.removeSoldier] *)
Definition removeSoldier (this : Instance countries.t)
  : Run (Instance countries.t) :=
  if countries.soldier_count (dataValues this) <=? 0 then
    throw "No soldiers to remove"
  else
    let this := assign (countries.set_soldier_count
                          (countries.soldier_count (dataValues this) - 1))
                  this in
    let this :=
      if (countries.soldier_count (dataValues this) =? 0)
         && countries.is_claimed (dataValues this) then
        assign (countries.set_claimed_at None)
          (assign (countries.set_owner_id None)
             (assign (countries.set_is_claimed false) this))
      else this in
    save this.

(** [Country.prototype.claimCountry] *)
Definition claimCountry (playerId : Id) (this : Instance countries.t)
  : Run (Instance countries.t) :=
  if countries.is_claimed (dataValues this) then
    throw "Country is already claimed"
  else
    let this := assign (countries.set_is_claimed true) this in
    let this := assign (countries.set_owner_id (Some playerId)) this in
    now <- new_Date ;;
    let this := assign (countries.set_claimed_at (Some now)) this in
    let this := assign (countries.set_soldier_count 1) this in
    save this.

(** [Country.prototype.generateResources] *)
Definition generateResources (this : Instance countries.t)
  : Run (Instance countries.t) :=
  let resourcesGenerated :=
    Math_floor (countries.resource_generation_rate (dataValues this)) in
  let this := assign (countries.set_resources
                        (countries.resources (dataValues this)
                         + resourcesGenerated)) this in
  save this.

End Country.

(** ** PlayerMovement *)

Module PlayerMovement.

(** The creation hook. *)
Definition beforeCreate (movement : player_movements.t)
  : player_movements.t :=
  let movement :=
    match player_movements.from_position movement with
    | Some _ =>
        if isEqual (player_movements.distance_meters movement) 0%R then
          player_movements.set_distance_meters 100 movement
        else movement
    | None => movement
    end in
  if (0 <? player_movements.duration_seconds movement)
     && Rltb 0 (player_movements.distance_meters movement) then
    player_movements.set_speed_mps
      (player_movements.distance_meters movement
       / IZR (player_movements.duration_seconds movement))%R movement
  else movement.

(** [PlayerMovement.create] with the values the move route gives; the
    other columns take their defaults. *)
Definition create (player_id : Id) (from_position : option Point)
  (to_position : Point) (country_id : option Id) (movement_type : string)
  (resources_consumed : Z) (timestamp : Z) : Run player_movements.t :=
  id <- UUIDV4 ;;
  let movement := beforeCreate
    {| player_movements.id := id;
       player_movements.player_id := player_id;
       player_movements.from_position := from_position;
       player_movements.to_position := to_position;
       player_movements.country_id := country_id;
       player_movements.movement_type := movement_type;
       player_movements.distance_meters := 0;
       player_movements.duration_seconds := 0;
       player_movements.speed_mps := 1;
       player_movements.resources_consumed := resources_consumed;
       player_movements.is_valid := true;
       player_movements.violation_reason := None;
       player_movements.timestamp := timestamp |} in
  if existsb (String.eqb movement_type)
       player_movements.movement_type_values then
    modify (fun s =>
      with_player_movements (tbl_player_movements s ++ [movement]) s) ;;
    ret movement
  else throw "invalid input value for enum".

(** [PlayerMovement.prototype.validateMovement]: what it returns, and the
    instance as it leaves it. *)
Definition validateMovement (this : player_movements.t)
  : bool * player_movements.t :=
  match player_movements.country_id this with
  | None =>
      (false,
       player_movements.set_violation_reason
         (Some "Movement outside of any country boundaries"%string)
         (player_movements.set_is_valid false this))
  | Some _ => (true, player_movements.set_is_valid true this)
  end.

(** [PlayerMovement.prototype.calculateResourceCost] *)
Definition calculateResourceCost (this : player_movements.t) : Z :=
  let baseCost := 1 in
  let distanceMultiplier :=
    Math_ceil (player_movements.distance_meters this / 1000) in
  if String.eqb (player_movements.movement_type this) "run" then
    baseCost * distanceMultiplier * 2
  else if String.eqb (player_movements.movement_type this) "teleport" then
    baseCost * distanceMultiplier * 10
  else baseCost * distanceMultiplier.

End PlayerMovement.

(** ** CountryHistory *)

Module CountryHistory.

(** [CountryHistory.create]: the key and the timestamp are defaults. *)
Definition create (country_id : Id)
  (event_type : country_history.EventType)
  (old_value new_value : option country_history.Value)
  (player_id : option Id) : Run unit :=
  id <- UUIDV4 ;;
  timestamp <- new_Date ;;
  modify (fun s =>
    with_country_history
      (tbl_country_history s
       ++ [{| country_history.id := id;
              country_history.country_id := country_id;
              country_history.event_type := event_type;
              country_history.old_value := old_value;
              country_history.new_value := new_value;
              country_history.player_id := player_id;
              country_history.timestamp := timestamp |}]) s).

Definition recordClaimed (countryId playerId : Id) : Run unit :=
  now <- new_Date ;;
  create countryId country_history.claimed None
    (Some {| country_history.owner_id := Some playerId;
             country_history.claimed_at := Some now |})
    (Some playerId).

Definition recordUnclaimed (countryId previousOwnerId : Id) : Run unit :=
  create countryId country_history.unclaimed
    (Some {| country_history.owner_id := Some previousOwnerId;
             country_history.claimed_at := None |})
    (Some {| country_history.owner_id := None;
             country_history.claimed_at := None |})
    None.

Definition recordSoldierJoined (countryId playerId : Id) : Run unit :=
  create countryId country_history.soldier_joined None None
    (Some playerId).

Definition recordSoldierLeft (countryId playerId : Id) : Run unit :=
  create countryId country_history.soldier_left None None (Some playerId).

End CountryHistory.

(** ** Responses

    An answer is a status code and a body; an error body has its [error]
    and its [message], unless the message is assembled at run time. *)

Inductive Body : Type :=
| error_body (error : string) (message : option string)
| account_banned (ban_reason : option string) (ban_expires : option Z)
| rate_limited (cooldown_ms time_left_ms : Z)
| movement_successful (lat lng : R) (resources_remaining : Z)
    (movement_type : string) (movement_id : Id)
| joined_country (country : option countries.t) (became_owner : bool)
| left_country (was_owner country_unclaimed : bool)
| settings_updated (country : countries.t)
| logout_successful.

Record Response : Type := mkResponse {
  http_status : Z;
  body : Body
}.

Definition refusal (code : Z) (error message : string) : Response :=
  {| http_status := code; body := error_body error (Some message) |}.

(** [return res.status(code).json(...)] in a middleware. *)
Definition json {A : Type} (code : Z) (b : Body) : Run (Response + A) :=
  ret (inl {| http_status := code; body := b |}).

Definition json_error {A : Type} (code : Z) (error message : string)
  : Run (Response + A) :=
  ret (inl (refusal code error message)).

(** [res.status(code).json(...)] in a handler. *)
Definition res_json (code : Z) (b : Body) : Run Response :=
  ret {| http_status := code; body := b |}.

Definition res_error (code : Z) (error message : string) : Run Response :=
  ret (refusal code error message).

(** ** JSON values and [parseFloat]

    A field of a parsed JSON body; a key that is absent reads as
    [undefined], here [None].  An object needs no members here: it is
    truthy and no number. *)
#[warnings="-register-all"]
Inductive Json : Type :=
| JNull
| JBool (b : bool)
| JNum (x : R)
| JStr (s : string)
| JArr (items : list Json)
| JObj.

(** The truth value of a value in a condition; NaN is no JSON number. *)
Definition truthy (v : Json) : bool :=
  match v with
  | JNull => false
  | JBool b => b
  | JNum x => negb (isEqual x 0%R)
  | JStr s => negb (String.eqb s EmptyString)
  | JArr _ | JObj => true
  end.

(** [x || y] *)
Definition or_else (x y : option Json) : option Json :=
  match x with
  | Some v => if truthy v then Some v else y
  | None => y
  end.

(** What [parseFloat] returns. *)
Inductive Number : Type :=
| finite (x : R)
| infinite (negative : bool)
| NaN.

Definition isNaN (n : Number) : bool :=
  match n with
  | NaN => true
  | _ => false
  end.

Definition negate (n : Number) : Number :=
  match n with
  | finite x => finite (- x)
  | infinite negative => infinite (negb negative)
  | NaN => NaN
  end.

(** [parseFloat] of a text: white space is skipped, then the longest
    prefix that is a decimal literal is read ([StrDecimalLiteral]: a sign,
    then [Infinity] or digits with a fraction and an exponent), and what
    follows it is ignored.  The white space is that of ASCII. *)
Section Decimal_literal.
Import Ascii.

Definition is_digit (c : Ascii.ascii) : bool :=
  let n := Ascii.nat_of_ascii c in
  (48 <=? n)%nat && (n <=? 57)%nat.

Definition digit (c : Ascii.ascii) : Z :=
  Z.of_nat (Ascii.nat_of_ascii c) - 48.

Definition is_white (c : Ascii.ascii) : bool :=
  let n := Ascii.nat_of_ascii c in
  ((9 <=? n)%nat && (n <=? 13)%nat) || (n =? 32)%nat.

Fixpoint trim_start (s : string) : string :=
  match s with
  | String c rest => if is_white c then trim_start rest else s
  | EmptyString => s
  end.

(** The longest run of digits that starts [s]: its value read after
    [acc], the number of its digits, and what follows it. *)
Fixpoint digits (s : string) (acc : Z) : Z * nat * string :=
  match s with
  | String c rest =>
      if is_digit c then
        let '(v, n, rest') := digits rest (10 * acc + digit c) in
        (v, S n, rest')
      else (acc, 0%nat, s)
  | EmptyString => (acc, 0%nat, s)
  end.

(** The exponent that starts [s]; without digits there is none. *)
Definition exponent (s : string) : Z :=
  match s with
  | String c rest =>
      if Ascii.eqb c "e"%char || Ascii.eqb c "E"%char then
        let '(negative, rest) :=
          match rest with
          | String "+"%char rest' => (false, rest')
          | String "-"%char rest' => (true, rest')
          | _ => (false, rest)
          end in
        let '(e, n, _) := digits rest 0 in
        match n with
        | 0%nat => 0
        | _ => if (negative : bool) then - e else e
        end
      else 0
  | EmptyString => 0
  end.

Definition unsigned_literal (s : string) : Number :=
  if String.prefix "Infinity" s then infinite false
  else
    let '(whole, n1, rest) := digits s 0 in
    let '(mantissa, n2, rest) :=
      match rest with
      | String "."%char rest' => digits rest' whole
      | _ => (whole, 0%nat, rest)
      end in
    match (n1 + n2)%nat with
    | 0%nat => NaN
    | _ => finite (IZR mantissa * powerRZ 10 (exponent rest - Z.of_nat n2))
    end.

Definition parseFloat_text (s : string) : Number :=
  match trim_start s with
  | String "-"%char rest => negate (unsigned_literal rest)
  | String "+"%char rest => unsigned_literal rest
  | s => unsigned_literal s
  end.

End Decimal_literal.

(** [parseFloat(v)] parses the text of [v].  The text of a number reads
    back as the number; that of an array joins the texts of its items
    with commas, so that only the first item counts; [null], a boolean
    and an object have a text that starts no number. *)
Fixpoint parseFloat (v : Json) : Number :=
  match v with
  | JNum x => finite x
  | JStr s => parseFloat_text s
  | JArr (first :: _) => parseFloat first
  | JArr [] | JNull | JBool _ | JObj => NaN
  end.

(** ** Middleware *)

Module auth.

(** [authenticateToken], from the player id of a token that verifies: the
    answer that ends the request, or [req.player]. *)
Definition authenticateToken (playerId : Id)
  : Run (Response + Instance players.t) :=
  try_catch
    (player <- Player.findByPk playerId ;;
     match player with
     | None =>
         json_error 401 "Access denied" "Invalid token - player not found"
     | Some player =>
         checked <-
           (if players.is_banned (dataValues player) then
              now <- new_Date ;;
              if match players.ban_expires (dataValues player) with
                 | None => true
                 | Some ban_expires => now <? ban_expires
                 end then
                json 403
                  (account_banned (players.ban_reason (dataValues player))
                     (players.ban_expires (dataValues player)))
              else
                player <- Player.update
                            [players.is_banned_is false;
                             players.ban_reason_is None;
                             players.ban_expires_is None] player ;;
                ret (inr player)
            else ret (inr player)) ;;
         match checked with
         | inl answer => ret (inl answer)
         | inr player =>
             now <- new_Date ;;
             player <- Player.update
                         [players.last_active_is now;
                          players.is_online_is true] player ;;
             ret (inr player)
         end
     end)
    (fun _ =>
       json_error 500 "Internal server error" "Authentication failed").

(** [requireCountryOwner]: the answer that ends the request, or
    [req.country]. *)
Definition requireCountryOwner (player : Instance players.t)
  (params_countryId body_countryId : option Id)
  : Run (Response + Instance countries.t) :=
  try_catch
    (match match params_countryId with
           | Some countryId => Some countryId
           | None => body_countryId
           end with
     | None => json_error 400 "Bad request" "Country ID is required"
     | Some countryId =>
         country <- Country.findByPk countryId ;;
         match country with
         | None => json_error 404 "Not found" "Country not found"
         | Some country =>
             if negb (countries.is_claimed (dataValues country))
                || negb (opt_is (countries.owner_id (dataValues country))
                           (players.id (dataValues player))) then
               json_error 403 "Access denied"
                 "Only the country owner can perform this action"
             else ret (inr country)
         end
     end)
    (fun _ =>
       json_error 500 "Internal server error"
         "Failed to verify country ownership").

(** [checkMovementCooldown]: the answer that ends the request, if any. *)
Definition checkMovementCooldown (player : Instance players.t)
  : Run (option Response) :=
  ok <- Player.canMove player ;;
  if negb ok then
    cooldown <- gets (fun s =>
      parseInt_or (MOVEMENT_COOLDOWN_MS (process_env s)) 1000) ;;
    now <- new_Date ;;
    match players.last_movement (dataValues player) with
    | Some last_movement =>
        let timeLeft := cooldown - (now - last_movement) in
        ret (Some {| http_status := 429;
                     body := rate_limited cooldown (Z.max 0 timeLeft) |})
    | None => throw "TypeError"
    end
  else ret None.

(** The coordinates of a body, as the JSON parser leaves them. *)
Record Coordinates : Type := mkCoordinates {
  lat : option Json;
  lng : option Json;
  latitude : option Json;
  longitude : option Json
}.

(** [validateCoordinates]: the answer that ends the request, or
    [req.coordinates] as [(lat, lng)].  A number that is neither NaN nor
    beyond the bounds is finite. *)
Definition validateCoordinates (body : Coordinates) : Response + R * R :=
  let finalLat := or_else (lat body) (latitude body) in
  let finalLng := or_else (lng body) (longitude body) in
  match finalLat, finalLng with
  | Some finalLat, Some finalLng =>
      let latNum := parseFloat finalLat in
      let lngNum := parseFloat finalLng in
      if isNaN latNum || isNaN lngNum then
        inl (refusal 400 "Bad request" "Invalid coordinate values")
      else
        match latNum with
        | finite latNum =>
            if Rltb latNum (-90) || Rltb 90 latNum then
              inl (refusal 400 "Bad request"
                     "Latitude must be between -90 and 90")
            else
              match lngNum with
              | finite lngNum =>
                  if Rltb lngNum (-180) || Rltb 180 lngNum then
                    inl (refusal 400 "Bad request"
                           "Longitude must be between -180 and 180")
                  else inr (latNum, lngNum)
              | _ =>
                  inl (refusal 400 "Bad request"
                         "Longitude must be between -180 and 180")
              end
        | _ =>
            inl (refusal 400 "Bad request"
                   "Latitude must be between -90 and 90")
        end
  | _, _ =>
      inl (refusal 400 "Bad request"
             "Latitude and longitude are required")
  end.

End auth.

(** [const { movement_type = 'walk' } = req.body] *)
Definition type_of_move (body_movement_type : option string) : string :=
  match body_movement_type with
  | Some movement_type => movement_type
  | None => "walk"
  end.

(** ** The player routes *)

Module players_routes.

(** The cost of a move, by its type. *)
Definition baseCost (movement_type : string) : Z :=
  if String.eqb movement_type "run" then 2
  else if String.eqb movement_type "teleport" then 10
  else 1.

(** The handler of [POST /api/players/move]. *)
Definition move_handler (player : Instance players.t)
  (coordinates : R * R) (body_movement_type : option string)
  : Run Response :=
  try_catch
    (let movement_type := type_of_move body_movement_type in
     let '(lat, lng) := coordinates in
     match players.country_id (dataValues player) with
     | None =>
         res_error 400 "Bad Request" "You must join a country before moving"
     | Some country_id =>
         let oldPosition := players.current_position (dataValues player) in
         let baseCost := baseCost movement_type in
         if players.resources (dataValues player) <? baseCost then
           res_json 400
             (error_body "Insufficient Resources" None)
         else
           player <- Player.updatePosition lat lng player ;;
           consumed <- Player.consumeResources baseCost player ;;
           let player := snd consumed in
           now <- new_Date ;;
           movementRecord <-
             PlayerMovement.create (players.id (dataValues player))
               oldPosition (lng, lat)
               (players.country_id (dataValues player)) movement_type
               baseCost now ;;
           io <- gets app_io ;;
           (if io then
              now <- new_Date ;;
              match players.country_id (dataValues player) with
              | Some room =>
                  emit (to_room room)
                    (player_moved (players.id (dataValues player)) lat lng
                       movement_type now)
              | None => ret tt
              end
            else ret tt) ;;
           res_json 200
             (movement_successful lat lng
                (players.resources (dataValues player) - baseCost)
                movement_type (player_movements.id movementRecord))
     end)
    (fun _ =>
       res_error 500 "Internal Server Error" "Failed to update position").

(** [POST /api/players/move] with its middleware. *)
Definition move (playerId : Id) (coordinates : auth.Coordinates)
  (movement_type : option string) : Run Response :=
  authenticated <- auth.authenticateToken playerId ;;
  match authenticated with
  | inl answer => ret answer
  | inr player =>
      limited <- auth.checkMovementCooldown player ;;
      match limited with
      | Some answer => ret answer
      | None =>
          match auth.validateCoordinates coordinates with
          | inl answer => ret answer
          | inr coordinates => move_handler player coordinates movement_type
          end
      end
  end.

End players_routes.

(** ** The country routes *)

Module countries_routes.

(** [joinCountrySchema]: both fields are optional numbers within
    bounds. *)
Definition within (x : option R) (lo hi : R) : bool :=
  match x with
  | Some v => negb (Rltb v lo) && negb (Rltb hi v)
  | None => true
  end.

Definition joinCountrySchema (spawn_lat spawn_lng : option R) : bool :=
  within spawn_lat (-90) 90 && within spawn_lng (-180) 180.

(** The handler of [POST /api/countries/:id/join]. *)
Definition join_handler (player : Instance players.t) (id : Id)
  (spawn_lat spawn_lng : option R) : Run Response :=
  try_catch
    (if negb (joinCountrySchema spawn_lat spawn_lng) then
       res_json 400 (error_body "Validation Error" None)
     else
       country <- Country.findByPk id ;;
       match country with
       | None => res_error 404 "Not Found" "Country not found"
       | Some country =>
           match players.country_id (dataValues player) with
           | Some _ =>
               res_error 400 "Bad Request"
                 "You must leave your current country before joining another"
           | None =>
               if negb (Country.canAcceptNewSoldier country) then
                 res_error 400 "Bad Request"
                   "Country has reached maximum soldier capacity"
               else
                 entered <-
                   (if negb (countries.is_claimed (dataValues country)) then
                      country <- Country.claimCountry
                                   (players.id (dataValues player)) country ;;
                      CountryHistory.recordClaimed
                        (countries.id (dataValues country))
                        (players.id (dataValues player)) ;;
                      Player.increment_countries_owned player ;;
                      ret (country, true)
                    else
                      country <- Country.addSoldier country ;;
                      CountryHistory.recordSoldierJoined
                        (countries.id (dataValues country))
                        (players.id (dataValues player)) ;;
                      ret (country, false)) ;;
                 let country := fst entered in
                 let becameOwner := snd entered in
                 let updateData :=
                   players.country_id_is
                     (Some (countries.id (dataValues country)))
                   :: match spawn_lat, spawn_lng with
                      | Some spawn_lat, Some spawn_lng =>
                          [players.current_position_is
                             (Some (spawn_lng, spawn_lat))]
                      | _, _ => []
                      end in
                 player <- Player.update updateData player ;;
                 updatedCountry <-
                   Country.findByPk (countries.id (dataValues country)) ;;
                 res_json 200
                   (joined_country (option_map dataValues updatedCountry)
                      becameOwner)
           end
       end)
    (fun _ =>
       res_error 500 "Internal Server Error" "Failed to join country").

(** The handler of [POST /api/countries/:id/leave]. *)
Definition leave_handler (player : Instance players.t) (id : Id)
  : Run Response :=
  try_catch
    (if negb (opt_is (players.country_id (dataValues player)) id) then
       res_error 400 "Bad Request" "You are not a member of this country"
     else
       country <- Country.findByPk id ;;
       match country with
       | None => res_error 404 "Not Found" "Country not found"
       | Some country =>
           let wasOwner :=
             opt_is (countries.owner_id (dataValues country))
               (players.id (dataValues player)) in
           country <- Country.removeSoldier country ;;
           player <- Player.update
                       [players.country_id_is None;
                        players.current_position_is None] player ;;
           CountryHistory.recordSoldierLeft
             (countries.id (dataValues country))
             (players.id (dataValues player)) ;;
           (if wasOwner && negb (countries.is_claimed (dataValues country))
            then
              Player.decrement_countries_owned player ;;
              CountryHistory.recordUnclaimed
                (countries.id (dataValues country))
                (players.id (dataValues player))
            else ret tt) ;;
           res_json 200
             (left_country wasOwner
                (wasOwner
                 && negb (countries.is_claimed (dataValues country))))
       end)
    (fun _ =>
       res_error 500 "Internal Server Error" "Failed to leave country").

(** The handler of [PUT /api/countries/:id/settings]. *)
Definition settings_handler (country : Instance countries.t)
  (max_soldiers : option Z) (defense_strength : option R) : Run Response :=
  try_catch
    (maxAllowed <- gets (fun s =>
       parseInt_or (MAX_PLAYERS_PER_COUNTRY (process_env s)) 50) ;;
     if match max_soldiers with
        | Some max_soldiers =>
            (max_soldiers <? 1) || (maxAllowed <? max_soldiers)
        | None => false
        end then
       res_json 400
         (error_body "Bad Request" None)
     else if match defense_strength with
             | Some defense_strength =>
                 Rltb defense_strength (1 / 10)
                 || Rltb 5 defense_strength
             | None => false
             end then
       res_error 400 "Bad Request"
         "Defense strength must be between 0.1 and 5.0"
     else
       let updateData :=
         match max_soldiers with
         | Some max_soldiers => [countries.max_soldiers_is max_soldiers]
         | None => []
         end
         ++ match defense_strength with
            | Some defense_strength =>
                [countries.defense_strength_is defense_strength]
            | None => []
            end in
       country <- Country.update updateData country ;;
       res_json 200 (settings_updated (dataValues country)))
    (fun _ =>
       res_error 500 "Internal Server Error"
         "Failed to update country settings").

Definition join (playerId id : Id) (spawn_lat spawn_lng : option R)
  : Run Response :=
  authenticated <- auth.authenticateToken playerId ;;
  match authenticated with
  | inl answer => ret answer
  | inr player => join_handler player id spawn_lat spawn_lng
  end.

Definition leave (playerId id : Id) : Run Response :=
  authenticated <- auth.authenticateToken playerId ;;
  match authenticated with
  | inl answer => ret answer
  | inr player => leave_handler player id
  end.

(** The route is mounted on [/:id/settings]: the request has no
    parameter [countryId], and [requireCountryOwner] reads the country of
    the body. *)
Definition settings (playerId id : Id) (body_countryId : option Id)
  (max_soldiers : option Z) (defense_strength : option R) : Run Response :=
  authenticated <- auth.authenticateToken playerId ;;
  match authenticated with
  | inl answer => ret answer
  | inr player =>
      owned <- auth.requireCountryOwner player None body_countryId ;;
      match owned with
      | inl answer => ret answer
      | inr country => settings_handler country max_soldiers defense_strength
      end
  end.

End countries_routes.

(** ** The logout route *)

Module auth_routes.

Definition logout (playerId : Id) : Run Response :=
  authenticated <- auth.authenticateToken playerId ;;
  match authenticated with
  | inl answer => ret answer
  | inr player =>
      try_catch
        (player <- Player.update [players.is_online_is false] player ;;
         res_json 200 logout_successful)
        (fun _ =>
           res_error 500 "Internal Server Error" "Failed to logout")
  end.

End auth_routes.

(** ** The socket handler: connections and timers *)

Module socketHandler.

(** [authenticateSocket], from the player id of a token that verifies:
    the error that refuses the connection, or [socket.player]. *)
Definition authenticateSocket (playerId : Id)
  : Run (string + Instance players.t) :=
  try_catch
    (player <- Player.findByPk playerId ;;
     match player with
     | None => ret (inl "Authentication error: Player not found"%string)
     | Some player =>
         if players.is_banned (dataValues player) then
           ret (inl "Authentication error: Player is banned"%string)
         else ret (inr player)
     end)
    (fun _ => ret (inl "Authentication error: Invalid token"%string)).

(** The socket of an id. *)
Definition socket_of (sid : nat) (s : Store) : option Socket :=
  find (fun k => Nat.eqb (socket_id k) sid) (sockets s).

(** [socket.player] after a method has changed it. *)
Definition set_player (sid : nat) (player : Instance players.t)
  : Run unit :=
  modify (fun s =>
    with_sockets
      (update_where (fun k => Nat.eqb (socket_id k) sid)
         (fun k => {| socket_id := socket_id k; socket_player := player;
                      socket_rooms := socket_rooms k |}) (sockets s)) s).

(** [socket.join(`country_${id}`)], [socket.leave(`country_${id}`)] *)
Definition socket_join (sid : nat) (room : Id) : Run unit :=
  modify (fun s =>
    with_sockets
      (update_where (fun k => Nat.eqb (socket_id k) sid)
         (fun k => {| socket_id := socket_id k;
                      socket_player := socket_player k;
                      socket_rooms := Set_add room (socket_rooms k) |})
         (sockets s)) s).

Definition socket_leave (sid : nat) (room : Id) : Run unit :=
  modify (fun s =>
    with_sockets
      (update_where (fun k => Nat.eqb (socket_id k) sid)
         (fun k => {| socket_id := socket_id k;
                      socket_player := socket_player k;
                      socket_rooms := Set_delete room (socket_rooms k) |})
         (sockets s)) s).

(** The player joins the set [countryRooms] keeps for the country. *)
Definition track (country player : Id) : Run unit :=
  modify (fun s =>
    let members :=
      match Map_get country (countryRooms s) with
      | Some members => members
      | None => []
      end in
    with_countryRooms
      (Map_set country (Set_add player members) (countryRooms s)) s).

(** The player leaves that set, and an empty set leaves the map. *)
Definition untrack (country player : Id) : Run unit :=
  modify (fun s =>
    match Map_get country (countryRooms s) with
    | Some members =>
        let members := Set_delete player members in
        with_countryRooms
          (match members with
           | [] => Map_delete country (countryRooms s)
           | _ => Map_set country members (countryRooms s)
           end) s
    | None => s
    end).

Definition server_stats_now : Run Event :=
  gets (fun s =>
    server_stats (List.length (activeConnections s))
      (List.length (countryRooms s)) None).

(** The connection handler, for the socket [sid] whose handshake loaded
    [player].  The update of the online status is not awaited: here the
    values are set, the hook and the UPDATE come last, and [socket.player]
    is then as the update leaves it. *)
Definition handleConnection (sid : nat) (player : Instance players.t)
  : Run unit :=
  let pid := players.id (dataValues player) in
  modify (fun s =>
    with_sockets
      (sockets s ++ [{| socket_id := sid; socket_player := player;
                        socket_rooms := [] |}]) s) ;;
  now <- new_Date ;;
  modify (fun s =>
    with_activeConnections
      (Map_set pid {| socketId := sid; connectedAt := now |}
         (activeConnections s)) s) ;;
  now <- new_Date ;;
  let values := [players.is_online_is true; players.last_active_is now] in
  let player := Player.set values player in
  match players.country_id (dataValues player) with
  | Some country_id =>
      socket_join sid country_id ;;
      track country_id pid ;;
      now <- new_Date ;;
      emit (to_room_but country_id sid) (player_joined_country pid None now)
  | None => ret tt
  end ;;
  now <- new_Date ;;
  online <- gets (fun s => List.length (activeConnections s)) ;;
  emit (to_socket sid)
    (connection_established pid (players.country_id (dataValues player))
       (players.current_position (dataValues player))
       (players.resources (dataValues player)) now online) ;;
  stats <- server_stats_now ;;
  emit to_all stats ;;
  try_catch
    (player <- Player.save_fields (Player.keys values) player ;;
     set_player sid player)
    (fun _ => ret tt).

(** A socket connects with a token that verifies. *)
Definition connection (sid : nat) (playerId : Id) : Run unit :=
  known <- gets (socket_of sid) ;;
  match known with
  | Some _ => ret tt
  | None =>
      authenticated <- authenticateSocket playerId ;;
      match authenticated with
      | inl _ => ret tt
      | inr player => handleConnection sid player
      end
  end.

Definition emit_error (sid : nat) (message : string) : Run unit :=
  emit (to_socket sid) (error_event message).

(** [socket.on('player:move', ...)]; a coordinate that is not a number is
    absent. *)
Definition on_player_move (socket : Socket) (lat lng : option R)
  (data_movement_type : option string) : Run unit :=
  let sid := socket_id socket in
  let player := socket_player socket in
  try_catch
    (let movement_type := type_of_move data_movement_type in
     match lat, lng with
     | Some lat, Some lng =>
         if Rltb lat (-90) || Rltb 90 lat
            || Rltb lng (-180) || Rltb 180 lng then
           emit_error sid "Invalid coordinates"
         else
           ok <- Player.canMove player ;;
           if negb ok then emit_error sid "Movement is on cooldown"
           else
             player <- Player.updatePosition lat lng player ;;
             set_player sid player ;;
             match players.country_id (dataValues player) with
             | Some country_id =>
                 now <- new_Date ;;
                 emit (to_room_but country_id sid)
                   (player_moved (players.id (dataValues player)) lat lng
                      movement_type now)
             | None => ret tt
             end ;;
             now <- new_Date ;;
             emit (to_socket sid) (player_move_confirmed lat lng now)
     | _, _ => emit_error sid "Invalid coordinates"
     end)
    (fun _ => emit_error sid "Failed to process movement").

(** [socket.on('country:join', ...)] *)
Definition on_country_join (socket : Socket) (country_id : Id)
  : Run unit :=
  let sid := socket_id socket in
  let player := socket_player socket in
  let pid := players.id (dataValues player) in
  try_catch
    (match players.country_id (dataValues player) with
     | Some _ => emit_error sid "Already in a country"
     | None =>
         country <- Country.findByPk country_id ;;
         match country with
         | None => emit_error sid "Country not found"
         | Some country =>
             if negb (Country.canAcceptNewSoldier country) then
               emit_error sid "Country is full"
             else
               entered <-
                 (if negb (countries.is_claimed (dataValues country)) then
                    country <- Country.claimCountry pid country ;;
                    ret (country, true)
                  else
                    country <- Country.addSoldier country ;;
                    ret (country, false)) ;;
               let country := fst entered in
               let becameOwner := snd entered in
               let room := countries.id (dataValues country) in
               player <- Player.update
                           [players.country_id_is (Some room)] player ;;
               set_player sid player ;;
               socket_join sid room ;;
               track room pid ;;
               now <- new_Date ;;
               emit (to_room_but room sid)
                 (player_joined_country pid (Some becameOwner) now) ;;
               reloaded <- Country.findByPk room ;;
               now <- new_Date ;;
               emit (to_socket sid)
                 (country_joined (option_map dataValues reloaded)
                    becameOwner now)
         end
     end)
    (fun _ => emit_error sid "Failed to join country").

(** [socket.on('country:leave', ...)]; the country is used as it is
    found, and a missing one raises. *)
Definition on_country_leave (socket : Socket) : Run unit :=
  let sid := socket_id socket in
  let player := socket_player socket in
  let pid := players.id (dataValues player) in
  try_catch
    (match players.country_id (dataValues player) with
     | None => emit_error sid "Not in a country"
     | Some countryId =>
         country <- Country.findByPk countryId ;;
         match country with
         | None => throw "TypeError"
         | Some country =>
             let wasOwner :=
               opt_is (countries.owner_id (dataValues country)) pid in
             country <- Country.removeSoldier country ;;
             player <- Player.update
                         [players.country_id_is None;
                          players.current_position_is None] player ;;
             set_player sid player ;;
             socket_leave sid countryId ;;
             untrack countryId pid ;;
             now <- new_Date ;;
             emit (to_room_but countryId sid)
               (player_left_country pid wasOwner now) ;;
             now <- new_Date ;;
             emit (to_socket sid) (country_left wasOwner now)
         end
     end)
    (fun _ => emit_error sid "Failed to leave country").

(** [socket.on('disconnect', ...)]; the socket is gone afterwards. *)
Definition on_disconnect (socket : Socket) : Run unit :=
  let sid := socket_id socket in
  let player := socket_player socket in
  let pid := players.id (dataValues player) in
  try_catch
    (player <- Player.update [players.is_online_is false] player ;;
     set_player sid player ;;
     modify (fun s =>
       with_activeConnections (Map_delete pid (activeConnections s)) s) ;;
     match players.country_id (dataValues player) with
     | Some country_id =>
         tracked <- gets (fun s => Map_has country_id (countryRooms s)) ;;
         if tracked then
           untrack country_id pid ;;
           now <- new_Date ;;
           emit (to_room_but country_id sid) (player_disconnected pid now)
         else ret tt
     | None => ret tt
     end ;;
     stats <- server_stats_now ;;
     emit to_all stats)
    (fun _ => ret tt) ;;
  modify (fun s =>
    with_sockets
      (filter (fun k => negb (Nat.eqb (socket_id k) sid)) (sockets s)) s).

(** An event of a connected socket runs its handler. *)
Definition on (sid : nat) (handler : Socket -> Run unit) : Run unit :=
  socket <- gets (socket_of sid) ;;
  match socket with
  | Some socket => handler socket
  | None => ret tt
  end.

(** The timer of the statistics. *)
Definition stats_tick : Run unit :=
  now <- new_Date ;;
  online <- gets (fun s => List.length (activeConnections s)) ;;
  active <- gets (fun s => List.length (countryRooms s)) ;;
  emit to_all (server_stats online active (Some now)).

(** The timer of the resources. *)
Definition resource_tick : Run unit :=
  try_catch
    (claimedCountries <- Country.findAll_claimed ;;
     for_of claimedCountries (fun country =>
       country <- Country.generateResources country ;;
       tracked <- gets (fun s =>
         Map_has (countries.id (dataValues country)) (countryRooms s)) ;;
       if tracked then
         now <- new_Date ;;
         emit (to_room (countries.id (dataValues country)))
           (country_resources_generated
              (countries.id (dataValues country))
              (countries.resources (dataValues country))
              (Math_floor
                 (countries.resource_generation_rate (dataValues country)))
              now)
       else ret tt))
    (fun _ => ret tt).

End socketHandler.

(** ** The server, one request or event after the other *)

Inductive Request : Type :=
| post_move (playerId : Id) (coordinates : auth.Coordinates)
    (movement_type : option string)
| post_join (playerId id : Id) (spawn_lat spawn_lng : option R)
| post_leave (playerId id : Id)
| put_settings (playerId id : Id) (countryId : option Id)
    (max_soldiers : option Z) (defense_strength : option R)
| post_logout (playerId : Id)
| socket_connection (sid : nat) (playerId : Id)
| socket_player_move (sid : nat) (lat lng : option R)
    (movement_type : option string)
| socket_country_join (sid : nat) (country_id : Id)
| socket_country_leave (sid : nat)
| socket_disconnect (sid : nat)
| timer_resources
| timer_stats.

(** What the server does for a request; a route answers. *)
Definition serve (r : Request) : Run (option Response) :=
  match r with
  | post_move playerId coordinates movement_type =>
      answer <- players_routes.move playerId coordinates movement_type ;;
      ret (Some answer)
  | post_join playerId id spawn_lat spawn_lng =>
      answer <- countries_routes.join playerId id spawn_lat spawn_lng ;;
      ret (Some answer)
  | post_leave playerId id =>
      answer <- countries_routes.leave playerId id ;;
      ret (Some answer)
  | put_settings playerId id countryId max_soldiers defense_strength =>
      answer <- countries_routes.settings playerId id countryId
                  max_soldiers defense_strength ;;
      ret (Some answer)
  | post_logout playerId =>
      answer <- auth_routes.logout playerId ;;
      ret (Some answer)
  | socket_connection sid playerId =>
      socketHandler.connection sid playerId ;; ret None
  | socket_player_move sid lat lng movement_type =>
      socketHandler.on sid (fun socket =>
        socketHandler.on_player_move socket lat lng movement_type) ;;
      ret None
  | socket_country_join sid country_id =>
      socketHandler.on sid (fun socket =>
        socketHandler.on_country_join socket country_id) ;;
      ret None
  | socket_country_leave sid =>
      socketHandler.on sid socketHandler.on_country_leave ;; ret None
  | socket_disconnect sid =>
      socketHandler.on sid socketHandler.on_disconnect ;; ret None
  | timer_resources => socketHandler.resource_tick ;; ret None
  | timer_stats => socketHandler.stats_tick ;; ret None
  end.

Definition handle (r : Request) (s : Store) : Store := snd (serve r s).

(** The stores the server reaches from [s0]. *)
Inductive reaches (s0 : Store) : Store -> Prop :=
| reaches_start : reaches s0 s0
| reaches_handle (r : Request) (s : Store) :
    reaches s0 s -> reaches s0 (handle r s).

(** ** Specifications of computations *)

(** [returns c s Q]: run in [s], [c] returns normally, with a value and a
    final store that satisfy [Q]. *)
Definition returns {A : Type} (c : Run A) (s : Store)
  (Q : A -> Store -> Prop) : Prop :=
  exists a s', c s = (Returned a, s') /\ Q a s'.

(** The clock, the environment and the setting of the application are the
    same, and the reads of the clock and the draws of keys have not gone
    back. *)
Definition steady (s s' : Store) : Prop :=
  wall_clock s' = wall_clock s
  /\ process_env s' = process_env s
  /\ app_io s' = app_io s
  /\ (clock_reads s <= clock_reads s')%nat
  /\ (uuid_counter s <= uuid_counter s')%nat.

(** The primary keys of players and countries are keys. *)
Definition keyed (s : Store) : Prop :=
  NoDup (map players.id (tbl_players s))
  /\ NoDup (map countries.id (tbl_countries s)).

(** The stored row of a player, of a country. *)
Definition player_row (id : Id) (s : Store) : option players.t :=
  find (fun r => same_id (players.id r) id) (tbl_players s).

Definition country_row (id : Id) (s : Store) : option countries.t :=
  find (fun r => same_id (countries.id r) id) (tbl_countries s).

(** The row the update hook of a player leaves of an instance, and the
    store after the read of the clock it may make. *)
Definition player_hooked (this : Instance players.t) (s : Store)
  : players.t :=
  if Player.changed players.is_online_col this
     && players.is_online (dataValues this)
  then players.set_last_active (wall_clock s (clock_reads s))
         (dataValues this)
  else dataValues this.

Definition player_hook_read (this : Instance players.t) (s : Store)
  : Store :=
  if Player.changed players.is_online_col this
     && players.is_online (dataValues this)
  then with_clock_reads (S (clock_reads s)) s
  else s.

(** The same for the update hook of a country. *)
Definition country_hooked (this : Instance countries.t) (s : Store)
  : countries.t :=
  if Country.changed countries.is_claimed_col this
     || Country.changed countries.soldier_count_col this
  then countries.set_last_activity (wall_clock s (clock_reads s))
         (dataValues this)
  else dataValues this.

Definition country_hook_read (this : Instance countries.t) (s : Store)
  : Store :=
  if Country.changed countries.is_claimed_col this
     || Country.changed countries.soldier_count_col this
  then with_clock_reads (S (clock_reads s)) s
  else s.

(** Writing the row [v] over the row of its key. *)
Definition put_player (v : players.t) (s : Store) : Store :=
  with_players
    (update_where (fun r => same_id (players.id r) (players.id v))
       (fun _ => v) (tbl_players s)) s.

Definition put_country (v : countries.t) (s : Store) : Store :=
  with_countries
    (update_where (fun r => same_id (countries.id r) (countries.id v))
       (fun _ => v) (tbl_countries s)) s.

(** ** What the handlers leave

    The rows and stores the properties below speak of. *)

(** [authenticateToken] lets a player through: their row is stamped with
    a reading of the clock, the first one of the request or, when the
    player comes online, the one the update hook makes after it. *)
Definition seen_at (p : players.t) (s : Store) : nat :=
  if players.is_online p then clock_reads s else S (clock_reads s).

Definition seen (p : players.t) (s : Store) : players.t :=
  players.set_is_online true
    (players.set_last_active (wall_clock s (seen_at p s)) p).

Definition after_seen (p : players.t) (s : Store) : Store :=
  put_player (seen p s) (with_clock_reads (S (seen_at p s)) s).


(** The cooldown of a move, and a player for whom it has passed at every
    reading of the clock from the store on. *)
Definition cooldown (s : Store) : Z :=
  parseInt_or (MOVEMENT_COOLDOWN_MS (process_env s)) 1000.

Definition rested (p : players.t) (s : Store) : Prop :=
  match players.last_movement p with
  | Some last_movement =>
      forall n, (clock_reads s <= n)%nat ->
        cooldown s <= wall_clock s n - last_movement
  | None => True
  end.

(** A player for whom it has not passed at any of them. *)
Definition restless (p : players.t) (s : Store) : Prop :=
  exists last_movement,
    players.last_movement p = Some last_movement
    /\ forall n, (clock_reads s <= n)%nat ->
         wall_clock s n - last_movement < cooldown s.

(** The reads of the clock once [checkMovementCooldown] has let a
    player through. *)
Definition cooled_reads (p : players.t) (s : Store) : nat :=
  match players.last_movement p with
  | Some _ => S (clock_reads s)
  | None => clock_reads s
  end.

(** The row of a player after a move to [(lat, lng)] at the time [t] for
    the price [cost]. *)
Definition moved (p : players.t) (lat lng : R) (t cost : Z) : players.t :=
  players.set_resources (players.resources p - cost)
    (players.set_last_movement (Some t)
       (players.set_current_position (Some (lng, lat)) p)).

(** The movement the route records for it under the key [id]. *)
Definition recorded (id : Id) (p : players.t) (lat lng : R)
  (movement_type : string) (cost t : Z) : player_movements.t :=
  {| player_movements.id := id;
     player_movements.player_id := players.id p;
     player_movements.from_position := players.current_position p;
     player_movements.to_position := (lng, lat);
     player_movements.country_id := players.country_id p;
     player_movements.movement_type := movement_type;
     player_movements.distance_meters :=
       match players.current_position p with
       | Some _ => 100
       | None => 0
       end;
     player_movements.duration_seconds := 0;
     player_movements.speed_mps := 1;
     player_movements.resources_consumed := cost;
     player_movements.is_valid := true;
     player_movements.violation_reason := None;
     player_movements.timestamp := t |}.

(** *** Countries *)

(** The row of a country once [claimCountry], [addSoldier],
    [removeSoldier] and [generateResources] have saved it; [t'] is the
    reading of the clock by the update hook. *)
Definition claimed (c : countries.t) (playerId : Id) (t t' : Z)
  : countries.t :=
  countries.set_last_activity t'
    (countries.set_soldier_count 1
       (countries.set_claimed_at (Some t)
          (countries.set_owner_id (Some playerId)
             (countries.set_is_claimed true c)))).

Definition reinforced (c : countries.t) (t' : Z) : countries.t :=
  countries.set_last_activity t'
    (countries.set_soldier_count (countries.soldier_count c + 1) c).

Definition reduced (c : countries.t) (t' : Z) : countries.t :=
  let c := countries.set_soldier_count (countries.soldier_count c - 1) c in
  countries.set_last_activity t'
    (if (countries.soldier_count c =? 0) && countries.is_claimed c then
       countries.set_claimed_at None
         (countries.set_owner_id None (countries.set_is_claimed false c))
     else c).

Definition supplied (c : countries.t) : countries.t :=
  countries.set_resources
    (countries.resources c
     + Math_floor (countries.resource_generation_rate c)) c.

(** The notice the room of a supplied country gets. *)
Definition supply_notice (c : countries.t) (now : Z) : Emit :=
  mkEmit (to_room (countries.id c))
    (country_resources_generated (countries.id c)
       (countries.resources (supplied c))
       (Math_floor (countries.resource_generation_rate c)) now).

(** The row once the settings route has updated it. *)
Definition adjusted (c : countries.t) (max_soldiers : option Z)
  (defense_strength : option R) : countries.t :=
  let c := match max_soldiers with
           | Some m => countries.set_max_soldiers m c
           | None => c
           end in
  match defense_strength with
  | Some d => countries.set_defense_strength d c
  | None => c
  end.

(** One write to the row of a country, and the course of a row. *)
Inductive country_step : countries.t -> countries.t -> Prop :=
| country_claimed (c : countries.t) (playerId : Id) (t t' : Z) :
    countries.is_claimed c = false ->
    country_step c (claimed c playerId t t')
| country_reinforced (c : countries.t) (t' : Z) :
    countries.is_claimed c = true ->
    countries.soldier_count c < countries.max_soldiers c ->
    country_step c (reinforced c t')
| country_reduced (c : countries.t) (t' : Z) :
    0 < countries.soldier_count c ->
    country_step c (reduced c t')
| country_adjusted (c : countries.t) (max_soldiers : option Z)
    (defense_strength : option R) :
    country_step c (adjusted c max_soldiers defense_strength)
| country_supplied (c : countries.t) :
    countries.is_claimed c = true ->
    country_step c (supplied c).

Inductive country_life : countries.t -> countries.t -> Prop :=
| country_stays (c : countries.t) : country_life c c
| country_then (c c' c'' : countries.t) :
    country_life c c' -> country_step c' c'' -> country_life c c''.

Definition countries_move (s s' : Store) : Prop :=
  Forall2 country_life (tbl_countries s) (tbl_countries s').

(** The membership columns of a country agree: a claimed country has an
    owner, a date of claim and at least one soldier; an unclaimed one has
    none of them. *)
Definition consistent (c : countries.t) : Prop :=
  if countries.is_claimed c then
    1 <= countries.soldier_count c
    /\ countries.owner_id c <> None
    /\ countries.claimed_at c <> None
  else
    countries.soldier_count c = 0
    /\ countries.owner_id c = None
    /\ countries.claimed_at c = None.

(** A run from a store where the keys of the countries are distinct
    writes the rows of the countries by the steps above. *)
Definition moves_countries {A : Type} (c : Run A) : Prop :=
  forall s, NoDup (map countries.id (tbl_countries s)) ->
            countries_move s (snd (c s)).

(** *** Runs that keep a relation *)

Definition keeps {A : Type} (R : Store -> Store -> Prop) (c : Run A)
  : Prop :=
  forall s, R s (snd (c s)).

(** A preorder on stores that the clock, the UUID supply and the
    emissions do not leave. *)
Class Trail (R : Store -> Store -> Prop) : Prop := {
  trail_refl : forall s, R s s;
  trail_trans : forall s1 s2 s3, R s1 s2 -> R s2 s3 -> R s1 s3;
  trail_clock : forall n s, R s (with_clock_reads n s);
  trail_uuid : forall n s, R s (with_uuid_counter n s);
  trail_emitted : forall es s, R s (with_emitted es s)
}.

(** Relations that the sockets and the maps of the socket handler do not
    leave. *)
Class Besides_sockets (R : Store -> Store -> Prop) : Prop :=
  besides_sockets : forall v s, R s (with_sockets v s).

Class Besides_connections (R : Store -> Store -> Prop) : Prop :=
  besides_connections : forall v s, R s (with_activeConnections v s).

Class Besides_rooms (R : Store -> Store -> Prop) : Prop :=
  besides_rooms : forall v s, R s (with_countryRooms v s).

(** Relations that writes to one table do not leave. *)
Class Besides_players (R : Store -> Store -> Prop) : Prop :=
  besides_players : forall v s, R s (with_players v s).

Class Besides_countries (R : Store -> Store -> Prop) : Prop :=
  besides_countries : forall v s, R s (with_countries v s).

Class Besides_movements (R : Store -> Store -> Prop) : Prop :=
  besides_movements : forall v s, R s (with_player_movements v s).

Class Besides_history (R : Store -> Store -> Prop) : Prop :=
  besides_history : forall v s, R s (with_country_history v s).

(** No row of a country, of a player, of a movement, of the history was
    written. *)
Definition countries_kept (s s' : Store) : Prop :=
  tbl_countries s' = tbl_countries s.

Definition players_kept (s s' : Store) : Prop :=
  tbl_players s' = tbl_players s.

Definition movements_kept (s s' : Store) : Prop :=
  tbl_player_movements s' = tbl_player_movements s.

Definition history_kept (s s' : Store) : Prop :=
  tbl_country_history s' = tbl_country_history s.

(** *** The head count *)

(** The players stored as soldiers of a country, and their number. *)
Definition is_member (country : Id) (p : players.t) : bool :=
  opt_is (players.country_id p) country.

Definition members (country : Id) (s : Store) : Z :=
  Z.of_nat (List.length (filter (is_member country) (tbl_players s))).

(** The soldier count of every country is the number of its members. *)
Definition head_count (s : Store) : Prop :=
  Forall (fun c => countries.soldier_count c = members (countries.id c) s)
    (tbl_countries s).

(** The keys of the players are the same. *)
Definition player_ids_kept (s s' : Store) : Prop :=
  map players.id (tbl_players s') = map players.id (tbl_players s).

(** No socket was opened, closed or changed. *)
Definition sockets_kept (s s' : Store) : Prop :=
  sockets s' = sockets s.

(** The membership of no player and the soldier count of no country was
    written. *)
Definition census_kept (s s' : Store) : Prop :=
  map (fun p => (players.id p, players.country_id p)) (tbl_players s')
  = map (fun p => (players.id p, players.country_id p)) (tbl_players s)
  /\ map (fun c => (countries.id c, countries.soldier_count c))
       (tbl_countries s')
     = map (fun c => (countries.id c, countries.soldier_count c))
         (tbl_countries s).

(** Relations that an update of players which keeps their membership,
    and an update of countries which keeps their soldier count, do not
    leave. *)
Class Besides_stamps (R : Store -> Store -> Prop) : Prop :=
  besides_stamps : forall sel f s,
    (forall r, players.id (f r) = players.id r
               /\ players.country_id (f r) = players.country_id r) ->
    R s (with_players (update_where sel f (tbl_players s)) s).

Class Besides_supplies (R : Store -> Store -> Prop) : Prop :=
  besides_supplies : forall sel f s,
    (forall r, countries.id (f r) = countries.id r
               /\ countries.soldier_count (f r) = countries.soldier_count r) ->
    R s (with_countries (update_where sel f (tbl_countries s)) s).

(** An instance without unsaved changes. *)
Definition clean {A : Type} (this : Instance A) : Prop :=
  _previousDataValues this = dataValues this.

(** The instances the sockets hold have no unsaved changes. *)
Definition sockets_clean (s : Store) : Prop :=
  Forall (fun k => clean (socket_player k)) (sockets s).

(** From a store whose sockets hold no unsaved changes: the census is
    kept, and the sockets hold none afterwards. *)
Definition census_tidy (s s' : Store) : Prop :=
  sockets_clean s -> census_kept s s' /\ sockets_clean s'.

(** Relations that a change of the sockets which leaves their instances
    without unsaved changes does not leave. *)
Class Besides_clean_sockets (R : Store -> Store -> Prop) : Prop :=
  besides_clean_sockets : forall v s,
    (sockets_clean s -> Forall (fun k => clean (socket_player k)) v) ->
    R s (with_sockets v s).

(** Relations that may take for granted that the sockets of the first
    store hold no unsaved changes. *)
Class Given_clean_sockets (R : Store -> Store -> Prop) : Prop :=
  given_clean_sockets : forall s s',
    (sockets_clean s -> R s s') -> R s s'.

(** [tidy R c Good]: a run of [c] leads to a store that [R] relates to
    the one it started from, and what it returns is [Good]. *)
Definition tidy {A : Type} (R : Store -> Store -> Prop) (c : Run A)
  (Good : A -> Prop) : Prop :=
  forall s,
    R s (snd (c s))
    /\ match fst (c s) with
       | Returned a => Good a
       | Threw _ => True
       end.

(** The requests other than joining and leaving a country over a
    socket. *)
Definition by_route (r : Request) : Prop :=
  match r with
  | socket_country_join _ _ | socket_country_leave _ => False
  | _ => True
  end.

(** The stores the server reaches from [s0] by requests that are
    [allowed]. *)
Inductive reaches_by (allowed : Request -> Prop) (s0 : Store)
  : Store -> Prop :=
| reaches_by_start : reaches_by allowed s0 s0
| reaches_by_handle (r : Request) (s : Store) :
    reaches_by allowed s0 s -> allowed r ->
    reaches_by allowed s0 (handle r s).

(** ** A small realm

    Alice owns country 10 and Carol is a soldier of it; Bob has no
    country; country 20 is unclaimed.  The clock ticks a second at each
    read. *)

Module Scene.

Definition env : Env :=
  {| MOVEMENT_COOLDOWN_MS := None; MAX_PLAYERS_PER_COUNTRY := None |}.

Definition player (id : Id) (country_id : option Id) (owned : Z)
  : players.t :=
  {| players.id := id;
     players.country_id := country_id;
     players.current_position := None;
     players.last_movement := None;
     players.resources := 100;
     players.countries_owned := owned;
     players.is_online := false;
     players.last_active := 0;
     players.is_banned := false;
     players.ban_reason := None;
     players.ban_expires := None |}.

Definition alice : players.t := player 1%nat (Some 10%nat) 1.
Definition bob : players.t := player 2%nat None 0.
Definition carol : players.t := player 3%nat (Some 10%nat) 0.

Definition homeland : countries.t :=
  {| countries.id := 10%nat;
     countries.is_claimed := true;
     countries.owner_id := Some 1%nat;
     countries.claimed_at := Some 0;
     countries.soldier_count := 2;
     countries.max_soldiers := 50;
     countries.defense_strength := 1;
     countries.resources := 1000;
     countries.resource_generation_rate := 1;
     countries.last_activity := 0 |}.

Definition wilderness : countries.t :=
  {| countries.id := 20%nat;
     countries.is_claimed := false;
     countries.owner_id := None;
     countries.claimed_at := None;
     countries.soldier_count := 0;
     countries.max_soldiers := 50;
     countries.defense_strength := 1;
     countries.resources := 1000;
     countries.resource_generation_rate := 1;
     countries.last_activity := 0 |}.

Definition clock (n : nat) : Z := 1000000 + 1000 * Z.of_nat n.

Definition start : Store :=
  {| tbl_players := [alice; bob; carol];
     tbl_countries := [homeland; wilderness];
     tbl_player_movements := [];
     tbl_country_history := [];
     sockets := [];
     activeConnections := [];
     countryRooms := [];
     emitted := [];
     wall_clock := clock;
     clock_reads := 0%nat;
     uuid_counter := 100%nat;
     process_env := env;
     app_io := false |}.

(** Dave moved half a second ago, by a clock that stands still. *)
Definition dave : players.t :=
  players.set_last_movement (Some 4500) (player 4%nat (Some 10%nat) 0).

Definition standstill : Store :=
  {| tbl_players := [dave];
     tbl_countries := [homeland];
     tbl_player_movements := [];
     tbl_country_history := [];
     sockets := [];
     activeConnections := [];
     countryRooms := [];
     emitted := [];
     wall_clock := fun _ => 5000;
     clock_reads := 0%nat;
     uuid_counter := 100%nat;
     process_env := env;
     app_io := false |}.



(** A body that asks for the point [(lat, lng)]. *)
Definition point (lat lng : R) : auth.Coordinates :=
  {| auth.lat := Some (JNum lat); auth.lng := Some (JNum lng);
     auth.latitude := None; auth.longitude := None |}.

End Scene.

End Realm.
(** * Validators, column-wise saves and the middleware of the game routes

    The first part embeds [save] of a border push as a hook, the UPDATE of
    the whole row and a hook, and embeds a game route as its handler.  This
    part embeds them once more with what the first part leaves aside:
    - the attribute validators of [BorderPush], which [save] and [create]
      run before the hooks, and [save] once more on the columns the hook
      changed;
    - the UPDATE of the changed columns only;
    - the middleware [requireCountryMember] and [validateCoordinates] and
      the schema of the routes that start, join and defend a border push;
    - the setting ['io'] of the application, which server.js never makes,
      so that [req.app.get('io')] is [undefined] in a route;
    - the await of the route that declares a war at which the handler of
      another request can run.

    Conventions, beyond those of the first part.
    - An identifier in a request is a UUID; a key of a body that holds one
      is absent or holds it.
    - A number is a real number.  The quotient of a division is that of
      JavaScript when the divisor is not zero; where JavaScript has an
      infinity or NaN, the model has a real number in its place, and what
      is proved of a speed is proved for divisors that are not zero.
      Whether a [save] passes the validators does not depend on it: the
      bounded speed is within its bounds in the model, and in JavaScript
      it is within them or NaN, which [min] and [max] let pass; and a
      root of a negative count comes with a count that fails its own
      validator.
    - The columns [push_position] and [push_direction] have no validator
      and no method writes them; they are not in the row. *)

Module Checked.

(** ** The columns of [border_pushes] *)

(** The columns an UPDATE can name. *)
Inductive column : Type :=
| war_id_col
| player_id_col
| source_country_id_col
| target_country_id_col
| started_at_col
| ended_at_col
| status_col
| push_strength_col
| resistance_strength_col
| terrain_modifier_col
| distance_pushed_col
| territory_gained_col
| resources_consumed_col
| supporting_soldiers_col
| defending_soldiers_col
| duration_seconds_col
| push_speed_col
| last_update_col.

Definition columns : list column :=
  [war_id_col; player_id_col; source_country_id_col; target_country_id_col;
   started_at_col; ended_at_col; status_col; push_strength_col;
   resistance_strength_col; terrain_modifier_col; distance_pushed_col;
   territory_gained_col; resources_consumed_col; supporting_soldiers_col;
   defending_soldiers_col; duration_seconds_col; push_speed_col;
   last_update_col].

(** [_.isEqual] on numbers and on dates that may be null. *)
Definition same_number (a b : R) : bool :=
  if Req_dec_T a b then true else false.

Definition same_date (a b : option Z) : bool :=
  match a, b with
  | Some x, Some y => x =? y
  | None, None => true
  | _, _ => false
  end.

(** The two rows differ in the column. *)
Definition differs (key : column) (a b : border_pushes.t) : bool :=
  match key with
  | war_id_col =>
      negb (same_id (border_pushes.war_id a) (border_pushes.war_id b))
  | player_id_col =>
      negb (same_id (border_pushes.player_id a) (border_pushes.player_id b))
  | source_country_id_col =>
      negb (same_id (border_pushes.source_country_id a)
              (border_pushes.source_country_id b))
  | target_country_id_col =>
      negb (same_id (border_pushes.target_country_id a)
              (border_pushes.target_country_id b))
  | started_at_col =>
      negb (border_pushes.started_at a =? border_pushes.started_at b)
  | ended_at_col =>
      negb (same_date (border_pushes.ended_at a) (border_pushes.ended_at b))
  | status_col =>
      negb (border_pushes.status_eqb (border_pushes.status a)
              (border_pushes.status b))
  | push_strength_col =>
      negb (same_number (border_pushes.push_strength a)
              (border_pushes.push_strength b))
  | resistance_strength_col =>
      negb (same_number (border_pushes.resistance_strength a)
              (border_pushes.resistance_strength b))
  | terrain_modifier_col =>
      negb (same_number (border_pushes.terrain_modifier a)
              (border_pushes.terrain_modifier b))
  | distance_pushed_col =>
      negb (same_number (border_pushes.distance_pushed a)
              (border_pushes.distance_pushed b))
  | territory_gained_col =>
      negb (same_number (border_pushes.territory_gained a)
              (border_pushes.territory_gained b))
  | resources_consumed_col =>
      negb (border_pushes.resources_consumed a
            =? border_pushes.resources_consumed b)
  | supporting_soldiers_col =>
      negb (border_pushes.supporting_soldiers a
            =? border_pushes.supporting_soldiers b)
  | defending_soldiers_col =>
      negb (border_pushes.defending_soldiers a
            =? border_pushes.defending_soldiers b)
  | duration_seconds_col =>
      negb (border_pushes.duration_seconds a
            =? border_pushes.duration_seconds b)
  | push_speed_col =>
      negb (same_number (border_pushes.push_speed a)
              (border_pushes.push_speed b))
  | last_update_col =>
      negb (border_pushes.last_update a =? border_pushes.last_update b)
  end.

(** [UPDATE ... SET <fields>]: the row [old] with the columns [fields]
    taken from [new]. *)
Definition write (fields : column -> bool) (new old : border_pushes.t)
  : border_pushes.t :=
  {| border_pushes.id := border_pushes.id old;
     border_pushes.war_id :=
       if fields war_id_col then border_pushes.war_id new
       else border_pushes.war_id old;
     border_pushes.player_id :=
       if fields player_id_col then border_pushes.player_id new
       else border_pushes.player_id old;
     border_pushes.source_country_id :=
       if fields source_country_id_col then border_pushes.source_country_id new
       else border_pushes.source_country_id old;
     border_pushes.target_country_id :=
       if fields target_country_id_col then border_pushes.target_country_id new
       else border_pushes.target_country_id old;
     border_pushes.started_at :=
       if fields started_at_col then border_pushes.started_at new
       else border_pushes.started_at old;
     border_pushes.ended_at :=
       if fields ended_at_col then border_pushes.ended_at new
       else border_pushes.ended_at old;
     border_pushes.status :=
       if fields status_col then border_pushes.status new
       else border_pushes.status old;
     border_pushes.push_strength :=
       if fields push_strength_col then border_pushes.push_strength new
       else border_pushes.push_strength old;
     border_pushes.resistance_strength :=
       if fields resistance_strength_col then border_pushes.resistance_strength new
       else border_pushes.resistance_strength old;
     border_pushes.terrain_modifier :=
       if fields terrain_modifier_col then border_pushes.terrain_modifier new
       else border_pushes.terrain_modifier old;
     border_pushes.distance_pushed :=
       if fields distance_pushed_col then border_pushes.distance_pushed new
       else border_pushes.distance_pushed old;
     border_pushes.territory_gained :=
       if fields territory_gained_col then border_pushes.territory_gained new
       else border_pushes.territory_gained old;
     border_pushes.resources_consumed :=
       if fields resources_consumed_col then border_pushes.resources_consumed new
       else border_pushes.resources_consumed old;
     border_pushes.supporting_soldiers :=
       if fields supporting_soldiers_col then border_pushes.supporting_soldiers new
       else border_pushes.supporting_soldiers old;
     border_pushes.defending_soldiers :=
       if fields defending_soldiers_col then border_pushes.defending_soldiers new
       else border_pushes.defending_soldiers old;
     border_pushes.duration_seconds :=
       if fields duration_seconds_col then border_pushes.duration_seconds new
       else border_pushes.duration_seconds old;
     border_pushes.push_speed :=
       if fields push_speed_col then border_pushes.push_speed new
       else border_pushes.push_speed old;
     border_pushes.last_update :=
       if fields last_update_col then border_pushes.last_update new
       else border_pushes.last_update old |}.

(** ** The validators of the attributes *)

(** [validate: { min: lo }] and [validate: { max: hi }] on a number. *)
Definition min (lo x : R) : bool := if Rle_dec lo x then true else false.
Definition max (hi x : R) : bool := if Rle_dec x hi then true else false.

(** The value of the column passes the validators of its attribute. *)
Definition passes (key : column) (r : border_pushes.t) : bool :=
  match key with
  | push_strength_col =>
      min 0.1 (border_pushes.push_strength r)
      && max 10.0 (border_pushes.push_strength r)
  | resistance_strength_col =>
      min 0.1 (border_pushes.resistance_strength r)
      && max 10.0 (border_pushes.resistance_strength r)
  | terrain_modifier_col =>
      min 0.1 (border_pushes.terrain_modifier r)
      && max 5.0 (border_pushes.terrain_modifier r)
  | distance_pushed_col => min 0 (border_pushes.distance_pushed r)
  | territory_gained_col => min 0 (border_pushes.territory_gained r)
  | resources_consumed_col => 0 <=? border_pushes.resources_consumed r
  | supporting_soldiers_col => 1 <=? border_pushes.supporting_soldiers r
  | defending_soldiers_col => 0 <=? border_pushes.defending_soldiers r
  | duration_seconds_col => 0 <=? border_pushes.duration_seconds r
  | push_speed_col =>
      min 0.1 (border_pushes.push_speed r)
      && max 5.0 (border_pushes.push_speed r)
  | _ => true
  end.


(** ** BorderPush *)

Module BorderPush.

(** [this.changed(key)] *)
Definition changed (key : column) (this : Instance border_pushes.t) : bool :=
  differs key (_previousDataValues this) (dataValues this).

(** [this.validate({ skip })], where [fields] are the columns not skipped. *)
Definition validate (fields : column -> bool)
  (this : Instance border_pushes.t) : M unit :=
  if forallb (fun key => negb (fields key) || passes key (dataValues this))
       columns
  then ret tt
  else throw "SequelizeValidationError".

(** [this.save()] of a stored instance: the changed columns are validated,
    the hook runs, the columns it changed are validated and join the
    others, and one UPDATE writes them, unless there is none; then the
    hook after the update runs. *)
Definition save (this : Instance border_pushes.t)
  : M (Instance border_pushes.t) :=
  let fields := fun key => changed key this in
  validate fields this ;;
  after <- BorderPush.beforeUpdate this ;;
  let hookChanged := fun key =>
    changed key after
    && (negb (fields key)
        || differs key (dataValues this) (dataValues after)) in
  validate hookChanged after ;;
  let fields := fun key => fields key || hookChanged key in
  if negb (existsb fields columns)
     || negb (existsb (fun key => changed key after) columns) then
    ret after
  else
    modify (fun w =>
      with_border_pushes
        (update_where
           (fun r => same_id (border_pushes.id r)
                       (border_pushes.id (dataValues after)))
           (write fields (dataValues after)) (tbl_border_pushes w)) w) ;;
    BorderPush.afterUpdate after ;;
    ret {| dataValues := dataValues after;
           _previousDataValues :=
             write fields (dataValues after) (_previousDataValues after) |}.

(** [BorderPush.prototype.addSupportingSoldier] *)
Definition addSupportingSoldier (this : Instance border_pushes.t)
  : M (Instance border_pushes.t) :=
  let this := assign (fun r => border_pushes.set_supporting_soldiers
                         (border_pushes.supporting_soldiers r + 1) r) this in
  let baseStrength := 1.0%R in
  let soldierMultiplier :=
    Math_sqrt (IZR (border_pushes.supporting_soldiers (dataValues this))) in
  let this := assign (border_pushes.set_push_strength
                        (baseStrength * soldierMultiplier)%R) this in
  let strengthMultiplier :=
    (border_pushes.push_strength (dataValues this)
     / border_pushes.resistance_strength (dataValues this))%R in
  let terrainMultiplier :=
    (1 / border_pushes.terrain_modifier (dataValues this))%R in
  let baseSpeed := 1.0%R in
  let this := assign (border_pushes.set_push_speed
                        (Math_max 0.1 (Math_min 5.0
                           (baseSpeed * strengthMultiplier
                            * terrainMultiplier)%R))) this in
  save this.

(** [BorderPush.prototype.addDefendingSoldier] *)
Definition addDefendingSoldier (this : Instance border_pushes.t)
  : M (Instance border_pushes.t) :=
  let this := assign (fun r => border_pushes.set_defending_soldiers
                         (border_pushes.defending_soldiers r + 1) r) this in
  let baseResistance := 1.0%R in
  let defenseMultiplier :=
    Math_sqrt (IZR (border_pushes.defending_soldiers (dataValues this))) in
  let this := assign (border_pushes.set_resistance_strength
                        (baseResistance * defenseMultiplier)%R) this in
  let strengthMultiplier :=
    (border_pushes.push_strength (dataValues this)
     / border_pushes.resistance_strength (dataValues this))%R in
  let terrainMultiplier :=
    (1 / border_pushes.terrain_modifier (dataValues this))%R in
  let baseSpeed := 1.0%R in
  let this := assign (border_pushes.set_push_speed
                        (Math_max 0.1 (Math_min 5.0
                           (baseSpeed * strengthMultiplier
                            * terrainMultiplier)%R))) this in
  save this.

(** [BorderPush.create] with the attributes the route supplies: the other
    attributes take their defaults, every column is validated, the hook
    runs and the row is inserted. *)
Definition create (war_id player_id source_country_id target_country_id : Id)
  (push_strength terrain_modifier : R) (resources_consumed : Z)
  : M (Instance border_pushes.t) :=
  id <- UUIDV4 ;;
  started_at <- new_Date ;;
  last_update <- new_Date ;;
  let borderPush :=
    {| border_pushes.id := id;
       border_pushes.war_id := war_id;
       border_pushes.player_id := player_id;
       border_pushes.source_country_id := source_country_id;
       border_pushes.target_country_id := target_country_id;
       border_pushes.started_at := started_at;
       border_pushes.ended_at := None;
       border_pushes.status := border_pushes.active;
       border_pushes.push_strength := push_strength;
       border_pushes.resistance_strength := 1.0%R;
       border_pushes.terrain_modifier := terrain_modifier;
       border_pushes.distance_pushed := 0%R;
       border_pushes.territory_gained := 0%R;
       border_pushes.resources_consumed := resources_consumed;
       border_pushes.supporting_soldiers := 1;
       border_pushes.defending_soldiers := 0;
       border_pushes.duration_seconds := 0;
       border_pushes.push_speed := 1.0%R;
       border_pushes.last_update := last_update |} in
  validate (fun _ => true) (build borderPush) ;;
  let borderPush := BorderPush.beforeCreate borderPush in
  modify (fun w =>
    with_border_pushes (tbl_border_pushes w ++ [borderPush]) w) ;;
  ret (build borderPush).

End BorderPush.

(** ** Middleware *)

Definition refusal (code : Z) (e : string) : Response :=
  {| http_status := code; error := Some e |}.

(** [requireCountryMember]: the answer that ends the request, or
    [req.country]. *)
Definition requireCountryMember (player : Instance players.t)
  (params_countryId body_countryId : option Id)
  : M (Response + Instance countries.t) :=
  try_catch
    (match match params_countryId with
           | Some countryId => Some countryId
           | None => body_countryId
           end with
     | None => ret (inl (refusal 400 "Bad request"))
     | Some countryId =>
         if negb (opt_is (players.country_id (dataValues player)) countryId)
         then ret (inl (refusal 403 "Access denied"))
         else
           country <- Country.findByPk countryId ;;
           match country with
           | None => ret (inl (refusal 404 "Not found"))
           | Some country => ret (inr country)
           end
     end)
    (fun _ => ret (inl (refusal 500 "Internal server error"))).

(** The answer of [validateCoordinates], which the second part embeds, as
    an answer of this part. *)
Definition refused (r : Realm.Response) : Response :=
  {| http_status := Realm.http_status r;
     error :=
       match Realm.body r with
       | Realm.error_body e _ => Some e
       | _ => None
       end |}.

(** ** The game routes *)

Module game.

(** The body of a request that starts a border push: the keys the
    middleware and the schema name. *)
Record Body : Type := mkBody {
  countryId : option Id;
  target_country_id : option Id;
  coordinates : Realm.auth.Coordinates;
  direction_lat : option Realm.Json;
  direction_lng : option Realm.Json
}.

(** What the handler takes from the value of the schema. *)
Record Value : Type := mkValue {
  value_target_country_id : Id;
  value_direction_lat : R;
  value_direction_lng : R
}.

Section Schema.

(** [Joi.number()]: the number a value is or converts to. *)
Variable Joi_number : Realm.Json -> option R.

(** [Joi.number().min(lo).max(hi).required()] *)
Definition number_between (lo hi : R) (v : option Realm.Json) : option R :=
  match v with
  | Some v =>
      match Joi_number v with
      | Some x =>
          if Realm.Rltb x lo || Realm.Rltb hi x then None else Some x
      | None => None
      end
  | None => None
  end.

(** [borderPushSchema.validate(req.body)]: the value, or nothing when
    there is an error.  An object schema does not allow a key it does not
    name: [countryId], [latitude], [longitude]. *)
Definition borderPushSchema_validate (body : Body) : option Value :=
  match countryId body, Realm.auth.latitude (coordinates body),
        Realm.auth.longitude (coordinates body) with
  | None, None, None =>
      match target_country_id body,
            number_between (-90) 90 (Realm.auth.lat (coordinates body)),
            number_between (-180) 180 (Realm.auth.lng (coordinates body)),
            number_between (-1) 1 (direction_lat body),
            number_between (-1) 1 (direction_lng body) with
      | Some target, Some _, Some _, Some direction_lat,
        Some direction_lng =>
          Some {| value_target_country_id := target;
                  value_direction_lat := direction_lat;
                  value_direction_lng := direction_lng |}
      | _, _, _, _, _ => None
      end
  | _, _, _ => None
  end.

(** [POST /api/game/border-push]; [io] is [req.app.get('io')]. *)
Definition border_push (io : bool) (player : Instance players.t)
  (body : Body) : M Response :=
  member <- requireCountryMember player None (countryId body) ;;
  match member with
  | inl answer => ret answer
  | inr _ =>
  match Realm.auth.validateCoordinates (coordinates body) with
  | inl answer => ret (refused answer)
  | inr _ =>
  try_catch
    (match borderPushSchema_validate body with
     | None => json_error 400 "Validation Error"
     | Some value =>
     let target_country_id := value_target_country_id value in
     (* Find active war *)
     war <-
       War.findOne
         (fun r =>
            opt_is (players.country_id (dataValues player))
              (wars.aggressor_country_id r)
            && same_id (wars.defender_country_id r) target_country_id
            && War.is_active (wars.status r)) ;;
     match war with
     | None => json_error 400 "Bad Request"
     | Some war =>
     (* Check border push cooldown *)
     cooldown <-
       gets (fun w =>
         parseInt_or (BORDER_PUSH_COOLDOWN_MS (process_env w)) 5000) ;;
     lastPush <-
       BorderPush.findOne_latest
         (fun r => same_id (border_pushes.player_id r)
                     (players.id (dataValues player))) ;;
     if match lastPush with
        | Some lastPush =>
            BorderPush.is_active (border_pushes.status (dataValues lastPush))
        | None => false
        end
     then json_error 400 "Bad Request" else
     limited <-
       match lastPush with
       | Some lastPush =>
           now <- new_Date ;;
           let timeSinceLastPush :=
             now - border_pushes.started_at (dataValues lastPush) in
           ret (timeSinceLastPush <? cooldown)
       | None => ret false
       end ;;
     if (limited : bool) then json_error 429 "Rate Limited" else
     (* Check if player has enough resources *)
     let resourceCost := 10 in
     if players.resources (dataValues player) <? resourceCost
     then json_error 400 "Insufficient Resources" else
     (* Create border push *)
     match players.country_id (dataValues player) with
     | None => throw "notNull Violation"
     | Some source_country_id =>
     borderPush <-
       Checked.BorderPush.create (wars.id (dataValues war))
         (players.id (dataValues player)) source_country_id
         target_country_id 1.0%R 1.0%R resourceCost ;;
     (* Consume resources *)
     Player.consumeResources resourceCost player ;;
     (if io then
        emit (Some source_country_id)
          (border_push_started (border_pushes.id (dataValues borderPush))
             (wars.id (dataValues war))) ;;
        emit (Some target_country_id)
          (border_push_incoming (border_pushes.id (dataValues borderPush))
             source_country_id (wars.id (dataValues war)))
      else ret tt) ;;
     json_ok 201
     end end end)
    (fun _ => json_error 500 "Internal Server Error")
  end end.

End Schema.

(** [POST /api/game/border-push/:id/join]; the route has no parameter
    [countryId]. *)
Definition border_push_join (io : bool) (player : Instance players.t)
  (body_countryId : option Id) (id : Id) : M Response :=
  member <- requireCountryMember player None body_countryId ;;
  match member with
  | inl answer => ret answer
  | inr _ =>
  try_catch
    (borderPush <- BorderPush.findByPk id ;;
     match borderPush with
     | None => json_error 404 "Not Found"
     | Some borderPush =>
     if negb (BorderPush.is_active
                (border_pushes.status (dataValues borderPush)))
     then json_error 400 "Bad Request" else
     if negb (opt_is (players.country_id (dataValues player))
                (border_pushes.source_country_id (dataValues borderPush)))
     then json_error 403 "Access Denied" else
     borderPush <- Checked.BorderPush.addSupportingSoldier borderPush ;;
     (if io then
        emit (Some (border_pushes.source_country_id (dataValues borderPush)))
          (border_push_support_added
             (border_pushes.id (dataValues borderPush))
             (border_pushes.supporting_soldiers (dataValues borderPush))
             (border_pushes.push_strength (dataValues borderPush))
             (border_pushes.push_speed (dataValues borderPush)))
      else ret tt) ;;
     json_ok 200
     end)
    (fun _ => json_error 500 "Internal Server Error")
  end.

(** [POST /api/game/border-push/:id/defend] *)
Definition border_push_defend (io : bool) (player : Instance players.t)
  (body_countryId : option Id) (id : Id) : M Response :=
  member <- requireCountryMember player None body_countryId ;;
  match member with
  | inl answer => ret answer
  | inr _ =>
  try_catch
    (borderPush <- BorderPush.findByPk id ;;
     match borderPush with
     | None => json_error 404 "Not Found"
     | Some borderPush =>
     if negb (BorderPush.is_active
                (border_pushes.status (dataValues borderPush)))
     then json_error 400 "Bad Request" else
     if negb (opt_is (players.country_id (dataValues player))
                (border_pushes.target_country_id (dataValues borderPush)))
     then json_error 403 "Access Denied" else
     borderPush <- Checked.BorderPush.addDefendingSoldier borderPush ;;
     (if io then
        emit (Some (border_pushes.target_country_id (dataValues borderPush)))
          (border_push_defense_added
             (border_pushes.id (dataValues borderPush))
             (border_pushes.defending_soldiers (dataValues borderPush))
             (border_pushes.resistance_strength (dataValues borderPush))
             (border_pushes.push_speed (dataValues borderPush)))
      else ret tt) ;;
     json_ok 200
     end)
    (fun _ => json_error 500 "Internal Server Error")
  end.

End game.

(** ** Two declarations of war that overlap

    The handler of [POST /api/game/declare-war] awaits every query, and
    at an await the handler of another request can run; no transaction
    holds its queries together.  Here it is cut between the last of its
    checks and [War.create]: the checks, which write nothing, and the
    creation. *)

Module declare_war.

(** The checks: the answer that ends the request, or the two countries. *)
Definition checks (player : Instance players.t) (target_country_id : Id)
  : M (Response + Instance countries.t * Instance countries.t) :=
  match players.country_id (dataValues player) with
  | None => ret (inl (refusal 400 "Bad Request"))
  | Some country_id =>
  sourceCountry <- Country.findByPk country_id ;;
  match sourceCountry with
  | None => ret (inl (refusal 403 "Access Denied"))
  | Some sourceCountry =>
  if negb (opt_is (countries.owner_id (dataValues sourceCountry))
             (players.id (dataValues player)))
  then ret (inl (refusal 403 "Access Denied")) else
  targetCountry <- Country.findByPk target_country_id ;;
  match targetCountry with
  | None => ret (inl (refusal 404 "Not Found"))
  | Some targetCountry =>
  if negb (countries.is_claimed (dataValues targetCountry))
  then ret (inl (refusal 400 "Bad Request")) else
  if same_id (countries.id (dataValues sourceCountry))
       (countries.id (dataValues targetCountry))
  then ret (inl (refusal 400 "Bad Request")) else
  (* Check if war already exists *)
  existingWar <-
    War.findOne
      (War.active_between (countries.id (dataValues sourceCountry))
         (countries.id (dataValues targetCountry))) ;;
  match existingWar with
  | Some _ => ret (inl (refusal 409 "Conflict"))
  | None =>
  (* Check cooldown *)
  cooldown <-
    gets (fun w =>
      parseInt_or (WAR_DECLARATION_COOLDOWN_MS (process_env w)) 300000) ;;
  lastWar <-
    War.findOne_latest
      (fun r => same_id (wars.declared_by r)
                  (players.id (dataValues player))) ;;
  limited <-
    match lastWar with
    | Some lastWar =>
        now <- new_Date ;;
        let timeSinceLastWar :=
          now - wars.declared_at (dataValues lastWar) in
        ret (timeSinceLastWar <? cooldown)
    | None => ret false
    end ;;
  if (limited : bool) then ret (inl (refusal 429 "Rate Limited")) else
  ret (inr (sourceCountry, targetCountry))
  end end end end.

(** The creation, once the checks have passed; [io] is
    [req.app.get('io')]. *)
Definition creation (io : bool) (player : Instance players.t)
  (sourceCountry targetCountry : Instance countries.t) : M Response :=
  try_catch
    (war <-
       War.create (countries.id (dataValues sourceCountry))
         (countries.id (dataValues targetCountry))
         (players.id (dataValues player)) ;;
     Player.increment_wars_declared player ;;
     (if io then
        emit None
          (war_declared (wars.id (dataValues war))
             (countries.id (dataValues sourceCountry))
             (countries.id (dataValues targetCountry))
             (wars.declared_at (dataValues war)))
      else ret tt) ;;
     json_ok 201)
    (fun _ => json_error 500 "Internal Server Error").

(** The handler that runs without another one in between. *)
Definition alone (io : bool) (player : Instance players.t)
  (target_country_id : Id) : M Response :=
  checked <- checks player target_country_id ;;
  match checked with
  | inl answer => ret answer
  | inr (sourceCountry, targetCountry) =>
      creation io player sourceCountry targetCountry
  end.

(** Two requests whose checks have both run before either creates its
    war: the queries of the one were answered while the other awaited
    its own.  The two answers. *)
Definition overlapping (io : bool) (player1 : Instance players.t)
  (target1 : Id) (player2 : Instance players.t) (target2 : Id)
  : M (Response * Response) :=
  checked1 <- checks player1 target1 ;;
  checked2 <- checks player2 target2 ;;
  answer1 <-
    match checked1 with
    | inl answer => ret answer
    | inr (sourceCountry, targetCountry) =>
        creation io player1 sourceCountry targetCountry
    end ;;
  answer2 <-
    match checked2 with
    | inl answer => ret answer
    | inr (sourceCountry, targetCountry) =>
        creation io player2 sourceCountry targetCountry
    end ;;
  ret (answer1, answer2).

End declare_war.

(** ** What the operations are to do *)

(** The columns in which [p'] is not [p]. *)
Definition changes (p p' : border_pushes.t) (key : column) : bool :=
  differs key p p'.


(** ** Sample data *)

Module Sample.

(** An active push of country 10 with a hundred supporting soldiers. *)
Definition crowded : border_pushes.t :=
  border_pushes.set_push_speed 5
    (border_pushes.set_push_strength 10
       (border_pushes.set_supporting_soldiers 100 (Sample.push 7%nat 100))).

(** The same with a hundred defending soldiers and no other supporter. *)
Definition besieged : border_pushes.t :=
  border_pushes.set_push_speed 0.1
    (border_pushes.set_resistance_strength 10
       (border_pushes.set_defending_soldiers 100 (Sample.push 8%nat 100))).

(** The world at war with these two pushes. *)
Definition siege : World :=
  {| tbl_players := tbl_players Sample.front;
     tbl_countries := tbl_countries Sample.front;
     tbl_wars := tbl_wars Sample.front;
     tbl_border_pushes := [crowded; besieged];
     emitted := [];
     wall_clock := wall_clock Sample.front;
     clock_reads := 100%nat;
     uuid_counter := 1000%nat;
     process_env := process_env Sample.front;
     written := [] |}.

End Sample.

End Checked.

(** * Properties *)

(** ** Reasoning about computations *)

Section Returns.

Context {A B : Type}.

Lemma returns_ret (a : A) (w : World) (Q : A -> World -> Prop) :
  Q a w -> returns (ret a) w Q.
Proof. intros HQ. exists a, w. split; [reflexivity | exact HQ]. Qed.

Lemma returns_bind (c : M A) (k : A -> M B) (w : World)
  (Q : B -> World -> Prop) :
  returns c w (fun a w' => returns (k a) w' Q) -> returns (bind c k) w Q.
Proof.
  intros (a & w' & Hc & b & w'' & Hk & HQ).
  exists b, w''. split; [| exact HQ].
  unfold bind. rewrite Hc. exact Hk.
Qed.

Lemma returns_mono (c : M A) (w : World) (Q Q' : A -> World -> Prop) :
  returns c w Q -> (forall a w', Q a w' -> Q' a w') -> returns c w Q'.
Proof.
  intros (a & w' & Hc & HQ) Himp. exists a, w'. split; auto.
Qed.

Lemma returns_gets (f : World -> A) (w : World) (Q : A -> World -> Prop) :
  Q (f w) w -> returns (gets f) w Q.
Proof. intros HQ. exists (f w), w. split; [reflexivity | exact HQ]. Qed.

Lemma returns_try_catch (c : M A) (h : string -> M A) (w : World)
  (Q : A -> World -> Prop) :
  returns c w Q -> returns (try_catch c h) w Q.
Proof.
  intros (a & w' & Hc & HQ). exists a, w'. split; [| exact HQ].
  unfold try_catch. rewrite Hc. reflexivity.
Qed.

Lemma returns_inv (c : M A) (w : World) (Q : A -> World -> Prop)
  (a : A) (w' : World) :
  returns c w Q -> c w = (Returned a, w') -> Q a w'.
Proof.
  intros (a0 & w0 & Hc & HQ) Heq. rewrite Hc in Heq.
  inversion Heq; subst. exact HQ.
Qed.

End Returns.

Lemma returns_modify (f : World -> World) (w : World)
  (Q : unit -> World -> Prop) :
  Q tt (f w) -> returns (modify f) w Q.
Proof. intros HQ. exists tt, (f w). split; [reflexivity | exact HQ]. Qed.

Lemma returns_new_Date (w : World) (Q : Z -> World -> Prop) :
  Q (wall_clock w (clock_reads w)) (with_clock_reads (S (clock_reads w)) w) ->
  returns new_Date w Q.
Proof. intros HQ. eexists _, _. split; [reflexivity | exact HQ]. Qed.

Lemma returns_emit (to : option Id) (p : Payload) (w : World)
  (Q : unit -> World -> Prop) :
  Q tt (with_emitted (emitted w ++ [mkEmit to p]) w) ->
  returns (emit to p) w Q.
Proof. intros HQ. apply returns_modify. exact HQ. Qed.

(** ** Outcomes of runs *)

Section Post.

Context {A B : Type}.

Lemma post_ret (a : A) (w : World) (Q : Outcome A -> World -> Prop) :
  Q (Returned a) w -> post (ret a) w Q.
Proof. intros HQ. exact HQ. Qed.

Lemma post_throw (e : string) (w : World) (Q : Outcome A -> World -> Prop) :
  Q (Threw e) w -> post (throw e) w Q.
Proof. intros HQ. exact HQ. Qed.

Lemma post_gets (f : World -> A) (w : World)
  (Q : Outcome A -> World -> Prop) :
  Q (Returned (f w)) w -> post (gets f) w Q.
Proof. intros HQ. exact HQ. Qed.

Lemma post_bind (c : M A) (k : A -> M B) (w : World)
  (Q : Outcome B -> World -> Prop) :
  post c w (fun o w1 =>
    match o with
    | Returned a => post (k a) w1 Q
    | Threw e => Q (Threw e) w1
    end) ->
  post (bind c k) w Q.
Proof.
  unfold post, bind. destruct (c w) as [[a | e] w1]; cbn; auto.
Qed.

Lemma post_try_catch (c : M A) (h : string -> M A) (w : World)
  (Q : Outcome A -> World -> Prop) :
  post c w (fun o w1 =>
    match o with
    | Returned a => Q (Returned a) w1
    | Threw e => post (h e) w1 Q
    end) ->
  post (try_catch c h) w Q.
Proof.
  unfold post, try_catch. destruct (c w) as [[a | e] w1]; cbn; auto.
Qed.

Lemma post_mono (c : M A) (w : World) (Q Q' : Outcome A -> World -> Prop) :
  post c w Q -> (forall o w', Q o w' -> Q' o w') -> post c w Q'.
Proof. unfold post. auto. Qed.

Lemma post_of_returns (c : M A) (w : World) (Q : A -> World -> Prop) :
  returns c w Q ->
  post c w (fun o w' => match o with Returned a => Q a w' | Threw _ => False end).
Proof.
  intros (a & w' & Hrun & HQ). unfold post. rewrite Hrun. exact HQ.
Qed.

Lemma post_of_keeps (R : World -> World -> Prop) (c : M A) (w : World) :
  keeps R c -> post c w (fun _ w' => R w w').
Proof. intros H. apply H. Qed.

End Post.

Lemma post_modify (f : World -> World) (w : World)
  (Q : Outcome unit -> World -> Prop) :
  Q (Returned tt) (f w) -> post (modify f) w Q.
Proof. intros HQ. exact HQ. Qed.

Lemma post_new_Date (w : World) (Q : Outcome Z -> World -> Prop) :
  Q (Returned (wall_clock w (clock_reads w)))
    (with_clock_reads (S (clock_reads w)) w) ->
  post new_Date w Q.
Proof. intros HQ. exact HQ. Qed.

Lemma post_UUIDV4 (w : World) (Q : Outcome Id -> World -> Prop) :
  Q (Returned (uuid_counter w)) (with_uuid_counter (S (uuid_counter w)) w) ->
  post UUIDV4 w Q.
Proof. intros HQ. exact HQ. Qed.

Lemma post_emit (to : option Id) (p : Payload) (w : World)
  (Q : Outcome unit -> World -> Prop) :
  Q (Returned tt) (with_emitted (emitted w ++ [mkEmit to p]) w) ->
  post (emit to p) w Q.
Proof. intros HQ. exact HQ. Qed.

(** ** Following a relation along a run *)

Section Keeps.

Context (R : World -> World -> Prop) `{Trail R}.

Lemma keeps_ret {A : Type} (a : A) : keeps R (ret a).
Proof. intros w. apply trail_refl. Qed.

Lemma keeps_throw {A : Type} (e : string) : keeps R (@throw A e).
Proof. intros w. apply trail_refl. Qed.

Lemma keeps_gets {A : Type} (f : World -> A) : keeps R (gets f).
Proof. intros w. apply trail_refl. Qed.

Lemma keeps_new_Date : keeps R new_Date.
Proof. intros w. apply trail_clock. Qed.

Lemma keeps_UUIDV4 : keeps R UUIDV4.
Proof. intros w. apply trail_uuid. Qed.

Lemma keeps_emit (to : option Id) (p : Payload) : keeps R (emit to p).
Proof. intros w. apply trail_emitted. Qed.

Lemma keeps_modify (f : World -> World) :
  (forall w, R w (f w)) -> keeps R (modify f).
Proof. intros Hf w. apply Hf. Qed.

Lemma keeps_bind {A B : Type} (c : M A) (k : A -> M B) :
  keeps R c -> (forall a, keeps R (k a)) -> keeps R (bind c k).
Proof.
  intros Hc Hk w. unfold final, bind.
  specialize (Hc w). unfold final in Hc.
  destruct (c w) as [[a | e] w1]; cbn in *.
  - eapply trail_trans; [exact Hc | apply Hk].
  - exact Hc.
Qed.

Lemma keeps_try_catch {A : Type} (c : M A) (h : string -> M A) :
  keeps R c -> (forall e, keeps R (h e)) -> keeps R (try_catch c h).
Proof.
  intros Hc Hh w. unfold final, try_catch.
  specialize (Hc w). unfold final in Hc.
  destruct (c w) as [[a | e] w1]; cbn in *.
  - exact Hc.
  - eapply trail_trans; [exact Hc | apply Hh].
Qed.

Lemma keeps_for_of {A : Type} (l : list A) (body : A -> M unit) :
  (forall x, keeps R (body x)) -> keeps R (for_of l body).
Proof.
  intros Hb. induction l as [| x l IH]; cbn [for_of].
  - apply keeps_ret.
  - apply keeps_bind; [apply Hb | intros _; exact IH].
Qed.

End Keeps.

Section Total.

Lemma total_ret {A : Type} (a : A) : total (ret a).
Proof. intros w. eexists _, _. reflexivity. Qed.

Lemma total_gets {A : Type} (f : World -> A) : total (gets f).
Proof. intros w. eexists _, _. reflexivity. Qed.

Lemma total_modify (f : World -> World) : total (modify f).
Proof. intros w. eexists _, _. reflexivity. Qed.

Lemma total_new_Date : total new_Date.
Proof. intros w. eexists _, _. reflexivity. Qed.

Lemma total_UUIDV4 : total UUIDV4.
Proof. intros w. eexists _, _. reflexivity. Qed.

Lemma total_emit (to : option Id) (p : Payload) : total (emit to p).
Proof. intros w. eexists _, _. reflexivity. Qed.

Lemma total_bind {A B : Type} (c : M A) (k : A -> M B) :
  total c -> (forall a, total (k a)) -> total (bind c k).
Proof.
  intros Hc Hk w. destruct (Hc w) as (a & w1 & Hrun).
  destruct (Hk a w1) as (b & w2 & Hrun2).
  exists b, w2. unfold bind. rewrite Hrun. exact Hrun2.
Qed.

Lemma total_try_catch {A : Type} (c : M A) (h : string -> M A) :
  (forall e, total (h e)) -> total (try_catch c h).
Proof.
  intros Hh w. unfold try_catch.
  destruct (c w) as [[a | e] w1].
  - eexists _, _. reflexivity.
  - apply Hh.
Qed.

Lemma total_for_of {A : Type} (l : list A) (body : A -> M unit) :
  (forall x, total (body x)) -> total (for_of l body).
Proof.
  intros Hb. induction l as [| x l IH]; cbn [for_of].
  - apply total_ret.
  - apply total_bind; [apply Hb | intros _; exact IH].
Qed.

Lemma total_keeps_returns {A : Type} (R : World -> World -> Prop) (c : M A)
  (w : World) :
  total c -> keeps R c -> returns c w (fun _ w' => R w w').
Proof.
  intros Ht Hk. destruct (Ht w) as (a & w' & Hrun).
  exists a, w'. split; [exact Hrun |].
  specialize (Hk w). unfold final in Hk. rewrite Hrun in Hk. exact Hk.
Qed.

End Total.

(** The methods and hooks whose body begins with a test. *)
Ltac unfold_model :=
  unfold BorderPush.calculateCurrentProgress, BorderPush.updateProgress,
    BorderPush.stopPush, BorderPush.beforeUpdate, BorderPush.afterUpdate,
    BorderPush.update, War.beforeCreate, War.beforeUpdate, War.afterUpdate,
    Player.consumeResources, Country.consumeResources,
    json_error, json_ok.

(** Walk through the structure of a computation. *)
Ltac walk_keeps :=
  repeat first
    [ match goal with |- Trail _ => typeclasses eauto end
    | apply keeps_ret
    | apply keeps_throw
    | apply keeps_gets
    | apply keeps_new_Date
    | apply keeps_UUIDV4
    | apply keeps_emit
    | apply keeps_bind; [| | intros ?]
    | apply keeps_try_catch; [| | intros ?]
    | apply keeps_bind; [| intros ?]
    | apply keeps_try_catch; [| intros ?]
    | apply keeps_for_of; try intros ?
    | match goal with
      | |- keeps _ (if ?b then _ else _) => destruct b
      | |- keeps _ (match ?x with _ => _ end) => destruct x
      end
    | progress unfold_model ].

Ltac walk_total :=
  repeat first
    [ apply total_ret
    | apply total_gets
    | apply total_new_Date
    | apply total_UUIDV4
    | apply total_emit
    | apply total_modify
    | apply total_bind; [| intros ?]
    | apply total_for_of; intros ?
    | match goal with
      | |- total (if ?b then _ else _) => destruct b
      | |- total (match ?x with _ => _ end) => destruct x
      end
    | progress unfold_model ].

#[local] Instance besides_countries_trail : Trail besides_countries.
Proof.
  split; unfold besides_countries; cbn; intros; intuition congruence.
Qed.

#[local] Instance pushes_kept_trail : Trail pushes_kept.
Proof.
  split; unfold pushes_kept; cbn; intros; congruence.
Qed.

(** ** Upholding an invariant *)

Section Upholds.

Context (Inv : World -> Prop).

Lemma upholds_ret {A : Type} (a : A) (Good : A -> Prop) :
  Good a -> upholds Inv (ret a) Good.
Proof. intros Hg w Hw. split; assumption. Qed.

Lemma upholds_throw {A : Type} (e : string) (Good : A -> Prop) :
  upholds Inv (throw e) Good.
Proof. intros w Hw. split; [assumption | exact I]. Qed.

Lemma upholds_gets {A : Type} (f : World -> A) (Good : A -> Prop) :
  (forall w, Inv w -> Good (f w)) -> upholds Inv (gets f) Good.
Proof. intros Hg w Hw. split; [assumption | apply Hg; assumption]. Qed.

Lemma upholds_modify (f : World -> World) :
  (forall w, Inv w -> Inv (f w)) -> upholds Inv (modify f) (fun _ => True).
Proof. intros Hf w Hw. split; [apply Hf; assumption | exact I]. Qed.

Lemma upholds_bind {A B : Type} (c : M A) (k : A -> M B)
  (Good : A -> Prop) (Good' : B -> Prop) :
  upholds Inv c Good ->
  (forall a, Good a -> upholds Inv (k a) Good') ->
  upholds Inv (bind c k) Good'.
Proof.
  intros Hc Hk w Hw. apply post_bind.
  eapply post_mono; [apply Hc; exact Hw |].
  intros [a | e] w1 [Hinv Hg].
  - apply Hk; assumption.
  - split; [assumption | exact I].
Qed.

Lemma upholds_try_catch {A : Type} (c : M A) (h : string -> M A)
  (Good : A -> Prop) :
  upholds Inv c Good -> (forall e, upholds Inv (h e) Good) ->
  upholds Inv (try_catch c h) Good.
Proof.
  intros Hc Hh w Hw. apply post_try_catch.
  eapply post_mono; [apply Hc; exact Hw |].
  intros [a | e] w1 [Hinv Hg].
  - split; assumption.
  - apply Hh. assumption.
Qed.

Lemma upholds_for_of {A : Type} (l : list A) (body : A -> M unit)
  (P : A -> Prop) :
  Forall P l ->
  (forall x, P x -> upholds Inv (body x) (fun _ => True)) ->
  upholds Inv (for_of l body) (fun _ => True).
Proof.
  intros Hl Hb. induction Hl as [| x l Hx _ IH]; cbn [for_of].
  - apply upholds_ret. exact I.
  - eapply upholds_bind; [apply Hb; exact Hx |]. intros _ _. exact IH.
Qed.

Lemma upholds_weaken {A : Type} (c : M A) (Good Good' : A -> Prop) :
  upholds Inv c Good -> (forall a, Good a -> Good' a) ->
  upholds Inv c Good'.
Proof.
  intros Hc Himp w Hw. eapply post_mono; [apply Hc; exact Hw |].
  intros [a | e] w' [Hinv Hg]; split; auto.
Qed.

Lemma upholds_of_keeps {A : Type} (R : World -> World -> Prop) (c : M A) :
  (forall w w', R w w' -> Inv w -> Inv w') ->
  keeps R c -> upholds Inv c (fun _ => True).
Proof.
  intros HR Hk w Hw. unfold post. split.
  - eapply HR; [apply Hk | exact Hw].
  - destruct (fst (c w)); exact I.
Qed.

End Upholds.

(** Unfolds the plumbing of the monad in the goal. *)
Ltac run_monad :=
  cbv beta iota zeta
    delta [bind ret gets modify throw try_catch UUIDV4 new_Date emit].

(** ** The resource ledger *)

Lemma Player_save_returns (this : Instance players.t) (w : World) :
  Player.save this w =
  (Returned (saved this),
   with_players
     (update_where
        (fun r => same_id (players.id r) (players.id (dataValues this)))
        (fun _ => dataValues this) (tbl_players w)) w).
Proof. reflexivity. Qed.

Lemma Country_save_returns (this : Instance countries.t) (w : World) :
  Country.save this w =
  (Returned (saved this),
   with_countries
     (update_where
        (fun r => same_id (countries.id r) (countries.id (dataValues this)))
        (fun _ => dataValues this) (tbl_countries w)) w).
Proof. reflexivity. Qed.

Lemma Player_consumeResources_refused amount this w :
  players.resources (dataValues this) < amount ->
  Player.consumeResources amount this w = (Returned (false, this), w).
Proof.
  intros H. unfold Player.consumeResources.
  apply Z.ltb_lt in H. rewrite H. reflexivity.
Qed.

Lemma Player_consumeResources_paid amount this w :
  amount <= players.resources (dataValues this) ->
  Player.consumeResources amount this w =
  (Returned
     (true,
      saved (assign (players.set_resources
                       (players.resources (dataValues this) - amount)) this)),
   with_players
     (update_where
        (fun r => same_id (players.id r) (players.id (dataValues this)))
        (fun _ => players.set_resources
                    (players.resources (dataValues this) - amount)
                    (dataValues this))
        (tbl_players w)) w).
Proof.
  intros H. unfold Player.consumeResources.
  apply Z.ltb_ge in H. rewrite H. reflexivity.
Qed.

Lemma Country_consumeResources_refused amount this w :
  countries.resources (dataValues this) < amount ->
  Country.consumeResources amount this w = (Returned (false, this), w).
Proof.
  intros H. unfold Country.consumeResources.
  apply Z.ltb_lt in H. rewrite H. reflexivity.
Qed.

Lemma Country_consumeResources_paid amount this w :
  amount <= countries.resources (dataValues this) ->
  Country.consumeResources amount this w =
  (Returned
     (true,
      saved (assign (countries.set_resources
                       (countries.resources (dataValues this) - amount)) this)),
   with_countries
     (update_where
        (fun r => same_id (countries.id r) (countries.id (dataValues this)))
        (fun _ => countries.set_resources
                    (countries.resources (dataValues this) - amount)
                    (dataValues this))
        (tbl_countries w)) w).
Proof.
  intros H. unfold Country.consumeResources.
  apply Z.ltb_ge in H. rewrite H. reflexivity.
Qed.

Lemma In_update_where {A : Type} (sel : A -> bool) (f : A -> A)
  (rows : list A) (r : A) :
  In r (update_where sel f rows) ->
  exists r0, In r0 rows /\ r = (if sel r0 then f r0 else r0).
Proof.
  unfold update_where. intros H. apply in_map_iff in H.
  destruct H as (r0 & Heq & Hin). exists r0. split; [exact Hin | now symmetry].
Qed.

Lemma same_id_eq (a b : Id) : same_id a b = true <-> a = b.
Proof. apply Nat.eqb_eq. Qed.

Lemma same_id_refl (a : Id) : same_id a a = true.
Proof. apply Nat.eqb_refl. Qed.

Lemma same_id_neq (a b : Id) : same_id a b = false <-> a <> b.
Proof. apply Nat.eqb_neq. Qed.

(** C2. For a Player and for a Country alike, a debit against a balance
    strictly below the amount fails and changes nothing; a debit against a
    balance of at least the amount succeeds and leaves the old balance
    minus the amount; and no debit turns a non-negative balance negative. *)
Theorem consumeResources_is_checked_debit :
  Spec.debit players.resources players.id tbl_players Player.consumeResources
  /\ Spec.debit countries.resources countries.id tbl_countries
       Country.consumeResources.
Proof.
  split.
  - intros amount this w before. repeat split.
    + apply Player_consumeResources_refused.
    + intros Hle. eexists _, _. split.
      * apply Player_consumeResources_paid. exact Hle.
      * cbn. repeat split. intros row Hin Hid.
        apply In_update_where in Hin. destruct Hin as (r0 & _ & ->).
        destruct (same_id (players.id r0) (players.id (dataValues this))) eqn:E.
        -- reflexivity.
        -- apply same_id_neq in E. contradiction.
    + intros Hpos. destruct (Z_lt_le_dec before amount) as [Hlt | Hle].
      * eexists _, _. split.
        -- apply Player_consumeResources_refused. exact Hlt.
        -- cbn. split; [exact Hpos | intros; now left].
      * eexists _, _. split.
        -- apply Player_consumeResources_paid. exact Hle.
        -- cbn. split; [fold before; lia |].
           intros row Hin Hid.
           apply In_update_where in Hin. destruct Hin as (r0 & Hin0 & ->).
           destruct (same_id (players.id r0) (players.id (dataValues this))).
           ++ right. cbn. fold before. lia.
           ++ now left.
  - intros amount this w before. repeat split.
    + apply Country_consumeResources_refused.
    + intros Hle. eexists _, _. split.
      * apply Country_consumeResources_paid. exact Hle.
      * cbn. repeat split. intros row Hin Hid.
        apply In_update_where in Hin. destruct Hin as (r0 & _ & ->).
        destruct (same_id (countries.id r0) (countries.id (dataValues this)))
          eqn:E.
        -- reflexivity.
        -- apply same_id_neq in E. contradiction.
    + intros Hpos. destruct (Z_lt_le_dec before amount) as [Hlt | Hle].
      * eexists _, _. split.
        -- apply Country_consumeResources_refused. exact Hlt.
        -- cbn. split; [exact Hpos | intros; now left].
      * eexists _, _. split.
        -- apply Country_consumeResources_paid. exact Hle.
        -- cbn. split; [fold before; lia |].
           intros row Hin Hid.
           apply In_update_where in Hin. destruct Hin as (r0 & Hin0 & ->).
           destruct (same_id (countries.id r0) (countries.id (dataValues this))).
           ++ right. cbn. fold before. lia.
           ++ now left.
Qed.

(** ** Saving a border push *)

Lemma BorderPush_beforeUpdate_quiet this w :
  hook_fires this = false ->
  BorderPush.beforeUpdate this w =
  (Returned
     (assign (border_pushes.set_last_update (wall_clock w (clock_reads w)))
        this),
   with_clock_reads (S (clock_reads w)) w).
Proof.
  intros H. unfold hook_fires in H.
  unfold BorderPush.beforeUpdate. rewrite H. reflexivity.
Qed.

Lemma BorderPush_beforeUpdate_ending this w :
  hook_fires this = true ->
  BorderPush.beforeUpdate this w =
  (Returned
     (assign
        (border_pushes.set_last_update (wall_clock w (S (clock_reads w))))
        (assign
           (border_pushes.set_duration_seconds
              (floor_div
                 (wall_clock w (clock_reads w)
                  - border_pushes.started_at (dataValues this)) 1000))
           (assign
              (border_pushes.set_ended_at
                 (Some (wall_clock w (clock_reads w)))) this))),
   with_clock_reads (S (S (clock_reads w))) w).
Proof.
  intros H. unfold hook_fires in H.
  unfold BorderPush.beforeUpdate. rewrite H. reflexivity.
Qed.

Lemma hook_fires_assign_stamp f this :
  (forall r, border_pushes.status (f r) = border_pushes.status r) ->
  hook_fires (assign f this) = hook_fires this.
Proof.
  intros Hf. unfold hook_fires, BorderPush.changed_status. cbn.
  rewrite Hf. reflexivity.
Qed.

Lemma BorderPush_save_quiet this w :
  hook_fires this = false ->
  BorderPush.save this w =
  (Returned
     (saved (assign
               (border_pushes.set_last_update (wall_clock w (clock_reads w)))
               this)),
   with_border_pushes
     (update_where
        (fun r => same_id (border_pushes.id r)
                    (border_pushes.id (dataValues this)))
        (fun _ => border_pushes.set_last_update
                    (wall_clock w (clock_reads w)) (dataValues this))
        (tbl_border_pushes w))
     (with_clock_reads (S (clock_reads w)) w)).
Proof.
  intros H. unfold BorderPush.save, bind.
  rewrite (BorderPush_beforeUpdate_quiet _ _ H).
  unfold BorderPush.afterUpdate.
  fold (hook_fires (assign (border_pushes.set_last_update
                              (wall_clock w (clock_reads w))) this)).
  rewrite hook_fires_assign_stamp by reflexivity. rewrite H.
  reflexivity.
Qed.

Lemma BorderPush_save_ending this w :
  hook_fires this = true ->
  let stamped :=
    border_pushes.set_last_update (wall_clock w (S (clock_reads w)))
      (border_pushes.set_duration_seconds
         (floor_div
            (wall_clock w (clock_reads w)
             - border_pushes.started_at (dataValues this)) 1000)
         (border_pushes.set_ended_at (Some (wall_clock w (clock_reads w)))
            (dataValues this))) in
  BorderPush.save this w =
  (Returned (build stamped),
   with_wars
     (update_where
        (fun r => same_id (wars.id r) (border_pushes.war_id (dataValues this)))
        (fun r => wars.set_total_border_pushes
                    (wars.total_border_pushes r + 1) r)
        (tbl_wars w))
     (with_border_pushes
        (update_where
           (fun r => same_id (border_pushes.id r)
                       (border_pushes.id (dataValues this)))
           (fun _ => stamped) (tbl_border_pushes w))
        (with_clock_reads (S (S (clock_reads w))) w))).
Proof.
  intros H stamped. unfold BorderPush.save, bind.
  rewrite (BorderPush_beforeUpdate_ending _ _ H).
  unfold BorderPush.afterUpdate.
  match goal with
  | |- context [BorderPush.changed_status ?i
                && negb (BorderPush.is_active _)] =>
      fold (hook_fires i)
  end.
  rewrite !hook_fires_assign_stamp by reflexivity. rewrite H.
  reflexivity.
Qed.

Lemma stamps_only_last_update l p :
  stamps_only p (border_pushes.set_last_update l p).
Proof.
  exists (border_pushes.ended_at p), (border_pushes.duration_seconds p), l.
  destruct p. reflexivity.
Qed.

Lemma BorderPush_save_returns this w :
  returns (BorderPush.save this) w (fun this' w' =>
    stamps_only (dataValues this) (dataValues this')
    /\ _previousDataValues this' = dataValues this'
    /\ tbl_border_pushes w' =
       update_where
         (fun r => same_id (border_pushes.id r)
                     (border_pushes.id (dataValues this)))
         (fun _ => dataValues this') (tbl_border_pushes w)
    /\ tbl_players w' = tbl_players w
    /\ tbl_countries w' = tbl_countries w
    /\ emitted w' = emitted w
    /\ same_setting w w').
Proof.
  destruct (hook_fires this) eqn:H.
  - eexists _, _. split; [apply BorderPush_save_ending; exact H |].
    cbn. repeat split. eexists _, _, _. reflexivity.
  - eexists _, _. split; [apply BorderPush_save_quiet; exact H |].
    cbn. repeat split. apply stamps_only_last_update.
Qed.

(** ** The speed formula *)

Lemma clamp_speed_in_bounds (x : R) :
  Spec.speed_in_bounds (Math_max 0.1 (Math_min 5.0 x)).
Proof.
  unfold Spec.speed_in_bounds, Math_max, Math_min. split.
  - apply Rmax_l.
  - apply Rmax_lub; [lra | apply Rmin_l].
Qed.

Lemma clamp_agrees (x : R) :
  Math_max 0.1 (Math_min 5.0 x) = Spec.clamp x 0.1 5.0.
Proof.
  unfold Math_max, Math_min, Spec.clamp, Rmax, Rmin.
  destruct (Rlt_dec x 0.1) as [Hlo | Hlo];
    destruct (Rlt_dec 5.0 x) as [Hhi | Hhi];
    destruct (Rle_dec 5.0 x) as [H5 | H5];
    repeat match goal with
           | |- context [Rle_dec ?a ?b] => destruct (Rle_dec a b)
           end; lra.
Qed.

Lemma In_update_where_key {A : Type} (key : A -> Id) (k : Id) (v : A)
  (rows : list A) (row : A) :
  In row (update_where (fun r => same_id (key r) k) (fun _ => v) rows) ->
  key row = k -> row = v.
Proof.
  intros Hin Hk. apply In_update_where in Hin.
  destruct Hin as (r0 & _ & ->).
  destruct (same_id (key r0) k) eqn:E; [reflexivity |].
  apply same_id_neq in E. contradiction.
Qed.

Lemma addSupportingSoldier_returns (this : Instance border_pushes.t)
  (w : World) :
  returns (BorderPush.addSupportingSoldier this) w (fun this' w' =>
    let p := dataValues this in
    let p' := dataValues this' in
    border_pushes.supporting_soldiers p'
    = border_pushes.supporting_soldiers p + 1
    /\ border_pushes.push_strength p'
       = (1.0 * sqrt (IZR (border_pushes.supporting_soldiers p')))%R
    /\ border_pushes.push_speed p'
       = Spec.push_speed (border_pushes.push_strength p')
           (border_pushes.resistance_strength p')
           (border_pushes.terrain_modifier p')
    /\ border_pushes.defending_soldiers p'
       = border_pushes.defending_soldiers p
    /\ border_pushes.resistance_strength p'
       = border_pushes.resistance_strength p
    /\ border_pushes.terrain_modifier p' = border_pushes.terrain_modifier p
    /\ tbl_border_pushes w'
       = put_row (border_pushes.id p) p' (tbl_border_pushes w)).
Proof.
  unfold BorderPush.addSupportingSoldier. cbv zeta.
  eapply returns_mono; [apply BorderPush_save_returns |].
  intros this' w' ((e & d & l & Hp') & _ & Htbl & _).
  cbv zeta. rewrite Htbl, Hp'. cbn.
  repeat split; try reflexivity.
  unfold Spec.push_speed. apply clamp_agrees.
Qed.

Lemma addDefendingSoldier_returns (this : Instance border_pushes.t)
  (w : World) :
  returns (BorderPush.addDefendingSoldier this) w (fun this' w' =>
    let p := dataValues this in
    let p' := dataValues this' in
    border_pushes.defending_soldiers p'
    = border_pushes.defending_soldiers p + 1
    /\ border_pushes.resistance_strength p'
       = (1.0 * sqrt (IZR (border_pushes.defending_soldiers p')))%R
    /\ border_pushes.push_speed p'
       = Spec.push_speed (border_pushes.push_strength p')
           (border_pushes.resistance_strength p')
           (border_pushes.terrain_modifier p')
    /\ border_pushes.supporting_soldiers p'
       = border_pushes.supporting_soldiers p
    /\ border_pushes.push_strength p' = border_pushes.push_strength p
    /\ border_pushes.terrain_modifier p' = border_pushes.terrain_modifier p
    /\ tbl_border_pushes w'
       = put_row (border_pushes.id p) p' (tbl_border_pushes w)).
Proof.
  unfold BorderPush.addDefendingSoldier. cbv zeta.
  eapply returns_mono; [apply BorderPush_save_returns |].
  intros this' w' ((e & d & l & Hp') & _ & Htbl & _).
  cbv zeta. rewrite Htbl, Hp'. cbn.
  repeat split; try reflexivity.
  unfold Spec.push_speed. apply clamp_agrees.
Qed.

Lemma beforeCreate_speed (p : border_pushes.t) :
  border_pushes.push_speed (BorderPush.beforeCreate p)
  = Spec.push_speed (border_pushes.push_strength p)
      (border_pushes.resistance_strength p) (border_pushes.terrain_modifier p).
Proof.
  unfold BorderPush.beforeCreate, Spec.push_speed. cbn.
  apply clamp_agrees.
Qed.

Lemma spec_push_speed_in_bounds (s r t : R) :
  Spec.speed_in_bounds (Spec.push_speed s r t).
Proof.
  unfold Spec.push_speed. rewrite <- clamp_agrees.
  apply clamp_speed_in_bounds.
Qed.

(** ** The progress query and the commit *)

Lemma is_active_true (s : border_pushes.Status) :
  BorderPush.is_active s = true <-> s = border_pushes.active.
Proof. destruct s; cbn; split; intros H; congruence. Qed.

Lemma is_active_false (s : border_pushes.Status) :
  BorderPush.is_active s = false <-> s <> border_pushes.active.
Proof. destruct s; cbn; split; intros H; congruence. Qed.

Lemma calculateCurrentProgress_terminal this w :
  BorderPush.is_active (border_pushes.status (dataValues this)) = false ->
  BorderPush.calculateCurrentProgress this w =
  (Returned
     ({| distance := border_pushes.distance_pushed (dataValues this);
         territory := border_pushes.territory_gained (dataValues this);
         isActive := false |}, this), w).
Proof.
  intros H. unfold BorderPush.calculateCurrentProgress. rewrite H.
  reflexivity.
Qed.

Lemma calculateCurrentProgress_active this w :
  BorderPush.is_active (border_pushes.status (dataValues this)) = true ->
  BorderPush.calculateCurrentProgress this w =
  (Returned
     ({| distance := candidate (dataValues this) (wall_clock w (clock_reads w));
         territory := border_pushes.territory_gained (dataValues this);
         isActive := true |}, this),
   with_clock_reads (S (clock_reads w)) w).
Proof.
  intros H. unfold BorderPush.calculateCurrentProgress. rewrite H.
  reflexivity.
Qed.

Lemma hook_fires_active this :
  BorderPush.is_active (border_pushes.status (dataValues this)) = true ->
  hook_fires this = false.
Proof.
  intros H. unfold hook_fires. rewrite H. apply andb_false_r.
Qed.

Lemma updateProgress_terminal this w :
  BorderPush.is_active (border_pushes.status (dataValues this)) = false ->
  BorderPush.updateProgress this w = (Returned this, w).
Proof.
  intros H. unfold BorderPush.updateProgress. rewrite H. reflexivity.
Qed.

Lemma updateProgress_active this w :
  BorderPush.is_active (border_pushes.status (dataValues this)) = true ->
  let n := clock_reads w in
  let row :=
    committed (dataValues this) (wall_clock w n) (wall_clock w (S n))
      (wall_clock w (S (S n))) in
  BorderPush.updateProgress this w =
  (Returned (build row),
   with_border_pushes
     (update_where
        (fun r => same_id (border_pushes.id r)
                    (border_pushes.id (dataValues this)))
        (fun _ => row) (tbl_border_pushes w))
     (with_clock_reads (S (S (S n))) w)).
Proof.
  intros H n row. unfold BorderPush.updateProgress. rewrite H.
  cbn [negb]. unfold bind at 1.
  rewrite (calculateCurrentProgress_active _ _ H).
  unfold bind at 1. unfold new_Date at 1.
  rewrite BorderPush_save_quiet.
  - reflexivity.
  - rewrite !hook_fires_assign_stamp by reflexivity.
    apply hook_fires_active. exact H.
Qed.

(** C9. The progress query returns, for an active push, the candidate
    distance distance_pushed + push_speed * elapsed, where elapsed is the
    time in seconds from last_update to the clock reading; and whatever
    the status it leaves the instance as it was and every table as it
    was: distance_pushed, last_update, territory_gained and status are
    not written. *)
Theorem calculateCurrentProgress_is_read_only
  (this : Instance border_pushes.t) (w : World) :
  returns (BorderPush.calculateCurrentProgress this) w (fun r w' =>
    snd r = this
    /\ same_tables w w'
    /\ emitted w' = emitted w
    /\ (border_pushes.status (dataValues this) = border_pushes.active ->
        distance (fst r)
        = Spec.candidate_distance
            (border_pushes.distance_pushed (dataValues this))
            (border_pushes.push_speed (dataValues this))
            (elapsed_seconds (wall_clock w (clock_reads w))
               (border_pushes.last_update (dataValues this))))).
Proof.
  destruct (BorderPush.is_active (border_pushes.status (dataValues this)))
    eqn:H.
  - eexists _, _. split; [apply calculateCurrentProgress_active; exact H |].
    cbn. repeat split.
  - eexists _, _. split; [apply calculateCurrentProgress_terminal; exact H |].
    cbn. repeat split. intros Hact. apply is_active_false in H. contradiction.
Qed.

Lemma candidate_monotone (p : border_pushes.t) (now : Z) :
  (0 <= border_pushes.push_speed p)%R ->
  border_pushes.last_update p <= now ->
  (border_pushes.distance_pushed p <= candidate p now)%R.
Proof.
  intros Hs Ht. unfold candidate, Spec.candidate_distance, elapsed_seconds.
  assert (0 <= IZR (now - border_pushes.last_update p))%R
    by (apply IZR_le; lia).
  assert (0 <= IZR (now - border_pushes.last_update p) / 1000)%R
    by (apply Rmult_le_pos; [assumption | lra]).
  assert (0 <= border_pushes.push_speed p
               * (IZR (now - border_pushes.last_update p) / 1000))%R
    by (apply Rmult_le_pos; assumption).
  lra.
Qed.

Lemma updateProgress_monotone_of_speed
  (this : Instance border_pushes.t) (w : World) :
  border_pushes.status (dataValues this) = border_pushes.active ->
  Spec.speed_in_bounds (border_pushes.push_speed (dataValues this)) ->
  border_pushes.last_update (dataValues this)
  <= wall_clock w (clock_reads w) ->
  returns (BorderPush.updateProgress this) w (fun this' w' =>
    (border_pushes.distance_pushed (dataValues this)
     <= border_pushes.distance_pushed (dataValues this'))%R
    /\ forall row, In row (tbl_border_pushes w') ->
         border_pushes.id row = border_pushes.id (dataValues this) ->
         (border_pushes.distance_pushed (dataValues this)
          <= border_pushes.distance_pushed row)%R).
Proof.
  intros Hact [Hlo _] Helapsed.
  apply is_active_true in Hact.
  eexists _, _. split; [apply updateProgress_active; exact Hact |].
  assert (Hmono :
            (border_pushes.distance_pushed (dataValues this)
             <= candidate (dataValues this) (wall_clock w (clock_reads w)))%R).
  { apply candidate_monotone; [lra | exact Helapsed]. }
  split.
  - cbn. exact Hmono.
  - intros row Hin Hid. cbn [tbl_border_pushes with_border_pushes] in Hin.
    apply (In_update_where_key border_pushes.id) in Hin; [| exact Hid].
    rewrite Hin. cbn. exact Hmono.
Qed.

(** ** Stopping a push *)

Lemma update_where_const_twice {A : Type} (sel : A -> bool) (u v : A)
  (rows : list A) :
  sel u = true ->
  update_where sel (fun _ => v) (update_where sel (fun _ => u) rows)
  = update_where sel (fun _ => v) rows.
Proof.
  intros Hu. unfold update_where. rewrite map_map.
  apply map_ext. intros r. destruct (sel r) eqn:E.
  - rewrite Hu. reflexivity.
  - rewrite E. reflexivity.
Qed.

Lemma stop_status_not_active reason :
  BorderPush.is_active (stop_status reason) = false.
Proof. unfold stop_status. destruct (String.eqb _ _); reflexivity. Qed.

Lemma stopPush_terminal reason this w :
  BorderPush.is_active (border_pushes.status (dataValues this)) = false ->
  BorderPush.stopPush reason this w = (Threw "Border push is not active", w).
Proof.
  intros H. unfold BorderPush.stopPush. rewrite H. reflexivity.
Qed.

Lemma stopPush_active reason this w :
  BorderPush.is_active (border_pushes.status (dataValues this)) = true ->
  let n := clock_reads w in
  let row := stopped reason (dataValues this) (wall_clock w) n in
  let row0 :=
    committed (dataValues this) (wall_clock w n) (wall_clock w (S n))
      (wall_clock w (S (S n))) in
  BorderPush.stopPush reason this w =
  (Returned (build row),
   with_wars
     (count_push (border_pushes.war_id (dataValues this)) (tbl_wars w))
     (with_border_pushes
        (put_row (border_pushes.id (dataValues this)) row
           (tbl_border_pushes w))
        (with_border_pushes
           (put_row (border_pushes.id (dataValues this)) row0
              (tbl_border_pushes w))
           (with_clock_reads (6 + n) w)))).
Proof.
  intros H n row row0. unfold BorderPush.stopPush. rewrite H. cbn [negb].
  unfold bind at 1. rewrite (updateProgress_active _ _ H). cbv zeta.
  unfold bind at 1. unfold new_Date at 1.
  rewrite BorderPush_save_ending.
  - cbv zeta. fold (stop_status reason).
    match goal with
    | |- (?a, ?b) = (?c, ?d) => replace b with d; [reflexivity |]
    end.
    unfold with_wars, with_border_pushes, with_clock_reads. cbn.
    f_equal. unfold put_row. symmetry.
    apply (update_where_const_twice
             (fun r => same_id (border_pushes.id r)
                         (border_pushes.id (dataValues this)))).
    cbn. apply same_id_refl.
  - unfold hook_fires, BorderPush.changed_status. cbn.
    apply is_active_true in H. rewrite H.
    fold (stop_status reason).
    pose proof (stop_status_not_active reason) as Hs.
    destruct (stop_status reason); cbn in *; congruence.
Qed.

(** ** One push in the periodic update *)

Lemma update_push_below this w :
  BorderPush.is_active (border_pushes.status (dataValues this)) = true ->
  ~ (10000 < candidate (dataValues this) (wall_clock w (clock_reads w)))%R ->
  socketHandler.update_push this w =
  (Returned tt,
   with_emitted
     (emitted w
      ++ progress_events (dataValues this) (wall_clock w (clock_reads w))
           (wall_clock w (S (clock_reads w))))
     (with_clock_reads (2 + clock_reads w) w)).
Proof.
  intros H Hlow. unfold socketHandler.update_push.
  unfold bind at 1. rewrite (calculateCurrentProgress_active _ _ H).
  cbv iota beta. cbn [distance].
  destruct (Rlt_dec 10000 _) as [Hhigh | _]; [contradiction |].
  run_monad. cbn. rewrite <- app_assoc. reflexivity.
Qed.

Lemma update_push_above this w :
  BorderPush.is_active (border_pushes.status (dataValues this)) = true ->
  (10000 < candidate (dataValues this) (wall_clock w (clock_reads w)))%R ->
  let n := clock_reads w in
  let row := stopped "successful" (dataValues this) (wall_clock w) (S n) in
  let row0 :=
    committed (dataValues this) (wall_clock w (S n)) (wall_clock w (S (S n)))
      (wall_clock w (S (S (S n)))) in
  socketHandler.update_push this w =
  (Returned tt,
   with_emitted (emitted w ++ completion_events (dataValues this))
     (with_wars
        (count_push (border_pushes.war_id (dataValues this)) (tbl_wars w))
        (with_border_pushes
           (put_row (border_pushes.id (dataValues this)) row
              (tbl_border_pushes w))
           (with_border_pushes
              (put_row (border_pushes.id (dataValues this)) row0
                 (tbl_border_pushes w))
              (with_clock_reads (7 + n) w))))).
Proof.
  intros H Hhigh n row row0. unfold socketHandler.update_push.
  unfold bind at 1. rewrite (calculateCurrentProgress_active _ _ H).
  cbv iota beta. cbn [distance].
  destruct (Rlt_dec 10000 _) as [_ | Hlow]; [| contradiction].
  unfold bind at 1. rewrite (stopPush_active _ _ _ H).
  run_monad. cbn. rewrite <- app_assoc. reflexivity.
Qed.

Lemma In_put_row_other k v rows row :
  In row rows -> border_pushes.id row <> k -> In row (put_row k v rows).
Proof.
  intros Hin Hk. unfold put_row, update_where. apply in_map_iff.
  exists row. split; [| exact Hin].
  apply same_id_neq in Hk. rewrite Hk. reflexivity.
Qed.

Lemma In_put_row_same k v rows row :
  In row rows -> border_pushes.id row = k -> In v (put_row k v rows).
Proof.
  intros Hin Hk. unfold put_row, update_where. apply in_map_iff.
  exists row. split; [| exact Hin].
  apply same_id_eq in Hk. rewrite Hk. reflexivity.
Qed.

Lemma progress_events_report p t0 t1 e :
  In e (progress_events p t0 t1) -> reports_stored_territory p e.
Proof.
  intros [<- | [<- | []]]; cbn; split; reflexivity.
Qed.

Lemma completion_events_report p e :
  In e (completion_events p) -> reports_stored_territory p e.
Proof.
  intros [<- | [<- | []]]; cbn; split; reflexivity.
Qed.

(** What one iteration of the periodic update does with an active push. *)
Lemma update_push_step (i : Instance border_pushes.t) (w : World) :
  BorderPush.is_active (border_pushes.status (dataValues i)) = true ->
  let p := dataValues i in
  let n := clock_reads w in
  returns (socketHandler.update_push i) w (fun _ w1 =>
    tbl_countries w1 = tbl_countries w
    /\ tbl_players w1 = tbl_players w
    /\ wall_clock w1 = wall_clock w
    /\ (n < clock_reads w1)%nat
    /\ (forall row, In row (tbl_border_pushes w) ->
          border_pushes.id row <> border_pushes.id p ->
          In row (tbl_border_pushes w1))
    /\ (~ (threshold < candidate p (wall_clock w n))%R ->
        tbl_border_pushes w1 = tbl_border_pushes w)
    /\ ((threshold < candidate p (wall_clock w n))%R ->
        forall row, In row (tbl_border_pushes w) ->
          border_pushes.id row = border_pushes.id p ->
          In (stopped "successful" p (wall_clock w) (S n))
            (tbl_border_pushes w1))
    /\ exists es, emitted w1 = emitted w ++ es
                  /\ Forall (reports_stored_territory p) es).
Proof.
  intros H p n.
  destruct (Rlt_dec threshold (candidate p (wall_clock w n))) as [Hhi | Hlo].
  - eexists _, _. split; [apply update_push_above; assumption |].
    cbn. repeat split; try lia.
    + intros row Hin Hk. apply In_put_row_other; assumption.
    + intros Hno. contradiction.
    + intros _ row Hin Hk. eapply In_put_row_same; eassumption.
    + eexists. split; [reflexivity |].
      apply Forall_forall. intros e. apply completion_events_report.
  - eexists _, _. split; [apply update_push_below; assumption |].
    cbn. repeat split; try lia.
    + intros row Hin _. exact Hin.
    + intros Hyes. contradiction.
    + eexists. split; [reflexivity |].
      apply Forall_forall. intros e. apply progress_events_report.
Qed.

Lemma map_id_put_row k v rows :
  border_pushes.id v = k ->
  map border_pushes.id (put_row k v rows) = map border_pushes.id rows.
Proof.
  intros Hv. unfold put_row, update_where. rewrite map_map.
  apply map_ext. intros r.
  destruct (same_id (border_pushes.id r) k) eqn:E; [| reflexivity].
  apply same_id_eq in E. congruence.
Qed.

Lemma update_push_keeps_ids (i : Instance border_pushes.t) (w : World) :
  BorderPush.is_active (border_pushes.status (dataValues i)) = true ->
  returns (socketHandler.update_push i) w (fun _ w1 =>
    map border_pushes.id (tbl_border_pushes w1)
    = map border_pushes.id (tbl_border_pushes w)).
Proof.
  intros H.
  destruct (Rlt_dec threshold
              (candidate (dataValues i) (wall_clock w (clock_reads w))))
    as [Hhi | Hlo].
  - eexists _, _. split; [apply update_push_above; assumption |].
    cbn [tbl_border_pushes with_emitted with_wars with_border_pushes].
    apply map_id_put_row. reflexivity.
  - eexists _, _. split; [apply update_push_below; assumption |].
    reflexivity.
Qed.

(** The loop of the periodic update over a list of active instances with
    distinct keys. *)
Lemma tick_loop (l : list (Instance border_pushes.t)) :
  forall w : World,
  Forall (fun i =>
            BorderPush.is_active (border_pushes.status (dataValues i)) = true)
    l ->
  NoDup (map push_key l) ->
  returns (for_of l socketHandler.update_push) w (fun _ w' =>
    tbl_countries w' = tbl_countries w
    /\ tbl_players w' = tbl_players w
    /\ wall_clock w' = wall_clock w
    /\ (clock_reads w <= clock_reads w')%nat
    /\ map border_pushes.id (tbl_border_pushes w')
       = map border_pushes.id (tbl_border_pushes w)
    /\ (forall row, In row (tbl_border_pushes w) ->
          ~ In (border_pushes.id row) (map push_key l) ->
          In row (tbl_border_pushes w'))
    /\ (forall i, In i l ->
        forall row, In row (tbl_border_pushes w) ->
          border_pushes.id row = push_key i ->
          exists n, (clock_reads w <= n < clock_reads w')%nat
            /\ ((~ (threshold < candidate (dataValues i) (wall_clock w n))%R
                 /\ In row (tbl_border_pushes w'))
                \/ ((threshold < candidate (dataValues i) (wall_clock w n))%R
                    /\ In (stopped "successful" (dataValues i) (wall_clock w)
                             (S n)) (tbl_border_pushes w'))))
    /\ exists es, emitted w' = emitted w ++ es
         /\ Forall (fun e => exists i, In i l
                      /\ reports_stored_territory (dataValues i) e) es).
Proof.
  induction l as [| i rest IH]; intros w Hact Hnd.
  - apply returns_ret. repeat split; auto.
    + intros i [].
    + exists []. split; [now rewrite app_nil_r | constructor].
  - inversion Hact as [| ? ? Hi Hrest]; subst.
    inversion Hnd as [| ? ? Hfresh Hnd']; subst.
    cbn [for_of]. apply returns_bind.
    pose proof (update_push_step i w Hi) as Hstep.
    pose proof (update_push_keeps_ids i w Hi) as Hids.
    destruct Hstep as ([] & w1 & Hrun & Hc & Hp & Hclk & Hn & Hother & Hlow
                       & Hhigh & es1 & Hes1 & Hall1).
    pose proof (returns_inv _ _ _ _ _ Hids Hrun) as Hids1. cbv beta in Hids1.
    exists tt, w1. split; [exact Hrun |].
    eapply returns_mono; [apply (IH w1 Hrest Hnd') |].
    intros [] w' (Hc' & Hp' & Hclk' & Hn' & Hids' & Hkeep & Heach
                  & es2 & Hes2 & Hall2).
    repeat split.
    + congruence.
    + congruence.
    + congruence.
    + lia.
    + congruence.
    + intros row Hin Hnot. apply Hkeep.
      * apply Hother; [exact Hin |]. intros Heq. apply Hnot. left.
        symmetry. exact Heq.
      * intros Hin'. apply Hnot. right. exact Hin'.
    + intros j [<- | Hj] row Hin Hkey.
      * exists (clock_reads w). split; [lia |].
        destruct (Rlt_dec threshold
                    (candidate (dataValues i) (wall_clock w (clock_reads w))))
          as [Hhi | Hlo].
        -- right. split; [exact Hhi |]. apply Hkeep.
           ++ eapply Hhigh; eassumption.
           ++ exact Hfresh.
        -- left. split; [exact Hlo |]. apply Hkeep.
           ++ rewrite (Hlow Hlo). exact Hin.
           ++ rewrite Hkey. exact Hfresh.
      * assert (Hne : border_pushes.id row <> border_pushes.id (dataValues i)).
        { intros Heq. apply Hfresh. rewrite Hkey in Heq.
          unfold push_key at 1. rewrite <- Heq. apply in_map. exact Hj. }
        destruct (Heach j Hj row (Hother row Hin Hne) Hkey)
          as (n & Hrange & Hcase).
        exists n. split; [lia |]. rewrite Hclk in Hcase. exact Hcase.
    + exists (es1 ++ es2). split.
      * rewrite Hes2, Hes1, app_assoc. reflexivity.
      * apply Forall_app. split.
        -- eapply Forall_impl; [| exact Hall1]. intros e He.
           exists i. split; [now left | exact He].
        -- eapply Forall_impl; [| exact Hall2]. intros e (j & Hj & He).
           exists j. split; [now right | exact He].
Qed.

(** ** The periodic update *)

Lemma NoDup_map_filter {A B : Type} (f : A -> B) (sel : A -> bool)
  (l : list A) :
  NoDup (map f l) -> NoDup (map f (filter sel l)).
Proof.
  induction l as [| a l IH]; cbn; intros H; [constructor |].
  inversion H as [| ? ? Hnotin Hnd]; subst.
  destruct (sel a); cbn; [| auto].
  constructor; [| auto].
  intros Hin. apply Hnotin. apply in_map_iff in Hin.
  destruct Hin as (x & Hx & Hin). apply filter_In in Hin.
  apply in_map_iff. exists x. tauto.
Qed.

Lemma findActivePushes_returns (w : World) :
  BorderPush.findActivePushes w =
  (Returned
     (map build
        (filter (fun r => BorderPush.is_active (border_pushes.status r))
           (tbl_border_pushes w))), w).
Proof. reflexivity. Qed.

Lemma stopped_facts reason p clock n :
  let p' := stopped reason p clock n in
  border_pushes.id p' = border_pushes.id p
  /\ border_pushes.status p' = stop_status reason
  /\ border_pushes.distance_pushed p' = candidate p (clock n)
  /\ border_pushes.territory_gained p'
     = (PI * (border_pushes.distance_pushed p' / 1000)
        * (border_pushes.distance_pushed p' / 1000))%R
  /\ border_pushes.ended_at p' = Some (clock (4 + n)%nat)
  /\ border_pushes.last_update p' = clock (5 + n)%nat.
Proof. cbn. repeat split. Qed.

(** The whole periodic update, on a table with distinct primary keys. *)
Lemma border_push_tick_returns (w : World) :
  NoDup (map border_pushes.id (tbl_border_pushes w)) ->
  returns socketHandler.border_push_tick w (fun _ w' =>
    tbl_countries w' = tbl_countries w
    /\ tbl_players w' = tbl_players w
    /\ wall_clock w' = wall_clock w
    /\ map border_pushes.id (tbl_border_pushes w')
       = map border_pushes.id (tbl_border_pushes w)
    /\ (forall p, In p (tbl_border_pushes w) ->
          border_pushes.status p <> border_pushes.active ->
          In p (tbl_border_pushes w'))
    /\ (forall p, In p (tbl_border_pushes w) ->
          border_pushes.status p = border_pushes.active ->
          exists n, (clock_reads w <= n < clock_reads w')%nat
            /\ ((~ (threshold < candidate p (wall_clock w n))%R
                 /\ In p (tbl_border_pushes w'))
                \/ ((threshold < candidate p (wall_clock w n))%R
                    /\ In (stopped "successful" p (wall_clock w) (S n))
                         (tbl_border_pushes w'))))
    /\ exists es, emitted w' = emitted w ++ es
         /\ Forall (fun e => exists p, In p (tbl_border_pushes w)
                      /\ border_pushes.status p = border_pushes.active
                      /\ reports_stored_territory p e) es).
Proof.
  intros Hnd. unfold socketHandler.border_push_tick.
  apply returns_try_catch. apply returns_bind.
  eexists _, _. split; [apply findActivePushes_returns |].
  set (sel := fun r => BorderPush.is_active (border_pushes.status r)).
  set (l := map build (filter sel (tbl_border_pushes w))).
  assert (Hact : Forall (fun i =>
                   BorderPush.is_active
                     (border_pushes.status (dataValues i)) = true) l).
  { apply Forall_forall. intros i Hi. apply in_map_iff in Hi.
    destruct Hi as (r & <- & Hr). apply filter_In in Hr. apply Hr. }
  assert (Hkeys : map push_key l = map border_pushes.id
                                     (filter sel (tbl_border_pushes w))).
  { unfold l. rewrite map_map. reflexivity. }
  assert (Hnd' : NoDup (map push_key l)).
  { rewrite Hkeys. apply NoDup_map_filter. exact Hnd. }
  eapply returns_mono; [apply (tick_loop l w Hact Hnd') |].
  intros [] w' (Hc & Hp & Hclk & Hn & Hids & Hkeep & Heach & es & Hes & Hall).
  repeat split; try assumption.
  - intros p Hin Hterm. apply Hkeep; [exact Hin |].
    rewrite Hkeys. intros Hk. apply in_map_iff in Hk.
    destruct Hk as (q & Hq & Hqin). apply filter_In in Hqin.
    destruct Hqin as [Hqin Hqact].
    assert (q = p).
    { clear - Hnd Hq Hqin Hin. induction (tbl_border_pushes w) as [| a t IH].
      - destruct Hin.
      - cbn in Hnd. inversion Hnd as [| ? ? Hnot Hnd']; subst.
        destruct Hqin as [-> | Hqin], Hin as [-> | Hin]; auto.
        + exfalso. apply Hnot. rewrite Hq. apply in_map. exact Hin.
        + exfalso. apply Hnot. rewrite <- Hq. apply in_map. exact Hqin. }
    subst q. unfold sel in Hqact. apply is_active_true in Hqact.
    contradiction.
  - intros p Hin Hact_p.
    assert (Hi : In (build p) l).
    { unfold l. apply in_map. apply filter_In. split; [exact Hin |].
      unfold sel. apply is_active_true. exact Hact_p. }
    destruct (Heach (build p) Hi p Hin eq_refl) as (n & Hrange & Hcase).
    exists n. split; [lia | exact Hcase].
  - exists es. split; [exact Hes |].
    eapply Forall_impl; [| exact Hall]. intros e (i & Hi & He).
    unfold l in Hi. apply in_map_iff in Hi. destruct Hi as (r & <- & Hr).
    apply filter_In in Hr. destruct Hr as [Hr Hract].
    exists r. repeat split; [exact Hr | | exact He].
    apply is_active_true. exact Hract.
Qed.

(** ** The periodic update on the sample front *)

Lemma candidate_sample id d n :
  candidate (Sample.push id d) (wall_clock Sample.front n)
  = (d + (5 * INR n - 495))%R.
Proof.
  unfold candidate, Spec.candidate_distance, elapsed_seconds.
  cbn [Sample.push border_pushes.distance_pushed border_pushes.push_speed
       border_pushes.last_update wall_clock Sample.front].
  rewrite minus_IZR, mult_IZR, <- INR_IZR_INZ. lra.
Qed.

Lemma border_push_tick_front :
  socketHandler.border_push_tick Sample.front
  = (Returned tt, Sample.front_after).
Proof.
  unfold socketHandler.border_push_tick, try_catch.
  unfold bind at 1. rewrite findActivePushes_returns.
  change (map build _)
    with [build (Sample.push 7%nat 100%R); build (Sample.push 8%nat 9999%R)].
  cbn [for_of]. unfold bind at 1.
  rewrite update_push_below.
  - unfold bind at 1. rewrite update_push_above.
    + reflexivity.
    + reflexivity.
    + change (10000 < candidate (Sample.push 8%nat 9999%R)
                         (wall_clock Sample.front 102%nat))%R.
      rewrite candidate_sample.
      replace (INR 102) with 102%R by (rewrite INR_IZR_INZ; reflexivity).
      lra.
  - reflexivity.
  - change (~ (10000 < candidate (Sample.push 7%nat 100%R)
                          (wall_clock Sample.front 100%nat))%R).
    rewrite candidate_sample.
    replace (INR 100) with 100%R by (rewrite INR_IZR_INZ; reflexivity).
    lra.
Qed.

Lemma stopped_territory_sample :
  border_pushes.territory_gained
    (stopped "successful" (Sample.push 8%nat 9999%R)
       (wall_clock Sample.front) 103%nat)
  = (PI * (10019 / 1000) * (10019 / 1000))%R.
Proof.
  destruct (stopped_facts "successful" (Sample.push 8%nat 9999%R)
              (wall_clock Sample.front) 103%nat) as (_ & _ & Hd & Ht & _).
  rewrite Ht, Hd, candidate_sample.
  replace (INR 103) with 103%R by (rewrite INR_IZR_INZ; reflexivity).
  f_equal; [f_equal |]; lra.
Qed.

(** C1, as stated, fails on the sample front.  The push that stays below
    the threshold is left as stored, with 100 m, although its candidate
    distance is 105 m or more at every clock reading of the tick; and the
    push that goes beyond the threshold is stopped as successful while the
    rows of the two countries stay as they were, so that its territory is
    awarded to neither. *)
Lemma tick_neither_commits_nor_awards :
  ~ Spec.conflict_tick Sample.front
      (final socketHandler.border_push_tick Sample.front)
  /\ In (Sample.push 7%nat 100%R)
       (tbl_border_pushes (final socketHandler.border_push_tick Sample.front))
  /\ (exists p', In p'
        (tbl_border_pushes (final socketHandler.border_push_tick Sample.front))
      /\ border_pushes.id p' = 8%nat
      /\ border_pushes.status p' = border_pushes.successful
      /\ ~ Spec.awarded Sample.front
            (final socketHandler.border_push_tick Sample.front) p')
  /\ tbl_countries (final socketHandler.border_push_tick Sample.front)
     = tbl_countries Sample.front.
Proof.
  unfold final. rewrite border_push_tick_front. cbn [snd].
  split; [| split; [| split]].
  - intros H.
    destruct (H (Sample.push 7%nat 100%R)) as (n & p' & Hn & Hin & Hid & Hd & _).
    + left. reflexivity.
    + reflexivity.
    + cbn [clock_reads Sample.front Sample.front_after] in Hn.
      destruct Hin as [<- | [<- | []]].
      * fold (candidate (Sample.push 7%nat 100%R) (wall_clock Sample.front n))
          in Hd.
        rewrite candidate_sample in Hd.
        cbn [border_pushes.distance_pushed Sample.push] in Hd.
        assert (100 <= INR n)%R.
        { replace 100%R with (INR 100) by (rewrite INR_IZR_INZ; reflexivity).
          apply le_INR. lia. }
        lra.
      * discriminate Hid.
  - left. reflexivity.
  - eexists. split; [right; left; reflexivity |].
    split; [reflexivity |]. split; [reflexivity |].
    intros [Hgained _].
    destruct (Hgained (Sample.country 10%nat 1%nat)) as (c' & Hin & _ & Hle).
    + left. reflexivity.
    + reflexivity.
    + rewrite stopped_territory_sample in Hle.
      pose proof PI_RGT_0 as Hpi.
      assert (0 < PI * (10019 / 1000) * (10019 / 1000))%R by nra.
      destruct Hin as [<- | [<- | []]];
        cbn [countries.territory_gained Sample.country] in Hle; lra.
  - reflexivity.
Qed.

(** C1, amended. On every conflict tick, on a table with distinct primary
    keys, each active push has its candidate distance computed at a clock
    reading of the tick; if the candidate exceeds 10000 m the progress is
    committed at the next reading and the stored push becomes successful
    with ended_at set; otherwise the stored push is left as it was, still
    active and with nothing committed.  The rows of the countries are the
    same after the tick as before. *)
Theorem tick_stops_pushes_beyond_threshold (w : World) :
  NoDup (map border_pushes.id (tbl_border_pushes w)) ->
  returns socketHandler.border_push_tick w (fun _ w' =>
    tbl_countries w' = tbl_countries w
    /\ forall p, In p (tbl_border_pushes w) ->
         border_pushes.status p = border_pushes.active ->
         exists n, (clock_reads w <= n < clock_reads w')%nat
           /\ ((~ (threshold < candidate p (wall_clock w n))%R
                /\ In p (tbl_border_pushes w'))
               \/ ((threshold < candidate p (wall_clock w n))%R
                   /\ exists p', In p' (tbl_border_pushes w')
                        /\ border_pushes.id p' = border_pushes.id p
                        /\ border_pushes.status p' = border_pushes.successful
                        /\ border_pushes.distance_pushed p'
                           = candidate p (wall_clock w (S n))
                        /\ border_pushes.territory_gained p'
                           = (PI * (border_pushes.distance_pushed p' / 1000)
                              * (border_pushes.distance_pushed p' / 1000))%R
                        /\ border_pushes.ended_at p'
                           = Some (wall_clock w (5 + n)%nat)))).
Proof.
  intros Hnd.
  eapply returns_mono; [apply border_push_tick_returns; exact Hnd |].
  intros [] w' (Hc & _ & _ & _ & _ & Hactive & _).
  split; [exact Hc |].
  intros p Hin Hact. destruct (Hactive p Hin Hact) as (n & Hn & Hcase).
  exists n. split; [exact Hn |].
  destruct Hcase as [Hlow | [Hhigh Hstopped]]; [left; exact Hlow | right].
  split; [exact Hhigh |].
  exists (stopped "successful" p (wall_clock w) (S n)).
  split; [exact Hstopped |].
  destruct (stopped_facts "successful" p (wall_clock w) (S n))
    as (Hid & Hst & Hd & Ht & He & _).
  repeat split; assumption.
Qed.

(** C10. The progress query reports as territory the stored
    territory_gained, whatever the status, and for a push that is not
    active it reports the stored distance_pushed without reading the
    clock; and every notification of a run of the periodic update, on a
    table with distinct primary keys, carries the territory_gained that an
    active push held in the table when the run began. *)
Theorem progress_reports_stored_territory :
  (forall (this : Instance border_pushes.t) (w : World),
     returns (BorderPush.calculateCurrentProgress this) w (fun r w' =>
       territory (fst r) = border_pushes.territory_gained (dataValues this)
       /\ (border_pushes.status (dataValues this) <> border_pushes.active ->
           distance (fst r) = border_pushes.distance_pushed (dataValues this)
           /\ isActive (fst r) = false
           /\ w' = w)))
  /\ (forall w : World,
        NoDup (map border_pushes.id (tbl_border_pushes w)) ->
        returns socketHandler.border_push_tick w (fun _ w' =>
          exists es, emitted w' = emitted w ++ es
            /\ Forall (fun e => exists p, In p (tbl_border_pushes w)
                         /\ border_pushes.status p = border_pushes.active
                         /\ reports_stored_territory p e) es)).
Proof.
  split.
  - intros this w.
    destruct (BorderPush.is_active (border_pushes.status (dataValues this)))
      eqn:H.
    + eexists _, _. split; [apply calculateCurrentProgress_active; exact H |].
      cbn. split; [reflexivity |]. intros Hterm.
      apply is_active_true in H. contradiction.
    + eexists _, _.
      split; [apply calculateCurrentProgress_terminal; exact H |].
      cbn. repeat split.
  - intros w Hnd.
    eapply returns_mono; [apply border_push_tick_returns; exact Hnd |].
    intros [] w' (_ & _ & _ & _ & _ & _ & Hes). exact Hes.
Qed.

(** ** Ending a war *)

Lemma Country_update_keeps f ids : keeps besides_countries (Country.update f ids).
Proof. apply keeps_modify. intros w. repeat split. Qed.

Lemma Country_update_total f ids : total (Country.update f ids).
Proof. apply total_modify. Qed.

Lemma War_afterUpdate_keeps war : keeps besides_countries (War.afterUpdate war).
Proof.
  unfold War.afterUpdate, Country_instance_update, Country.save,
    Country.findByPk.
  walk_keeps; try apply Country_update_keeps;
    apply keeps_modify; intros w; repeat split.
Qed.

Lemma War_afterUpdate_total war : total (War.afterUpdate war).
Proof.
  unfold War.afterUpdate, Country_instance_update, Country.save,
    Country.findByPk.
  walk_total; apply Country_update_total.
Qed.

Lemma War_beforeUpdate_returns war w :
  returns (War.beforeUpdate war) w (fun war' w' =>
    (exists ended_at duration_minutes,
       dataValues war'
       = wars.set_duration_minutes duration_minutes
           (wars.set_ended_at ended_at (dataValues war)))
    /\ _previousDataValues war' = _previousDataValues war
    /\ tbl_players w' = tbl_players w
    /\ tbl_countries w' = tbl_countries w
    /\ tbl_wars w' = tbl_wars w
    /\ tbl_border_pushes w' = tbl_border_pushes w
    /\ emitted w' = emitted w).
Proof.
  unfold War.beforeUpdate.
  destruct (War.changed_status war && War.is_ended _).
  - eexists _, _. split; [reflexivity |]. cbn. repeat split.
    eexists _, _. reflexivity.
  - eexists _, _. split; [reflexivity |]. repeat split.
    exists (wars.ended_at (dataValues war)),
      (wars.duration_minutes (dataValues war)).
    destruct (dataValues war). reflexivity.
Qed.

Lemma War_save_returns war w :
  returns (War.save war) w (fun war' w' =>
    (exists ended_at duration_minutes,
       dataValues war'
       = wars.set_duration_minutes duration_minutes
           (wars.set_ended_at ended_at (dataValues war)))
    /\ tbl_players w' = tbl_players w
    /\ tbl_wars w'
       = update_where
           (fun r => same_id (wars.id r) (wars.id (dataValues war)))
           (fun _ => dataValues war') (tbl_wars w)
    /\ tbl_border_pushes w' = tbl_border_pushes w).
Proof.
  unfold War.save. apply returns_bind.
  eapply returns_mono; [apply War_beforeUpdate_returns |].
  intros war1 w1 ((e & d & Hvals) & _ & Hp & _ & Hw & Hb & _).
  apply returns_bind. apply returns_modify.
  apply returns_bind.
  eapply returns_mono.
  - apply total_keeps_returns;
      [apply War_afterUpdate_total | apply War_afterUpdate_keeps].
  - cbn. intros [] w2 (Hp2 & Hw2 & Hb2). apply returns_ret.
    cbn in *. split; [exists e, d; exact Hvals |].
    rewrite Hp2, Hw2, Hb2, Hp, Hw, Hb, Hvals. repeat split.
Qed.

Lemma war_is_active_true (s : wars.Status) :
  War.is_active s = true <-> s = wars.active.
Proof. destruct s; cbn; split; intros H; congruence. Qed.

Lemma War_endWar_returns endedBy winner war w :
  War.is_active (wars.status (dataValues war)) = true ->
  returns (War.endWar endedBy winner war) w (fun war' w' =>
    wars.id (dataValues war') = wars.id (dataValues war)
    /\ wars.status (dataValues war') = wars.ended
    /\ wars.aggressor_country_id (dataValues war')
       = wars.aggressor_country_id (dataValues war)
    /\ wars.defender_country_id (dataValues war')
       = wars.defender_country_id (dataValues war)
    /\ tbl_players w' = tbl_players w
    /\ tbl_wars w'
       = update_where
           (fun r => same_id (wars.id r) (wars.id (dataValues war)))
           (fun _ => dataValues war') (tbl_wars w)
    /\ tbl_border_pushes w' = tbl_border_pushes w).
Proof.
  intros H. unfold War.endWar. rewrite H. cbn [negb].
  apply returns_bind. apply returns_new_Date.
  eapply returns_mono; [apply War_save_returns |].
  intros war' w' ((e & d & Hvals) & Hp & Hw & Hb).
  rewrite Hvals. cbn in *. rewrite Hvals in Hw. repeat split; assumption.
Qed.

Lemma War_endWar_terminal endedBy winner war w :
  War.is_active (wars.status (dataValues war)) = false ->
  War.endWar endedBy winner war w = (Threw "War is not active", w).
Proof.
  intros H. unfold War.endWar. rewrite H. reflexivity.
Qed.

(** The route that ends a war, for an active war its declarer ends: the
    rows of the border pushes afterwards are those before, with the status
    of the active pushes of the war set to cancelled by one UPDATE. *)
Lemma end_war_returns (player : Instance players.t) (id : Id) (w : World)
  (row : wars.t) :
  find (fun r => same_id (wars.id r) id) (tbl_wars w) = Some row ->
  wars.status row = wars.active ->
  wars.declared_by row = players.id (dataValues player) ->
  returns (game.end_war player id) w (fun res w' =>
    res = {| http_status := 200; error := None |}
    /\ tbl_border_pushes w'
       = update_where
           (fun r => same_id (border_pushes.war_id r) id
                     && BorderPush.is_active (border_pushes.status r))
           (border_pushes.set_status border_pushes.cancelled)
           (tbl_border_pushes w)).
Proof.
  intros Hfind Hactive Hby.
  assert (Hid : wars.id row = id).
  { apply find_some in Hfind. apply same_id_eq. apply Hfind. }
  unfold game.end_war. apply returns_try_catch.
  apply returns_bind. unfold War.findByPk. apply returns_gets.
  rewrite Hfind. cbn [option_map].
  cbn [dataValues build]. rewrite Hactive. cbn [War.is_active
    wars.status_eqb negb].
  unfold War.canEndWar. cbn [dataValues build]. rewrite Hby, same_id_refl.
  cbn [negb].
  apply returns_bind.
  eapply returns_mono; [apply War_endWar_returns |].
  - cbn [dataValues build]. rewrite Hactive. reflexivity.
  - intros war' w1 (Hid' & _ & _ & _ & _ & _ & Hpushes).
    cbn [dataValues build] in Hid'. rewrite Hid', Hid.
    apply returns_bind. unfold BorderPush.update.
    cbn [BorderPush.default_options BorderPush.individualHooks].
    apply returns_modify. apply returns_bind. apply returns_emit.
    apply returns_ret. split; [reflexivity |].
    cbn. rewrite Hpushes. reflexivity.
Qed.

Lemma cancelled_by_update_where (id : Id) (rows : list border_pushes.t) :
  let sel := fun r => same_id (border_pushes.war_id r) id
                      && BorderPush.is_active (border_pushes.status r) in
  let rows' :=
    update_where sel (border_pushes.set_status border_pushes.cancelled) rows in
  (forall p, In p rows -> border_pushes.war_id p = id ->
     border_pushes.status p = border_pushes.active ->
     In (border_pushes.set_status border_pushes.cancelled p) rows')
  /\ (forall p, In p rows ->
        border_pushes.war_id p <> id
        \/ border_pushes.status p <> border_pushes.active ->
        In p rows')
  /\ (forall p', In p' rows' -> border_pushes.war_id p' = id ->
        border_pushes.status p' <> border_pushes.active).
Proof.
  intros sel rows'. split; [| split].
  - intros p Hin Hw Ha. unfold rows', update_where. apply in_map_iff.
    exists p. split; [| exact Hin].
    unfold sel. rewrite Hw, same_id_refl, Ha. reflexivity.
  - intros p Hin Hor. unfold rows', update_where. apply in_map_iff.
    exists p. split; [| exact Hin].
    assert (Hsel : sel p = false).
    { unfold sel. destruct Hor as [Hw | Ha].
      - apply same_id_neq in Hw. rewrite Hw. reflexivity.
      - apply is_active_false in Ha. rewrite Ha. apply andb_false_r. }
    rewrite Hsel. reflexivity.
  - intros p' Hin Hw. apply In_update_where in Hin.
    destruct Hin as (r0 & _ & ->).
    destruct (sel r0) eqn:E.
    + cbn. discriminate.
    + unfold sel in E. cbn in Hw.
      apply same_id_eq in Hw. rewrite Hw in E. cbn in E.
      apply is_active_false. exact E.
Qed.

(** The cascade of the route that ends a war: every active push of the war
    becomes cancelled, no push of the war is active afterwards, and the
    other pushes are as they were; the UPDATE writes the status alone, so
    ended_at is what it was. *)
Lemma end_war_cancels_active_pushes (player : Instance players.t) (id : Id)
  (w : World) (row : wars.t) :
  find (fun r => same_id (wars.id r) id) (tbl_wars w) = Some row ->
  wars.status row = wars.active ->
  wars.declared_by row = players.id (dataValues player) ->
  returns (game.end_war player id) w (fun res w' =>
    http_status res = 200
    /\ (forall p, In p (tbl_border_pushes w) ->
          border_pushes.war_id p = id ->
          border_pushes.status p = border_pushes.active ->
          exists p', In p' (tbl_border_pushes w')
            /\ p' = border_pushes.set_status border_pushes.cancelled p
            /\ border_pushes.status p' = border_pushes.cancelled
            /\ border_pushes.ended_at p' = border_pushes.ended_at p)
    /\ (forall p, In p (tbl_border_pushes w) ->
          border_pushes.war_id p <> id
          \/ border_pushes.status p <> border_pushes.active ->
          In p (tbl_border_pushes w'))
    /\ (forall p', In p' (tbl_border_pushes w') ->
          border_pushes.war_id p' = id ->
          border_pushes.status p' <> border_pushes.active)).
Proof.
  intros Hfind Hactive Hby.
  eapply returns_mono; [apply (end_war_returns _ _ _ _ Hfind Hactive Hby) |].
  intros res w' (-> & ->).
  destruct (cancelled_by_update_where id (tbl_border_pushes w))
    as (Hc & Hk & Hn).
  split; [reflexivity |]. split; [| split]; [| exact Hk | exact Hn].
  intros p Hin Hw Ha. eexists. split; [apply (Hc p Hin Hw Ha) |].
  repeat split.
Qed.

(** C3 on the sample front. The declarer ends war 500, which has two active
    pushes: both are stored as cancelled, and their ended_at is still
    unset, although the clock is read at 500000 ms and later during the
    request. *)
Theorem end_war_leaves_ended_at_unset :
  returns (game.end_war (build Sample.alice) 500%nat) Sample.front
    (fun res w' =>
       http_status res = 200
       /\ tbl_border_pushes w'
          = [border_pushes.set_status border_pushes.cancelled
               (Sample.push 7%nat 100%R);
             border_pushes.set_status border_pushes.cancelled
               (Sample.push 8%nat 9999%R)]
       /\ Forall (fun p => border_pushes.status p = border_pushes.cancelled
                           /\ border_pushes.ended_at p = None)
            (tbl_border_pushes w')).
Proof.
  eapply returns_mono.
  - apply (end_war_returns (build Sample.alice) 500%nat Sample.front
             Sample.war); reflexivity.
  - intros res w' (-> & ->). split; [reflexivity |].
    split; [reflexivity |].
    repeat constructor.
Qed.

(** What the update hook does when the same change of status is saved
    through an instance, as [stopPush] does and as the bulk update would
    with [individualHooks]: ended_at is stamped with the clock. *)
Lemma cancel_through_instance_stamps_ended_at (r : border_pushes.t)
  (w : World) :
  border_pushes.status r = border_pushes.active ->
  returns
    (BorderPush.save
       (assign (border_pushes.set_status border_pushes.cancelled) (build r)))
    w
    (fun this' w' =>
       border_pushes.status (dataValues this') = border_pushes.cancelled
       /\ border_pushes.ended_at (dataValues this')
          = Some (wall_clock w (clock_reads w))
       /\ forall row, In row (tbl_border_pushes w') ->
            border_pushes.id row = border_pushes.id r ->
            border_pushes.ended_at row = Some (wall_clock w (clock_reads w))).
Proof.
  intros Hact. eexists _, _. split.
  - apply BorderPush_save_ending.
    unfold hook_fires, BorderPush.changed_status. cbn. rewrite Hact.
    reflexivity.
  - cbn. repeat split. intros row Hin Hid.
    apply (In_update_where_key border_pushes.id) in Hin; [| exact Hid].
    rewrite Hin. reflexivity.
Qed.

(** The same bulk update on the sample front, had it been asked to run the
    instance hooks: both pushes are stored as cancelled with ended_at
    stamped. *)
Lemma bulk_cancel_with_individual_hooks :
  returns
    (BorderPush.update border_pushes.cancelled
       (fun r => same_id (border_pushes.war_id r) 500%nat
                 && BorderPush.is_active (border_pushes.status r))
       {| BorderPush.individualHooks := true |})
    Sample.front
    (fun _ w' =>
       Forall (fun p => border_pushes.status p = border_pushes.cancelled
                        /\ border_pushes.ended_at p <> None)
         (tbl_border_pushes w')).
Proof.
  unfold BorderPush.update. cbn [BorderPush.individualHooks].
  apply returns_bind. apply returns_gets.
  change (filter _ (tbl_border_pushes Sample.front))
    with [Sample.push 7%nat 100%R; Sample.push 8%nat 9999%R].
  cbn [for_of].
  apply returns_bind. apply returns_bind.
  eexists _, _. split; [apply BorderPush_save_ending; reflexivity |].
  apply returns_ret.
  apply returns_bind. apply returns_bind.
  eexists _, _. split; [apply BorderPush_save_ending; reflexivity |].
  apply returns_ret. apply returns_ret.
  cbn. repeat constructor; discriminate.
Qed.

(** ** Starting a push *)

#[local] Instance nothing_written_trail : Trail nothing_written.
Proof.
  split; unfold nothing_written; cbn; intros; intuition congruence.
Qed.

(** C6, as stated, fails in the sample world at war: the request of a
    player with 100 resources inserts the border push first and updates
    the player's balance afterwards. *)
Lemma border_push_creates_before_debit :
  ~ Spec.debit_before_creation Sample.at_war
      (final (game.border_push (build Sample.alice) 20%nat) Sample.at_war)
  /\ written (final (game.border_push (build Sample.alice) 20%nat)
                Sample.at_war)
     = ["border_pushes"; "players"]%string.
Proof.
  split; [| reflexivity].
  intros H. apply (H [] ["players"%string]). reflexivity.
Qed.

Lemma nothing_written_refl w : nothing_written w w.
Proof. repeat split. Qed.

Lemma border_push_refused (player : Instance players.t) (target : Id)
  (w : World) :
  players.resources (dataValues player) < resourceCost ->
  returns (game.border_push player target) w (fun res w' =>
    http_status res <> 201
    /\ nothing_written w w'
    /\ (push_allowed player target w ->
        res = {| http_status := 400;
                 error := Some "Insufficient Resources"%string |})).
Proof.
  intros Hlt. apply Z.ltb_lt in Hlt. unfold resourceCost in Hlt.
  unfold game.border_push. cbv zeta.
  apply returns_try_catch.
  apply returns_bind. unfold War.findOne. apply returns_gets.
  fold (push_war player target w).
  destruct (push_war player target w) as [war |] eqn:Hwar; cbn [option_map].
  - apply returns_bind. apply returns_gets.
    apply returns_bind. unfold BorderPush.findOne_latest. apply returns_gets.
    fold (last_push player w).
    destruct (last_push player w) as [lastPush |] eqn:Hlast;
      cbn [option_map dataValues build].
    + destruct (BorderPush.is_active (border_pushes.status lastPush))
        eqn:Hact.
      * apply returns_ret. split; [discriminate |].
        split; [apply nothing_written_refl |].
        intros [_ Hadm]. rewrite Hlast in Hadm. destruct Hadm as [Hna _].
        apply is_active_true in Hact. contradiction.
      * apply returns_bind. apply returns_bind. apply returns_new_Date.
        apply returns_ret.
        destruct (wall_clock w (clock_reads w)
                  - border_pushes.started_at lastPush
                  <? parseInt_or (BORDER_PUSH_COOLDOWN_MS (process_env w))
                       5000) eqn:Hlim.
        -- apply returns_ret. split; [discriminate |].
           split; [repeat split |].
           intros [_ Hadm]. rewrite Hlast in Hadm. destruct Hadm as [_ Hcool].
           apply Z.ltb_lt in Hlim. lia.
        -- rewrite Hlt. apply returns_ret. split; [discriminate |].
           split; [repeat split |]. reflexivity.
    + apply returns_bind. apply returns_ret. cbv iota. rewrite Hlt.
      apply returns_ret. split; [discriminate |].
      split; [apply nothing_written_refl |]. reflexivity.
  - apply returns_ret. split; [discriminate |].
    split; [apply nothing_written_refl |].
    intros [Hw _]. contradiction.
Qed.

Lemma push_war_country player target w war :
  push_war player target w = Some war ->
  players.country_id (dataValues player)
  = Some (wars.aggressor_country_id war).
Proof.
  intros H. apply find_some in H. destruct H as [_ H].
  apply andb_true_iff in H. destruct H as [H _].
  apply andb_true_iff in H. destruct H as [H _].
  unfold opt_is in H. destruct (players.country_id (dataValues player));
    [| discriminate].
  apply same_id_eq in H. congruence.
Qed.

Lemma border_push_accepted (player : Instance players.t) (target : Id)
  (w : World) :
  resourceCost <= players.resources (dataValues player) ->
  push_allowed player target w ->
  returns (game.border_push player target) w (fun res w' =>
    res = {| http_status := 201; error := None |}
    /\ (exists borderPush,
          tbl_border_pushes w' = tbl_border_pushes w ++ [borderPush]
          /\ border_pushes.player_id borderPush
             = players.id (dataValues player)
          /\ border_pushes.status borderPush = border_pushes.active
          /\ border_pushes.resources_consumed borderPush = resourceCost)
    /\ written w' = written w ++ ["border_pushes"; "players"]%string
    /\ forall row, In row (tbl_players w') ->
         players.id row = players.id (dataValues player) ->
         players.resources row
         = players.resources (dataValues player) - resourceCost).
Proof.
  intros Hge [Hwar Hlast]. apply Z.ltb_ge in Hge. unfold resourceCost in *.
  unfold game.border_push. cbv zeta.
  apply returns_try_catch.
  apply returns_bind. unfold War.findOne. apply returns_gets.
  fold (push_war player target w).
  destruct (push_war player target w) as [war |] eqn:Hfound;
    [| contradiction].
  cbn [option_map].
  pose proof (push_war_country _ _ _ _ Hfound) as Hcountry.
  apply returns_bind. apply returns_gets.
  apply returns_bind. unfold BorderPush.findOne_latest. apply returns_gets.
  fold (last_push player w).
  assert (Hcommit : forall w1,
            tbl_border_pushes w1 = tbl_border_pushes w ->
            tbl_players w1 = tbl_players w ->
            written w1 = written w ->
            returns
              (if players.resources (dataValues player) <? 10
               then json_error 400 "Insufficient Resources"
               else
                 match players.country_id (dataValues player) with
                 | Some source_country_id =>
                     borderPush <-
                       BorderPush.create (wars.id (dataValues (build war)))
                         (players.id (dataValues player)) source_country_id
                         target 1.0%R 1.0%R 10 ;;
                     Player.consumeResources 10 player ;;
                     emit (Some source_country_id)
                       (border_push_started
                          (border_pushes.id (dataValues borderPush))
                          (wars.id (dataValues (build war)))) ;;
                     emit (Some target)
                       (border_push_incoming
                          (border_pushes.id (dataValues borderPush))
                          source_country_id
                          (wars.id (dataValues (build war)))) ;;
                     json_ok 201
                 | None => throw "notNull Violation"
                 end) w1
              (fun res w' =>
                 res = {| http_status := 201; error := None |}
                 /\ (exists borderPush,
                       tbl_border_pushes w'
                       = tbl_border_pushes w ++ [borderPush]
                       /\ border_pushes.player_id borderPush
                          = players.id (dataValues player)
                       /\ border_pushes.status borderPush
                          = border_pushes.active
                       /\ border_pushes.resources_consumed borderPush = 10)
                 /\ written w'
                    = written w ++ ["border_pushes"; "players"]%string
                 /\ forall row, In row (tbl_players w') ->
                      players.id row = players.id (dataValues player) ->
                      players.resources row
                      = players.resources (dataValues player) - 10)).
  { intros w1 Hb Hp Hwr. rewrite Hge, Hcountry.
    unfold BorderPush.create, Player.consumeResources. rewrite Hge.
    unfold Player.save, json_ok. run_monad.
    eexists _, _. split; [reflexivity |].
    cbn. rewrite Hb, Hp, Hwr. split; [reflexivity |].
    split; [eexists; split; [reflexivity |]; repeat split |].
    split; [rewrite <- app_assoc; reflexivity |].
    intros row Hin Hid.
    apply (In_update_where_key players.id) in Hin; [| exact Hid].
    rewrite Hin. reflexivity. }
  destruct (last_push player w) as [lastPush |] eqn:Hlp;
    cbn [option_map dataValues build].
  - destruct Hlast as [Hna Hcool].
    apply is_active_false in Hna. rewrite Hna.
    apply returns_bind. apply returns_bind. apply returns_new_Date.
    apply returns_ret.
    apply Z.ltb_ge in Hcool. rewrite Hcool.
    apply Hcommit; reflexivity.
  - apply returns_bind. apply returns_ret. cbv iota.
    apply Hcommit; reflexivity.
Qed.

(** C6, amended. The route that starts a push checks the player's balance
    against the push cost before it creates anything: below the cost, and
    with the earlier checks passed, it answers Insufficient Resources, and
    in any case it then writes nothing, so no border push is created and
    nothing is debited; with at least the cost, and the earlier checks
    passed, it inserts the border push first and then debits the cost
    from the player, and answers 201. *)
Theorem border_push_checks_balance_then_creates_then_debits
  (player : Instance players.t) (target : Id) (w : World) :
  (players.resources (dataValues player) < resourceCost ->
   returns (game.border_push player target) w (fun res w' =>
     http_status res <> 201
     /\ tbl_border_pushes w' = tbl_border_pushes w
     /\ tbl_players w' = tbl_players w
     /\ written w' = written w
     /\ (push_allowed player target w ->
         res = {| http_status := 400;
                  error := Some "Insufficient Resources"%string |})))
  /\ (resourceCost <= players.resources (dataValues player) ->
      push_allowed player target w ->
      returns (game.border_push player target) w (fun res w' =>
        res = {| http_status := 201; error := None |}
        /\ (exists borderPush,
              tbl_border_pushes w' = tbl_border_pushes w ++ [borderPush]
              /\ border_pushes.player_id borderPush
                 = players.id (dataValues player)
              /\ border_pushes.status borderPush = border_pushes.active
              /\ border_pushes.resources_consumed borderPush = resourceCost)
        /\ written w' = written w ++ ["border_pushes"; "players"]%string
        /\ forall row, In row (tbl_players w') ->
             players.id row = players.id (dataValues player) ->
             players.resources row
             = players.resources (dataValues player) - resourceCost)).
Proof.
  split.
  - intros Hlt.
    eapply returns_mono; [apply border_push_refused; exact Hlt |].
    intros res w' (Hres & (Hw & Hp & _ & _ & Hb) & Hadm).
    repeat split; assumption.
  - apply border_push_accepted.
Qed.

(** ** Active wars between two countries *)

Lemma wars_settle_same w w' : tbl_wars w' = tbl_wars w -> wars_settle w w'.
Proof. intros H a b. rewrite H. apply Nat.le_refl. Qed.

#[local] Instance wars_settle_trail : Trail wars_settle.
Proof.
  split.
  - intros w. apply wars_settle_same. reflexivity.
  - intros w1 w2 w3 H12 H23 a b.
    eapply Nat.le_trans; [apply H23 | apply H12].
  - intros n w. apply wars_settle_same. reflexivity.
  - intros n w. apply wars_settle_same. reflexivity.
  - intros es w. apply wars_settle_same. reflexivity.
Qed.

Lemma filter_update_where_le {A : Type} (p sel : A -> bool) (f : A -> A)
  (rows : list A) :
  (forall r, sel r = true -> p (f r) = true -> p r = true) ->
  (List.length (filter p (update_where sel f rows))
   <= List.length (filter p rows))%nat.
Proof.
  intros Hf. unfold update_where.
  induction rows as [| r rows IH]; cbn; [lia |].
  destruct (sel r) eqn:Hsel.
  - destruct (p (f r)) eqn:Hpf.
    + rewrite (Hf r Hsel Hpf). cbn. lia.
    + destruct (p r); cbn; lia.
  - destruct (p r); cbn; lia.
Qed.

Lemma wars_settle_update_where sel f w :
  (forall a b r, sel r = true -> War.active_between a b (f r) = true ->
                 War.active_between a b r = true) ->
  wars_settle w (with_wars (update_where sel f (tbl_wars w)) w).
Proof.
  intros Hf a b. cbn. unfold active_wars_between.
  apply filter_update_where_le. intros r. apply Hf.
Qed.

Lemma War_increment_settles pk :
  keeps wars_settle (War.increment_total_border_pushes pk).
Proof.
  apply keeps_modify. intros w. apply wars_settle_update_where.
  intros a b r _ H. exact H.
Qed.

(** Closes the goals a walk leaves about writes to other tables. *)
Ltac other_table :=
  apply keeps_modify; intros ?; apply wars_settle_same; reflexivity.

Ltac settle :=
  first [ apply War_increment_settles | other_table ].

Lemma BorderPush_save_settles this : keeps wars_settle (BorderPush.save this).
Proof.
  unfold BorderPush.save, BorderPush.beforeUpdate, BorderPush.afterUpdate.
  walk_keeps; settle.
Qed.

Lemma calculateCurrentProgress_settles this :
  keeps wars_settle (BorderPush.calculateCurrentProgress this).
Proof. unfold BorderPush.calculateCurrentProgress. walk_keeps. Qed.

Lemma updateProgress_settles this :
  keeps wars_settle (BorderPush.updateProgress this).
Proof.
  unfold BorderPush.updateProgress.
  walk_keeps; settle.
Qed.

Lemma stopPush_settles reason this :
  keeps wars_settle (BorderPush.stopPush reason this).
Proof.
  unfold BorderPush.stopPush.
  walk_keeps; settle.
Qed.

Lemma border_push_tick_settles :
  keeps wars_settle socketHandler.border_push_tick.
Proof.
  unfold socketHandler.border_push_tick, socketHandler.update_push,
    BorderPush.findActivePushes.
  walk_keeps; settle.
Qed.

Lemma border_push_update_settles push_id :
  keeps wars_settle (socketHandler.border_push_update push_id).
Proof.
  unfold socketHandler.border_push_update, BorderPush.findByPk.
  walk_keeps; settle.
Qed.

Lemma border_push_join_settles player id :
  keeps wars_settle (game.border_push_join player id).
Proof.
  unfold game.border_push_join, BorderPush.findByPk,
    BorderPush.addSupportingSoldier, json_error, json_ok.
  walk_keeps; settle.
Qed.

Lemma border_push_defend_settles player id :
  keeps wars_settle (game.border_push_defend player id).
Proof.
  unfold game.border_push_defend, BorderPush.findByPk,
    BorderPush.addDefendingSoldier, json_error, json_ok.
  walk_keeps; settle.
Qed.

Lemma border_push_settles player target :
  keeps wars_settle (game.border_push player target).
Proof.
  unfold game.border_push, War.findOne, BorderPush.findOne_latest,
    BorderPush.create, Player.consumeResources, Player.save,
    json_error, json_ok.
  walk_keeps; settle.
Qed.

Lemma active_between_ended a b r :
  wars.status r = wars.ended -> War.active_between a b r = false.
Proof.
  intros H. unfold War.active_between. rewrite H. cbn. apply andb_false_r.
Qed.

Lemma War_endWar_settles endedBy winner war :
  keeps wars_settle (War.endWar endedBy winner war).
Proof.
  intros w. unfold final.
  destruct (War.is_active (wars.status (dataValues war))) eqn:H.
  - destruct (War_endWar_returns endedBy winner war w H)
      as (war' & w' & Hrun & _ & Hst & _ & _ & _ & Hw & _).
    rewrite Hrun. cbn [snd]. intros a b. rewrite Hw.
    unfold active_wars_between. apply filter_update_where_le.
    intros r _ Hab. rewrite (active_between_ended a b _ Hst) in Hab.
    discriminate.
  - rewrite (War_endWar_terminal endedBy winner war w H).
    apply wars_settle_same. reflexivity.
Qed.

Lemma end_war_settles player id : keeps wars_settle (game.end_war player id).
Proof.
  unfold game.end_war, War.findByPk.
  walk_keeps; first [apply War_endWar_settles | settle].
Qed.

(** ** Declaring a war *)

Lemma at_most_one_same w w' :
  tbl_wars w' = tbl_wars w ->
  at_most_one_active_war w -> at_most_one_active_war w'.
Proof. intros H Hinv a b. rewrite H. apply Hinv. Qed.

Lemma at_most_one_settle w w' :
  wars_settle w w' -> at_most_one_active_war w -> at_most_one_active_war w'.
Proof.
  intros Hs Hinv a b. eapply Nat.le_trans; [apply Hs | apply Hinv].
Qed.

Lemma active_between_sym a b r :
  War.active_between a b r = War.active_between b a r.
Proof. unfold War.active_between. f_equal. apply orb_comm. Qed.

Lemma filter_none {A : Type} (p : A -> bool) (l : list A) :
  (forall x, In x l -> p x = false) -> filter p l = [].
Proof.
  induction l as [| x l IH]; cbn; intros H; [reflexivity |].
  rewrite (H x) by now left. apply IH. intros y Hy. apply H. now right.
Qed.

Lemma active_between_pair a b r :
  War.active_between a b r = true ->
  (wars.aggressor_country_id r = a /\ wars.defender_country_id r = b)
  \/ (wars.aggressor_country_id r = b /\ wars.defender_country_id r = a).
Proof.
  unfold War.active_between. intros H.
  apply andb_true_iff in H. destruct H as [H _].
  apply orb_true_iff in H.
  destruct H as [H | H]; apply andb_true_iff in H; destruct H as [H1 H2];
    apply same_id_eq in H1; apply same_id_eq in H2; auto.
Qed.

Lemma active_between_same_pair a b r r' :
  wars.aggressor_country_id r' = wars.aggressor_country_id r ->
  wars.defender_country_id r' = wars.defender_country_id r ->
  wars.status r' = wars.status r ->
  War.active_between a b r' = War.active_between a b r.
Proof.
  intros Ha Hd Hs. unfold War.active_between. rewrite Ha, Hd, Hs.
  reflexivity.
Qed.

(** Appending a war between two countries that have no active war keeps
    every pair at one active war at most. *)
Lemma at_most_one_append (rows : list wars.t) (war : wars.t) :
  (forall a b, (List.length (active_wars_between a b rows) <= 1)%nat) ->
  find (War.active_between (wars.aggressor_country_id war)
          (wars.defender_country_id war)) rows = None ->
  forall a b, (List.length (active_wars_between a b (rows ++ [war])) <= 1)%nat.
Proof.
  intros Hinv Hnone a b. unfold active_wars_between.
  rewrite filter_app, length_app. cbn [filter].
  destruct (War.active_between a b war) eqn:E.
  - assert (Hempty : filter (War.active_between a b) rows = []).
    { apply filter_none. intros r Hr.
      pose proof (find_none _ _ Hnone r Hr) as Hr'.
      destruct (active_between_pair a b war E) as [[<- <-] | [<- <-]].
      - exact Hr'.
      - rewrite active_between_sym. exact Hr'. }
    rewrite Hempty. cbn. lia.
  - cbn. rewrite Nat.add_0_r. apply Hinv.
Qed.

Lemma War_create_post aggressor defender declared_by w :
  post (War.create aggressor defender declared_by) w (fun o w' =>
    match o with
    | Returned war =>
        tbl_wars w' = tbl_wars w ++ [dataValues war]
        /\ wars.aggressor_country_id (dataValues war) = aggressor
        /\ wars.defender_country_id (dataValues war) = defender
        /\ wars.status (dataValues war) = wars.active
    | Threw _ => tbl_wars w' = tbl_wars w /\ written w' = written w
    end).
Proof.
  unfold War.create.
  apply post_bind, post_UUIDV4. apply post_bind, post_new_Date.
  apply post_bind. unfold War.beforeCreate. cbn [wars.aggressor_country_id
    wars.defender_country_id].
  destruct (same_id aggressor defender).
  - apply post_throw. split; reflexivity.
  - apply post_ret. apply post_bind, post_gets.
    destruct (existsb _ _).
    + apply post_throw. split; reflexivity.
    + apply post_bind, post_modify. apply post_bind.
      unfold War.afterCreate, Country.update. apply post_modify.
      apply post_ret. cbn. repeat split.
Qed.

Lemma declare_war_invariant player target w :
  at_most_one_active_war w ->
  post (game.declare_war player target) w
    (fun _ w' => at_most_one_active_war w').
Proof.
  intros Hinv. unfold game.declare_war, json_error, json_ok.
  apply post_try_catch.
  destruct (players.country_id (dataValues player)) as [c |];
    [| apply post_ret; exact Hinv].
  apply post_bind. unfold Country.findByPk at 1. apply post_gets.
  destruct (option_map build _) as [sourceCountry |];
    [| apply post_ret; exact Hinv].
  destruct (negb (opt_is _ _)); [apply post_ret; exact Hinv |].
  apply post_bind. unfold Country.findByPk at 1. apply post_gets.
  destruct (option_map build _) as [targetCountry |];
    [| apply post_ret; exact Hinv].
  destruct (negb (countries.is_claimed _)); [apply post_ret; exact Hinv |].
  destruct (same_id _ _); [apply post_ret; exact Hinv |].
  apply post_bind. unfold War.findOne. apply post_gets.
  destruct (find _ (tbl_wars w)) as [existing |] eqn:Hnone;
    cbn [option_map]; [apply post_ret; exact Hinv |].
  apply post_bind, post_gets.
  apply post_bind. unfold War.findOne_latest. apply post_gets.
  set (s := countries.id (dataValues sourceCountry)) in *.
  set (t := countries.id (dataValues targetCountry)) in *.
  assert (Hcreate : forall w0,
            tbl_wars w0 = tbl_wars w ->
            post
              (war <- War.create s t (players.id (dataValues player)) ;;
               Player.increment_wars_declared player ;;
               emit None
                 (war_declared (wars.id (dataValues war)) s t
                    (wars.declared_at (dataValues war))) ;;
               ret {| http_status := 201; error := None |}) w0
              (fun o w1 =>
                 match o with
                 | Returned a => at_most_one_active_war w1
                 | Threw e =>
                     post (ret {| http_status := 500;
                                  error := Some "Internal Server Error"%string |})
                       w1 (fun _ w' => at_most_one_active_war w')
                 end)).
  { intros w0 Hw0. apply post_bind.
    eapply post_mono; [apply War_create_post |].
    intros [war | e] w1.
    - intros (Htbl & Ha & Hd & _).
      apply post_bind. unfold Player.increment_wars_declared.
      apply post_modify. apply post_bind, post_emit. apply post_ret.
      intros a b. cbn. rewrite Htbl, Hw0.
      apply at_most_one_append; [exact Hinv |].
      rewrite Ha, Hd. exact Hnone.
    - intros [Htbl _]. apply post_ret.
      eapply at_most_one_same; [| exact Hinv]. congruence. }
  destruct (option_map build _) as [lastWar |].
  - apply post_bind. apply post_bind, post_new_Date. apply post_ret.
    destruct (_ <? _); [apply post_ret; apply (at_most_one_same w);
                        [reflexivity | exact Hinv] |].
    apply Hcreate. reflexivity.
  - apply post_bind, post_ret. cbv iota.
    apply Hcreate. reflexivity.
Qed.

Lemma find_same_id_key {A : Type} (key : A -> Id) (k : Id) (rows : list A)
  (r : A) :
  find (fun x => same_id (key x) k) rows = Some r -> key r = k.
Proof.
  intros H. apply find_some in H. apply same_id_eq. apply H.
Qed.

Lemma find_exists_some {A : Type} (p : A -> bool) (rows : list A) (r : A) :
  In r rows -> p r = true -> exists r', find p rows = Some r'.
Proof.
  intros Hin Hp. destruct (find p rows) as [r' |] eqn:E; [eauto |].
  rewrite (find_none _ _ E r Hin) in Hp. discriminate.
Qed.

(** With the earlier checks passed and an active war between the two
    countries, in one direction or the other, the route answers Conflict
    and changes nothing. *)
Lemma declare_war_conflict player target w source targetCountry existing :
  may_declare player target w source targetCountry ->
  In existing (tbl_wars w) ->
  War.active_between (countries.id source) (countries.id targetCountry)
    existing = true ->
  game.declare_war player target w
  = (Returned {| http_status := 409; error := Some "Conflict"%string |}, w).
Proof.
  intros ((c & Hc & Hs) & Hown & Ht & Hclaimed & Hne) Hin Hbetween.
  destruct (find_exists_some _ _ _ Hin Hbetween) as (found & Hfound).
  unfold game.declare_war, try_catch. rewrite Hc.
  unfold bind at 1. unfold Country.findByPk at 1, gets. rewrite Hs.
  cbn [option_map dataValues build]. rewrite Hown.
  cbn [opt_is]. rewrite same_id_refl. cbn [negb].
  unfold bind at 1. unfold Country.findByPk at 1, gets. rewrite Ht.
  cbn [option_map dataValues build]. rewrite Hclaimed. cbn [negb].
  apply same_id_neq in Hne. rewrite Hne.
  unfold bind at 1. unfold War.findOne, gets. rewrite Hfound.
  reflexivity.
Qed.

Lemma handle_keeps_invariant (r : Request) (w : World) :
  at_most_one_active_war w -> at_most_one_active_war (handle r w).
Proof.
  intros Hinv. destruct r; cbn [handle].
  - apply (declare_war_invariant player target_country_id w Hinv).
  - eapply at_most_one_settle; [apply end_war_settles | exact Hinv].
  - eapply at_most_one_settle; [apply border_push_settles | exact Hinv].
  - eapply at_most_one_settle; [apply border_push_join_settles | exact Hinv].
  - eapply at_most_one_settle; [apply border_push_defend_settles | exact Hinv].
  - eapply at_most_one_settle; [apply border_push_update_settles | exact Hinv].
  - eapply at_most_one_settle; [apply border_push_tick_settles | exact Hinv].
Qed.

(** X25. In every world the server reaches from one without wars, by
    requests handled one after the other, each unordered pair of countries
    has at most one active war; and a declaration that has passed the
    earlier checks while an active war exists between the two countries,
    with the player's country as aggressor or as defender, is answered
    with Conflict and leaves the world as it was, so that no war is
    created.  Two handlers that overlap are another matter, which the
    last part takes up. *)
Theorem at_most_one_active_war_per_pair :
  (forall w : World, reachable w -> at_most_one_active_war w)
  /\ (forall (player : Instance players.t) (target_country_id : Id)
        (w : World) (source target : countries.t) (existing : wars.t),
        may_declare player target_country_id w source target ->
        In existing (tbl_wars w) ->
        wars.status existing = wars.active ->
        (wars.aggressor_country_id existing = countries.id source
         /\ wars.defender_country_id existing = countries.id target)
        \/ (wars.aggressor_country_id existing = countries.id target
            /\ wars.defender_country_id existing = countries.id source) ->
        game.declare_war player target_country_id w
        = (Returned {| http_status := 409; error := Some "Conflict"%string |},
           w)).
Proof.
  split.
  - intros w Hreach. induction Hreach as [w Hempty _ | r w _ IH].
    + intros a b. rewrite Hempty. cbn. lia.
    + apply handle_keeps_invariant. exact IH.
  - intros player target_country_id w source target existing Hmay Hin Hact
      Hpair.
    eapply declare_war_conflict; [exact Hmay | exact Hin |].
    unfold War.active_between. rewrite Hact.
    destruct Hpair as [[-> ->] | [-> ->]];
      rewrite !same_id_refl; cbn; [reflexivity |].
    rewrite orb_true_r. reflexivity.
Qed.

(** ** The bounds of the speed as an invariant of the table *)

Lemma Forall_update_where {A : Type} (P : A -> Prop) (sel : A -> bool)
  (f : A -> A) (rows : list A) :
  Forall P rows -> (forall r, P r -> sel r = true -> P (f r)) ->
  Forall P (update_where sel f rows).
Proof.
  intros Hrows Hf. unfold update_where. apply Forall_map.
  eapply Forall_impl; [| exact Hrows]. intros r Hr. cbn.
  destruct (sel r) eqn:E; auto.
Qed.

Lemma speeds_put_row k v w w' :
  speeds_in_bounds w ->
  Spec.speed_in_bounds (border_pushes.push_speed v) ->
  tbl_border_pushes w' = put_row k v (tbl_border_pushes w) ->
  speeds_in_bounds w'.
Proof.
  intros Hw Hv Htbl. unfold speeds_in_bounds. rewrite Htbl.
  apply Forall_update_where; [exact Hw | auto].
Qed.

Lemma speeds_same w w' :
  tbl_border_pushes w' = tbl_border_pushes w ->
  speeds_in_bounds w -> speeds_in_bounds w'.
Proof. unfold speeds_in_bounds. intros ->. auto. Qed.

Lemma upholds_of_returns {A : Type} (Inv : World -> Prop) (c : M A)
  (Good : A -> Prop) :
  (forall w, Inv w -> returns c w (fun a w' => Inv w' /\ Good a)) ->
  upholds Inv c Good.
Proof.
  intros H w Hw. destruct (H w Hw) as (a & w' & Hrun & Hinv & Hg).
  unfold post. rewrite Hrun. split; assumption.
Qed.

Lemma BorderPush_save_speeds this :
  speed_ok this -> upholds speeds_in_bounds (BorderPush.save this) speed_ok.
Proof.
  intros Hok. apply upholds_of_returns. intros w Hw.
  eapply returns_mono; [apply BorderPush_save_returns |].
  intros this' w' ((e & d & l & Hp') & _ & Htbl & _).
  assert (Hok' : speed_ok this').
  { unfold speed_ok. rewrite Hp'. exact Hok. }
  split; [| exact Hok'].
  eapply speeds_put_row; [exact Hw | exact Hok' | exact Htbl].
Qed.

Lemma calculateCurrentProgress_speeds this :
  speed_ok this ->
  upholds speeds_in_bounds (BorderPush.calculateCurrentProgress this)
    (fun r => speed_ok (snd r)).
Proof.
  intros Hok. apply upholds_of_returns. intros w Hw.
  destruct (BorderPush.is_active (border_pushes.status (dataValues this)))
    eqn:H.
  - eexists _, _. split; [apply calculateCurrentProgress_active; exact H |].
    split; [exact Hw | exact Hok].
  - eexists _, _. split; [apply calculateCurrentProgress_terminal; exact H |].
    split; [exact Hw | exact Hok].
Qed.

Lemma updateProgress_speeds this :
  speed_ok this ->
  upholds speeds_in_bounds (BorderPush.updateProgress this) speed_ok.
Proof.
  intros Hok. apply upholds_of_returns. intros w Hw.
  destruct (BorderPush.is_active (border_pushes.status (dataValues this)))
    eqn:H.
  - eexists _, _. split; [apply updateProgress_active; exact H |].
    split; [| exact Hok].
    eapply speeds_put_row; [exact Hw | | reflexivity]. exact Hok.
  - eexists _, _. split; [apply updateProgress_terminal; exact H |].
    split; [exact Hw | exact Hok].
Qed.

Lemma stopPush_speeds reason this :
  speed_ok this ->
  upholds speeds_in_bounds (BorderPush.stopPush reason this) speed_ok.
Proof.
  intros Hok w Hw. unfold post.
  destruct (BorderPush.is_active (border_pushes.status (dataValues this)))
    eqn:H.
  - rewrite (stopPush_active _ _ _ H). cbn [fst snd].
    split; [| exact Hok].
    eapply (speeds_put_row _ _ w); [exact Hw | | reflexivity]. exact Hok.
  - rewrite (stopPush_terminal _ _ _ H). split; [exact Hw | exact I].
Qed.

Lemma addSupportingSoldier_speeds this :
  upholds speeds_in_bounds (BorderPush.addSupportingSoldier this) speed_ok.
Proof.
  apply upholds_of_returns. intros w Hw.
  eapply returns_mono; [apply addSupportingSoldier_returns |].
  cbv zeta. intros this' w' (_ & _ & Hv & _ & _ & _ & Htbl).
  assert (Hok : speed_ok this').
  { unfold speed_ok. rewrite Hv. apply spec_push_speed_in_bounds. }
  split; [| exact Hok].
  eapply speeds_put_row; [exact Hw | exact Hok | exact Htbl].
Qed.

Lemma addDefendingSoldier_speeds this :
  upholds speeds_in_bounds (BorderPush.addDefendingSoldier this) speed_ok.
Proof.
  apply upholds_of_returns. intros w Hw.
  eapply returns_mono; [apply addDefendingSoldier_returns |].
  cbv zeta. intros this' w' (_ & _ & Hv & _ & _ & _ & Htbl).
  assert (Hok : speed_ok this').
  { unfold speed_ok. rewrite Hv. apply spec_push_speed_in_bounds. }
  split; [| exact Hok].
  eapply speeds_put_row; [exact Hw | exact Hok | exact Htbl].
Qed.

Lemma BorderPush_create_returns war_id player_id source target strength
  terrain cost w :
  returns
    (BorderPush.create war_id player_id source target strength terrain cost)
    w
    (fun this' w' =>
       Spec.speed_in_bounds (border_pushes.push_speed (dataValues this'))
       /\ tbl_border_pushes w' = tbl_border_pushes w ++ [dataValues this']).
Proof.
  unfold BorderPush.create. run_monad.
  eexists _, _. split; [reflexivity |]. split; [| reflexivity].
  cbn [dataValues build]. rewrite beforeCreate_speed.
  apply spec_push_speed_in_bounds.
Qed.

Lemma BorderPush_create_speeds war_id player_id source target strength
  terrain cost :
  upholds speeds_in_bounds
    (BorderPush.create war_id player_id source target strength terrain cost)
    (fun _ => True).
Proof.
  apply upholds_of_returns. intros w Hw.
  eapply returns_mono; [apply BorderPush_create_returns |].
  intros this' w' [Hok Htbl]. split; [| exact I].
  unfold speeds_in_bounds. rewrite Htbl. apply Forall_app.
  split; [exact Hw |]. constructor; [exact Hok | constructor].
Qed.

Lemma found_speed_ok (w : World) (r : border_pushes.t)
  (sel : border_pushes.t -> bool) :
  speeds_in_bounds w -> find sel (tbl_border_pushes w) = Some r ->
  speed_ok (build r).
Proof.
  intros Hw Hfind. apply find_some in Hfind. destruct Hfind as [Hin _].
  unfold speeds_in_bounds in Hw. rewrite Forall_forall in Hw.
  apply Hw. exact Hin.
Qed.

Lemma findByPk_speeds pk :
  upholds speeds_in_bounds (BorderPush.findByPk pk)
    (fun o => match o with Some i => speed_ok i | None => True end).
Proof.
  apply upholds_gets. intros w Hw.
  destruct (find _ _) as [r |] eqn:E; cbn [option_map]; [| exact I].
  eapply found_speed_ok; eassumption.
Qed.

Lemma findActivePushes_speeds :
  upholds speeds_in_bounds BorderPush.findActivePushes (Forall speed_ok).
Proof.
  apply upholds_gets. intros w Hw. apply Forall_map.
  apply Forall_forall. intros r Hr. apply filter_In in Hr.
  unfold speeds_in_bounds in Hw. rewrite Forall_forall in Hw.
  apply Hw. apply Hr.
Qed.

(** A computation that writes no border push upholds the bounds. *)
Ltac quiet :=
  apply (upholds_of_keeps _ pushes_kept);
  [ intros ? ? Hkept; apply speeds_same; exact Hkept
  | walk_keeps; try (apply keeps_modify; intros ?; reflexivity) ].

Lemma declare_war_speeds player target :
  upholds speeds_in_bounds (game.declare_war player target) (fun _ => True).
Proof.
  unfold game.declare_war, Country.findByPk, War.findOne,
    War.findOne_latest, War.create, War.afterCreate, Country.update,
    Player.increment_wars_declared.
  quiet.
Qed.

Lemma War_endWar_speeds endedBy winner war :
  upholds speeds_in_bounds (War.endWar endedBy winner war) (fun _ => True).
Proof.
  unfold War.endWar, War.save, Country_instance_update, Country.save,
    Country.findByPk, Country.update.
  quiet.
Qed.

Lemma emit_speeds to p : upholds speeds_in_bounds (emit to p) (fun _ => True).
Proof. quiet. Qed.

Lemma new_Date_speeds : upholds speeds_in_bounds new_Date (fun _ => True).
Proof. quiet. Qed.

Lemma end_war_speeds player id :
  upholds speeds_in_bounds (game.end_war player id) (fun _ => True).
Proof.
  unfold game.end_war, json_error, json_ok.
  apply upholds_try_catch; [| intros e; apply upholds_ret; exact I].
  eapply upholds_bind with (Good := fun _ => True).
  { unfold War.findByPk. apply upholds_gets. intros; exact I. }
  intros [war |] _; [| apply upholds_ret; exact I].
  destruct (negb (War.is_active _)); [apply upholds_ret; exact I |].
  destruct (negb (War.canEndWar _ _)); [apply upholds_ret; exact I |].
  eapply upholds_bind; [apply War_endWar_speeds |]. intros war' _.
  eapply upholds_bind with (Good := fun _ => True).
  { unfold BorderPush.update. cbn [BorderPush.default_options
      BorderPush.individualHooks].
    apply upholds_modify. intros w Hw. unfold speeds_in_bounds. cbn.
    apply Forall_update_where; [exact Hw |]. intros r Hr _. exact Hr. }
  intros _ _. eapply upholds_bind; [apply emit_speeds |].
  intros _ _. apply upholds_ret. exact I.
Qed.

Lemma border_push_speeds player target :
  upholds speeds_in_bounds (game.border_push player target) (fun _ => True).
Proof.
  unfold game.border_push, json_error, json_ok. cbv zeta.
  apply upholds_try_catch; [| intros e; apply upholds_ret; exact I].
  eapply upholds_bind with (Good := fun _ => True).
  { unfold War.findOne. apply upholds_gets. intros; exact I. }
  intros [war |] _; [| apply upholds_ret; exact I].
  eapply upholds_bind with (Good := fun _ => True).
  { apply upholds_gets. intros; exact I. }
  intros cooldown _.
  eapply upholds_bind with (Good := fun _ => True).
  { unfold BorderPush.findOne_latest. apply upholds_gets. intros; exact I. }
  intros lastPush _.
  destruct (match lastPush with Some _ => _ | None => _ end);
    [apply upholds_ret; exact I |].
  eapply upholds_bind with (Good := fun _ => True).
  { destruct lastPush; [| apply upholds_ret; exact I].
    eapply upholds_bind; [apply new_Date_speeds |].
    intros now _. apply upholds_ret. exact I. }
  intros [|] _; [apply upholds_ret; exact I |].
  destruct (_ <? _); [apply upholds_ret; exact I |].
  destruct (players.country_id _); [| apply upholds_throw].
  eapply upholds_bind; [apply BorderPush_create_speeds |]. intros bp _.
  eapply upholds_bind with (Good := fun _ => True).
  { unfold Player.consumeResources, Player.save. quiet. }
  intros _ _. eapply upholds_bind; [apply emit_speeds |].
  intros _ _. eapply upholds_bind; [apply emit_speeds |].
  intros _ _. apply upholds_ret. exact I.
Qed.

Lemma border_push_join_speeds player id :
  upholds speeds_in_bounds (game.border_push_join player id) (fun _ => True).
Proof.
  unfold game.border_push_join, json_error, json_ok.
  apply upholds_try_catch; [| intros e; apply upholds_ret; exact I].
  eapply upholds_bind; [apply findByPk_speeds |].
  intros [borderPush |] Hok; [| apply upholds_ret; exact I].
  destruct (negb (BorderPush.is_active _)); [apply upholds_ret; exact I |].
  destruct (negb (opt_is _ _)); [apply upholds_ret; exact I |].
  eapply upholds_bind; [apply addSupportingSoldier_speeds |]. intros bp _.
  eapply upholds_bind; [apply emit_speeds |].
  intros _ _. apply upholds_ret. exact I.
Qed.

Lemma border_push_defend_speeds player id :
  upholds speeds_in_bounds (game.border_push_defend player id)
    (fun _ => True).
Proof.
  unfold game.border_push_defend, json_error, json_ok.
  apply upholds_try_catch; [| intros e; apply upholds_ret; exact I].
  eapply upholds_bind; [apply findByPk_speeds |].
  intros [borderPush |] Hok; [| apply upholds_ret; exact I].
  destruct (negb (BorderPush.is_active _)); [apply upholds_ret; exact I |].
  destruct (negb (opt_is _ _)); [apply upholds_ret; exact I |].
  eapply upholds_bind; [apply addDefendingSoldier_speeds |]. intros bp _.
  eapply upholds_bind; [apply emit_speeds |].
  intros _ _. apply upholds_ret. exact I.
Qed.

Lemma update_push_speeds push :
  speed_ok push ->
  upholds speeds_in_bounds (socketHandler.update_push push) (fun _ => True).
Proof.
  intros Hok. unfold socketHandler.update_push.
  eapply upholds_bind; [apply calculateCurrentProgress_speeds; exact Hok |].
  intros [progress push'] Hok'. cbn [snd] in Hok'.
  destruct (Rlt_dec _ _).
  - eapply upholds_bind; [apply stopPush_speeds; exact Hok' |].
    intros push'' _. eapply upholds_bind; [apply emit_speeds |].
    intros _ _. apply emit_speeds.
  - eapply upholds_bind; [apply new_Date_speeds |].
    intros timestamp _. eapply upholds_bind; [apply emit_speeds |].
    intros _ _. apply emit_speeds.
Qed.

Lemma border_push_tick_speeds :
  upholds speeds_in_bounds socketHandler.border_push_tick (fun _ => True).
Proof.
  unfold socketHandler.border_push_tick.
  apply upholds_try_catch; [| intros e; apply upholds_ret; exact I].
  eapply upholds_bind; [apply findActivePushes_speeds |].
  intros activePushes Hall.
  eapply upholds_for_of; [exact Hall |]. apply update_push_speeds.
Qed.

Lemma border_push_update_speeds push_id :
  upholds speeds_in_bounds (socketHandler.border_push_update push_id)
    (fun _ => True).
Proof.
  unfold socketHandler.border_push_update.
  apply upholds_try_catch; [| intros e; apply upholds_ret; exact I].
  eapply upholds_bind; [apply findByPk_speeds |].
  intros [borderPush |] Hok; [| apply upholds_ret; exact I].
  destruct (negb (BorderPush.is_active _)); [apply upholds_ret; exact I |].
  eapply upholds_bind; [apply updateProgress_speeds; exact Hok |].
  intros bp Hbp.
  eapply upholds_bind; [apply calculateCurrentProgress_speeds; exact Hbp |].
  intros [progress bp'] _.
  eapply upholds_bind; [apply new_Date_speeds |].
  intros timestamp _. eapply upholds_bind; [apply emit_speeds |].
  intros _ _. apply emit_speeds.
Qed.

Lemma handle_keeps_speeds (r : Request) (w : World) :
  speeds_in_bounds w -> speeds_in_bounds (handle r w).
Proof.
  intros Hw. destruct r; cbn [handle].
  - apply (declare_war_speeds player target_country_id w Hw).
  - apply (end_war_speeds player id w Hw).
  - apply (border_push_speeds player target_country_id w Hw).
  - apply (border_push_join_speeds player id w Hw).
  - apply (border_push_defend_speeds player id w Hw).
  - apply (border_push_update_speeds push_id w Hw).
  - apply (border_push_tick_speeds w Hw).
Qed.

Lemma reachable_speeds_in_bounds (w : World) :
  reachable w -> speeds_in_bounds w.
Proof.
  intros Hreach. induction Hreach as [w _ Hempty | r w _ IH].
  - unfold speeds_in_bounds. rewrite Hempty. constructor.
  - apply handle_keeps_speeds. exact IH.
Qed.

(** C8. In every world the server reaches, a commit ([updateProgress]) of
    a stored active push, made when no less time has passed than its
    last_update records, leaves distance_pushed, of the instance and of
    the stored row, at least what it was. *)
Theorem updateProgress_is_monotonic (w : World) (p : border_pushes.t) :
  reachable w ->
  In p (tbl_border_pushes w) ->
  border_pushes.status p = border_pushes.active ->
  border_pushes.last_update p <= wall_clock w (clock_reads w) ->
  returns (BorderPush.updateProgress (build p)) w (fun this' w' =>
    (border_pushes.distance_pushed p
     <= border_pushes.distance_pushed (dataValues this'))%R
    /\ forall row, In row (tbl_border_pushes w') ->
         border_pushes.id row = border_pushes.id p ->
         (border_pushes.distance_pushed p
          <= border_pushes.distance_pushed row)%R).
Proof.
  intros Hreach Hin Hact Helapsed.
  apply (updateProgress_monotone_of_speed (build p) w Hact); [| exact Helapsed].
  pose proof (reachable_speeds_in_bounds w Hreach) as Hall.
  unfold speeds_in_bounds in Hall. rewrite Forall_forall in Hall.
  apply Hall. exact Hin.
Qed.

(** ** The theorems at the sample worlds *)

(** The two pushes of the sample front have distinct primary keys. *)
Lemma front_keys_distinct :
  NoDup (map border_pushes.id (tbl_border_pushes Sample.front)).
Proof.
  constructor; [| constructor; [| constructor]].
  - intros [H | []]. discriminate H.
  - intros [].
Defined.

(** The sample worlds after the declaration and after the first push are
    reached from the world at peace. *)
Lemma declared_reachable : reachable Sample.declared.
Proof.
  apply reachable_handle. apply reachable_start; reflexivity.
Defined.

Lemma campaign_reachable : reachable Sample.campaign.
Proof. apply reachable_handle. exact declared_reachable. Defined.

(** The only stored push of the campaign is the one the route created. *)
Lemma campaign_pushes : tbl_border_pushes Sample.campaign = [Sample.first_push].
Proof. reflexivity. Defined.

(** C1, amended, on the sample front. *)
Lemma tick_stops_pushes_beyond_threshold_witness :
  NoDup (map border_pushes.id (tbl_border_pushes Sample.front))
  /\ returns socketHandler.border_push_tick Sample.front (fun _ w' =>
       tbl_countries w' = tbl_countries Sample.front).
Proof.
  split; [exact front_keys_distinct |].
  eapply returns_mono.
  - apply (tick_stops_pushes_beyond_threshold Sample.front
             front_keys_distinct).
  - intros u w' H. exact (proj1 H).
Defined.

(** C2 for a player with 100 resources: a debit of 200 and a debit of 10. *)
Lemma consumeResources_is_checked_debit_witness :
  Player.consumeResources 200 (build Sample.alice) Sample.peace
  = (Returned (false, build Sample.alice), Sample.peace)
  /\ returns (Player.consumeResources 10 (build Sample.alice)) Sample.peace
       (fun r _ => fst r = true
                   /\ players.resources (dataValues (snd r)) = 100 - 10).
Proof.
  split.
  - apply (proj1 (proj1 consumeResources_is_checked_debit 200
                    (build Sample.alice) Sample.peace)).
    cbn. lia.
  - eapply returns_mono.
    + apply (proj1 (proj2 (proj1 consumeResources_is_checked_debit 10
                             (build Sample.alice) Sample.peace))).
      cbn. lia.
    + intros r w' H. split; [exact (proj1 H) | exact (proj1 (proj2 H))].
Defined.

(** X25 after a first declaration, and for a second declaration against
    the same country. *)
Lemma at_most_one_active_war_per_pair_witness :
  at_most_one_active_war Sample.declared
  /\ game.declare_war (build Sample.alice) 20%nat Sample.at_war
     = (Returned {| http_status := 409; error := Some "Conflict"%string |},
        Sample.at_war).
Proof.
  split.
  - apply (proj1 at_most_one_active_war_per_pair Sample.declared).
    exact declared_reachable.
  - apply (proj2 at_most_one_active_war_per_pair (build Sample.alice) 20%nat
             Sample.at_war (Sample.country 10%nat 1%nat)
             (Sample.country 20%nat 2%nat) Sample.war).
    + split; [exists 10%nat; split; reflexivity |].
      split; [reflexivity |]. split; [reflexivity |].
      split; [reflexivity |]. cbn. discriminate.
    + left. reflexivity.
    + reflexivity.
    + left. split; reflexivity.
Defined.

(** C6, amended, for a player with 5 resources and for one with 100. *)
Lemma border_push_checks_balance_witness :
  returns (game.border_push (build Sample.bob) 10%nat) Sample.at_war
    (fun res w' =>
       http_status res <> 201
       /\ tbl_border_pushes w' = tbl_border_pushes Sample.at_war)
  /\ returns (game.border_push (build Sample.alice) 20%nat) Sample.at_war
       (fun res w' =>
          res = {| http_status := 201; error := None |}
          /\ written w'
             = written Sample.at_war ++ ["border_pushes"; "players"]%string).
Proof.
  split.
  - eapply returns_mono.
    + apply (proj1 (border_push_checks_balance_then_creates_then_debits
                      (build Sample.bob) 10%nat Sample.at_war)).
      cbn. unfold resourceCost. lia.
    + intros res w' H. split; [exact (proj1 H) | exact (proj1 (proj2 H))].
  - eapply returns_mono.
    + apply (proj2 (border_push_checks_balance_then_creates_then_debits
                      (build Sample.alice) 20%nat Sample.at_war)).
      * cbn. unfold resourceCost. lia.
      * split; [cbn; discriminate | exact I].
    + intros res w' H.
      split; [exact (proj1 H) | exact (proj1 (proj2 (proj2 H)))].
Defined.

(** C8 for the push of the campaign. *)
Lemma updateProgress_is_monotonic_witness :
  reachable Sample.campaign
  /\ returns (BorderPush.updateProgress (build Sample.first_push))
       Sample.campaign
       (fun this' _ =>
          (border_pushes.distance_pushed Sample.first_push
           <= border_pushes.distance_pushed (dataValues this'))%R).
Proof.
  split; [exact campaign_reachable |].
  eapply returns_mono.
  - apply (updateProgress_is_monotonic Sample.campaign Sample.first_push).
    + exact campaign_reachable.
    + rewrite campaign_pushes. left. reflexivity.
    + reflexivity.
    + cbn. lia.
  - intros this' w' H. exact (proj1 H).
Defined.

(** C9 for the first push of the sample front, five seconds after its last
    update. *)
Lemma calculateCurrentProgress_is_read_only_witness :
  returns
    (BorderPush.calculateCurrentProgress (build (Sample.push 7%nat 100%R)))
    Sample.front
    (fun r w' =>
       snd r = build (Sample.push 7%nat 100%R)
       /\ tbl_border_pushes w' = tbl_border_pushes Sample.front
       /\ distance (fst r)
          = Spec.candidate_distance 100 1 (elapsed_seconds 500000 495000)).
Proof.
  eapply returns_mono.
  - apply (calculateCurrentProgress_is_read_only
             (build (Sample.push 7%nat 100%R)) Sample.front).
  - intros r w' (Hthis & (_ & _ & _ & Htbl) & _ & Hdist).
    split; [exact Hthis |]. split; [exact Htbl |].
    apply Hdist. reflexivity.
Defined.

(** C10 for the periodic update on the sample front. *)
Lemma progress_reports_stored_territory_witness :
  NoDup (map border_pushes.id (tbl_border_pushes Sample.front))
  /\ returns socketHandler.border_push_tick Sample.front (fun _ w' =>
       exists es, emitted w' = emitted Sample.front ++ es
         /\ Forall (fun e => exists p, In p (tbl_border_pushes Sample.front)
                      /\ border_pushes.status p = border_pushes.active
                      /\ reports_stored_territory p e) es).
Proof.
  split; [exact front_keys_distinct |].
  exact (proj2 progress_reports_stored_territory Sample.front
           front_keys_distinct).
Defined.

(** * Further properties *)

(** ** What the routes answer, and when they write *)

Lemma may_end_dec player id w : may_end player id w \/ ~ may_end player id w.
Proof.
  unfold may_end.
  destruct (find _ (tbl_wars w)) as [row |] eqn:Hfind.
  - destruct (wars.status_eqb (wars.status row) wars.active) eqn:Hst.
    + destruct (same_id (wars.declared_by row) (players.id (dataValues player)))
        eqn:Hby.
      * left. exists row. apply same_id_eq in Hby.
        apply war_is_active_true in Hst. auto.
      * right. intros (row' & Heq & _ & Hby'). inversion Heq; subst.
        apply same_id_neq in Hby. contradiction.
    + right. intros (row' & Heq & Hact & _). inversion Heq; subst.
      rewrite Hact in Hst. discriminate.
  - right. intros (row' & Heq & _). discriminate.
Qed.

(** X1. The route that ends a war answers 200 exactly when the war is
    stored, active and declared by the requesting player; with any other
    answer the world is left exactly as it was. *)
Theorem end_war_only_by_declarer (player : Instance players.t) (id : Id)
  (w : World) :
  returns (game.end_war player id) w (fun res w' =>
    (http_status res = 200 <-> may_end player id w)
    /\ (http_status res <> 200 -> w' = w)).
Proof.
  destruct (may_end_dec player id w) as [Hyes | Hno].
  - destruct Hyes as (row & Hfind & Hact & Hby).
    eapply returns_mono;
      [apply (end_war_returns player id w row Hfind Hact Hby) |].
    intros res w' [-> _]. cbn. split.
    + split; [intros _; exists row; auto | reflexivity].
    + intros H. contradiction.
  - unfold game.end_war. apply returns_try_catch.
    apply returns_bind. unfold War.findByPk. apply returns_gets.
    destruct (find _ (tbl_wars w)) as [row |] eqn:Hfind; cbn [option_map].
    + cbn [dataValues build].
      destruct (War.is_active (wars.status row)) eqn:Hact; cbn [negb].
      * unfold War.canEndWar. cbn [dataValues build].
        destruct (same_id (wars.declared_by row)
                    (players.id (dataValues player))) eqn:Hby; cbn [negb].
        -- exfalso. apply Hno. exists row. apply same_id_eq in Hby.
           apply war_is_active_true in Hact. unfold may_end. auto.
        -- apply returns_ret. cbn. split; [| reflexivity].
           split; [discriminate | contradiction].
      * apply returns_ret. cbn. split; [| reflexivity].
        split; [discriminate | contradiction].
    + apply returns_ret. cbn. split; [| reflexivity].
      split; [discriminate | contradiction].
Qed.

Lemma opt_is_true (a : option Id) (b : Id) : opt_is a b = true <-> a = Some b.
Proof.
  unfold opt_is. destruct a as [x |]; split; intros H; try discriminate.
  - apply same_id_eq in H. congruence.
  - inversion H. apply same_id_refl.
Qed.

Lemma active_between_of_clash (r new : wars.t) :
  War.index_clash r new = true ->
  War.active_between (wars.aggressor_country_id new)
    (wars.defender_country_id new) r = true.
Proof.
  unfold War.index_clash, War.active_between. intros H.
  apply andb_prop in H as [H _]. apply andb_prop in H as [H Hact].
  rewrite H, Hact. reflexivity.
Qed.

Lemma War_create_returns aggressor defender declared_by w :
  aggressor <> defender ->
  find (War.active_between aggressor defender) (tbl_wars w) = None ->
  returns (War.create aggressor defender declared_by) w (fun war w' =>
    tbl_wars w' = tbl_wars w ++ [dataValues war]
    /\ tbl_border_pushes w' = tbl_border_pushes w
    /\ tbl_players w' = tbl_players w
    /\ wars.aggressor_country_id (dataValues war) = aggressor
    /\ wars.defender_country_id (dataValues war) = defender
    /\ wars.declared_by (dataValues war) = declared_by
    /\ wars.declared_at (dataValues war) = wall_clock w (clock_reads w)
    /\ wars.status (dataValues war) = wars.active).
Proof.
  intros Hne Hnone. unfold War.create.
  apply returns_bind. eexists _, _. split; [reflexivity |].
  apply returns_bind, returns_new_Date.
  apply returns_bind. unfold War.beforeCreate.
  cbn [wars.aggressor_country_id wars.defender_country_id].
  destruct (same_id aggressor defender) eqn:E;
    [apply same_id_eq in E; contradiction |].
  apply returns_ret. apply returns_bind, returns_gets.
  match goal with |- context [existsb ?p ?l] =>
    destruct (existsb p l) eqn:Hclash end.
  - exfalso. apply existsb_exists in Hclash as (r & Hin & Hr).
    apply active_between_of_clash in Hr. cbn in Hr, Hin.
    rewrite (find_none _ _ Hnone r Hin) in Hr. discriminate.
  - apply returns_bind, returns_modify. apply returns_bind.
    unfold War.afterCreate, Country.update. apply returns_modify.
    apply returns_ret. cbn. repeat split.
Qed.

Lemma War_create_declared aggressor defender declared_by w :
  aggressor <> defender ->
  find (War.active_between aggressor defender) (tbl_wars w) = None ->
  let war :=
    declared_war (uuid_counter w) aggressor defender declared_by
      (wall_clock w (clock_reads w)) in
  War.create aggressor defender declared_by w
  = (Returned (build war),
     with_countries (update_where (of_war war) raised (tbl_countries w))
       (with_wars (tbl_wars w ++ [war])
          (with_clock_reads (S (clock_reads w))
             (with_uuid_counter (S (uuid_counter w)) w)))).
Proof.
  intros Hne Hnone war.
  assert (Hclash : existsb (fun r => War.index_clash r war) (tbl_wars w)
                   = false).
  { destruct (existsb _ _) eqn:E; [| reflexivity].
    apply existsb_exists in E as (r & Hin & Hr).
    apply active_between_of_clash in Hr. cbn in Hr.
    rewrite (find_none _ _ Hnone r Hin) in Hr. discriminate. }
  assert (Hsame : same_id aggressor defender = false)
    by (apply same_id_neq; exact Hne).
  unfold War.create, War.beforeCreate. run_monad.
  cbn [wars.aggressor_country_id wars.defender_country_id fst snd].
  rewrite Hsame. cbn [tbl_wars with_clock_reads with_uuid_counter].
  match goal with |- context [existsb ?p ?l] =>
    replace (existsb p l) with false by (symmetry; exact Hclash) end.
  reflexivity.
Qed.

(** What the route that declares a war does, by its answer. *)
Lemma declare_war_outcome (player : Instance players.t) (target : Id)
  (w : World) :
  returns (game.declare_war player target) w (fun res w' =>
    (http_status res <> 201
     /\ ~ declaration_allowed player target w
     /\ nothing_written w w')
    \/ (http_status res = 201
        /\ declaration_allowed player target w
        /\ exists source t,
             players.country_id (dataValues player) = Some source
             /\ source <> target
             /\ find (War.active_between source target) (tbl_wars w) = None
             /\ tbl_wars w'
                = tbl_wars w
                  ++ [declared_war (uuid_counter w) source target
                        (players.id (dataValues player)) t]
             /\ tbl_countries w'
                = update_where
                    (of_war (declared_war (uuid_counter w) source target
                               (players.id (dataValues player)) t))
                    raised (tbl_countries w)
             /\ tbl_border_pushes w' = tbl_border_pushes w
             /\ uuid_counter w' = S (uuid_counter w))).
Proof.
  match goal with |- returns _ _ ?P => set (Q := P) end.
  assert (Hrefuse : forall (res : Response) w',
            http_status res <> 201 ->
            nothing_written w w' ->
            ~ declaration_allowed player target w ->
            Q res w').
  { intros res w' Hres Hnw Hno. left. auto. }
  unfold game.declare_war, json_error, json_ok.
  apply returns_try_catch.
  destruct (players.country_id (dataValues player)) as [c |] eqn:Hc.
  2:{ apply returns_ret, Hrefuse;
        [cbn; discriminate | apply nothing_written_refl |].
      intros (s & t & ((c & Hc' & _) & _) & _). congruence. }
  apply returns_bind. unfold Country.findByPk at 1. apply returns_gets.
  destruct (find (fun r => same_id (countries.id r) c) (tbl_countries w))
    as [source |] eqn:Hs; cbn [option_map dataValues build].
  2:{ apply returns_ret, Hrefuse;
        [cbn; discriminate | apply nothing_written_refl |].
      intros (s & t & ((c' & Hc' & Hs') & _) & _).
      rewrite Hc in Hc'. injection Hc' as <-. congruence. }
  destruct (opt_is (countries.owner_id source) (players.id (dataValues player)))
    eqn:Hown; cbn [negb].
  2:{ apply returns_ret, Hrefuse;
        [cbn; discriminate | apply nothing_written_refl |].
      intros (s & t & ((c' & Hc' & Hs') & Hown' & _) & _).
      rewrite Hc in Hc'. injection Hc' as <-.
      assert (s = source) as -> by congruence.
      rewrite Hown' in Hown. cbn in Hown. rewrite same_id_refl in Hown.
      discriminate. }
  apply opt_is_true in Hown.
  apply returns_bind. unfold Country.findByPk at 1. apply returns_gets.
  destruct (find (fun r => same_id (countries.id r) target) (tbl_countries w))
    as [targetCountry |] eqn:Ht; cbn [option_map dataValues build].
  2:{ apply returns_ret, Hrefuse;
        [cbn; discriminate | apply nothing_written_refl |].
      intros (s & t & (_ & _ & Ht' & _) & _). congruence. }
  destruct (countries.is_claimed targetCountry) eqn:Hclaimed; cbn [negb].
  2:{ apply returns_ret, Hrefuse;
        [cbn; discriminate | apply nothing_written_refl |].
      intros (s & t & (_ & _ & Ht' & Hcl & _) & _). congruence. }
  destruct (same_id (countries.id source) (countries.id targetCountry))
    eqn:Hsame.
  { apply returns_ret, Hrefuse;
      [cbn; discriminate | apply nothing_written_refl |].
    intros (s & t & ((c' & Hc' & Hs') & _ & Ht' & _ & Hne) & _).
    rewrite Hc in Hc'. injection Hc' as <-.
    assert (s = source) as -> by congruence.
    assert (t = targetCountry) as -> by congruence.
    apply same_id_eq in Hsame. contradiction. }
  assert (Hne : countries.id source <> countries.id targetCountry).
  { intros E. rewrite E, same_id_refl in Hsame. discriminate. }
  assert (Hmay : may_declare player target w source targetCountry).
  { split; [exists c; split; assumption |]. repeat split; assumption. }
  assert (Hdet : forall s t, may_declare player target w s t ->
                             s = source /\ t = targetCountry).
  { intros s t ((c' & Hc' & Hs') & _ & Ht' & _).
    rewrite Hc in Hc'. injection Hc' as <-. split; congruence. }
  pose proof (find_same_id_key _ _ _ _ Hs) as Hsid.
  pose proof (find_same_id_key _ _ _ _ Ht) as Htid.
  rewrite Hsid, Htid in Hne |- *.
  apply returns_bind. unfold War.findOne. apply returns_gets.
  destruct (find _ (tbl_wars w)) as [existing |] eqn:Hnone;
    cbn [option_map].
  { apply returns_ret, Hrefuse;
      [cbn; discriminate | apply nothing_written_refl |].
    intros (s & t & Hm & Hf & _). destruct (Hdet s t Hm) as [-> ->].
    rewrite Hsid, Htid in Hf. congruence. }
  apply returns_bind, returns_gets.
  apply returns_bind. unfold War.findOne_latest. apply returns_gets.
  fold (last_war player w).
  assert (Hcreate : forall w0,
            nothing_written w w0 ->
            uuid_counter w0 = uuid_counter w ->
            declaration_allowed player target w ->
            returns
              (war <- War.create c target
                        (players.id (dataValues player)) ;;
               Player.increment_wars_declared player ;;
               emit None
                 (war_declared (wars.id (dataValues war)) c target
                    (wars.declared_at (dataValues war))) ;;
               ret {| http_status := 201; error := None |}) w0
              Q).
  { intros w0 (_ & _ & Hc0 & Hw0 & Hp0) Hu0 Hyes. apply returns_bind.
    eexists _, _. split.
    { apply War_create_declared; [exact Hne | rewrite Hw0; exact Hnone]. }
    apply returns_bind. unfold Player.increment_wars_declared.
    apply returns_modify. apply returns_bind, returns_emit. apply returns_ret.
    unfold Q. right. split; [reflexivity |]. split; [exact Hyes |].
    exists c, (wall_clock w0 (clock_reads w0)).
    split; [reflexivity |]. split; [exact Hne |]. split; [exact Hnone |].
    cbn. rewrite Hw0, Hc0, Hp0, Hu0. repeat split. }
  destruct (last_war player w) as [lastWar |] eqn:Hlast;
    cbn [option_map dataValues build].
  - apply returns_bind. apply returns_bind, returns_new_Date.
    apply returns_ret.
    destruct (_ <? _) eqn:Hlim.
    + apply returns_ret, Hrefuse; [cbn; discriminate | repeat split |].
      intros (s & t & _ & _ & Hcool). rewrite Hlast in Hcool.
      apply Z.ltb_lt in Hlim. lia.
    + apply Hcreate; [repeat split | reflexivity |].
      exists source, targetCountry. split; [exact Hmay |].
      split; [rewrite Hsid, Htid; exact Hnone |].
      rewrite Hlast. apply Z.ltb_ge. exact Hlim.
  - apply returns_bind, returns_ret. cbv iota.
    apply Hcreate; [apply nothing_written_refl | reflexivity |].
    exists source, targetCountry. split; [exact Hmay |].
    split; [rewrite Hsid, Htid; exact Hnone |]. rewrite Hlast. exact I.
Qed.

(** X4. The route that declares a war answers 201 exactly when the player
    owns the country they belong to, the target exists, is claimed and is
    another country, no active war joins the two in either direction, and
    the player's latest declaration lies at least the cooldown back; then
    one active war of the player's country on the target is appended to
    the wars; with any other answer no row of any table is written. *)
Theorem declare_war_created_only_when_allowed (player : Instance players.t)
  (target : Id) (w : World) :
  returns (game.declare_war player target) w (fun res w' =>
    (http_status res = 201 <-> declaration_allowed player target w)
    /\ (http_status res <> 201 -> nothing_written w w')
    /\ (http_status res = 201 ->
        exists war,
          tbl_wars w' = tbl_wars w ++ [war]
          /\ wars.status war = wars.active
          /\ wars.declared_by war = players.id (dataValues player)
          /\ players.country_id (dataValues player)
             = Some (wars.aggressor_country_id war)
          /\ wars.defender_country_id war = target)).
Proof.
  eapply returns_mono; [apply declare_war_outcome |].
  intros res w' [(Hres & Hno & Hnw) | (Hres & Hyes & Hwar)].
  - split; [split; intros; contradiction |].
    split; [intros _; exact Hnw | intros; contradiction].
  - split; [split; auto |]. split; [intros; contradiction |]. intros _.
    destruct Hwar as (source & t & Hc & _ & _ & Htbl & _).
    eexists. split; [exact Htbl |]. cbn. repeat split. exact Hc.
Qed.

(** ** Invariants that no value decides *)

Section Steady.

Context (Inv : World -> Prop).

Hypothesis steady_clock :
  forall n w, Inv w -> Inv (with_clock_reads n w).
Hypothesis steady_uuid :
  forall w, Inv w -> Inv (with_uuid_counter (S (uuid_counter w)) w).
Hypothesis steady_emitted :
  forall es w, Inv w -> Inv (with_emitted es w).

Lemma steady_ret {A : Type} (a : A) : upholds Inv (ret a) (fun _ => True).
Proof. apply upholds_ret. exact I. Qed.

Lemma steady_throw {A : Type} (e : string) :
  upholds Inv (@throw A e) (fun _ => True).
Proof. apply upholds_throw. Qed.

Lemma steady_gets {A : Type} (f : World -> A) :
  upholds Inv (gets f) (fun _ => True).
Proof. apply upholds_gets. intros; exact I. Qed.

Lemma steady_new_Date : upholds Inv new_Date (fun _ => True).
Proof. intros w Hw. split; [apply steady_clock; exact Hw | exact I]. Qed.

Lemma steady_UUIDV4 : upholds Inv UUIDV4 (fun _ => True).
Proof. intros w Hw. split; [apply steady_uuid; exact Hw | exact I]. Qed.

Lemma steady_emit (to : option Id) (p : Payload) :
  upholds Inv (emit to p) (fun _ => True).
Proof. intros w Hw. split; [apply steady_emitted; exact Hw | exact I]. Qed.

Lemma steady_bind {A B : Type} (c : M A) (k : A -> M B) :
  upholds Inv c (fun _ => True) ->
  (forall a, upholds Inv (k a) (fun _ => True)) ->
  upholds Inv (bind c k) (fun _ => True).
Proof. intros Hc Hk. eapply upholds_bind; [exact Hc | intros a _; apply Hk]. Qed.

Lemma steady_try_catch {A : Type} (c : M A) (h : string -> M A) :
  upholds Inv c (fun _ => True) ->
  (forall e, upholds Inv (h e) (fun _ => True)) ->
  upholds Inv (try_catch c h) (fun _ => True).
Proof. intros Hc Hh. apply upholds_try_catch; assumption. Qed.

Lemma steady_for_of {A : Type} (l : list A) (body : A -> M unit) :
  (forall x, upholds Inv (body x) (fun _ => True)) ->
  upholds Inv (for_of l body) (fun _ => True).
Proof.
  intros Hb. apply upholds_for_of with (P := fun _ => True).
  - apply Forall_forall. intros; exact I.
  - intros x _. apply Hb.
Qed.

End Steady.

(** Walk through a computation for an invariant that the clock, the
    counter and the emissions leave alone; the writes remain. *)
Ltac walk_steady Hc Hu He :=
  repeat first
    [ apply steady_ret
    | apply steady_throw
    | apply steady_gets
    | apply (steady_new_Date _ Hc)
    | apply (steady_UUIDV4 _ Hu)
    | apply (steady_emit _ He)
    | apply steady_bind; [| intros ?]
    | apply steady_try_catch; [| intros ?]
    | apply steady_for_of; intros ?
    | match goal with
      | |- upholds _ (if ?b then _ else _) _ => destruct b eqn:?
      | |- upholds _ (match ?x with _ => _ end) _ => destruct x
      end
    | progress unfold_model ].

(** The definitions of the models and of the handlers, down to the plumbing
    of the monad. *)
Ltac unfold_handlers :=
  unfold game.declare_war, game.end_war, game.border_push,
    game.border_push_join, game.border_push_defend,
    socketHandler.border_push_tick, socketHandler.border_push_update,
    socketHandler.update_push;
  unfold War.endWar, War.create, War.save, War.afterCreate,
    BorderPush.create, BorderPush.stopPush, BorderPush.updateProgress,
    BorderPush.addSupportingSoldier, BorderPush.addDefendingSoldier,
    BorderPush.calculateCurrentProgress;
  unfold BorderPush.save, BorderPush.findByPk, BorderPush.findOne_latest,
    BorderPush.findActivePushes, War.findByPk, War.findOne,
    War.findOne_latest, War.increment_total_border_pushes,
    Country_instance_update, Country.save, Country.findByPk, Country.update,
    Player.increment_wars_declared, Player.consumeResources, Player.save;
  cbv zeta.

(** ** The counter of the keys *)

Lemma handle_counter_grows (r : Request) (w : World) :
  (uuid_counter w <= uuid_counter (handle r w))%nat.
Proof.
  set (Inv := fun w' : World => (uuid_counter w <= uuid_counter w')%nat).
  assert (Hc : forall n w', Inv w' -> Inv (with_clock_reads n w'))
    by (intros n w' H; exact H).
  assert (Hu : forall w', Inv w' ->
                 Inv (with_uuid_counter (S (uuid_counter w')) w'))
    by (unfold Inv; cbn; intros w' H; lia).
  assert (He : forall es w', Inv w' -> Inv (with_emitted es w'))
    by (intros es w' H; exact H).
  assert (H : forall (A : Type) (c : M A),
            upholds Inv c (fun _ => True) -> Inv (final c w)).
  { intros A c Hup. apply (Hup w). unfold Inv. lia. }
  destruct r; cbn [handle]; apply H; unfold_handlers;
    walk_steady Hc Hu He;
    try (apply upholds_modify; intros w' Hw'; exact Hw').
Qed.

(** No request touches the wall clock or the environment. *)
Lemma handle_same_setting (r : Request) (w : World) :
  same_setting w (handle r w).
Proof.
  set (Inv := fun w' : World => same_setting w w').
  assert (Hc : forall n w', Inv w' -> Inv (with_clock_reads n w'))
    by (intros n w' H; exact H).
  assert (Hu : forall w', Inv w' ->
                 Inv (with_uuid_counter (S (uuid_counter w')) w'))
    by (intros w' H; exact H).
  assert (He : forall es w', Inv w' -> Inv (with_emitted es w'))
    by (intros es w' H; exact H).
  assert (H : forall (A : Type) (c : M A),
            upholds Inv c (fun _ => True) -> Inv (final c w)).
  { intros A c Hup. apply (Hup w). split; reflexivity. }
  destruct r; cbn [handle]; apply H; unfold_handlers;
    walk_steady Hc Hu He;
    try (apply upholds_modify; intros w' Hw'; exact Hw').
Qed.

(** ** The life of a stored push *)

Lemma push_life_id clock (p p' : border_pushes.t) :
  push_life clock p p' -> border_pushes.id p' = border_pushes.id p.
Proof.
  induction 1; try reflexivity. congruence.
Qed.

Lemma push_life_terminal clock (p p' : border_pushes.t) :
  push_life clock p p' -> border_pushes.status p <> border_pushes.active -> p' = p.
Proof.
  induction 1; intros Hterm; try contradiction; try reflexivity.
  rewrite IHpush_life2; rewrite IHpush_life1; auto.
Qed.

Lemma Forall2_push_life_refl clock (rows : list border_pushes.t) :
  Forall2 (push_life clock) rows rows.
Proof. induction rows; constructor; [apply push_stays | assumption]. Qed.

Lemma Forall2_push_life_trans clock (l1 l2 l3 : list border_pushes.t) :
  Forall2 (push_life clock) l1 l2 -> Forall2 (push_life clock) l2 l3 ->
  Forall2 (push_life clock) l1 l3.
Proof.
  intros H12. revert l3. induction H12 as [| a b l1 l2 Hab _ IH]; intros l3 H23.
  - inversion H23. constructor.
  - inversion H23 as [| ? c ? l3' Hbc Hrest]; subst.
    constructor; [eapply push_then; eassumption | apply IH; assumption].
Qed.

Lemma Forall2_map_id clock (l l' : list border_pushes.t) :
  Forall2 (push_life clock) l l' -> map border_pushes.id l' = map border_pushes.id l.
Proof.
  induction 1 as [| a b l l' Hab _ IH]; [reflexivity |].
  cbn. rewrite IH, (push_life_id _ _ _ Hab). reflexivity.
Qed.

Lemma Forall2_update_where clock (sel : border_pushes.t -> bool)
  (f : border_pushes.t -> border_pushes.t) (rows : list border_pushes.t) :
  (forall r, In r rows -> sel r = true -> push_life clock r (f r)) ->
  Forall2 (push_life clock) rows (update_where sel f rows).
Proof.
  unfold update_where. induction rows as [| r rows IH]; intros Hf; cbn.
  - constructor.
  - constructor.
    + destruct (sel r) eqn:E; [apply Hf; [left; reflexivity | exact E] |].
      apply push_stays.
    + apply IH. intros r' Hin. apply Hf. right. exact Hin.
Qed.

Lemma NoDup_key_eq {A : Type} (key : A -> Id) (rows : list A) (a b : A) :
  NoDup (map key rows) -> In a rows -> In b rows -> key a = key b -> a = b.
Proof.
  induction rows as [| r rows IH]; intros Hnd Ha Hb Hk; [destruct Ha |].
  cbn in Hnd. inversion Hnd as [| ? ? Hfresh Hnd']; subst.
  destruct Ha as [-> | Ha], Hb as [-> | Hb].
  - reflexivity.
  - exfalso. apply Hfresh. rewrite Hk. apply in_map. exact Hb.
  - exfalso. apply Hfresh. rewrite <- Hk. apply in_map. exact Ha.
  - apply IH; assumption.
Qed.

(** Writing the row of a stored push by its key moves that push, and no
    other, when the keys are distinct. *)
Lemma Forall2_put_row clock (p v : border_pushes.t)
  (rows : list border_pushes.t) :
  NoDup (map border_pushes.id rows) -> In p rows -> push_life clock p v ->
  Forall2 (push_life clock) rows (put_row (border_pushes.id p) v rows).
Proof.
  intros Hnd Hin Hlife. unfold put_row. apply Forall2_update_where.
  intros r Hr Hsel. apply same_id_eq in Hsel.
  rewrite (NoDup_key_eq border_pushes.id rows r p Hnd Hr Hin Hsel).
  exact Hlife.
Qed.

Lemma status_eqb_refl (s : border_pushes.Status) :
  border_pushes.status_eqb s s = true.
Proof. destruct s; reflexivity. Qed.

Lemma hook_fires_build (f : border_pushes.t -> border_pushes.t)
  (p : border_pushes.t) :
  border_pushes.status (f p) = border_pushes.status p ->
  hook_fires (assign f (build p)) = false.
Proof.
  intros Hst. unfold hook_fires, BorderPush.changed_status.
  cbn [dataValues _previousDataValues assign build].
  rewrite Hst, status_eqb_refl. reflexivity.
Qed.

Lemma addSupportingSoldier_stored (p : border_pushes.t) (w : World) :
  let row := joined p (wall_clock w (clock_reads w)) in
  BorderPush.addSupportingSoldier (build p) w =
  (Returned (build row),
   with_border_pushes (put_row (border_pushes.id p) row (tbl_border_pushes w))
     (with_clock_reads (S (clock_reads w)) w)).
Proof.
  cbv zeta. unfold BorderPush.addSupportingSoldier. cbv zeta.
  rewrite BorderPush_save_quiet; [reflexivity |].
  unfold hook_fires, BorderPush.changed_status.
  cbn [dataValues _previousDataValues assign build border_pushes.status
         border_pushes.set_push_speed border_pushes.set_push_strength
         border_pushes.set_supporting_soldiers].
  rewrite status_eqb_refl. reflexivity.
Qed.

Lemma addDefendingSoldier_stored (p : border_pushes.t) (w : World) :
  let row := defended p (wall_clock w (clock_reads w)) in
  BorderPush.addDefendingSoldier (build p) w =
  (Returned (build row),
   with_border_pushes (put_row (border_pushes.id p) row (tbl_border_pushes w))
     (with_clock_reads (S (clock_reads w)) w)).
Proof.
  cbv zeta. unfold BorderPush.addDefendingSoldier. cbv zeta.
  rewrite BorderPush_save_quiet; [reflexivity |].
  unfold hook_fires, BorderPush.changed_status.
  cbn [dataValues _previousDataValues assign build border_pushes.status
         border_pushes.set_push_speed border_pushes.set_resistance_strength
         border_pushes.set_defending_soldiers].
  rewrite status_eqb_refl. reflexivity.
Qed.

Lemma BorderPush_create_launched war_id player_id source target w :
  let row :=
    launched (uuid_counter w) war_id player_id source target
      (wall_clock w (clock_reads w)) (wall_clock w (S (clock_reads w))) in
  BorderPush.create war_id player_id source target 1.0%R 1.0%R resourceCost w
  = (Returned (build row),
     with_border_pushes (tbl_border_pushes w ++ [row])
       (with_clock_reads (S (S (clock_reads w)))
          (with_uuid_counter (S (uuid_counter w)) w))).
Proof. reflexivity. Qed.

Lemma War_endWar_keeps_pushes endedBy winner war :
  keeps pushes_kept (War.endWar endedBy winner war).
Proof.
  unfold War.endWar, War.save, Country_instance_update, Country.save,
    Country.findByPk, Country.update.
  walk_keeps; try (apply keeps_modify; intros ?; reflexivity).
Qed.

Lemma declare_war_keeps_pushes player target :
  keeps pushes_kept (game.declare_war player target).
Proof.
  unfold game.declare_war, Country.findByPk, War.findOne,
    War.findOne_latest, War.create, War.afterCreate, Country.update,
    Player.increment_wars_declared.
  walk_keeps; try (apply keeps_modify; intros ?; reflexivity).
Qed.

Lemma end_war_moves_pushes player id w :
  post (game.end_war player id) w (fun _ w' =>
    Forall2 (push_life (wall_clock w)) (tbl_border_pushes w) (tbl_border_pushes w')).
Proof.
  unfold game.end_war, json_error, json_ok.
  apply post_try_catch. apply post_bind. unfold War.findByPk.
  apply post_gets.
  destruct (option_map build _) as [war |];
    [| apply post_ret, Forall2_push_life_refl].
  destruct (negb (War.is_active _));
    [apply post_ret, Forall2_push_life_refl |].
  destruct (negb (War.canEndWar _ _));
    [apply post_ret, Forall2_push_life_refl |].
  apply post_bind.
  eapply post_mono;
    [apply (post_of_keeps pushes_kept), War_endWar_keeps_pushes |].
  intros [war' | e] w1 Hkept; unfold pushes_kept in Hkept.
  - apply post_bind. unfold BorderPush.update.
    cbn [BorderPush.default_options BorderPush.individualHooks].
    apply post_modify. apply post_bind, post_emit. apply post_ret.
    cbn. rewrite Hkept. apply Forall2_update_where.
    intros r _ Hsel. apply andb_prop in Hsel as [_ Hact].
    apply push_cancels. apply is_active_true. exact Hact.
  - apply post_ret. rewrite Hkept. apply Forall2_push_life_refl.
Qed.

Lemma border_push_join_outcome player id w :
  post (game.border_push_join player id) w (fun _ w' =>
    tbl_wars w' = tbl_wars w
    /\ (tbl_border_pushes w' = tbl_border_pushes w
        \/ exists row,
             In row (tbl_border_pushes w)
             /\ border_pushes.status row = border_pushes.active
             /\ tbl_border_pushes w'
                = put_row (border_pushes.id row)
                    (joined row (wall_clock w (clock_reads w)))
                    (tbl_border_pushes w))).
Proof.
  unfold game.border_push_join, json_error, json_ok.
  apply post_try_catch. apply post_bind. unfold BorderPush.findByPk.
  apply post_gets.
  destruct (find _ (tbl_border_pushes w)) as [row |] eqn:Hfind;
    cbn [option_map]; [| apply post_ret; auto].
  cbn [dataValues build].
  destruct (BorderPush.is_active (border_pushes.status row)) eqn:Hact;
    cbn [negb]; [| apply post_ret; auto].
  destruct (negb (opt_is _ _)); [apply post_ret; auto |].
  apply post_bind. unfold post at 1.
  rewrite addSupportingSoldier_stored. cbn [fst snd].
  apply post_bind, post_emit. apply post_ret. cbn.
  split; [reflexivity |]. right. exists row.
  apply find_some in Hfind as [Hin _]. apply is_active_true in Hact. auto.
Qed.

Lemma border_push_defend_outcome player id w :
  post (game.border_push_defend player id) w (fun _ w' =>
    tbl_wars w' = tbl_wars w
    /\ (tbl_border_pushes w' = tbl_border_pushes w
        \/ exists row,
             In row (tbl_border_pushes w)
             /\ border_pushes.status row = border_pushes.active
             /\ tbl_border_pushes w'
                = put_row (border_pushes.id row)
                    (defended row (wall_clock w (clock_reads w)))
                    (tbl_border_pushes w))).
Proof.
  unfold game.border_push_defend, json_error, json_ok.
  apply post_try_catch. apply post_bind. unfold BorderPush.findByPk.
  apply post_gets.
  destruct (find _ (tbl_border_pushes w)) as [row |] eqn:Hfind;
    cbn [option_map]; [| apply post_ret; auto].
  cbn [dataValues build].
  destruct (BorderPush.is_active (border_pushes.status row)) eqn:Hact;
    cbn [negb]; [| apply post_ret; auto].
  destruct (negb (opt_is _ _)); [apply post_ret; auto |].
  apply post_bind. unfold post at 1.
  rewrite addDefendingSoldier_stored. cbn [fst snd].
  apply post_bind, post_emit. apply post_ret. cbn.
  split; [reflexivity |]. right. exists row.
  apply find_some in Hfind as [Hin _]. apply is_active_true in Hact. auto.
Qed.

Lemma border_push_update_outcome push_id w :
  post (socketHandler.border_push_update push_id) w (fun _ w' =>
    tbl_wars w' = tbl_wars w
    /\ (tbl_border_pushes w' = tbl_border_pushes w
        \/ exists row,
             In row (tbl_border_pushes w)
             /\ border_pushes.status row = border_pushes.active
             /\ tbl_border_pushes w'
                = put_row (border_pushes.id row)
                    (committed row (wall_clock w (clock_reads w))
                       (wall_clock w (S (clock_reads w)))
                       (wall_clock w (S (S (clock_reads w)))))
                    (tbl_border_pushes w))).
Proof.
  unfold socketHandler.border_push_update.
  apply post_try_catch. apply post_bind. unfold BorderPush.findByPk.
  apply post_gets.
  destruct (find _ (tbl_border_pushes w)) as [row |] eqn:Hfind;
    cbn [option_map]; [| apply post_ret; auto].
  cbn [dataValues build].
  destruct (BorderPush.is_active (border_pushes.status row)) eqn:Hact;
    cbn [negb]; [| apply post_ret; auto].
  apply post_bind. unfold post at 1.
  rewrite (updateProgress_active (build row) w Hact). cbn [fst snd].
  apply find_some in Hfind as [Hin _].
  assert (Hrow : border_pushes.status row = border_pushes.active)
    by (apply is_active_true; exact Hact).
  apply post_bind.
  eapply post_mono;
    [apply (post_of_keeps besides_countries);
     unfold BorderPush.calculateCurrentProgress; walk_keeps |].
  intros [[progress bp] | e] w1 (_ & Hwars & Hkept); cbn in Hkept, Hwars.
  - apply post_bind, post_new_Date. apply post_bind, post_emit.
    apply post_emit. cbn. rewrite Hkept, Hwars.
    split; [reflexivity |]. right. exists row. auto.
  - apply post_ret. rewrite Hkept, Hwars.
    split; [reflexivity |]. right. exists row. auto.
Qed.

Lemma put_row_outcome_moves clock (rows rows' : list border_pushes.t)
  (v : border_pushes.t -> border_pushes.t) :
  NoDup (map border_pushes.id rows) ->
  (forall row, border_pushes.status row = border_pushes.active ->
               push_life clock row (v row)) ->
  rows' = rows
  \/ (exists row, In row rows
        /\ border_pushes.status row = border_pushes.active
        /\ rows' = put_row (border_pushes.id row) (v row) rows) ->
  Forall2 (push_life clock) rows rows'.
Proof.
  intros Hnd Hlife [-> | (row & Hin & Hact & ->)].
  - apply Forall2_push_life_refl.
  - apply Forall2_put_row; [exact Hnd | exact Hin | apply Hlife; exact Hact].
Qed.

Lemma border_push_join_moves_pushes player id w :
  NoDup (map border_pushes.id (tbl_border_pushes w)) ->
  post (game.border_push_join player id) w (fun _ w' =>
    Forall2 (push_life (wall_clock w)) (tbl_border_pushes w)
      (tbl_border_pushes w')).
Proof.
  intros Hnd. eapply post_mono; [apply border_push_join_outcome |].
  intros _ w' [_ H]. cbv beta.
  apply (put_row_outcome_moves _ _ _
           (fun row => joined row (wall_clock w (clock_reads w))) Hnd);
    [| exact H].
  intros row Hact. apply (push_joins _ _ (clock_reads w)). exact Hact.
Qed.

Lemma border_push_defend_moves_pushes player id w :
  NoDup (map border_pushes.id (tbl_border_pushes w)) ->
  post (game.border_push_defend player id) w (fun _ w' =>
    Forall2 (push_life (wall_clock w)) (tbl_border_pushes w)
      (tbl_border_pushes w')).
Proof.
  intros Hnd. eapply post_mono; [apply border_push_defend_outcome |].
  intros _ w' [_ H]. cbv beta.
  apply (put_row_outcome_moves _ _ _
           (fun row => defended row (wall_clock w (clock_reads w))) Hnd);
    [| exact H].
  intros row Hact. apply (push_defends _ _ (clock_reads w)). exact Hact.
Qed.

Lemma border_push_update_moves_pushes push_id w :
  NoDup (map border_pushes.id (tbl_border_pushes w)) ->
  post (socketHandler.border_push_update push_id) w (fun _ w' =>
    Forall2 (push_life (wall_clock w)) (tbl_border_pushes w)
      (tbl_border_pushes w')).
Proof.
  intros Hnd. eapply post_mono; [apply border_push_update_outcome |].
  intros _ w' [_ H]. cbv beta.
  apply (put_row_outcome_moves _ _ _
           (fun row => committed row (wall_clock w (clock_reads w))
                         (wall_clock w (S (clock_reads w)))
                         (wall_clock w (S (S (clock_reads w))))) Hnd);
    [| exact H].
  intros row Hact. apply (push_commits _ _ (clock_reads w)). exact Hact.
Qed.

Lemma update_push_moves (i : Instance border_pushes.t) (w : World) :
  BorderPush.is_active (border_pushes.status (dataValues i)) = true ->
  NoDup (map border_pushes.id (tbl_border_pushes w)) ->
  In (dataValues i) (tbl_border_pushes w) ->
  returns (socketHandler.update_push i) w (fun _ w1 =>
    Forall2 (push_life (wall_clock w)) (tbl_border_pushes w)
      (tbl_border_pushes w1)
    /\ wall_clock w1 = wall_clock w
    /\ forall row, In row (tbl_border_pushes w) ->
         border_pushes.id row <> border_pushes.id (dataValues i) ->
         In row (tbl_border_pushes w1)).
Proof.
  intros Hact Hnd Hin.
  destruct (Rlt_dec 10000
              (candidate (dataValues i) (wall_clock w (clock_reads w))))
    as [Hhi | Hlo].
  - eexists _, _. split; [apply update_push_above; assumption |].
    cbn [tbl_border_pushes with_emitted with_wars with_border_pushes
           with_clock_reads wall_clock].
    split; [| split; [reflexivity |]].
    + apply (Forall2_put_row _ (dataValues i)); [exact Hnd | exact Hin |].
      apply push_stops; [apply is_active_true; exact Hact | exact Hhi].
    + intros row Hrow Hne. apply In_put_row_other; assumption.
  - eexists _, _. split; [apply update_push_below; assumption |].
    cbn. split; [apply Forall2_push_life_refl | auto].
Qed.

Lemma tick_loop_moves (l : list (Instance border_pushes.t)) :
  forall w : World,
  Forall (fun i =>
            BorderPush.is_active (border_pushes.status (dataValues i)) = true)
    l ->
  NoDup (map push_key l) ->
  NoDup (map border_pushes.id (tbl_border_pushes w)) ->
  (forall i, In i l -> In (dataValues i) (tbl_border_pushes w)) ->
  returns (for_of l socketHandler.update_push) w (fun _ w' =>
    Forall2 (push_life (wall_clock w)) (tbl_border_pushes w)
      (tbl_border_pushes w')).
Proof.
  induction l as [| i rest IH]; intros w Hact Hkeys Hnd Hstored.
  - apply returns_ret. apply Forall2_push_life_refl.
  - inversion Hact as [| ? ? Hi Hrest]; subst.
    inversion Hkeys as [| ? ? Hfresh Hkeys']; subst.
    cbn [for_of]. apply returns_bind.
    eapply returns_mono;
      [apply (update_push_moves i w Hi Hnd); apply Hstored; left;
       reflexivity |].
    intros [] w1 (Hmove & Hclock & Hother).
    eapply returns_mono; [apply (IH w1 Hrest Hkeys') |].
    + rewrite (Forall2_map_id _ _ _ Hmove). exact Hnd.
    + intros j Hj. apply Hother; [apply Hstored; right; exact Hj |].
      intros Heq. apply Hfresh. unfold push_key in *. rewrite <- Heq.
      apply (in_map (fun i => border_pushes.id (dataValues i))). exact Hj.
    + intros [] w' Hmove'. cbv beta. rewrite Hclock in Hmove'.
      eapply Forall2_push_life_trans; eassumption.
Qed.

Lemma border_push_tick_moves_pushes w :
  NoDup (map border_pushes.id (tbl_border_pushes w)) ->
  post socketHandler.border_push_tick w (fun _ w' =>
    Forall2 (push_life (wall_clock w)) (tbl_border_pushes w) (tbl_border_pushes w')).
Proof.
  intros Hnd.
  assert (H : returns socketHandler.border_push_tick w (fun _ w' =>
            Forall2 (push_life (wall_clock w)) (tbl_border_pushes w) (tbl_border_pushes w'))).
  { unfold socketHandler.border_push_tick.
    apply returns_try_catch. apply returns_bind.
    eexists _, _. split; [apply findActivePushes_returns |].
    set (sel := fun r => BorderPush.is_active (border_pushes.status r)).
    apply tick_loop_moves.
    - apply Forall_forall. intros i Hi. apply in_map_iff in Hi.
      destruct Hi as (r & <- & Hr). apply filter_In in Hr. apply Hr.
    - unfold push_key. rewrite map_map. cbn [dataValues build].
      apply (NoDup_map_filter border_pushes.id sel). exact Hnd.
    - exact Hnd.
    - intros i Hi. apply in_map_iff in Hi. destruct Hi as (r & <- & Hr).
      apply filter_In in Hr. apply Hr. }
  destruct H as (a & w' & Hrun & HQ). unfold post. rewrite Hrun. exact HQ.
Qed.

Lemma border_push_moves_pushes player target w :
  post (game.border_push player target) w (fun _ w' =>
    tbl_border_pushes w' = tbl_border_pushes w
    \/ exists war source m last_update,
         In war (tbl_wars w)
         /\ (clock_reads w <= m)%nat
         /\ match last_push player w with
            | None => True
            | Some lastPush =>
                border_pushes.status lastPush <> border_pushes.active
                /\ parseInt_or (BORDER_PUSH_COOLDOWN_MS (process_env w)) 5000
                   <= wall_clock w (clock_reads w)
                      - border_pushes.started_at lastPush
            end
         /\ tbl_border_pushes w'
            = tbl_border_pushes w
              ++ [launched (uuid_counter w) (wars.id war)
                    (players.id (dataValues player)) source target
                    (wall_clock w m) last_update]
         /\ uuid_counter w' = S (uuid_counter w)).
Proof.
  unfold game.border_push, json_error, json_ok. cbv zeta.
  apply post_try_catch.
  apply post_bind. unfold War.findOne. apply post_gets.
  destruct (find _ (tbl_wars w)) as [war |] eqn:Hwar; cbn [option_map];
    [| apply post_ret; left; reflexivity].
  apply find_some in Hwar as [Hwar _].
  apply post_bind, post_gets.
  apply post_bind. unfold BorderPush.findOne_latest. apply post_gets.
  fold (last_push player w).
  set (Q := fun w' : World =>
         tbl_border_pushes w' = tbl_border_pushes w
         \/ exists war source m last_update,
              In war (tbl_wars w)
              /\ (clock_reads w <= m)%nat
              /\ match last_push player w with
                 | None => True
                 | Some lastPush =>
                     border_pushes.status lastPush <> border_pushes.active
                     /\ parseInt_or
                          (BORDER_PUSH_COOLDOWN_MS (process_env w)) 5000
                        <= wall_clock w (clock_reads w)
                           - border_pushes.started_at lastPush
                 end
              /\ tbl_border_pushes w'
                 = tbl_border_pushes w
                   ++ [launched (uuid_counter w) (wars.id war)
                         (players.id (dataValues player)) source target
                         (wall_clock w m) last_update]
              /\ uuid_counter w' = S (uuid_counter w)).
  assert (Hcreate : forall w0,
            tbl_border_pushes w0 = tbl_border_pushes w ->
            uuid_counter w0 = uuid_counter w ->
            wall_clock w0 = wall_clock w ->
            (clock_reads w <= clock_reads w0)%nat ->
            match last_push player w with
            | None => True
            | Some lastPush =>
                border_pushes.status lastPush <> border_pushes.active
                /\ parseInt_or (BORDER_PUSH_COOLDOWN_MS (process_env w)) 5000
                   <= wall_clock w (clock_reads w)
                      - border_pushes.started_at lastPush
            end ->
            post
              (if players.resources (dataValues player) <? 10
               then ret {| http_status := 400;
                           error := Some "Insufficient Resources"%string |}
               else
                 match players.country_id (dataValues player) with
                 | Some source_country_id =>
                     borderPush <-
                       BorderPush.create (wars.id (dataValues (build war)))
                         (players.id (dataValues player)) source_country_id
                         target 1.0%R 1.0%R 10 ;;
                     Player.consumeResources 10 player ;;
                     emit (Some source_country_id)
                       (border_push_started
                          (border_pushes.id (dataValues borderPush))
                          (wars.id (dataValues (build war)))) ;;
                     emit (Some target)
                       (border_push_incoming
                          (border_pushes.id (dataValues borderPush))
                          source_country_id
                          (wars.id (dataValues (build war)))) ;;
                     ret {| http_status := 201; error := None |}
                 | None => throw "notNull Violation"
                 end) w0
              (fun o w1 =>
                 match o with
                 | Returned _ => Q w1
                 | Threw e =>
                     post (ret {| http_status := 500;
                                  error := Some "Internal Server Error"%string |})
                       w1 (fun _ w' => Q w')
                 end)).
  { intros w0 Htbl Hu Hclock Hreads Hlast.
    destruct (players.resources (dataValues player) <? 10) eqn:Hres;
      [apply post_ret; left; exact Htbl |].
    destruct (players.country_id (dataValues player)) as [source |];
      [| apply post_throw, post_ret; left; exact Htbl].
    apply post_bind. unfold post at 1.
    change 10 with resourceCost at 1.
    rewrite BorderPush_create_launched. cbn [fst snd].
    apply post_bind. unfold post at 1.
    rewrite Player_consumeResources_paid by (apply Z.ltb_ge; exact Hres).
    cbn [fst snd]. apply post_bind, post_emit. apply post_bind, post_emit.
    apply post_ret. right. cbn. rewrite Htbl, Hu, Hclock.
    eexists war, _, (clock_reads w0), _. split; [exact Hwar |].
    split; [exact Hreads |]. split; [exact Hlast |]. split; reflexivity. }
  destruct (last_push player w) as [lastPush |] eqn:Hlast;
    cbn [option_map dataValues build].
  - destruct (BorderPush.is_active (border_pushes.status lastPush)) eqn:Hact;
      [apply post_ret; left; reflexivity |].
    apply post_bind. apply post_bind, post_new_Date. apply post_ret.
    destruct (_ - _ <? _) eqn:Hlim; [apply post_ret; left; reflexivity |].
    apply Hcreate; try reflexivity; [cbn; lia |].
    split; [apply is_active_false; exact Hact | apply Z.ltb_ge; exact Hlim].
  - apply post_bind, post_ret. cbv iota.
    apply Hcreate; first [reflexivity | lia | exact I].
Qed.

Lemma pushes_move_rows (w w' : World) :
  (uuid_counter w <= uuid_counter w')%nat ->
  wall_clock w' = wall_clock w ->
  Forall2 (push_life (wall_clock w)) (tbl_border_pushes w)
    (tbl_border_pushes w') ->
  pushes_move w w'.
Proof.
  intros Hu Hclock Hrows. split; [exact Hu |]. split; [exact Hclock |].
  exists (tbl_border_pushes w'), []. rewrite app_nil_r.
  repeat split; [exact Hrows | constructor | constructor].
Qed.

(** Every request moves the stored pushes along their lives and adds at
    most one, launched under a key drawn from the counter. *)
Lemma handle_moves_pushes (r : Request) (w : World) :
  push_ids_fresh w -> pushes_move w (handle r w).
Proof.
  intros [Hnd _]. pose proof (handle_counter_grows r w) as Hgrow.
  pose proof (handle_same_setting r w) as [Hclock _].
  destruct r; cbn [handle] in *.
  - apply pushes_move_rows; [exact Hgrow | exact Hclock |].
    pose proof (declare_war_keeps_pushes player target_country_id w) as H.
    unfold pushes_kept in H. rewrite H. apply Forall2_push_life_refl.
  - apply pushes_move_rows; [exact Hgrow | exact Hclock |].
    apply (end_war_moves_pushes player id w).
  - pose proof (border_push_moves_pushes player target_country_id w) as H.
    unfold post in H. fold (final (game.border_push player target_country_id) w)
      in H.
    destruct H as [H | (war & source & m & t1 & _ & _ & _ & H & Hu)].
    + apply pushes_move_rows; [exact Hgrow | exact Hclock |].
      rewrite H. apply Forall2_push_life_refl.
    + split; [exact Hgrow |]. split; [exact Hclock |].
      eexists (tbl_border_pushes w), [_]. split; [exact H |].
      split; [apply Forall2_push_life_refl |]. split.
      * constructor; [| constructor].
        exists (wars.id war), (players.id (dataValues player)), source,
          target_country_id, (wall_clock w m), t1.
        split; [reflexivity |]. cbn. rewrite Hu. lia.
      * constructor; [intros [] | constructor].
  - apply pushes_move_rows; [exact Hgrow | exact Hclock |].
    apply (border_push_join_moves_pushes player id w Hnd).
  - apply pushes_move_rows; [exact Hgrow | exact Hclock |].
    apply (border_push_defend_moves_pushes player id w Hnd).
  - apply pushes_move_rows; [exact Hgrow | exact Hclock |].
    apply (border_push_update_moves_pushes push_id w Hnd).
  - apply pushes_move_rows; [exact Hgrow | exact Hclock |].
    apply (border_push_tick_moves_pushes w Hnd).
Qed.

Lemma pushes_move_fresh (w w' : World) :
  push_ids_fresh w -> pushes_move w w' -> push_ids_fresh w'.
Proof.
  intros [Hnd Hlt] (Hu & _ & rows' & new & Htbl & Hrows & Hnew & Hndnew).
  unfold push_ids_fresh. rewrite Htbl, map_app.
  rewrite (Forall2_map_id _ _ _ Hrows).
  rewrite Forall_forall in Hlt, Hnew. split.
  - apply NoDup_app; [exact Hnd | exact Hndnew |].
    intros k Hk Hk'. apply in_map_iff in Hk as (r & <- & Hr).
    apply in_map_iff in Hk' as (r' & Heq & Hr').
    specialize (Hlt r Hr). destruct (Hnew r' Hr') as (? & ? & ? & ? & ? & ? & _ & Hb).
    lia.
  - apply Forall_app. split; apply Forall_forall.
    + intros r' Hr'.
      assert (Hid : In (border_pushes.id r') (map border_pushes.id rows'))
        by (apply in_map; exact Hr').
      rewrite (Forall2_map_id _ _ _ Hrows) in Hid.
      apply in_map_iff in Hid as (r & Heq & Hr). specialize (Hlt r Hr). lia.
    + intros r' Hr'.
      destruct (Hnew r' Hr') as (? & ? & ? & ? & ? & ? & _ & Hb). lia.
Qed.

Lemma reaches_push_ids_fresh (w0 w : World) :
  push_ids_fresh w0 -> reaches w0 w -> push_ids_fresh w.
Proof.
  intros H0 Hreach. induction Hreach as [| r w _ IH]; [exact H0 |].
  eapply pushes_move_fresh; [exact IH | apply handle_moves_pushes, IH].
Qed.

Lemma reachable_reaches (w : World) :
  reachable w ->
  exists w0, tbl_wars w0 = [] /\ tbl_border_pushes w0 = [] /\ reaches w0 w.
Proof.
  induction 1 as [w Hw Hp | r w _ (w0 & Hw & Hp & Hreach)].
  - exists w. repeat split; [assumption | assumption | constructor].
  - exists w0. repeat split; [assumption | assumption |].
    constructor. exact Hreach.
Qed.

Lemma push_ids_fresh_empty (w : World) :
  tbl_border_pushes w = [] -> push_ids_fresh w.
Proof.
  intros H. unfold push_ids_fresh. rewrite H. split; constructor.
Qed.

Lemma Forall2_In_l {A B : Type} (R : A -> B -> Prop) (l : list A)
  (l' : list B) (a : A) :
  Forall2 R l l' -> In a l -> exists b, In b l' /\ R a b.
Proof.
  induction 1 as [| x y l l' Hxy _ IH]; intros Hin; [destruct Hin |].
  destruct Hin as [-> | Hin].
  - exists y. split; [left; reflexivity | exact Hxy].
  - destruct (IH Hin) as (b & Hb & Hab). exists b. split; [right |]; assumption.
Qed.

Lemma Forall2_In_r {A B : Type} (R : A -> B -> Prop) (l : list A)
  (l' : list B) (b : B) :
  Forall2 R l l' -> In b l' -> exists a, In a l /\ R a b.
Proof.
  induction 1 as [| x y l l' Hxy _ IH]; intros Hin; [destruct Hin |].
  destruct Hin as [-> | Hin].
  - exists x. split; [left; reflexivity | exact Hxy].
  - destruct (IH Hin) as (a & Ha & Hab). exists a. split; [right |]; assumption.
Qed.

Lemma reaches_same_setting (w0 w : World) :
  reaches w0 w -> same_setting w0 w.
Proof.
  induction 1 as [| r w _ [IHc IHe]]; [split; reflexivity |].
  destruct (handle_same_setting r w) as [Hc He].
  split; congruence.
Qed.

(** Along the course of the server every stored push is still stored, as
    what its life has made of it. *)
Lemma reaches_push_life (w0 w : World) (p : border_pushes.t) :
  push_ids_fresh w0 -> reaches w0 w -> In p (tbl_border_pushes w0) ->
  exists p', In p' (tbl_border_pushes w) /\ push_life (wall_clock w0) p p'.
Proof.
  intros H0 Hreach Hin. induction Hreach as [| r w Hreach IH].
  - exists p. split; [exact Hin | apply push_stays].
  - destruct IH as (p1 & Hin1 & Hlife1).
    pose proof (reaches_push_ids_fresh w0 w H0 Hreach) as Hfresh.
    destruct (handle_moves_pushes r w Hfresh)
      as (_ & _ & rows' & new & Htbl & Hrows & _).
    destruct (Forall2_In_l _ _ _ _ Hrows Hin1) as (p2 & Hin2 & Hlife2).
    exists p2. split.
    + rewrite Htbl. apply in_or_app. left. exact Hin2.
    + destruct (reaches_same_setting w0 w Hreach) as [Hc _].
      rewrite Hc in Hlife2. eapply push_then; eassumption.
Qed.

(** A property of pushes that their life keeps and that holds at the
    launch holds of every stored push along the course of the server. *)
Lemma reaches_pushes_Forall (P : border_pushes.t -> Prop) (w0 w : World) :
  (forall p p', push_life (wall_clock w0) p p' -> P p -> P p') ->
  (forall id war_id player_id source target started_at last_update,
     P (launched id war_id player_id source target started_at last_update)) ->
  push_ids_fresh w0 -> reaches w0 w ->
  Forall P (tbl_border_pushes w0) -> Forall P (tbl_border_pushes w).
Proof.
  intros Hlife Hlaunch H0 Hreach HP0.
  induction Hreach as [| r w Hreach IH]; [exact HP0 |].
  pose proof (reaches_push_ids_fresh w0 w H0 Hreach) as Hfresh.
  destruct (handle_moves_pushes r w Hfresh)
    as (_ & _ & rows' & new & Htbl & Hrows & Hnew & _).
  destruct (reaches_same_setting w0 w Hreach) as [Hc _].
  rewrite Htbl. apply Forall_app. split; apply Forall_forall.
  - intros p' Hp'. destruct (Forall2_In_r _ _ _ _ Hrows Hp') as (p & Hp & Hl).
    rewrite Hc in Hl. apply (Hlife p p' Hl).
    rewrite Forall_forall in IH. apply IH. exact Hp.
  - intros p' Hp'. rewrite Forall_forall in Hnew.
    destruct (Hnew p' Hp') as (? & ? & ? & ? & ? & ? & -> & _).
    apply Hlaunch.
Qed.

(** X5. A push that is stored and no longer active is final: whatever
    requests the server handles afterwards (declarations and ends of wars,
    new pushes, joins, defends, progress updates, periodic updates), it
    stays stored exactly as it is. *)
Theorem finished_push_is_final (w0 w : World) (p : border_pushes.t) :
  push_ids_fresh w0 -> reaches w0 w ->
  In p (tbl_border_pushes w0) ->
  border_pushes.status p <> border_pushes.active ->
  In p (tbl_border_pushes w).
Proof.
  intros H0 Hreach Hin Hterm.
  destruct (reaches_push_life w0 w p H0 Hreach Hin) as (p' & Hin' & Hlife).
  rewrite <- (push_life_terminal _ p p' Hlife Hterm). exact Hin'.
Qed.

Lemma front_after_fresh : push_ids_fresh Sample.front_after.
Proof.
  split.
  - constructor; [| constructor; [| constructor]].
    + intros [H | []]. discriminate H.
    + intros [].
  - constructor; [cbn; lia |]. constructor; [cbn; lia | constructor].
Defined.

Lemma finished_push_is_final_witness :
  push_ids_fresh Sample.front_after
  /\ reaches Sample.front_after (handle periodic_update Sample.front_after)
  /\ In (stopped "successful" (Sample.push 8%nat 9999%R)
           (wall_clock Sample.front) 103%nat)
       (tbl_border_pushes (handle periodic_update Sample.front_after)).
Proof.
  assert (Hreach : reaches Sample.front_after
                     (handle periodic_update Sample.front_after)).
  { apply reaches_handle. apply reaches_start. }
  split; [exact front_after_fresh |]. split; [exact Hreach |].
  apply (finished_push_is_final Sample.front_after _ _ front_after_fresh
           Hreach).
  - right. left. reflexivity.
  - cbn. discriminate.
Defined.

Lemma push_life_same_push clock (p p' : border_pushes.t) :
  push_life clock p p' -> same_push p p'.
Proof.
  induction 1 as [p | p1 p2 p3 _ IH1 _ IH2 | p n _ | p n _ _ | p n _ | p n _
                  | p _];
    try (unfold same_push; cbn; repeat split; lia).
  unfold same_push in *.
  destruct IH1 as (? & ? & ? & ? & ? & ? & ? & ? & ? & ?).
  destruct IH2 as (? & ? & ? & ? & ? & ? & ? & ? & ? & ?).
  repeat split; try congruence; lia.
Qed.

Lemma push_life_status clock (p p' : border_pushes.t) :
  push_life clock p p' ->
  border_pushes.status p' = border_pushes.status p
  \/ (border_pushes.status p = border_pushes.active
      /\ (border_pushes.status p' = border_pushes.successful
          \/ border_pushes.status p' = border_pushes.cancelled)).
Proof.
  induction 1 as [p | p1 p2 p3 H12 IH1 H23 IH2 | p n Hact | p n Hact _
                  | p n Hact | p n Hact | p Hact];
    try (left; reflexivity).
  - destruct IH1 as [E1 | (Hact & Hend)].
    + rewrite <- E1. exact IH2.
    + right. split; [exact Hact |].
      assert (Hterm : border_pushes.status p2 <> border_pushes.active)
        by (destruct Hend as [E | E]; rewrite E; discriminate).
      rewrite (push_life_terminal _ _ _ H23 Hterm). exact Hend.
  - right. split; [exact Hact |]. left. reflexivity.
  - right. split; [exact Hact |]. right. reflexivity.
Qed.

(** X6. Whatever requests the server handles, a stored push stays stored
    under its key, with the war, the player, the two countries, the start
    date, the terrain modifier and the cost it was launched with; its
    soldier counts never shrink; and its status changes at most once, from
    active to successful or to cancelled (never to failed). *)
Theorem stored_push_keeps_identity (w0 w : World) (p : border_pushes.t) :
  push_ids_fresh w0 -> reaches w0 w ->
  In p (tbl_border_pushes w0) ->
  exists p',
    In p' (tbl_border_pushes w)
    /\ same_push p p'
    /\ (border_pushes.status p' = border_pushes.status p
        \/ (border_pushes.status p = border_pushes.active
            /\ (border_pushes.status p' = border_pushes.successful
                \/ border_pushes.status p' = border_pushes.cancelled))).
Proof.
  intros H0 Hreach Hin.
  destruct (reaches_push_life w0 w p H0 Hreach Hin) as (p' & Hin' & Hlife).
  exists p'. split; [exact Hin' |]. split.
  - eapply push_life_same_push. exact Hlife.
  - eapply push_life_status. exact Hlife.
Qed.

Lemma front_fresh : push_ids_fresh Sample.front.
Proof.
  split; [exact front_keys_distinct |].
  constructor; [cbn; lia |]. constructor; [cbn; lia | constructor].
Defined.

Lemma stored_push_keeps_identity_witness :
  push_ids_fresh Sample.front
  /\ reaches Sample.front
       (handle (post_end_war (build Sample.alice) 500%nat)
          (handle periodic_update Sample.front))
  /\ exists p',
       In p' (tbl_border_pushes
                (handle (post_end_war (build Sample.alice) 500%nat)
                   (handle periodic_update Sample.front)))
       /\ same_push (Sample.push 7%nat 100%R) p'.
Proof.
  assert (Hreach : reaches Sample.front
                     (handle (post_end_war (build Sample.alice) 500%nat)
                        (handle periodic_update Sample.front))).
  { apply reaches_handle. apply reaches_handle. apply reaches_start. }
  split; [exact front_fresh |]. split; [exact Hreach |].
  destruct (stored_push_keeps_identity Sample.front _
              (Sample.push 7%nat 100%R) front_fresh Hreach)
    as (p' & Hin & Hsame & _).
  - left. reflexivity.
  - exists p'. split; assumption.
Defined.

Lemma candidate_grows (p : border_pushes.t) (t t' : Z) :
  (0 <= border_pushes.push_speed p)%R -> t <= t' ->
  (candidate p t <= candidate p t')%R.
Proof.
  intros Hv Ht. unfold candidate, Spec.candidate_distance, elapsed_seconds.
  apply Rplus_le_compat_l. apply Rmult_le_compat_l; [exact Hv |].
  apply Rmult_le_compat_r; [lra |]. apply IZR_le. lia.
Qed.

Lemma push_life_won clock (p p' : border_pushes.t) :
  clock_monotone clock ->
  push_life clock p p' -> won_beyond_threshold p -> won_beyond_threshold p'.
Proof.
  intros Hmono Hlife.
  induction Hlife as [p | p1 p2 p3 _ IH1 _ IH2 | p n Hact | p n Hact Hhi
                      | p n Hact | p n Hact | p Hact];
    [auto | auto | | | | |]; intros [Hspeed Hwon].
  - split; [exact Hspeed |]. cbn. rewrite Hact. discriminate.
  - split; [exact Hspeed |]. intros _.
    destruct (stopped_facts "successful" p clock (S n))
      as (_ & _ & -> & _).
    eapply Rlt_le_trans; [exact Hhi |].
    apply candidate_grows; [| apply Hmono].
    unfold Spec.speed_in_bounds in Hspeed. lra.
  - split; [apply clamp_speed_in_bounds |]. cbn. rewrite Hact. discriminate.
  - split; [apply clamp_speed_in_bounds |]. cbn. rewrite Hact. discriminate.
  - split; [exact Hspeed |]. cbn. discriminate.
Qed.

Lemma launched_won id war_id player_id source target started_at last_update :
  won_beyond_threshold
    (launched id war_id player_id source target started_at last_update).
Proof.
  split.
  - unfold launched. rewrite beforeCreate_speed.
    apply spec_push_speed_in_bounds.
  - cbn. discriminate.
Qed.

(** X7. With a wall clock that never runs backwards, every push the
    periodic update stores as successful has a stored distance beyond the
    10 km threshold: from a world where it is so, and where the stored
    speeds are within their bounds, it stays so whatever requests the
    server handles. *)
Theorem successful_push_is_beyond_threshold (w0 w : World) :
  push_ids_fresh w0 -> clock_monotone (wall_clock w0) ->
  Forall won_beyond_threshold (tbl_border_pushes w0) ->
  reaches w0 w ->
  forall p, In p (tbl_border_pushes w) ->
    border_pushes.status p = border_pushes.successful ->
    (threshold < border_pushes.distance_pushed p)%R.
Proof.
  intros H0 Hmono HP0 Hreach p Hin.
  assert (H : Forall won_beyond_threshold (tbl_border_pushes w)).
  { apply (reaches_pushes_Forall won_beyond_threshold w0 w); try assumption.
    - intros q q'. apply push_life_won. exact Hmono.
    - apply launched_won. }
  rewrite Forall_forall in H. apply (H p Hin).
Qed.

Lemma front_clock_monotone : clock_monotone (wall_clock Sample.front).
Proof. intros n. cbn [wall_clock Sample.front]. lia. Defined.

Lemma front_won : Forall won_beyond_threshold (tbl_border_pushes Sample.front).
Proof.
  constructor; [| constructor; [| constructor]];
    (split; [unfold Spec.speed_in_bounds; cbn; lra | cbn; discriminate]).
Defined.

Lemma successful_push_is_beyond_threshold_witness :
  push_ids_fresh Sample.front
  /\ clock_monotone (wall_clock Sample.front)
  /\ Forall won_beyond_threshold (tbl_border_pushes Sample.front)
  /\ reaches Sample.front (handle periodic_update Sample.front)
  /\ forall p, In p (tbl_border_pushes (handle periodic_update Sample.front)) ->
       border_pushes.status p = border_pushes.successful ->
       (threshold < border_pushes.distance_pushed p)%R.
Proof.
  assert (Hreach : reaches Sample.front (handle periodic_update Sample.front)).
  { apply reaches_handle. apply reaches_start. }
  split; [exact front_fresh |]. split; [exact front_clock_monotone |].
  split; [exact front_won |]. split; [exact Hreach |].
  exact (successful_push_is_beyond_threshold Sample.front _ front_fresh
           front_clock_monotone front_won Hreach).
Defined.

(** ** Strengths and speed against the soldier counts *)

Lemma coherent_resistance_positive (p : border_pushes.t) :
  coherent p -> (1 <= border_pushes.resistance_strength p)%R.
Proof.
  intros (_ & Hd & _ & -> & _).
  destruct (border_pushes.defending_soldiers p =? 0) eqn:E; [lra |].
  apply Z.eqb_neq in E. rewrite <- sqrt_1. apply sqrt_le_1_alt.
  apply IZR_le. lia.
Qed.

Lemma speed_formula_terrain_1 (a b : R) :
  (1.0 * (a / b) * (1 / 1))%R = (a / b)%R.
Proof. unfold Rdiv. rewrite Rinv_1. lra. Qed.

Lemma push_life_coherent clock (p p' : border_pushes.t) :
  push_life clock p p' -> coherent p -> coherent p'.
Proof.
  intros Hlife.
  induction Hlife as [p | p1 p2 p3 _ IH1 _ IH2 | p n Hact | p n Hact Hhi
                      | p n Hact | p n Hact | p Hact];
    [auto | auto | | | | |]; intros (Hs & Hd & Hstr & Hres & Hter & Hv);
    try (repeat split; assumption).
  - unfold coherent, joined, Math_sqrt, Math_max, Math_min. cbn.
    rewrite Hter.
    repeat split; try assumption; try lia.
    + lra.
    + rewrite speed_formula_terrain_1. reflexivity.
  - assert (Hne : (border_pushes.defending_soldiers p + 1 =? 0) = false)
      by (apply Z.eqb_neq; lia).
    unfold coherent, defended, Math_sqrt, Math_max, Math_min. cbn.
    rewrite Hter, Hne.
    repeat split; try assumption; try lia.
    + lra.
    + rewrite speed_formula_terrain_1. reflexivity.
Qed.

Lemma launched_coherent id war_id player_id source target started_at
  last_update :
  coherent (launched id war_id player_id source target started_at last_update).
Proof.
  unfold coherent, launched, BorderPush.beforeCreate, Math_max, Math_min.
  cbn.
  repeat split; try lia.
  - rewrite sqrt_1. lra.
  - lra.
  - lra.
  - f_equal. f_equal. lra.
Qed.

Lemma reachable_coherent (w : World) :
  reachable w -> Forall coherent (tbl_border_pushes w).
Proof.
  intros Hreach.
  destruct (reachable_reaches w Hreach) as (w0 & _ & Hp & Hreaches).
  apply (reaches_pushes_Forall coherent w0 w).
  - intros p p'. apply push_life_coherent.
  - apply launched_coherent.
  - apply push_ids_fresh_empty. exact Hp.
  - exact Hreaches.
  - rewrite Hp. constructor.
Qed.

(** X8. In every world the server reaches from one without wars and
    pushes, the strengths and the speed of every stored push are those its
    soldier counts give: at least one supporter, push_strength the root of
    the supporters, resistance_strength 1 without a defender and the root
    of the defenders otherwise, terrain modifier 1, and push_speed the
    quotient of the two strengths bounded to [0.1, 5.0]. *)
Theorem stored_push_is_coherent (w : World) (p : border_pushes.t) :
  reachable w -> In p (tbl_border_pushes w) -> coherent p.
Proof.
  intros Hreach Hin. pose proof (reachable_coherent w Hreach) as H.
  rewrite Forall_forall in H. apply H. exact Hin.
Qed.

Lemma stored_push_is_coherent_witness :
  reachable Sample.campaign
  /\ In Sample.first_push (tbl_border_pushes Sample.campaign)
  /\ coherent Sample.first_push.
Proof.
  assert (Hin : In Sample.first_push (tbl_border_pushes Sample.campaign)).
  { rewrite campaign_pushes. left. reflexivity. }
  split; [exact campaign_reachable |]. split; [exact Hin |].
  exact (stored_push_is_coherent Sample.campaign Sample.first_push
           campaign_reachable Hin).
Defined.

Lemma bounded_speed_grows (x y : R) :
  (x <= y)%R -> (Rmax 0.1 (Rmin 5.0 x) <= Rmax 0.1 (Rmin 5.0 y))%R.
Proof.
  intros H. apply Rmax_lub; [apply Rmax_l |].
  eapply Rle_trans; [| apply Rmax_r].
  apply Rmin_glb; [apply Rmin_l |].
  eapply Rle_trans; [apply Rmin_r | exact H].
Qed.

Lemma joined_speed (p : border_pushes.t) (t : Z) :
  coherent p ->
  (border_pushes.push_speed p <= border_pushes.push_speed (joined p t))%R.
Proof.
  intros Hco. pose proof (coherent_resistance_positive p Hco) as Hres.
  destruct Hco as (Hs & Hd & Hstr & _ & Hter & Hv).
  rewrite Hv. unfold joined, Math_sqrt, Math_max, Math_min. cbn.
  rewrite Hter, speed_formula_terrain_1.
  apply bounded_speed_grows. unfold Rdiv.
  apply Rmult_le_compat_r.
  - apply Rlt_le, Rinv_0_lt_compat. lra.
  - rewrite Hstr. replace (1.0 * sqrt _)%R
      with (sqrt (IZR (border_pushes.supporting_soldiers p + 1))) by lra.
    apply sqrt_le_1_alt. apply IZR_le. lia.
Qed.

Lemma defended_speed (p : border_pushes.t) (t : Z) :
  coherent p ->
  (border_pushes.push_speed (defended p t) <= border_pushes.push_speed p)%R
  /\ (border_pushes.defending_soldiers p = 0 ->
      border_pushes.push_speed (defended p t) = border_pushes.push_speed p).
Proof.
  intros Hco. pose proof (coherent_resistance_positive p Hco) as Hpos.
  destruct Hco as (Hs & Hd & Hstr & Hres & Hter & Hv).
  rewrite Hv. unfold defended, Math_sqrt, Math_max, Math_min. cbn.
  rewrite Hter, speed_formula_terrain_1.
  replace (1.0 * sqrt (IZR (border_pushes.defending_soldiers p + 1)))%R
    with (sqrt (IZR (border_pushes.defending_soldiers p + 1))) by lra.
  assert (Hnew : (border_pushes.resistance_strength p
                  <= sqrt (IZR (border_pushes.defending_soldiers p + 1)))%R).
  { rewrite Hres.
    destruct (border_pushes.defending_soldiers p =? 0) eqn:E.
    - rewrite <- sqrt_1 at 1. apply sqrt_le_1_alt. apply IZR_le. lia.
    - apply sqrt_le_1_alt. apply IZR_le. lia. }
  split.
  - apply bounded_speed_grows. unfold Rdiv.
    apply Rmult_le_compat_l.
    + rewrite Hstr. apply sqrt_pos.
    + apply Rinv_le_contravar; [lra | exact Hnew].
  - intros Hzero. rewrite Hres, Hzero. cbn. rewrite sqrt_1. reflexivity.
Qed.

(** ** Wars and the war ledger of the countries *)


Lemma settle_country (cid : Id) (w : World) :
  returns
    (country <- Country.findByPk cid ;;
     match country with
     | Some country =>
         if countries.active_wars (dataValues country) <=? 0 then
           Country_instance_update
             (fun c => countries.set_active_wars 0
                         (countries.set_is_at_war false c)) country ;;
           ret tt
         else ret tt
     | None => ret tt
     end) w
    (fun _ w' =>
       tbl_countries w' = settled cid (tbl_countries w)
       /\ besides_countries w w').
Proof.
  apply returns_bind. unfold Country.findByPk. apply returns_gets.
  unfold settled.
  destruct (find _ (tbl_countries w)) as [c |]; cbn [option_map].
  - cbn [dataValues build].
    destruct (countries.active_wars c <=? 0).
    + apply returns_bind. unfold Country_instance_update.
      eexists _, _. split; [apply Country_save_returns |]. apply returns_ret.
      cbn. repeat split.
    + apply returns_ret. repeat split.
  - apply returns_ret. repeat split.
Qed.

Lemma War_endWar_ended (endedBy : Id) (r : wars.t) (w : World) :
  wars.status r = wars.active ->
  let row :=
    ended_war r endedBy (wall_clock w (clock_reads w))
      (wall_clock w (S (clock_reads w))) in
  returns (War.endWar endedBy None (build r)) w (fun war' w' =>
    dataValues war' = row
    /\ tbl_wars w'
       = update_where (fun x => same_id (wars.id x) (wars.id r))
           (fun _ => row) (tbl_wars w)
    /\ tbl_countries w'
       = settled (wars.defender_country_id r)
           (settled (wars.aggressor_country_id r)
              (update_where (of_war r) lowered (tbl_countries w)))
    /\ tbl_border_pushes w' = tbl_border_pushes w
    /\ tbl_players w' = tbl_players w).
Proof.
  intros Hact row. unfold War.endWar. cbn [dataValues build].
  rewrite Hact. cbn [War.is_active wars.status_eqb negb].
  apply returns_bind, returns_new_Date.
  unfold War.save. apply returns_bind.
  unfold War.beforeUpdate, War.changed_status.
  cbn [dataValues _previousDataValues assign build wars.status
         wars.set_ended_at wars.set_winner_country_id wars.set_ended_by
         wars.set_status].
  rewrite Hact. cbn [wars.status_eqb negb andb War.is_ended].
  apply returns_bind, returns_new_Date. apply returns_ret.
  apply returns_bind, returns_modify.
  apply returns_bind.
  - unfold War.afterUpdate, War.changed_status.
    cbn [dataValues _previousDataValues assign build wars.status
           wars.set_ended_at wars.set_winner_country_id wars.set_ended_by
           wars.set_status wars.set_duration_minutes
           wars.aggressor_country_id wars.defender_country_id
           wars.winner_country_id].
    rewrite Hact. cbn [wars.status_eqb negb andb War.is_ended].
    apply returns_bind. unfold Country.update. apply returns_modify.
    apply returns_bind.
    + cbn [for_of]. apply returns_bind.
      eapply returns_mono; [apply settle_country |].
      intros [] w1 (Hc1 & Hp1 & Hw1 & Hb1).
      apply returns_bind.
      eapply returns_mono; [apply settle_country |].
      intros [] w2 (Hc2 & Hp2 & Hw2 & Hb2).
      apply returns_ret. apply returns_ret. apply returns_ret.
      cbn [dataValues saved build].
      rewrite Hc2, Hc1, Hw2, Hw1, Hb2, Hb1, Hp2, Hp1. cbn.
      repeat split.
Qed.

(** What the route that ends a war does to the wars and the countries. *)
Lemma end_war_outcome (player : Instance players.t) (id : Id) (w : World) :
  returns (game.end_war player id) w (fun _ w' =>
    w' = w
    \/ exists war,
         find (fun r => same_id (wars.id r) (wars.id war)) (tbl_wars w)
         = Some war
         /\ wars.status war = wars.active
         /\ tbl_wars w'
            = update_where (fun r => same_id (wars.id r) (wars.id war))
                (fun _ => ended_war war (wars.declared_by war)
                            (wall_clock w (clock_reads w))
                            (wall_clock w (S (clock_reads w)))) (tbl_wars w)
         /\ tbl_countries w'
            = settled (wars.defender_country_id war)
                (settled (wars.aggressor_country_id war)
                   (update_where (of_war war) lowered (tbl_countries w)))
         /\ tbl_border_pushes w'
            = update_where
                (fun r => same_id (border_pushes.war_id r) (wars.id war)
                          && BorderPush.is_active (border_pushes.status r))
                (border_pushes.set_status border_pushes.cancelled)
                (tbl_border_pushes w)).
Proof.
  unfold game.end_war, json_error, json_ok. apply returns_try_catch.
  apply returns_bind. unfold War.findByPk. apply returns_gets.
  destruct (find _ (tbl_wars w)) as [row |] eqn:Hfind; cbn [option_map];
    [| apply returns_ret; left; reflexivity].
  cbn [dataValues build].
  destruct (War.is_active (wars.status row)) eqn:Hact; cbn [negb];
    [| apply returns_ret; left; reflexivity].
  unfold War.canEndWar. cbn [dataValues build].
  destruct (same_id (wars.declared_by row) (players.id (dataValues player)))
    eqn:Hby; cbn [negb]; [| apply returns_ret; left; reflexivity].
  apply war_is_active_true in Hact. apply same_id_eq in Hby.
  pose proof (find_same_id_key _ _ _ _ Hfind) as Hid.
  apply returns_bind.
  eapply returns_mono; [apply (War_endWar_ended _ row w Hact) |].
  intros war' w1 (Hrow & Hwars & Hcountries & Hpushes & _).
  apply returns_bind. unfold BorderPush.update.
  cbn [BorderPush.default_options BorderPush.individualHooks].
  apply returns_modify. apply returns_bind, returns_emit. apply returns_ret.
  right. exists row. rewrite Hid. split; [exact Hfind |].
  split; [exact Hact |]. cbn.
  rewrite Hwars, Hcountries, Hpushes, Hby, Hid, Hrow. cbn.
  rewrite Hid. repeat split.
Qed.

Lemma counted_war_refl (r : wars.t) : counted_war r r.
Proof.
  exists 0. split; [lia |]. rewrite Z.add_0_r. destruct r. reflexivity.
Qed.

Lemma counted_war_trans (r1 r2 r3 : wars.t) :
  counted_war r1 r2 -> counted_war r2 r3 -> counted_war r1 r3.
Proof.
  intros (k1 & H1 & ->) (k2 & H2 & ->). exists (k1 + k2).
  split; [lia |]. cbn. unfold wars.set_total_border_pushes. cbn.
  f_equal. lia.
Qed.

Lemma Forall2_counted_refl (rows : list wars.t) :
  Forall2 counted_war rows rows.
Proof. induction rows; constructor; [apply counted_war_refl | assumption]. Qed.

Lemma Forall2_counted_trans (l1 l2 l3 : list wars.t) :
  Forall2 counted_war l1 l2 -> Forall2 counted_war l2 l3 ->
  Forall2 counted_war l1 l3.
Proof.
  intros H12. revert l3. induction H12 as [| a b l1 l2 Hab _ IH]; intros l3 H23.
  - inversion H23. constructor.
  - inversion H23 as [| ? c ? l3' Hbc Hrest]; subst.
    constructor; [eapply counted_war_trans; eassumption | apply IH; assumption].
Qed.

Lemma Forall2_count_push (war_id : Id) (rows : list wars.t) :
  Forall2 counted_war rows (count_push war_id rows).
Proof.
  unfold count_push, update_where. induction rows as [| r rows IH]; cbn.
  - constructor.
  - constructor; [| exact IH].
    destruct (same_id (wars.id r) war_id); [| apply counted_war_refl].
    exists 1. split; [lia | reflexivity].
Qed.

#[local] Instance wars_quiet_trail : Trail wars_quiet.
Proof.
  split; unfold wars_quiet; cbn.
  - intros w. split; [reflexivity | apply Forall2_counted_refl].
  - intros w1 w2 w3 [Hc1 Hw1] [Hc2 Hw2]. split; [congruence |].
    eapply Forall2_counted_trans; eassumption.
  - intros n w. split; [reflexivity | apply Forall2_counted_refl].
  - intros n w. split; [reflexivity | apply Forall2_counted_refl].
  - intros es w. split; [reflexivity | apply Forall2_counted_refl].
Qed.

(** The requests that neither declare nor end a war are quiet. *)
Ltac quiet_write :=
  apply keeps_modify; intros ?;
  (split;
   [ reflexivity
   | first [ apply Forall2_counted_refl | apply Forall2_count_push ] ]).

Ltac quiet_wars := unfold_handlers; walk_keeps; quiet_write.

Lemma border_push_quiet player target :
  keeps wars_quiet (game.border_push player target).
Proof. quiet_wars. Qed.

Lemma border_push_join_quiet player id :
  keeps wars_quiet (game.border_push_join player id).
Proof. quiet_wars. Qed.

Lemma border_push_defend_quiet player id :
  keeps wars_quiet (game.border_push_defend player id).
Proof. quiet_wars. Qed.

Lemma border_push_update_quiet push_id :
  keeps wars_quiet (socketHandler.border_push_update push_id).
Proof. quiet_wars. Qed.

Lemma border_push_tick_quiet : keeps wars_quiet socketHandler.border_push_tick.
Proof. quiet_wars. Qed.

Lemma final_of_returns {A : Type} (c : M A) (w : World)
  (Q : A -> World -> Prop) (P : World -> Prop) :
  returns c w Q -> (forall a w', Q a w' -> P w') -> P (final c w).
Proof.
  intros (a & w' & Hrun & HQ) H. unfold final. rewrite Hrun. eapply H, HQ.
Qed.

(** Every request takes one step on the wars and the countries. *)
Lemma handle_war_step (r : Request) (w : World) : war_step w (handle r w).
Proof.
  destruct r; cbn [handle].
  - eapply final_of_returns; [apply declare_war_outcome |].
    intros res w' [(_ & _ & _ & _ & Hc & Hw & _) | (_ & _ & H)].
    + apply step_quiet. split; [exact Hc |]. rewrite Hw.
      apply Forall2_counted_refl.
    + destruct H as (source & t & _ & Hne & Hnone & Hw & Hc & _ & Hu).
      eapply step_declared; [| | | exact Hu | exact Hw | exact Hc].
      * reflexivity.
      * exact Hne.
      * exact Hnone.
  - eapply final_of_returns; [apply end_war_outcome |].
    intros res w' [-> | (war & Hfind & Hact & Hw & Hc & _)].
    + apply step_quiet. apply trail_refl.
    + eapply step_ended; eassumption.
  - apply step_quiet. apply border_push_quiet.
  - apply step_quiet. apply border_push_join_quiet.
  - apply step_quiet. apply border_push_defend_quiet.
  - apply step_quiet. apply border_push_update_quiet.
  - apply step_quiet. apply border_push_tick_quiet.
Qed.

Lemma map_key_update_where {A : Type} (key : A -> Id) (sel : A -> bool)
  (f : A -> A) (rows : list A) :
  (forall r, key (f r) = key r) ->
  map key (update_where sel f rows) = map key rows.
Proof.
  intros Hf. unfold update_where. rewrite map_map. apply map_ext.
  intros r. destruct (sel r); [apply Hf | reflexivity].
Qed.

Lemma update_where_none {A : Type} (sel : A -> bool) (f : A -> A)
  (rows : list A) :
  (forall r, In r rows -> sel r = true -> f r = r) ->
  update_where sel f rows = rows.
Proof.
  intros H. unfold update_where. rewrite <- (map_id rows) at 2.
  apply map_ext_in. intros r Hr. destruct (sel r) eqn:E; auto.
Qed.

Lemma update_where_ext {A : Type} (sel sel' : A -> bool) (f f' : A -> A)
  (rows : list A) :
  (forall r, In r rows ->
     (if sel r then f r else r) = (if sel' r then f' r else r)) ->
  update_where sel f rows = update_where sel' f' rows.
Proof. intros H. unfold update_where. apply map_ext_in. exact H. Qed.

(** A country whose count has come down to zero is stored as no longer at
    war. *)
Lemma settled_update_where (cid : Id) (rows : list countries.t) :
  NoDup (map countries.id rows) ->
  settled cid rows
  = update_where (fun r => same_id (countries.id r) cid)
      (fun c => if countries.active_wars c <=? 0
                then countries.set_active_wars 0
                       (countries.set_is_at_war false c)
                else c) rows.
Proof.
  intros Hnd. unfold settled.
  destruct (find _ rows) as [c |] eqn:Hfind.
  - pose proof (find_same_id_key _ _ _ _ Hfind) as Hid.
    apply find_some in Hfind as [Hin _].
    destruct (countries.active_wars c <=? 0) eqn:Hle.
    + apply update_where_ext. intros r Hr. rewrite Hid.
      destruct (same_id (countries.id r) cid) eqn:E; [| reflexivity].
      apply same_id_eq in E.
      assert (r = c) as ->
        by (apply (NoDup_key_eq countries.id rows); congruence).
      rewrite Hle. reflexivity.
    + symmetry. apply update_where_none. intros r Hr E.
      apply same_id_eq in E.
      assert (r = c) as ->
        by (apply (NoDup_key_eq countries.id rows); congruence).
      rewrite Hle. reflexivity.
  - symmetry. apply update_where_none. intros r Hr E.
    rewrite (find_none _ _ Hfind r Hr) in E. discriminate.
Qed.

Lemma map_id_settled (cid : Id) (rows : list countries.t) :
  map countries.id (settled cid rows) = map countries.id rows.
Proof.
  unfold settled. destruct (find _ rows) as [c |]; [| reflexivity].
  destruct (countries.active_wars c <=? 0); [| reflexivity].
  unfold update_where. rewrite map_map. apply map_ext_in. intros r _.
  destruct (same_id (countries.id r) (countries.id c)) eqn:E; [| reflexivity].
  cbn. apply same_id_eq in E. congruence.
Qed.

Lemma counted_war_id (r r' : wars.t) :
  counted_war r r' -> wars.id r' = wars.id r.
Proof. intros (k & _ & ->). reflexivity. Qed.

Lemma Forall2_counted_ids (l l' : list wars.t) :
  Forall2 counted_war l l' -> map wars.id l' = map wars.id l.
Proof.
  induction 1 as [| a b l l' Hab _ IH]; [reflexivity |].
  cbn. rewrite IH, (counted_war_id _ _ Hab). reflexivity.
Qed.

Lemma war_step_fresh (w w' : World) :
  (uuid_counter w <= uuid_counter w')%nat ->
  war_ids_fresh w -> war_step w w' -> war_ids_fresh w'.
Proof.
  intros Hu (Hnd & Hlt & Hcnd) Hstep. unfold war_ids_fresh.
  assert (Hbound : forall l, map wars.id l = map wars.id (tbl_wars w) ->
            Forall (fun r => (wars.id r < uuid_counter w')%nat) l).
  { intros l Hl. apply Forall_forall. intros r Hr.
    assert (Hid : In (wars.id r) (map wars.id (tbl_wars w)))
      by (rewrite <- Hl; apply in_map; exact Hr).
    apply in_map_iff in Hid as (r0 & Heq & Hr0).
    rewrite Forall_forall in Hlt. specialize (Hlt r0 Hr0). lia. }
  destruct Hstep as [[Hc Hw] | war Hwar Hne Hnone Hu' Hw Hc
                     | war n Hfind Hact Hw Hc].
  - pose proof (Forall2_counted_ids _ _ Hw) as Hids.
    rewrite Hc, Hids. split; [exact Hnd |]. split; [| exact Hcnd].
    apply Hbound. exact Hids.
  - assert (Hid : wars.id war = uuid_counter w) by (rewrite Hwar; reflexivity).
    rewrite Hw, Hc, map_app. cbn [map]. split; [| split].
    + apply NoDup_app; [exact Hnd | constructor; [intros [] | constructor] |].
      intros k Hk [<- | []]. apply in_map_iff in Hk as (r0 & Heq & Hr0).
      rewrite Forall_forall in Hlt. specialize (Hlt r0 Hr0). lia.
    + apply Forall_app. split; [apply Hbound; reflexivity |].
      constructor; [lia | constructor].
    + rewrite map_key_update_where; [exact Hcnd | reflexivity].
  - assert (Hids : map wars.id (tbl_wars w') = map wars.id (tbl_wars w)).
    { rewrite Hw. unfold update_where. rewrite map_map. apply map_ext.
      intros r. destruct (same_id (wars.id r) (wars.id war)) eqn:E;
        [| reflexivity].
      cbn. apply same_id_eq in E. congruence. }
    rewrite Hids. split; [exact Hnd |]. split; [apply Hbound; exact Hids |].
    rewrite Hc, !map_id_settled.
    rewrite map_key_update_where; [exact Hcnd | reflexivity].
Qed.

Lemma reaches_war_ids_fresh (w0 w : World) :
  war_ids_fresh w0 -> reaches w0 w -> war_ids_fresh w.
Proof.
  intros H0 Hreach. induction Hreach as [| r w _ IH]; [exact H0 |].
  eapply war_step_fresh;
    [apply handle_counter_grows | exact IH | apply handle_war_step].
Qed.

(** ** What a war records of its end *)

Lemma Forall2_Forall_r {A : Type} (R : A -> A -> Prop) (P : A -> Prop)
  (l l' : list A) :
  (forall a b, R a b -> P a -> P b) ->
  Forall2 R l l' -> Forall P l -> Forall P l'.
Proof.
  intros HR H. induction H as [| a b l l' Hab _ IH]; intros HP.
  - constructor.
  - inversion HP; subst. constructor; [eapply HR; eassumption | auto].
Qed.

Lemma ended_war_recorded (r : wars.t) (t0 t1 : Z) :
  end_recorded (ended_war r (wars.declared_by r) t0 t1).
Proof.
  unfold end_recorded, ended_war. cbn.
  split; [reflexivity |]. split; [reflexivity |].
  exists t1. split; reflexivity.
Qed.

Lemma war_step_recorded (w w' : World) :
  Forall end_recorded (tbl_wars w) -> war_step w w' ->
  Forall end_recorded (tbl_wars w').
Proof.
  intros Hrec [[_ Hw] | war Hwar _ _ _ Hw _ | war n _ _ Hw _].
  - eapply Forall2_Forall_r; [| exact Hw | exact Hrec].
    intros a b (k & _ & ->) Ha. exact Ha.
  - rewrite Hw. apply Forall_app. split; [exact Hrec |].
    constructor; [| constructor]. rewrite Hwar. split; reflexivity.
  - rewrite Hw. apply Forall_update_where; [exact Hrec |].
    intros r _ _. apply ended_war_recorded.
Qed.

Lemma reachable_recorded (w : World) :
  reachable w -> Forall end_recorded (tbl_wars w).
Proof.
  induction 1 as [w Hw _ | r w _ IH].
  - rewrite Hw. constructor.
  - eapply war_step_recorded; [exact IH | apply handle_war_step].
Qed.

(** X10. In every world the server reaches from one without wars, a
    stored war is active or ended, never in ceasefire; an active war has
    no end date and no ender; an ended war was ended by the player who
    declared it, names no winner, and stores the date of its end together
    with the whole minutes from its declaration to that date, which is
    what [getDuration] answers for it, without reading the clock. *)
Theorem ended_war_records_its_end (w w1 : World) (r : wars.t) :
  reachable w -> In r (tbl_wars w) ->
  end_recorded r
  /\ (wars.status r = wars.ended ->
      War_getDuration (build r) w1 = (Returned (wars.duration_minutes r), w1)).
Proof.
  intros Hreach Hin.
  assert (Hrec : end_recorded r).
  { pose proof (reachable_recorded w Hreach) as H.
    rewrite Forall_forall in H. apply H. exact Hin. }
  split; [exact Hrec |]. intros Hended.
  unfold end_recorded in Hrec. rewrite Hended in Hrec.
  destruct Hrec as (_ & _ & t & Hat & Hdur).
  unfold War_getDuration. cbn [dataValues build]. rewrite Hat, Hdur.
  reflexivity.
Qed.

(** ** The war ledger of the countries *)

Lemma same_id_sym (a b : Id) : same_id a b = same_id b a.
Proof. apply Nat.eqb_sym. Qed.

Lemma takes_part_of_war (war : wars.t) (c : countries.t) :
  wars.status war = wars.active ->
  takes_part (countries.id c) war = of_war war c.
Proof.
  intros Hact. unfold takes_part, of_war, war_countries. cbn [existsb].
  rewrite Hact. cbn [War.is_active wars.status_eqb].
  rewrite (same_id_sym (wars.aggressor_country_id war)),
    (same_id_sym (wars.defender_country_id war)).
  rewrite andb_true_r, orb_false_r. reflexivity.
Qed.

Lemma active_wars_of_counted (cid : Id) (l l' : list wars.t) :
  Forall2 counted_war l l' -> active_wars_of cid l' = active_wars_of cid l.
Proof.
  unfold active_wars_of. intros H. f_equal.
  induction H as [| a b l l' (k & _ & ->) _ IH]; [reflexivity |].
  cbn [filter].
  replace (takes_part cid (wars.set_total_border_pushes _ a))
    with (takes_part cid a) by reflexivity.
  destruct (takes_part cid a); cbn [List.length]; congruence.
Qed.

Lemma active_wars_of_app (cid : Id) (l : list wars.t) (r : wars.t) :
  active_wars_of cid (l ++ [r])
  = active_wars_of cid l + (if takes_part cid r then 1 else 0).
Proof.
  unfold active_wars_of. rewrite filter_app, length_app. cbn [filter].
  destruct (takes_part cid r); cbn [List.length]; lia.
Qed.

Lemma active_wars_of_nonneg (cid : Id) (l : list wars.t) :
  0 <= active_wars_of cid l.
Proof. unfold active_wars_of. lia. Qed.

Lemma active_wars_of_ended (cid : Id) (war e : wars.t)
  (rows : list wars.t) :
  NoDup (map wars.id rows) -> In war rows -> takes_part cid e = false ->
  active_wars_of cid
    (update_where (fun r => same_id (wars.id r) (wars.id war)) (fun _ => e)
       rows)
  = active_wars_of cid rows - (if takes_part cid war then 1 else 0).
Proof.
  intros Hnd Hin He. unfold active_wars_of.
  induction rows as [| r rows IH]; [destruct Hin |].
  cbn in Hnd. inversion Hnd as [| ? ? Hfresh Hnd']; subst.
  cbn [update_where map filter].
  destruct Hin as [-> | Hin].
  - rewrite same_id_refl, He.
    fold (update_where (fun r => same_id (wars.id r) (wars.id war))
            (fun _ => e) rows).
    rewrite update_where_none.
    + destruct (takes_part cid war); cbn [List.length]; lia.
    + intros r Hr E. exfalso. apply Hfresh. apply same_id_eq in E.
      rewrite <- E. apply in_map. exact Hr.
  - assert (Hne : same_id (wars.id r) (wars.id war) = false).
    { apply same_id_neq. intros E. apply Hfresh. rewrite E.
      apply in_map. exact Hin. }
    rewrite Hne. specialize (IH Hnd' Hin).
    fold (update_where (fun r => same_id (wars.id r) (wars.id war))
            (fun _ => e) rows).
    destruct (takes_part cid r); cbn [List.length]; lia.
Qed.

Lemma active_wars_of_positive (cid : Id) (war : wars.t)
  (rows : list wars.t) :
  In war rows -> takes_part cid war = true -> 1 <= active_wars_of cid rows.
Proof.
  intros Hin Htp. unfold active_wars_of.
  assert (H : In war (filter (takes_part cid) rows))
    by (apply filter_In; split; assumption).
  destruct (filter (takes_part cid) rows); [destruct H | cbn; lia].
Qed.

Lemma settle_if (b : bool) (y : countries.t) :
  0 <= countries.active_wars y ->
  let y' :=
    if b
    then (if countries.active_wars y <=? 0
          then countries.set_active_wars 0 (countries.set_is_at_war false y)
          else y)
    else y in
  countries.id y' = countries.id y
  /\ countries.active_wars y' = countries.active_wars y
  /\ countries.is_at_war y'
     = (if b && (countries.active_wars y <=? 0) then false
        else countries.is_at_war y).
Proof.
  intros Hpos. destruct b; cbn [andb]; [| auto].
  destruct (countries.active_wars y <=? 0) eqn:E; cbn; [| auto].
  apply Z.leb_le in E. repeat split. lia.
Qed.

Lemma war_step_ledger (w w' : World) :
  war_ids_fresh w -> war_ledger_agrees w -> war_step w w' ->
  war_ledger_agrees w'.
Proof.
  intros (Hnd & _ & Hcnd) Hinv Hstep. unfold war_ledger_agrees in *.
  destruct Hstep as [[Hc Hw] | war Hwar Hne Hnone Hu' Hw Hc
                     | war n Hfind Hact Hw Hc].
  - rewrite Hc. eapply Forall_impl; [| exact Hinv].
    intros c [Haw Hflag]. split; [| exact Hflag].
    rewrite (active_wars_of_counted _ _ _ Hw). exact Haw.
  - assert (Hact : wars.status war = wars.active)
      by (rewrite Hwar; reflexivity).
    rewrite Hc, Hw. unfold update_where. apply Forall_map.
    eapply Forall_impl; [| exact Hinv].
    intros c [Haw Hflag]. unfold ledger_agrees.
    rewrite active_wars_of_app.
    pose proof (active_wars_of_nonneg (countries.id c) (tbl_wars w)) as Hpos.
    destruct (of_war war c) eqn:Hof.
    + cbn [raised countries.id countries.active_wars countries.is_at_war
             countries.set_active_wars countries.set_is_at_war].
      rewrite (takes_part_of_war war c Hact), Hof. split; [lia |].
      symmetry. apply Z.ltb_lt. lia.
    + rewrite (takes_part_of_war war c Hact), Hof.
      split; [lia | exact Hflag].
  - apply find_some in Hfind as [Hin _].
    rewrite Hc.
    rewrite !settled_update_where.
    2, 3: rewrite ?map_id_settled; rewrite map_key_update_where;
      [exact Hcnd | reflexivity].
    unfold update_where. apply Forall_map, Forall_map, Forall_map.
    eapply Forall_impl; [| exact Hinv].
    intros c [Haw Hflag]. unfold ledger_agrees.
    pose proof (takes_part_of_war war c Hact) as Htp.
    pose proof (active_wars_of_nonneg (countries.id c) (tbl_wars w)) as Hpos.
    assert (Hended : takes_part (countries.id c)
                (ended_war war (wars.declared_by war) (wall_clock w n)
                   (wall_clock w (S n))) = false)
      by (unfold takes_part; cbn; apply andb_false_r).
    set (c1 := if of_war war c then lowered c else c).
    assert (H1 : countries.id c1 = countries.id c
                 /\ countries.active_wars c1
                    = countries.active_wars c
                      - (if of_war war c then 1 else 0)
                 /\ countries.is_at_war c1 = countries.is_at_war c).
    { unfold c1. destruct (of_war war c) eqn:Hof; cbn.
      - pose proof (active_wars_of_positive _ _ _ Hin Htp). repeat split. lia.
      - repeat split. lia. }
    destruct H1 as (Hid1 & Haw1 & Hf1).
    assert (Hpos1 : 0 <= countries.active_wars c1).
    { rewrite Haw1. destruct (of_war war c) eqn:Hof; [| lia].
      pose proof (active_wars_of_positive _ _ _ Hin Htp). lia. }
    destruct (settle_if
                (same_id (countries.id c1) (wars.aggressor_country_id war))
                c1 Hpos1) as (Hid2 & Haw2 & Hf2).
    cbv zeta in Hid2, Haw2, Hf2.
    set (c2 := if same_id (countries.id c1) (wars.aggressor_country_id war)
               then _ else c1) in *.
    assert (Hpos2 : 0 <= countries.active_wars c2) by lia.
    destruct (settle_if
                (same_id (countries.id c2) (wars.defender_country_id war))
                c2 Hpos2) as (Hid3 & Haw3 & Hf3).
    cbv zeta in Hid3, Haw3, Hf3.
    set (c3 := if same_id (countries.id c2) (wars.defender_country_id war)
               then _ else c2) in *.
    rewrite Hid3, Hid2, Hid1, Hw.
    rewrite (active_wars_of_ended _ war _ _ Hnd Hin Hended), Htp.
    split; [lia |].
    rewrite Hf3, Hf2, Hf1, Hid2, Hid1, Haw3, Haw2, Haw1, Hflag, Haw.
    unfold of_war, war_countries. cbn [existsb]. rewrite orb_false_r.
    destruct (same_id (countries.id c) (wars.aggressor_country_id war));
      destruct (same_id (countries.id c) (wars.defender_country_id war));
      cbn [orb andb];
      repeat match goal with
             | |- context [?a <=? 0] => destruct (Z.leb_spec a 0)
             | |- context [0 <? ?a] => destruct (Z.ltb_spec 0 a)
             end; try reflexivity; lia.
Qed.


Lemma truce_reachable : reachable Story.truce.
Proof. apply reachable_handle. exact declared_reachable. Defined.

Lemma truce_wars : tbl_wars Story.truce = [Story.war_over].
Proof. reflexivity. Defined.

Lemma ended_war_records_its_end_witness :
  reachable Story.truce
  /\ In Story.war_over (tbl_wars Story.truce)
  /\ War_getDuration (build Story.war_over) Sample.peace
     = (Returned 0, Sample.peace).
Proof.
  assert (Hin : In Story.war_over (tbl_wars Story.truce)).
  { rewrite truce_wars. left. reflexivity. }
  split; [exact truce_reachable |]. split; [exact Hin |].
  apply (proj2 (ended_war_records_its_end Story.truce Sample.peace
                  Story.war_over truce_reachable Hin)).
  reflexivity.
Defined.

(** X11. The war ledger of the countries is kept: from a world where the
    keys of the wars and of the countries are distinct and where, for each
    country, active_wars is the number of stored active wars it takes part
    in and is_at_war tells whether that number is positive, both stay so
    whatever requests the server handles; the creation hook and the update
    hook of [War] raise, lower and settle exactly the countries of the
    war. *)
Theorem war_ledger_is_kept (w0 w : World) :
  war_ids_fresh w0 -> war_ledger_agrees w0 -> reaches w0 w ->
  forall c, In c (tbl_countries w) ->
    countries.active_wars c = active_wars_of (countries.id c) (tbl_wars w)
    /\ countries.is_at_war c = (0 <? countries.active_wars c).
Proof.
  intros Hfresh Hinv Hreach.
  assert (H : war_ids_fresh w /\ war_ledger_agrees w).
  { induction Hreach as [| r w Hreach [IHf IHl]]; [split; assumption |].
    split.
    - eapply war_step_fresh;
        [apply handle_counter_grows | exact IHf | apply handle_war_step].
    - eapply war_step_ledger; [exact IHf | exact IHl | apply handle_war_step]. }
  destruct H as [_ H]. unfold war_ledger_agrees in H.
  rewrite Forall_forall in H. exact H.
Qed.

Lemma peace_war_ids_fresh : war_ids_fresh Sample.peace.
Proof.
  split; [constructor |]. split; [constructor |].
  constructor; [| constructor; [| constructor]].
  - intros [H | []]. discriminate H.
  - intros [].
Defined.

Lemma peace_ledger : war_ledger_agrees Sample.peace.
Proof.
  constructor; [| constructor; [| constructor]]; split; reflexivity.
Defined.

Lemma truce_reaches : reaches Sample.peace Story.truce.
Proof. apply reaches_handle. apply reaches_handle. apply reaches_start. Defined.

Lemma war_ledger_is_kept_witness :
  war_ids_fresh Sample.peace
  /\ war_ledger_agrees Sample.peace
  /\ reaches Sample.peace Story.truce
  /\ forall c, In c (tbl_countries Story.truce) ->
       countries.active_wars c
       = active_wars_of (countries.id c) (tbl_wars Story.truce)
       /\ countries.is_at_war c = (0 <? countries.active_wars c).
Proof.
  split; [exact peace_war_ids_fresh |]. split; [exact peace_ledger |].
  split; [exact truce_reaches |].
  exact (war_ledger_is_kept Sample.peace Story.truce peace_war_ids_fresh
           peace_ledger truce_reaches).
Defined.

(** ** The balances of the players *)

(** X12. No request ever leaves a stored player with a negative balance:
    from a world where every stored balance is at least zero, it stays so
    whatever requests the server handles, whoever the requesting players
    are; the only debit among these requests, those of the game routes,
    is that of the route that starts a push, taken after the balance has
    been checked against the cost. *)
Theorem balances_never_negative (w0 w : World) :
  Forall (fun p => 0 <= players.resources p) (tbl_players w0) ->
  reaches w0 w ->
  Forall (fun p => 0 <= players.resources p) (tbl_players w).
Proof.
  intros H0 Hreach. induction Hreach as [| r w _ IH]; [exact H0 |].
  set (Inv := fun w' : World =>
                Forall (fun p => 0 <= players.resources p) (tbl_players w')).
  assert (Hc : forall n w', Inv w' -> Inv (with_clock_reads n w'))
    by (intros n w' H; exact H).
  assert (Hu : forall w', Inv w' ->
                 Inv (with_uuid_counter (S (uuid_counter w')) w'))
    by (intros w' H; exact H).
  assert (He : forall es w', Inv w' -> Inv (with_emitted es w'))
    by (intros es w' H; exact H).
  assert (H : forall (A : Type) (c : M A),
            upholds Inv c (fun _ => True) -> Inv (final c w)).
  { intros A c Hup. apply (Hup w). exact IH. }
  destruct r; cbn [handle]; apply H; unfold_handlers;
    walk_steady Hc Hu He;
    apply upholds_modify; intros w' Hw';
    first
      [ exact Hw'
      | apply Forall_update_where; [exact Hw' |]; intros p Hp _; cbn;
        first [ exact Hp
              | match goal with
                | E : (_ <? _) = false |- _ => apply Z.ltb_ge in E; lia
                end ] ].
Qed.

Lemma balances_never_negative_witness :
  Forall (fun p => 0 <= players.resources p) (tbl_players Sample.peace)
  /\ reaches Sample.peace Sample.campaign
  /\ Forall (fun p => 0 <= players.resources p) (tbl_players Sample.campaign).
Proof.
  assert (H0 : Forall (fun p => 0 <= players.resources p)
                 (tbl_players Sample.peace)).
  { constructor; [cbn; lia |]. constructor; [cbn; lia | constructor]. }
  assert (Hreach : reaches Sample.peace Sample.campaign).
  { apply reaches_handle. apply reaches_handle. apply reaches_start. }
  split; [exact H0 |]. split; [exact Hreach |].
  exact (balances_never_negative Sample.peace Sample.campaign H0 Hreach).
Defined.

(** ** The pushes counted on a war *)

#[local] Instance wars_kept_trail : Trail wars_kept.
Proof. split; unfold wars_kept; cbn; intros; congruence. Qed.

Lemma border_push_keeps_wars player target :
  keeps wars_kept (game.border_push player target).
Proof.
  unfold_handlers; walk_keeps; apply keeps_modify; intros ?; reflexivity.
Qed.

Lemma count_update_where_same {A : Type} (pred sel : A -> bool) (f : A -> A)
  (rows : list A) :
  (forall r, In r rows -> sel r = true -> pred (f r) = pred r) ->
  List.length (filter pred (update_where sel f rows))
  = List.length (filter pred rows).
Proof.
  unfold update_where. induction rows as [| r rows IH]; intros H;
    [reflexivity |].
  cbn [map filter].
  assert (Hr : pred (if sel r then f r else r) = pred r).
  { destruct (sel r) eqn:E; [apply H; [left; reflexivity | exact E] |].
    reflexivity. }
  rewrite Hr. destruct (pred r); cbn [List.length]; rewrite IH; auto;
    intros r' Hr'; apply H; right; exact Hr'.
Qed.

Lemma count_put_row (pred : border_pushes.t -> bool)
  (p v : border_pushes.t) (rows : list border_pushes.t) :
  NoDup (map border_pushes.id rows) -> In p rows ->
  (List.length (filter pred (put_row (border_pushes.id p) v rows))
   + (if pred p then 1 else 0)
   = List.length (filter pred rows) + (if pred v then 1 else 0))%nat.
Proof.
  intros Hnd Hin. unfold put_row.
  induction rows as [| r rows IH]; [destruct Hin |].
  cbn in Hnd. inversion Hnd as [| ? ? Hfresh Hnd']; subst.
  cbn [update_where map filter].
  fold (update_where (fun r => same_id (border_pushes.id r)
                                 (border_pushes.id p)) (fun _ => v) rows).
  destruct Hin as [-> | Hin].
  - rewrite same_id_refl, update_where_none.
    + destruct (pred p), (pred v); cbn [List.length]; lia.
    + intros r Hr E. exfalso. apply Hfresh. apply same_id_eq in E.
      rewrite <- E. apply in_map. exact Hr.
  - assert (Hne : same_id (border_pushes.id r) (border_pushes.id p) = false).
    { apply same_id_neq. intros E. apply Hfresh. rewrite E.
      apply in_map. exact Hin. }
    rewrite Hne. specialize (IH Hnd' Hin).
    destruct (pred r); cbn [List.length]; lia.
Qed.

Lemma won_pushes_put_row (k : Id) (p v : border_pushes.t)
  (rows : list border_pushes.t) :
  NoDup (map border_pushes.id rows) -> In p rows ->
  won_pushes k (put_row (border_pushes.id p) v rows)
  = won_pushes k rows - (if won_for k p then 1 else 0)
    + (if won_for k v then 1 else 0).
Proof.
  intros Hnd Hin. unfold won_pushes.
  pose proof (count_put_row (won_for k) p v rows Hnd Hin) as H.
  destruct (won_for k p), (won_for k v); lia.
Qed.

Lemma won_pushes_unknown (k : Id) (rows : list border_pushes.t) :
  Forall (fun p => (border_pushes.war_id p < k)%nat) rows ->
  won_pushes k rows = 0.
Proof.
  intros H. unfold won_pushes.
  induction H as [| p rows Hp _ IH]; [reflexivity |].
  cbn [filter]. unfold won_for at 1.
  assert (E : same_id (border_pushes.war_id p) k = false)
    by (apply same_id_neq; lia).
  rewrite E. exact IH.
Qed.

(** A write of a stored push that keeps its war and its status keeps the
    counts. *)
Lemma counted_put_row (w w' : World) (v : border_pushes.t -> border_pushes.t) :
  NoDup (map border_pushes.id (tbl_border_pushes w)) ->
  (forall row, border_pushes.war_id (v row) = border_pushes.war_id row
               /\ border_pushes.status (v row) = border_pushes.status row) ->
  tbl_wars w' = tbl_wars w ->
  tbl_border_pushes w' = tbl_border_pushes w
  \/ (exists row, In row (tbl_border_pushes w)
        /\ border_pushes.status row = border_pushes.active
        /\ tbl_border_pushes w'
           = put_row (border_pushes.id row) (v row) (tbl_border_pushes w)) ->
  pushes_counted w -> pushes_counted w'.
Proof.
  intros Hnd Hv Hwars Hpushes Hinv. unfold pushes_counted in *.
  rewrite Hwars. destruct Hpushes as [-> | (row & Hin & _ & ->)];
    [exact Hinv |].
  eapply Forall_impl; [| exact Hinv]. intros r Hr. cbv beta in *.
  rewrite (won_pushes_put_row _ row _ _ Hnd Hin).
  destruct (Hv row) as [Hw Hs]. unfold won_for. rewrite Hw, Hs.
  destruct (_ && _); lia.
Qed.

Lemma update_push_counts (i : Instance border_pushes.t) (w : World) :
  BorderPush.is_active (border_pushes.status (dataValues i)) = true ->
  NoDup (map border_pushes.id (tbl_border_pushes w)) ->
  In (dataValues i) (tbl_border_pushes w) ->
  pushes_counted w ->
  returns (socketHandler.update_push i) w (fun _ w1 => pushes_counted w1).
Proof.
  intros Hact Hnd Hin Hinv.
  destruct (Rlt_dec 10000
              (candidate (dataValues i) (wall_clock w (clock_reads w))))
    as [Hhi | Hlo].
  - eexists _, _. split; [apply update_push_above; assumption |].
    unfold pushes_counted in *.
    cbn [tbl_border_pushes tbl_wars with_emitted with_wars with_border_pushes
           with_clock_reads].
    unfold count_push, update_where. apply Forall_map.
    eapply Forall_impl; [| exact Hinv]. intros r Hr. cbv beta in *.
    rewrite (won_pushes_put_row _ (dataValues i) _ _ Hnd Hin).
    assert (Hnot : forall k, won_for k (dataValues i) = false).
    { intros k. unfold won_for. apply is_active_true in Hact.
      rewrite Hact. apply andb_false_r. }
    assert (Hwon : forall k,
              won_for k (stopped "successful" (dataValues i) (wall_clock w)
                           (S (clock_reads w)))
              = same_id (border_pushes.war_id (dataValues i)) k).
    { intros k. unfold won_for. cbn. apply andb_true_r. }
    destruct (same_id (wars.id r) (border_pushes.war_id (dataValues i)))
      eqn:E.
    + cbn [wars.id wars.total_border_pushes wars.set_total_border_pushes].
      rewrite Hnot, Hwon, same_id_sym, E. lia.
    + rewrite Hnot, Hwon, same_id_sym, E. lia.
  - eexists _, _. split; [apply update_push_below; assumption |].
    exact Hinv.
Qed.

Lemma tick_loop_counts (l : list (Instance border_pushes.t)) :
  forall w : World,
  Forall (fun i =>
            BorderPush.is_active (border_pushes.status (dataValues i)) = true)
    l ->
  NoDup (map push_key l) ->
  NoDup (map border_pushes.id (tbl_border_pushes w)) ->
  (forall i, In i l -> In (dataValues i) (tbl_border_pushes w)) ->
  pushes_counted w ->
  returns (for_of l socketHandler.update_push) w (fun _ w' =>
    pushes_counted w').
Proof.
  induction l as [| i rest IH]; intros w Hact Hkeys Hnd Hstored Hinv.
  - apply returns_ret. exact Hinv.
  - inversion Hact as [| ? ? Hi Hrest]; subst.
    inversion Hkeys as [| ? ? Hfresh Hkeys']; subst.
    assert (Hin : In (dataValues i) (tbl_border_pushes w))
      by (apply Hstored; left; reflexivity).
    cbn [for_of]. apply returns_bind.
    destruct (update_push_moves i w Hi Hnd Hin)
      as ([] & w1 & Hrun & Hmove & _ & Hother).
    destruct (update_push_counts i w Hi Hnd Hin Hinv)
      as ([] & w1' & Hrun' & Hinv1).
    rewrite Hrun in Hrun'. injection Hrun' as <-.
    exists tt, w1. split; [exact Hrun |].
    apply IH; try assumption.
    + rewrite (Forall2_map_id _ _ _ Hmove). exact Hnd.
    + intros j Hj. apply Hother; [apply Hstored; right; exact Hj |].
      intros Heq. apply Hfresh. unfold push_key in *. rewrite <- Heq.
      apply (in_map (fun i => border_pushes.id (dataValues i))). exact Hj.
Qed.

Lemma border_push_tick_counts (w : World) :
  NoDup (map border_pushes.id (tbl_border_pushes w)) ->
  pushes_counted w ->
  pushes_counted (final socketHandler.border_push_tick w).
Proof.
  intros Hnd Hinv. eapply final_of_returns; [| intros a w' H; exact H].
  unfold socketHandler.border_push_tick.
  apply returns_try_catch. apply returns_bind.
  eexists _, _. split; [apply findActivePushes_returns |].
  set (sel := fun r => BorderPush.is_active (border_pushes.status r)).
  apply tick_loop_counts.
  - apply Forall_forall. intros i Hi. apply in_map_iff in Hi.
    destruct Hi as (r & <- & Hr). apply filter_In in Hr. apply Hr.
  - unfold push_key. rewrite map_map. cbn [dataValues build].
    apply (NoDup_map_filter border_pushes.id sel). exact Hnd.
  - exact Hnd.
  - intros i Hi. apply in_map_iff in Hi. destruct Hi as (r & <- & Hr).
    apply filter_In in Hr. apply Hr.
  - exact Hinv.
Qed.

(** What a request does to the rows of the pushes: it moves them along
    their lives, or it appends the push the route launches on a stored
    war. *)
Lemma handle_pushes_cases (r : Request) (w : World) :
  NoDup (map border_pushes.id (tbl_border_pushes w)) ->
  Forall2 (push_life (wall_clock w)) (tbl_border_pushes w)
    (tbl_border_pushes (handle r w))
  \/ exists war player_id source target started_at last_update,
       In war (tbl_wars w)
       /\ tbl_border_pushes (handle r w)
          = tbl_border_pushes w
            ++ [launched (uuid_counter w) (wars.id war) player_id source
                  target started_at last_update]
       /\ uuid_counter (handle r w) = S (uuid_counter w).
Proof.
  intros Hnd. destruct r; cbn [handle].
  - left. pose proof (declare_war_keeps_pushes player target_country_id w) as H.
    unfold pushes_kept in H. rewrite H. apply Forall2_push_life_refl.
  - left. apply (end_war_moves_pushes player id w).
  - destruct (border_push_moves_pushes player target_country_id w)
      as [H | (war & source & m & t1 & Hin & _ & _ & H & Hu)].
    + left. unfold final. rewrite H. apply Forall2_push_life_refl.
    + right. exists war, (players.id (dataValues player)), source,
        target_country_id, (wall_clock w m), t1. auto.
  - left. apply (border_push_join_moves_pushes player id w Hnd).
  - left. apply (border_push_defend_moves_pushes player id w Hnd).
  - left. apply (border_push_update_moves_pushes push_id w Hnd).
  - left. apply (border_push_tick_moves_pushes w Hnd).
Qed.

Lemma push_life_war_id clock (p p' : border_pushes.t) :
  push_life clock p p' -> border_pushes.war_id p' = border_pushes.war_id p.
Proof.
  intros H. apply push_life_same_push in H. apply H.
Qed.

Lemma handle_keeps_keys (r : Request) (w : World) :
  keys_drawn w -> keys_drawn (handle r w).
Proof.
  intros (Hfresh & Hrefs & Hwars).
  pose proof (handle_counter_grows r w) as Hgrow.
  split; [| split].
  - eapply pushes_move_fresh; [exact Hfresh | apply handle_moves_pushes, Hfresh].
  - rewrite Forall_forall in Hrefs, Hwars.
    destruct (handle_pushes_cases r w (proj1 Hfresh))
      as [Hrows | (war & pid & s & t & t0 & t1 & Hin & -> & Hu)].
    + apply Forall_forall. intros p' Hp'.
      destruct (Forall2_In_r _ _ _ _ Hrows Hp') as (p & Hp & Hlife).
      rewrite (push_life_war_id _ _ _ Hlife). specialize (Hrefs p Hp). lia.
    + apply Forall_app. split; apply Forall_forall.
      * intros p Hp. specialize (Hrefs p Hp). lia.
      * intros p [<- | []]. cbn. specialize (Hwars war Hin). lia.
  - rewrite Forall_forall in Hwars. apply Forall_forall. intros r' Hr'.
    destruct (handle_war_step r w)
      as [[_ Hw] | war Hwar _ _ Hu' Hw _ | war n _ _ Hw _].
    + destruct (Forall2_In_r _ _ _ _ Hw Hr') as (r0 & Hr0 & Hc).
      rewrite (counted_war_id _ _ Hc). specialize (Hwars r0 Hr0). lia.
    + rewrite Hw in Hr'. apply in_app_or in Hr' as [Hr' | [<- | []]].
      * specialize (Hwars r' Hr'). lia.
      * rewrite Hwar. cbn. lia.
    + rewrite Hw in Hr'. apply In_update_where in Hr' as (r0 & Hr0 & ->).
      specialize (Hwars r0 Hr0).
      destruct (same_id (wars.id r0) (wars.id war)) eqn:E; [| lia].
      apply same_id_eq in E. cbn. lia.
Qed.

Lemma won_pushes_app (k : Id) (rows : list border_pushes.t)
  (p : border_pushes.t) :
  border_pushes.status p = border_pushes.active ->
  won_pushes k (rows ++ [p]) = won_pushes k rows.
Proof.
  intros Hact. unfold won_pushes. rewrite filter_app. cbn [filter].
  unfold won_for at 2. rewrite Hact, andb_false_r, app_nil_r. reflexivity.
Qed.

Lemma handle_keeps_counts (r : Request) (w : World) :
  keys_drawn w -> pushes_counted w -> pushes_counted (handle r w).
Proof.
  intros ((Hnd & _) & Hrefs & Hwars) Hinv. destruct r; cbn [handle].
  - eapply final_of_returns; [apply declare_war_outcome |].
    intros res w' [(_ & _ & _ & _ & _ & Hw & Hp) | (_ & _ & H)];
      unfold pushes_counted in *.
    + rewrite Hw, Hp. exact Hinv.
    + destruct H as (source & t & _ & _ & _ & Hw & _ & Hp & _).
      rewrite Hw, Hp. apply Forall_app. split; [exact Hinv |].
      constructor; [| constructor]. cbn.
      symmetry. apply won_pushes_unknown. exact Hrefs.
  - eapply final_of_returns; [apply end_war_outcome |].
    intros res w' [-> | (war & Hfind & Hact & Hw & _ & Hp)]; [exact Hinv |].
    unfold pushes_counted in *.
    assert (Hsame : forall k, won_pushes k (tbl_border_pushes w')
                              = won_pushes k (tbl_border_pushes w)).
    { intros k. rewrite Hp. unfold won_pushes. f_equal.
      apply count_update_where_same. intros p _ Hsel.
      apply andb_prop in Hsel as [_ Hpa]. apply is_active_true in Hpa.
      unfold won_for. cbn. rewrite Hpa. rewrite !andb_false_r. reflexivity. }
    apply find_some in Hfind as [Hin _].
    rewrite Hw. apply Forall_update_where.
    + eapply Forall_impl; [| exact Hinv]. intros r0 Hr0. cbv beta in *.
      rewrite Hsame. exact Hr0.
    + intros r0 _ _. rewrite Hsame. cbn.
      rewrite Forall_forall in Hinv. apply (Hinv war Hin).
  - pose proof (border_push_keeps_wars player target_country_id w) as Hw.
    unfold wars_kept in Hw. unfold pushes_counted in *. rewrite Hw.
    destruct (border_push_moves_pushes player target_country_id w)
      as [H | (war & source & m & t1 & _ & _ & _ & H & _)];
      unfold final; rewrite H; [exact Hinv |].
    eapply Forall_impl; [| exact Hinv]. intros r0 Hr0. cbv beta in *.
    rewrite won_pushes_app; [exact Hr0 | reflexivity].
  - destruct (border_push_join_outcome player id w) as [Hw Hp].
    eapply (counted_put_row w _
              (fun row => joined row (wall_clock w (clock_reads w))));
      try eassumption.
    intros row. split; reflexivity.
  - destruct (border_push_defend_outcome player id w) as [Hw Hp].
    eapply (counted_put_row w _
              (fun row => defended row (wall_clock w (clock_reads w))));
      try eassumption.
    intros row. split; reflexivity.
  - destruct (border_push_update_outcome push_id w) as [Hw Hp].
    eapply (counted_put_row w _
              (fun row => committed row (wall_clock w (clock_reads w))
                            (wall_clock w (S (clock_reads w)))
                            (wall_clock w (S (S (clock_reads w))))));
      try eassumption.
    intros row. split; reflexivity.
  - apply border_push_tick_counts; assumption.
Qed.

Lemma reaches_counts (w0 w : World) :
  keys_drawn w0 -> pushes_counted w0 -> reaches w0 w ->
  keys_drawn w /\ pushes_counted w.
Proof.
  intros Hk Hc Hreach. induction Hreach as [| r w _ [IHk IHc]];
    [split; assumption |].
  split; [apply handle_keeps_keys; exact IHk |].
  apply handle_keeps_counts; assumption.
Qed.

(** X13. The counter total_border_pushes of a stored war is the number of
    its pushes stored as successful, along every course of the server
    from a world where it is so (and where the keys are distinct and were
    drawn from the counter): it counts the pushes the periodic update has
    stopped, through the update hook of [BorderPush], and neither the
    pushes still active nor those the end of the war has cancelled with
    its bulk update. *)
Theorem total_border_pushes_counts_successes (w0 w : World) (r : wars.t) :
  keys_drawn w0 -> pushes_counted w0 -> reaches w0 w ->
  In r (tbl_wars w) ->
  wars.total_border_pushes r
  = won_pushes (wars.id r) (tbl_border_pushes w).
Proof.
  intros Hk Hc Hreach Hin. destruct (reaches_counts w0 w Hk Hc Hreach) as [_ H].
  unfold pushes_counted in H. rewrite Forall_forall in H. apply (H r Hin).
Qed.

Lemma front_keys_drawn : keys_drawn Sample.front.
Proof.
  split; [exact front_fresh |]. split.
  - constructor; [cbn; lia |]. constructor; [cbn; lia | constructor].
  - constructor; [cbn; lia | constructor].
Defined.

Lemma front_counted : pushes_counted Sample.front.
Proof. constructor; [reflexivity | constructor]. Defined.

Lemma total_border_pushes_counts_successes_witness :
  keys_drawn Sample.front
  /\ pushes_counted Sample.front
  /\ reaches Sample.front (handle periodic_update Sample.front)
  /\ forall r, In r (tbl_wars (handle periodic_update Sample.front)) ->
       wars.total_border_pushes r
       = won_pushes (wars.id r)
           (tbl_border_pushes (handle periodic_update Sample.front)).
Proof.
  assert (Hreach : reaches Sample.front (handle periodic_update Sample.front)).
  { apply reaches_handle. apply reaches_start. }
  split; [exact front_keys_drawn |]. split; [exact front_counted |].
  split; [exact Hreach |]. intros r.
  exact (total_border_pushes_counts_successes Sample.front _ r
           front_keys_drawn front_counted Hreach).
Defined.

(** ** One front for each player *)

Lemma latest_In {A : Type} (key : A -> Z) (rows : list A) (r : A) :
  latest key rows = Some r -> In r rows.
Proof.
  revert r. induction rows as [| x rows IH]; intros r H; [discriminate |].
  cbn in H. destruct (latest key rows) as [r' |].
  - destruct (key r' <=? key x); injection H as <-;
      [left; reflexivity | right; apply IH; reflexivity].
  - injection H as <-. left. reflexivity.
Qed.

Lemma latest_max {A : Type} (key : A -> Z) (rows : list A) (r : A) :
  latest key rows = Some r -> forall x, In x rows -> key x <= key r.
Proof.
  revert r. induction rows as [| y rows IH]; intros r H x Hx; [destruct Hx |].
  cbn in H. destruct (latest key rows) as [r' |] eqn:E.
  - specialize (IH r' eq_refl).
    destruct (key r' <=? key y) eqn:Hle; injection H as <-.
    + apply Z.leb_le in Hle. destruct Hx as [-> | Hx]; [lia |].
      specialize (IH x Hx). lia.
    + apply Z.leb_gt in Hle. destruct Hx as [-> | Hx]; [lia |].
      apply IH. exact Hx.
  - injection H as <-. destruct Hx as [-> | Hx]; [lia |].
    destruct rows; [destruct Hx | cbn in E].
    destruct (latest key rows); [destruct (_ <=? _) |]; discriminate.
Qed.

Lemma latest_none {A : Type} (key : A -> Z) (rows : list A) :
  latest key rows = None -> rows = [].
Proof.
  destruct rows as [| x rows]; [reflexivity |]. cbn.
  destruct (latest key rows); [destruct (_ <=? _) |]; discriminate.
Qed.

Lemma clock_monotone_le (clock : nat -> Z) (n m : nat) :
  clock_monotone clock -> (n <= m)%nat -> clock n <= clock m.
Proof.
  intros Hmono Hle. induction Hle as [| m _ IH]; [lia |].
  specialize (Hmono m). lia.
Qed.

Lemma ForallOrdPairs_Forall2 {A : Type} (R S : A -> A -> Prop)
  (l l' : list A) :
  (forall a a' b b', S a a' -> S b b' -> R a b -> R a' b') ->
  Forall2 S l l' -> ForallOrdPairs R l -> ForallOrdPairs R l'.
Proof.
  intros HRS H. induction H as [| a a' l l' Haa' Hll' IH]; intros Hfop.
  - constructor.
  - inversion Hfop as [| ? ? Hall Hrest]; subst.
    constructor; [| apply IH; exact Hrest].
    clear IH Hfop Hrest. induction Hll' as [| b b' l l' Hbb' _ IH'].
    + constructor.
    + inversion Hall; subst. constructor; [eapply HRS; eassumption |].
      apply IH'. assumption.
Qed.

Lemma ForallOrdPairs_app_one {A : Type} (R : A -> A -> Prop) (l : list A)
  (x : A) :
  ForallOrdPairs R l -> Forall (fun a => R a x) l ->
  ForallOrdPairs R (l ++ [x]).
Proof.
  intros Hfop Hall. induction Hfop as [| a l Ha _ IH]; cbn.
  - constructor; constructor.
  - inversion Hall; subst. constructor; [| apply IH; assumption].
    apply Forall_app. split; [exact Ha |]. constructor; [assumption |].
    constructor.
Qed.

Lemma push_life_later clock (a a' b b' : border_pushes.t) :
  push_life clock a a' -> push_life clock b b' ->
  later_push a b -> later_push a' b'.
Proof.
  intros Ha Hb Hab Hsame.
  pose proof (push_life_same_push _ _ _ Ha)
    as (_ & _ & Hpa & _ & _ & Hsa & _).
  pose proof (push_life_same_push _ _ _ Hb)
    as (_ & _ & Hpb & _ & _ & Hsb & _).
  destruct Hab as [Hterm Hlt]; [congruence |].
  rewrite (push_life_terminal _ _ _ Ha Hterm). split; [exact Hterm |]. lia.
Qed.

(** The route launches a push of a player only after all the stored ones
    of that player. *)
Lemma launched_after (w : World) (player : Instance players.t)
  (war_id source target : Id) (m : nat) (last_update : Z) :
  one_front w -> clock_monotone (wall_clock w) -> cooldown_positive w ->
  (clock_reads w <= m)%nat ->
  match last_push player w with
  | None => True
  | Some lastPush =>
      border_pushes.status lastPush <> border_pushes.active
      /\ parseInt_or (BORDER_PUSH_COOLDOWN_MS (process_env w)) 5000
         <= wall_clock w (clock_reads w) - border_pushes.started_at lastPush
  end ->
  Forall (fun x =>
            later_push x
              (launched (uuid_counter w) war_id
                 (players.id (dataValues player)) source target
                 (wall_clock w m) last_update))
    (tbl_border_pushes w).
Proof.
  intros Hfront Hmono Hcool Hm Hlast. apply Forall_forall.
  intros x Hx Hsame. cbn in Hsame.
  assert (HxL : In x (filter (fun r => same_id (border_pushes.player_id r)
                                         (players.id (dataValues player)))
                        (tbl_border_pushes w))).
  { apply filter_In. split; [exact Hx |]. apply same_id_eq. exact Hsame. }
  unfold last_push in Hlast.
  destruct (latest _ _) as [lp |] eqn:Hlp.
  - destruct Hlast as [Hterm Hwait].
    pose proof (latest_max _ _ _ Hlp x HxL) as Hmax.
    pose proof (latest_In _ _ _ Hlp) as HlpL.
    apply filter_In in HlpL as [Hlpin Hlpsame]. apply same_id_eq in Hlpsame.
    pose proof (clock_monotone_le _ _ _ Hmono Hm) as Hclock.
    unfold cooldown_positive in Hcool. cbn. split; [| lia].
    destruct (ForallOrdPairs_In Hfront x lp Hx Hlpin) as [-> | [H | H]].
    + exact Hterm.
    + apply H. congruence.
    + destruct H as [_ Hlt]; [congruence | lia].
  - apply latest_none in Hlp. rewrite Hlp in HxL. destruct HxL.
Qed.

Lemma handle_keeps_front (r : Request) (w : World) :
  push_ids_fresh w -> clock_monotone (wall_clock w) -> cooldown_positive w ->
  one_front w -> one_front (handle r w).
Proof.
  intros [Hnd _] Hmono Hcool Hfront. unfold one_front in *.
  assert (Hmoved : Forall2 (push_life (wall_clock w)) (tbl_border_pushes w)
                     (tbl_border_pushes (handle r w)) ->
                   ForallOrdPairs later_push (tbl_border_pushes (handle r w))).
  { intros Hrows. eapply ForallOrdPairs_Forall2; [| exact Hrows | exact Hfront].
    intros a a' b b'. apply push_life_later. }
  destruct r; cbn [handle] in *;
    try (apply Hmoved;
         first [ apply (end_war_moves_pushes player id w)
               | apply (border_push_join_moves_pushes player id w Hnd)
               | apply (border_push_defend_moves_pushes player id w Hnd)
               | apply (border_push_update_moves_pushes push_id w Hnd)
               | apply (border_push_tick_moves_pushes w Hnd) ]).
  - pose proof (declare_war_keeps_pushes player target_country_id w) as H.
    unfold pushes_kept in H. rewrite H. exact Hfront.
  - destruct (border_push_moves_pushes player target_country_id w)
      as [H | (war & source & m & t1 & _ & Hm & Hlast & H & _)];
      unfold final; rewrite H; [exact Hfront |].
    apply ForallOrdPairs_app_one; [exact Hfront |].
    apply launched_after; assumption.
Qed.

(** X14. A player never has two active pushes at once: with a wall clock
    that never runs backwards and a positive cooldown, from a world where
    the stored pushes of each player follow one another (each one over
    and started before the next), whatever requests the server handles,
    two stored pushes of the same player that are both active are the
    same push. *)
Theorem one_active_push_per_player (w0 w : World) :
  push_ids_fresh w0 -> clock_monotone (wall_clock w0) ->
  cooldown_positive w0 -> one_front w0 ->
  reaches w0 w ->
  forall p q,
    In p (tbl_border_pushes w) -> In q (tbl_border_pushes w) ->
    border_pushes.player_id p = border_pushes.player_id q ->
    border_pushes.status p = border_pushes.active ->
    border_pushes.status q = border_pushes.active ->
    p = q.
Proof.
  intros Hfresh Hmono Hcool Hfront Hreach.
  assert (H : one_front w).
  { induction Hreach as [| r w Hreach IH]; [exact Hfront |].
    destruct (reaches_same_setting w0 w Hreach) as [Hc He].
    apply handle_keeps_front.
    - apply (reaches_push_ids_fresh w0 w Hfresh Hreach).
    - rewrite Hc. exact Hmono.
    - unfold cooldown_positive. rewrite He. exact Hcool.
    - exact IH. }
  intros p q Hp Hq Hsame Hpa Hqa.
  destruct (ForallOrdPairs_In H p q Hp Hq) as [E | [L | L]]; [exact E | |].
  - destruct L as [Hterm _]; [exact Hsame | contradiction].
  - destruct L as [Hterm _]; [symmetry; exact Hsame | contradiction].
Qed.

Lemma peace_clock_monotone : clock_monotone (wall_clock Sample.peace).
Proof. intros n. cbn [wall_clock Sample.peace]. lia. Defined.

Lemma peace_cooldown_positive : cooldown_positive Sample.peace.
Proof. unfold cooldown_positive. cbn. lia. Defined.

Lemma peace_push_ids_fresh : push_ids_fresh Sample.peace.
Proof. split; constructor. Defined.

Lemma peace_one_front : one_front Sample.peace.
Proof. constructor. Defined.

Lemma one_active_push_per_player_witness :
  push_ids_fresh Sample.peace
  /\ clock_monotone (wall_clock Sample.peace)
  /\ cooldown_positive Sample.peace
  /\ one_front Sample.peace
  /\ reaches Sample.peace
       (handle (post_border_push (build Sample.alice) 20%nat) Sample.campaign)
  /\ forall p q,
       In p (tbl_border_pushes
               (handle (post_border_push (build Sample.alice) 20%nat)
                  Sample.campaign)) ->
       In q (tbl_border_pushes
               (handle (post_border_push (build Sample.alice) 20%nat)
                  Sample.campaign)) ->
       border_pushes.player_id p = border_pushes.player_id q ->
       border_pushes.status p = border_pushes.active ->
       border_pushes.status q = border_pushes.active ->
       p = q.
Proof.
  assert (Hreach : reaches Sample.peace
                     (handle (post_border_push (build Sample.alice) 20%nat)
                        Sample.campaign)).
  { apply reaches_handle. apply reaches_handle. apply reaches_handle.
    apply reaches_start. }
  split; [exact peace_push_ids_fresh |].
  split; [exact peace_clock_monotone |].
  split; [exact peace_cooldown_positive |].
  split; [exact peace_one_front |]. split; [exact Hreach |].
  exact (one_active_push_per_player Sample.peace _ peace_push_ids_fresh
           peace_clock_monotone peace_cooldown_positive peace_one_front
           Hreach).
Defined.

(** * Membership, movement and connections: properties *)

(** ** Values *)

Lemma isEqual_Z_true (a b : Z) : Realm.isEqual a b = true <-> a = b.
Proof. apply Z.eqb_eq. Qed.

Lemma isEqual_Id_true (a b : Id) : Realm.isEqual a b = true <-> a = b.
Proof. apply Nat.eqb_eq. Qed.

Lemma isEqual_bool_true (a b : bool) : Realm.isEqual a b = true <-> a = b.
Proof. apply Bool.eqb_true_iff. Qed.

Lemma isEqual_string_true (a b : string) :
  Realm.isEqual a b = true <-> a = b.
Proof. apply String.eqb_eq. Qed.

Lemma isEqual_R_true (a b : R) : Realm.isEqual a b = true <-> a = b.
Proof.
  unfold Realm.isEqual, Realm.isEqual_R.
  destruct (Req_dec_T a b); split; congruence.
Qed.

Lemma isEqual_option_true {T : Type} (eqT : Realm.IsEqual T)
  (a b : option T) :
  (forall x y : T, Realm.isEqual x y = true <-> x = y) ->
  Realm.isEqual a b = true <-> a = b.
Proof.
  intros H. destruct a as [x |], b as [y |]; cbn.
  - rewrite H. split; congruence.
  - split; discriminate.
  - split; discriminate.
  - split; reflexivity.
Qed.

Lemma isEqual_Point_true (a b : Realm.Point) :
  Realm.isEqual a b = true <-> a = b.
Proof.
  destruct a as [a1 a2], b as [b1 b2].
  unfold Realm.isEqual, Realm.isEqual_Point. cbn [fst snd].
  rewrite andb_true_iff, !isEqual_R_true. split.
  - intros [-> ->]. reflexivity.
  - intros H. injection H as -> ->. auto.
Qed.

Lemma Rltb_true (a b : R) : Realm.Rltb a b = true <-> (a < b)%R.
Proof.
  unfold Realm.Rltb. destruct (Rlt_dec a b); split; auto; discriminate.
Qed.

Lemma Rltb_false (a b : R) : Realm.Rltb a b = false <-> (b <= a)%R.
Proof.
  unfold Realm.Rltb. destruct (Rlt_dec a b); split; auto; try lra;
    discriminate.
Qed.

(** ** The coordinates of a request *)

Lemma truthy_number (x : R) :
  Realm.truthy (Realm.JNum x) = true <-> x <> 0%R.
Proof.
  cbn [Realm.truthy]. destruct (Realm.isEqual x 0%R) eqn:E; cbn [negb].
  - apply isEqual_R_true in E. split; [discriminate | contradiction].
  - split; [| reflexivity]. intros _ ->.
    assert (Realm.isEqual 0%R 0%R = true) as H'
      by (apply isEqual_R_true; reflexivity).
    congruence.
Qed.

Lemma or_else_some (x y : option Realm.Json) (v : Realm.Json) :
  Realm.or_else x y = Some v ->
  (x = Some v /\ Realm.truthy v = true)
  \/ ((x = None \/ exists u, x = Some u /\ Realm.truthy u = false)
      /\ y = Some v).
Proof.
  unfold Realm.or_else. destruct x as [u |]; [| auto].
  destruct (Realm.truthy u) eqn:E.
  - intros H. injection H as <-. auto.
  - intros H. right. split; [right; exists u |]; auto.
Qed.

Lemma validateCoordinates_accepts (body : Realm.auth.Coordinates)
  (lat lng : R) :
  Realm.auth.validateCoordinates body = inr (lat, lng) <->
  exists v1 v2 : Realm.Json,
    Realm.or_else (Realm.auth.lat body) (Realm.auth.latitude body) = Some v1
    /\ Realm.or_else (Realm.auth.lng body) (Realm.auth.longitude body)
       = Some v2
    /\ Realm.parseFloat v1 = Realm.finite lat
    /\ Realm.parseFloat v2 = Realm.finite lng
    /\ (-90 <= lat <= 90)%R /\ (-180 <= lng <= 180)%R.
Proof.
  unfold Realm.auth.validateCoordinates.
  destruct (Realm.or_else (Realm.auth.lat body) (Realm.auth.latitude body))
    as [v1 |];
    destruct (Realm.or_else (Realm.auth.lng body)
                (Realm.auth.longitude body)) as [v2 |];
    try (split; [discriminate
                | intros (u1 & u2 & H1 & H2 & _); discriminate]).
  assert (forall P : Prop,
    (Realm.parseFloat v1 = Realm.finite lat ->
     Realm.parseFloat v2 = Realm.finite lng -> P) ->
    (exists u1 u2 : Realm.Json,
       Some v1 = Some u1 /\ Some v2 = Some u2
       /\ Realm.parseFloat u1 = Realm.finite lat
       /\ Realm.parseFloat u2 = Realm.finite lng
       /\ (-90 <= lat <= 90)%R /\ (-180 <= lng <= 180)%R) -> P) as Hcase.
  { intros P HP (u1 & u2 & H1 & H2 & F1 & F2 & _).
    injection H1 as <-. injection H2 as <-. auto. }
  destruct (Realm.parseFloat v1) as [la | n1 |] eqn:P1;
    destruct (Realm.parseFloat v2) as [ln | n2 |] eqn:P2;
    cbn [Realm.isNaN orb];
    try (split; [discriminate | apply Hcase; discriminate]).
  - destruct (Realm.Rltb la (-90)) eqn:E1; cbn [orb].
    { apply Rltb_true in E1. split; [discriminate |].
      intros (u1 & u2 & H1 & H2 & F1 & _ & ? & _).
      injection H1 as <-. rewrite P1 in F1. injection F1 as <-. lra. }
    destruct (Realm.Rltb 90 la) eqn:E2; cbn [orb].
    { apply Rltb_true in E2. split; [discriminate |].
      intros (u1 & u2 & H1 & H2 & F1 & _ & ? & _).
      injection H1 as <-. rewrite P1 in F1. injection F1 as <-. lra. }
    destruct (Realm.Rltb ln (-180)) eqn:E3; cbn [orb].
    { apply Rltb_true in E3. split; [discriminate |].
      intros (u1 & u2 & H1 & H2 & _ & F2 & _ & ?).
      injection H2 as <-. rewrite P2 in F2. injection F2 as <-. lra. }
    destruct (Realm.Rltb 180 ln) eqn:E4; cbn [orb].
    { apply Rltb_true in E4. split; [discriminate |].
      intros (u1 & u2 & H1 & H2 & _ & F2 & _ & ?).
      injection H2 as <-. rewrite P2 in F2. injection F2 as <-. lra. }
    apply Rltb_false in E1, E2, E3, E4. split.
    + intros H. injection H as -> ->. exists v1, v2.
      repeat split; auto; lra.
    + intros (u1 & u2 & H1 & H2 & F1 & F2 & _).
      injection H1 as <-. injection H2 as <-.
      rewrite P1 in F1. rewrite P2 in F2.
      injection F1 as ->. injection F2 as ->. reflexivity.
  - destruct (Realm.Rltb la (-90) || Realm.Rltb 90 la);
      (split; [discriminate | apply Hcase; discriminate]).
Qed.

Lemma accepted_coordinate (field alias : option Realm.Json) (v : Realm.Json)
  (x : R) :
  Realm.or_else field alias = Some v ->
  Realm.parseFloat v = Realm.finite x ->
  (forall u, field = Some u -> Realm.truthy u = true ->
     Realm.parseFloat u = Realm.finite x)
  /\ (forall u, field = Some u -> Realm.truthy u = false ->
        exists a, alias = Some a /\ Realm.parseFloat a = Realm.finite x)
  /\ (field = None ->
        exists a, alias = Some a /\ Realm.parseFloat a = Realm.finite x).
Proof.
  unfold Realm.or_else. intros H F. repeat split.
  - intros u -> T. rewrite T in H. congruence.
  - intros u -> T. rewrite T in H. eauto.
  - intros ->. eauto.
Qed.

(** X15.  Coordinates that [validateCoordinates] accepts lie within the
    bounds of latitude and longitude, and each is what [parseFloat] reads
    from one value of the body: from the field [lat] (or [lng]) when that
    field is there and truthy, and from its alias [latitude] (or
    [longitude]) otherwise.  So a field that is the number zero is never
    the one read, while a field that is a text is read whenever the text
    is not empty, through the longest prefix of it that is a number. *)
Theorem accepted_coordinates_are_in_range (body : Realm.auth.Coordinates)
  (lat lng : R) :
  Realm.auth.validateCoordinates body = inr (lat, lng) ->
  (-90 <= lat <= 90)%R /\ (-180 <= lng <= 180)%R
  /\ (forall v, Realm.auth.lat body = Some v -> Realm.truthy v = true ->
        Realm.parseFloat v = Realm.finite lat)
  /\ (forall v, Realm.auth.lat body = Some v -> Realm.truthy v = false ->
        exists a, Realm.auth.latitude body = Some a
                  /\ Realm.parseFloat a = Realm.finite lat)
  /\ (Realm.auth.lat body = None ->
        exists a, Realm.auth.latitude body = Some a
                  /\ Realm.parseFloat a = Realm.finite lat)
  /\ (forall v, Realm.auth.lng body = Some v -> Realm.truthy v = true ->
        Realm.parseFloat v = Realm.finite lng)
  /\ (forall v, Realm.auth.lng body = Some v -> Realm.truthy v = false ->
        exists a, Realm.auth.longitude body = Some a
                  /\ Realm.parseFloat a = Realm.finite lng)
  /\ (Realm.auth.lng body = None ->
        exists a, Realm.auth.longitude body = Some a
                  /\ Realm.parseFloat a = Realm.finite lng)
  /\ (Realm.auth.lat body = Some (Realm.JNum 0) ->
        exists a, Realm.auth.latitude body = Some a
                  /\ Realm.parseFloat a = Realm.finite lat)
  /\ (forall s, Realm.auth.lat body = Some (Realm.JStr s) ->
        s <> EmptyString -> Realm.parseFloat_text s = Realm.finite lat).
Proof.
  intros H. apply validateCoordinates_accepts in H.
  destruct H as (v1 & v2 & Hlat & Hlng & Flat & Flng & Rlat & Rlng).
  destruct (accepted_coordinate _ _ _ _ Hlat Flat) as (A1 & A2 & A3).
  destruct (accepted_coordinate _ _ _ _ Hlng Flng) as (B1 & B2 & B3).
  split; [exact Rlat |]. split; [exact Rlng |].
  repeat (split; [assumption |]). split.
  - intros H0. apply (A2 _ H0). cbn [Realm.truthy].
    destruct (Realm.isEqual 0%R 0%R) eqn:E; [reflexivity |].
    assert (Realm.isEqual 0%R 0%R = true)
      by (apply isEqual_R_true; reflexivity).
    congruence.
  - intros s H0 Hs. apply (A1 _ H0). cbn [Realm.truthy].
    destruct (String.eqb_spec s EmptyString); [contradiction | reflexivity].
Qed.

Lemma parseFloat_text_zero :
  Realm.parseFloat_text "0" = Realm.finite 0.
Proof.
  unfold Realm.parseFloat_text.
  replace (Realm.trim_start "0") with "0"%string by (vm_compute; reflexivity).
  cbv beta iota. unfold Realm.unsigned_literal.
  replace (String.prefix "Infinity" "0") with false by reflexivity.
  replace (Realm.digits "0" 0) with (0, 1%nat, EmptyString)
    by (vm_compute; reflexivity).
  cbv beta iota zeta.
  cbn [Realm.exponent Nat.add Z.of_nat Z.sub Z.add Z.opp powerRZ].
  f_equal. lra.
Qed.

Lemma parseFloat_text_prefix :
  Realm.parseFloat_text "45abc" = Realm.finite 45.
Proof.
  unfold Realm.parseFloat_text.
  replace (Realm.trim_start "45abc") with "45abc"%string
    by (vm_compute; reflexivity).
  cbv beta iota. unfold Realm.unsigned_literal.
  replace (String.prefix "Infinity" "45abc") with false by reflexivity.
  replace (Realm.digits "45abc" 0) with (45, 2%nat, "abc"%string)
    by (vm_compute; reflexivity).
  cbv beta iota zeta.
  replace (Realm.exponent "abc") with 0 by (vm_compute; reflexivity).
  cbn [Nat.add Z.of_nat Z.sub Z.add Z.opp powerRZ].
  f_equal. lra.
Qed.

Lemma accepted_coordinates_are_in_range_witness :
  let body := {| Realm.auth.lat := Some (Realm.JStr "0");
                 Realm.auth.lng := Some (Realm.JStr "45abc");
                 Realm.auth.latitude := None;
                 Realm.auth.longitude := None |} in
  Realm.auth.validateCoordinates body = inr (0%R, 45%R)
  /\ Realm.parseFloat_text "0" = Realm.finite 0.
Proof.
  intros body.
  assert (Realm.auth.validateCoordinates body = inr (0%R, 45%R)) as H.
  { apply validateCoordinates_accepts. subst body.
    exists (Realm.JStr "0"), (Realm.JStr "45abc").
    cbn [Realm.auth.lat Realm.auth.latitude Realm.auth.lng
         Realm.auth.longitude Realm.parseFloat].
    rewrite parseFloat_text_zero, parseFloat_text_prefix.
    repeat split; try reflexivity; lra. }
  split; [exact H |].
  destruct (accepted_coordinates_are_in_range body 0 45 H)
    as (_ & _ & _ & _ & _ & _ & _ & _ & _ & Htext).
  apply Htext; [reflexivity | discriminate].
Defined.

(** ** Runs *)

Lemma run_ret {A : Type} (a : A) (s : Realm.Store)
  (Q : A -> Realm.Store -> Prop) :
  Q a s -> Realm.returns (Realm.ret a) s Q.
Proof. intros H. exists a, s. split; [reflexivity | exact H]. Qed.

Lemma run_bind {A B : Type} (c : Realm.Run A) (k : A -> Realm.Run B)
  (s : Realm.Store) (Q : B -> Realm.Store -> Prop) :
  Realm.returns c s (fun a s1 => Realm.returns (k a) s1 Q) ->
  Realm.returns (Realm.bind c k) s Q.
Proof.
  intros (a & s1 & Hc & b & s2 & Hk & HQ). exists b, s2. split; [| exact HQ].
  unfold Realm.bind. rewrite Hc. exact Hk.
Qed.

Lemma run_weaken {A : Type} (c : Realm.Run A) (s : Realm.Store)
  (Q Q' : A -> Realm.Store -> Prop) :
  Realm.returns c s Q -> (forall a s', Q a s' -> Q' a s') ->
  Realm.returns c s Q'.
Proof. intros (a & s' & Hc & HQ) H. exists a, s'. auto. Qed.

Lemma run_try_catch {A : Type} (c : Realm.Run A)
  (h : string -> Realm.Run A) (s : Realm.Store)
  (Q : A -> Realm.Store -> Prop) :
  Realm.returns c s Q -> Realm.returns (Realm.try_catch c h) s Q.
Proof.
  intros (a & s' & Hc & HQ). exists a, s'. split; [| exact HQ].
  unfold Realm.try_catch. rewrite Hc. reflexivity.
Qed.

Lemma run_gets {A : Type} (f : Realm.Store -> A) (s : Realm.Store)
  (Q : A -> Realm.Store -> Prop) :
  Q (f s) s -> Realm.returns (Realm.gets f) s Q.
Proof. intros H. exists (f s), s. split; [reflexivity | exact H]. Qed.

Lemma run_modify (f : Realm.Store -> Realm.Store) (s : Realm.Store)
  (Q : unit -> Realm.Store -> Prop) :
  Q tt (f s) -> Realm.returns (Realm.modify f) s Q.
Proof. intros H. exists tt, (f s). split; [reflexivity | exact H]. Qed.

Lemma run_new_Date (s : Realm.Store) (Q : Z -> Realm.Store -> Prop) :
  Q (Realm.wall_clock s (Realm.clock_reads s))
    (Realm.with_clock_reads (S (Realm.clock_reads s)) s) ->
  Realm.returns Realm.new_Date s Q.
Proof. intros H. eexists _, _. split; [reflexivity | exact H]. Qed.

Lemma run_UUIDV4 (s : Realm.Store) (Q : Id -> Realm.Store -> Prop) :
  Q (Realm.uuid_counter s)
    (Realm.with_uuid_counter (S (Realm.uuid_counter s)) s) ->
  Realm.returns Realm.UUIDV4 s Q.
Proof. intros H. eexists _, _. split; [reflexivity | exact H]. Qed.

Lemma run_emit (to : Realm.Target) (e : Realm.Event) (s : Realm.Store)
  (Q : unit -> Realm.Store -> Prop) :
  Q tt (Realm.with_emitted (Realm.emitted s ++ [Realm.mkEmit to e]) s) ->
  Realm.returns (Realm.emit to e) s Q.
Proof. intros H. eexists _, _. split; [reflexivity | exact H]. Qed.

(** ** Writing columns *)

Lemma isEqual_option_Id_true (a b : option Id) :
  Realm.isEqual a b = true <-> a = b.
Proof. apply isEqual_option_true, isEqual_Id_true. Qed.

Lemma isEqual_option_Z_true (a b : option Z) :
  Realm.isEqual a b = true <-> a = b.
Proof. apply isEqual_option_true, isEqual_Z_true. Qed.

Lemma isEqual_option_string_true (a b : option string) :
  Realm.isEqual a b = true <-> a = b.
Proof. apply isEqual_option_true, isEqual_string_true. Qed.

Lemma isEqual_option_Point_true (a b : option Realm.Point) :
  Realm.isEqual a b = true <-> a = b.
Proof. apply isEqual_option_true, isEqual_Point_true. Qed.

Ltac is_equal E :=
  first [ apply (proj1 (isEqual_Z_true _ _)) in E
        | apply (proj1 (isEqual_bool_true _ _)) in E
        | apply (proj1 (isEqual_R_true _ _)) in E
        | apply (proj1 (isEqual_option_Id_true _ _)) in E
        | apply (proj1 (isEqual_option_Z_true _ _)) in E
        | apply (proj1 (isEqual_option_string_true _ _)) in E
        | apply (proj1 (isEqual_option_Point_true _ _)) in E ].

(** A column whose values do not differ need not be written. *)
Ltac column_written H col :=
  match goal with
  | |- (if ?fields col then ?x else ?y) = _ =>
      let F := fresh "F" in
      let E := fresh "E" in
      destruct (fields col) eqn:F; [reflexivity |];
      specialize (H col); cbv beta iota delta [Realm.players.differs
        Realm.countries.differs] in H;
      match type of H with
      | negb ?b = true -> _ =>
          destruct b eqn:E;
          [ is_equal E; cbn in E; exact E
          | exfalso; cbn in H; specialize (H eq_refl); congruence ]
      end
  end.

Lemma players_write_covering (fields : Realm.players.column -> bool)
  (new old : Realm.players.t) :
  Realm.players.id old = Realm.players.id new ->
  (forall key, Realm.players.differs key old new = true ->
               fields key = true) ->
  Realm.players.write fields new old = new.
Proof.
  intros Hid H. destruct new, old. cbn in Hid. subst.
  unfold Realm.players.write.
  cbn [Realm.players.id Realm.players.country_id
       Realm.players.current_position Realm.players.last_movement
       Realm.players.resources Realm.players.countries_owned
       Realm.players.is_online Realm.players.last_active
       Realm.players.is_banned Realm.players.ban_reason
       Realm.players.ban_expires].
  f_equal.
  - column_written H Realm.players.country_id_col.
  - column_written H Realm.players.current_position_col.
  - column_written H Realm.players.last_movement_col.
  - column_written H Realm.players.resources_col.
  - column_written H Realm.players.countries_owned_col.
  - column_written H Realm.players.is_online_col.
  - column_written H Realm.players.last_active_col.
  - column_written H Realm.players.is_banned_col.
  - column_written H Realm.players.ban_reason_col.
  - column_written H Realm.players.ban_expires_col.
Qed.

Lemma countries_write_covering (fields : Realm.countries.column -> bool)
  (new old : Realm.countries.t) :
  Realm.countries.id old = Realm.countries.id new ->
  (forall key, Realm.countries.differs key old new = true ->
               fields key = true) ->
  Realm.countries.write fields new old = new.
Proof.
  intros Hid H. destruct new, old. cbn in Hid. subst.
  unfold Realm.countries.write.
  cbn [Realm.countries.id Realm.countries.is_claimed
       Realm.countries.owner_id Realm.countries.claimed_at
       Realm.countries.soldier_count Realm.countries.max_soldiers
       Realm.countries.defense_strength Realm.countries.resources
       Realm.countries.resource_generation_rate
       Realm.countries.last_activity].
  f_equal.
  - column_written H Realm.countries.is_claimed_col.
  - column_written H Realm.countries.owner_id_col.
  - column_written H Realm.countries.claimed_at_col.
  - column_written H Realm.countries.soldier_count_col.
  - column_written H Realm.countries.max_soldiers_col.
  - column_written H Realm.countries.defense_strength_col.
  - column_written H Realm.countries.resources_col.
  - column_written H Realm.countries.resource_generation_rate_col.
  - column_written H Realm.countries.last_activity_col.
Qed.

Lemma players_columns_complete (key : Realm.players.column) :
  In key Realm.players.columns.
Proof. destruct key; cbn; tauto. Qed.

Lemma countries_columns_complete (key : Realm.countries.column) :
  In key Realm.countries.columns.
Proof. destruct key; cbn; tauto. Qed.

Lemma players_write_none (new old : Realm.players.t) :
  Realm.players.write (fun _ => false) new old = old.
Proof. destruct old. reflexivity. Qed.

Lemma countries_write_none (new old : Realm.countries.t) :
  Realm.countries.write (fun _ => false) new old = old.
Proof. destruct old. reflexivity. Qed.

Lemma players_write_id fields (new old : Realm.players.t) :
  Realm.players.id (Realm.players.write fields new old)
  = Realm.players.id old.
Proof. reflexivity. Qed.

Lemma countries_write_id fields (new old : Realm.countries.t) :
  Realm.countries.id (Realm.countries.write fields new old)
  = Realm.countries.id old.
Proof. reflexivity. Qed.

Lemma existsb_false_all {A : Type} (p : A -> bool) (l : list A) :
  existsb p l = false -> forall x, In x l -> p x = false.
Proof.
  intros H x Hx. destruct (p x) eqn:E; [| reflexivity].
  assert (existsb p l = true) by (apply existsb_exists; eauto). congruence.
Qed.

(** An instance without a changed column holds the values it was loaded
    with. *)
Lemma player_unchanged (this : Instance Realm.players.t) :
  Realm.players.id (dataValues this)
  = Realm.players.id (_previousDataValues this) ->
  existsb (fun key => Realm.Player.changed key this) Realm.players.columns
  = false ->
  dataValues this = _previousDataValues this.
Proof.
  intros Hid H.
  rewrite <- (players_write_none (dataValues this)
                (_previousDataValues this)).
  symmetry. apply players_write_covering; [auto |].
  intros key Hk.
  pose proof (existsb_false_all _ _ H key (players_columns_complete key)).
  unfold Realm.Player.changed in *. congruence.
Qed.

Lemma country_unchanged (this : Instance Realm.countries.t) :
  Realm.countries.id (dataValues this)
  = Realm.countries.id (_previousDataValues this) ->
  existsb (fun key => Realm.Country.changed key this)
    Realm.countries.columns = false ->
  dataValues this = _previousDataValues this.
Proof.
  intros Hid H.
  rewrite <- (countries_write_none (dataValues this)
                (_previousDataValues this)).
  symmetry. apply countries_write_covering; [auto |].
  intros key Hk.
  pose proof (existsb_false_all _ _ H key (countries_columns_complete key)).
  unfold Realm.Country.changed in *. congruence.
Qed.

Lemma with_players_same (s : Realm.Store) :
  Realm.with_players (Realm.tbl_players s) s = s.
Proof. destruct s. reflexivity. Qed.

Lemma with_countries_same (s : Realm.Store) :
  Realm.with_countries (Realm.tbl_countries s) s = s.
Proof. destruct s. reflexivity. Qed.

Lemma put_player_written (fields : Realm.players.column -> bool)
  (v prev : Realm.players.t) (s : Realm.Store) :
  NoDup (map Realm.players.id (Realm.tbl_players s)) ->
  In prev (Realm.tbl_players s) ->
  Realm.players.id v = Realm.players.id prev ->
  Realm.players.write fields v prev = v ->
  update_where (fun r => same_id (Realm.players.id r) (Realm.players.id v))
    (Realm.players.write fields v) (Realm.tbl_players s)
  = update_where
      (fun r => same_id (Realm.players.id r) (Realm.players.id v))
      (fun _ => v) (Realm.tbl_players s).
Proof.
  intros Hnd Hin Hid Hw. apply update_where_ext. intros r Hr.
  destruct (same_id (Realm.players.id r) (Realm.players.id v)) eqn:E;
    [| reflexivity].
  apply same_id_eq in E.
  assert (r = prev) as ->; [| exact Hw].
  apply (NoDup_key_eq Realm.players.id (Realm.tbl_players s)); auto.
  congruence.
Qed.

Lemma put_country_written (fields : Realm.countries.column -> bool)
  (v prev : Realm.countries.t) (s : Realm.Store) :
  NoDup (map Realm.countries.id (Realm.tbl_countries s)) ->
  In prev (Realm.tbl_countries s) ->
  Realm.countries.id v = Realm.countries.id prev ->
  Realm.countries.write fields v prev = v ->
  update_where
    (fun r => same_id (Realm.countries.id r) (Realm.countries.id v))
    (Realm.countries.write fields v) (Realm.tbl_countries s)
  = update_where
      (fun r => same_id (Realm.countries.id r) (Realm.countries.id v))
      (fun _ => v) (Realm.tbl_countries s).
Proof.
  intros Hnd Hin Hid Hw. apply update_where_ext. intros r Hr.
  destruct (same_id (Realm.countries.id r) (Realm.countries.id v)) eqn:E;
    [| reflexivity].
  apply same_id_eq in E.
  assert (r = prev) as ->; [| exact Hw].
  apply (NoDup_key_eq Realm.countries.id (Realm.tbl_countries s)); auto.
  congruence.
Qed.

Lemma put_player_same (v : Realm.players.t) (s : Realm.Store) :
  NoDup (map Realm.players.id (Realm.tbl_players s)) ->
  In v (Realm.tbl_players s) ->
  Realm.put_player v s = s.
Proof.
  intros Hnd Hin. unfold Realm.put_player.
  rewrite update_where_none; [apply with_players_same |].
  intros r Hr E. apply same_id_eq in E. symmetry.
  apply (NoDup_key_eq Realm.players.id (Realm.tbl_players s)); auto.
Qed.

Lemma put_country_same (v : Realm.countries.t) (s : Realm.Store) :
  NoDup (map Realm.countries.id (Realm.tbl_countries s)) ->
  In v (Realm.tbl_countries s) ->
  Realm.put_country v s = s.
Proof.
  intros Hnd Hin. unfold Realm.put_country.
  rewrite update_where_none; [apply with_countries_same |].
  intros r Hr E. apply same_id_eq in E. symmetry.
  apply (NoDup_key_eq Realm.countries.id (Realm.tbl_countries s)); auto.
Qed.

(** ** Saving an instance that is in step with its row

    When the values an instance was loaded with are the stored ones, a
    save leaves the instance's values in the row, whatever the columns
    named beyond the changed ones. *)
Lemma Player_save_fields_in_step (fields : Realm.players.column -> bool)
  (this : Instance Realm.players.t) (s : Realm.Store) :
  NoDup (map Realm.players.id (Realm.tbl_players s)) ->
  In (_previousDataValues this) (Realm.tbl_players s) ->
  Realm.players.id (dataValues this)
  = Realm.players.id (_previousDataValues this) ->
  (forall key, Realm.Player.changed key this = true -> fields key = true) ->
  Realm.Player.save_fields fields this s
  = (Returned (build (Realm.player_hooked this s)),
     Realm.put_player (Realm.player_hooked this s)
       (Realm.player_hook_read this s)).
Proof.
  intros Hnd Hin Hid Hcov.
  unfold Realm.Player.save_fields, Realm.Player.beforeUpdate,
    Realm.player_hooked, Realm.player_hook_read.
  destruct (Realm.Player.changed Realm.players.is_online_col this
            && Realm.players.is_online (dataValues this)) eqn:Hfire.
  - apply andb_true_iff in Hfire as [Hch Hon].
    unfold Realm.bind, Realm.new_Date, Realm.ret.
    set (now := Realm.wall_clock s (Realm.clock_reads s)).
    set (after := assign (Realm.players.set_last_active now) this).
    set (s1 := Realm.with_clock_reads (S (Realm.clock_reads s)) s).
    assert (Realm.Player.changed Realm.players.is_online_col after = true)
      as Hch' by exact Hch.
    set (fields' := fun key =>
           fields key
           || (Realm.Player.changed key after
               && negb (Realm.Player.changed key this))).
    assert (existsb fields' Realm.players.columns = true) as E1.
    { apply existsb_exists. exists Realm.players.is_online_col.
      split; [apply players_columns_complete |].
      unfold fields'. rewrite (Hcov _ Hch). reflexivity. }
    assert (existsb (fun key => Realm.Player.changed key after)
              Realm.players.columns = true) as E2.
    { apply existsb_exists. exists Realm.players.is_online_col.
      split; [apply players_columns_complete | exact Hch']. }
    rewrite E1, E2. cbn [negb orb].
    assert (Realm.players.write fields' (dataValues after)
              (_previousDataValues after) = dataValues after) as Hw.
    { apply players_write_covering; [symmetry; exact Hid |].
      intros key Hk. unfold fields'.
      change (Realm.Player.changed key after = true) in Hk. rewrite Hk.
      destruct (Realm.Player.changed key this) eqn:E;
        [rewrite (Hcov _ E); reflexivity | apply orb_true_r]. }
    unfold Realm.modify. rewrite Hw. f_equal.
    unfold Realm.put_player. f_equal.
    apply (put_player_written fields' (dataValues after)
             (_previousDataValues this) s1); auto.
  - unfold Realm.bind, Realm.ret.
    set (fields' := fun key =>
           fields key
           || (Realm.Player.changed key this
               && negb (Realm.Player.changed key this))).
    destruct (negb (existsb fields' Realm.players.columns)
              || negb (existsb (fun key => Realm.Player.changed key this)
                         Realm.players.columns)) eqn:Hnone.
    + assert (existsb (fun key => Realm.Player.changed key this)
                Realm.players.columns = false) as Hun.
      { destruct (existsb (fun key => Realm.Player.changed key this) _)
          eqn:E; [| reflexivity].
        rewrite orb_false_r in Hnone. apply negb_true_iff in Hnone.
        apply existsb_exists in E as (key & Hkey & Hk).
        pose proof (existsb_false_all _ _ Hnone key Hkey) as Hf.
        unfold fields' in Hf. rewrite (Hcov _ Hk) in Hf. discriminate. }
      pose proof (player_unchanged this Hid Hun) as Heq.
      f_equal.
      * destruct this as [cur prev]. cbn in *. subst. reflexivity.
      * rewrite Heq. symmetry. apply put_player_same; auto.
    + assert (Realm.players.write fields' (dataValues this)
                (_previousDataValues this) = dataValues this) as Hw.
      { apply players_write_covering; [symmetry; exact Hid |].
        intros key Hk. unfold fields'.
        change (Realm.Player.changed key this = true) in Hk.
        rewrite (Hcov _ Hk). reflexivity. }
      unfold Realm.modify. rewrite Hw. f_equal.
      unfold Realm.put_player. f_equal.
      apply (put_player_written fields' (dataValues this)
               (_previousDataValues this) s); auto.
Qed.

Lemma Country_save_fields_in_step (fields : Realm.countries.column -> bool)
  (this : Instance Realm.countries.t) (s : Realm.Store) :
  NoDup (map Realm.countries.id (Realm.tbl_countries s)) ->
  In (_previousDataValues this) (Realm.tbl_countries s) ->
  Realm.countries.id (dataValues this)
  = Realm.countries.id (_previousDataValues this) ->
  (forall key, Realm.Country.changed key this = true -> fields key = true) ->
  Realm.Country.save_fields fields this s
  = (Returned (build (Realm.country_hooked this s)),
     Realm.put_country (Realm.country_hooked this s)
       (Realm.country_hook_read this s)).
Proof.
  intros Hnd Hin Hid Hcov.
  unfold Realm.Country.save_fields, Realm.Country.beforeUpdate,
    Realm.country_hooked, Realm.country_hook_read.
  destruct (Realm.Country.changed Realm.countries.is_claimed_col this
            || Realm.Country.changed Realm.countries.soldier_count_col this)
    eqn:Hfire.
  - unfold Realm.bind, Realm.new_Date, Realm.ret.
    set (now := Realm.wall_clock s (Realm.clock_reads s)).
    set (after := assign (Realm.countries.set_last_activity now) this).
    set (s1 := Realm.with_clock_reads (S (Realm.clock_reads s)) s).
    assert (exists key, Realm.Country.changed key this = true
                        /\ Realm.Country.changed key after = true)
      as (key0 & Hk0 & Hk0').
    { apply orb_true_iff in Hfire as [H | H].
      - exists Realm.countries.is_claimed_col. split; exact H.
      - exists Realm.countries.soldier_count_col. split; exact H. }
    set (fields' := fun key =>
           fields key
           || (Realm.Country.changed key after
               && negb (Realm.Country.changed key this))).
    assert (existsb fields' Realm.countries.columns = true) as E1.
    { apply existsb_exists. exists key0.
      split; [apply countries_columns_complete |].
      unfold fields'. rewrite (Hcov _ Hk0). reflexivity. }
    assert (existsb (fun key => Realm.Country.changed key after)
              Realm.countries.columns = true) as E2.
    { apply existsb_exists. exists key0.
      split; [apply countries_columns_complete | exact Hk0']. }
    rewrite E1, E2. cbn [negb orb].
    assert (Realm.countries.write fields' (dataValues after)
              (_previousDataValues after) = dataValues after) as Hw.
    { apply countries_write_covering; [symmetry; exact Hid |].
      intros key Hk. unfold fields'.
      change (Realm.Country.changed key after = true) in Hk. rewrite Hk.
      destruct (Realm.Country.changed key this) eqn:E;
        [rewrite (Hcov _ E); reflexivity | apply orb_true_r]. }
    unfold Realm.modify. rewrite Hw. f_equal.
    unfold Realm.put_country. f_equal.
    apply (put_country_written fields' (dataValues after)
             (_previousDataValues this) s1); auto.
  - unfold Realm.bind, Realm.ret.
    set (fields' := fun key =>
           fields key
           || (Realm.Country.changed key this
               && negb (Realm.Country.changed key this))).
    destruct (negb (existsb fields' Realm.countries.columns)
              || negb (existsb (fun key => Realm.Country.changed key this)
                         Realm.countries.columns)) eqn:Hnone.
    + assert (existsb (fun key => Realm.Country.changed key this)
                Realm.countries.columns = false) as Hun.
      { destruct (existsb (fun key => Realm.Country.changed key this) _)
          eqn:E; [| reflexivity].
        rewrite orb_false_r in Hnone. apply negb_true_iff in Hnone.
        apply existsb_exists in E as (key & Hkey & Hk).
        pose proof (existsb_false_all _ _ Hnone key Hkey) as Hf.
        unfold fields' in Hf. rewrite (Hcov _ Hk) in Hf. discriminate. }
      pose proof (country_unchanged this Hid Hun) as Heq.
      f_equal.
      * destruct this as [cur prev]. cbn in *. subst. reflexivity.
      * rewrite Heq. symmetry. apply put_country_same; auto.
    + assert (Realm.countries.write fields' (dataValues this)
                (_previousDataValues this) = dataValues this) as Hw.
      { apply countries_write_covering; [symmetry; exact Hid |].
        intros key Hk. unfold fields'.
        change (Realm.Country.changed key this = true) in Hk.
        rewrite (Hcov _ Hk). reflexivity. }
      unfold Realm.modify. rewrite Hw. f_equal.
      unfold Realm.put_country. f_equal.
      apply (put_country_written fields' (dataValues this)
               (_previousDataValues this) s); auto.
Qed.

Lemma isEqual_Z_refl (a : Z) : Realm.isEqual a a = true.
Proof. apply isEqual_Z_true. reflexivity. Qed.

Lemma isEqual_bool_refl (a : bool) : Realm.isEqual a a = true.
Proof. apply isEqual_bool_true. reflexivity. Qed.

Lemma isEqual_R_refl (a : R) : Realm.isEqual a a = true.
Proof. apply isEqual_R_true. reflexivity. Qed.

Lemma isEqual_option_Id_refl (a : option Id) : Realm.isEqual a a = true.
Proof. apply isEqual_option_Id_true. reflexivity. Qed.

Lemma isEqual_option_Z_refl (a : option Z) : Realm.isEqual a a = true.
Proof. apply isEqual_option_Z_true. reflexivity. Qed.

Lemma isEqual_option_string_refl (a : option string) :
  Realm.isEqual a a = true.
Proof. apply isEqual_option_string_true. reflexivity. Qed.

Lemma isEqual_option_Point_refl (a : option Realm.Point) :
  Realm.isEqual a a = true.
Proof. apply isEqual_option_Point_true. reflexivity. Qed.

Ltac is_equal_refl :=
  rewrite ?isEqual_Z_refl, ?isEqual_bool_refl, ?isEqual_R_refl,
    ?isEqual_option_Id_refl, ?isEqual_option_Z_refl,
    ?isEqual_option_string_refl, ?isEqual_option_Point_refl.

Lemma players_differs_refl (key : Realm.players.column)
  (p : Realm.players.t) :
  Realm.players.differs key p p = false.
Proof.
  destruct key; unfold Realm.players.differs; is_equal_refl; reflexivity.
Qed.

Lemma countries_differs_refl (key : Realm.countries.column)
  (c : Realm.countries.t) :
  Realm.countries.differs key c c = false.
Proof.
  destruct key; unfold Realm.countries.differs; is_equal_refl;
    reflexivity.
Qed.

Lemma players_set_other (e : Realm.players.entry)
  (key : Realm.players.column) (prev cur : Realm.players.t) :
  Realm.players.column_eqb (Realm.players.key e) key = false ->
  Realm.players.differs key prev (Realm.players.set e cur)
  = Realm.players.differs key prev cur.
Proof. destruct e, key; cbn; intros H; try discriminate; reflexivity. Qed.

Lemma countries_set_other (e : Realm.countries.entry)
  (key : Realm.countries.column) (prev cur : Realm.countries.t) :
  Realm.countries.column_eqb (Realm.countries.key e) key = false ->
  Realm.countries.differs key prev (Realm.countries.set e cur)
  = Realm.countries.differs key prev cur.
Proof. destruct e, key; cbn; intros H; try discriminate; reflexivity. Qed.

Lemma Player_set_id (values : list Realm.players.entry)
  (this : Instance Realm.players.t) :
  Realm.players.id (dataValues (Realm.Player.set values this))
  = Realm.players.id (dataValues this)
  /\ _previousDataValues (Realm.Player.set values this)
     = _previousDataValues this.
Proof.
  revert this. induction values as [| e values IH]; intros this;
    [split; reflexivity |].
  cbn [Realm.Player.set fold_left].
  destruct (IH (assign (Realm.players.set e) this)) as [H1 H2].
  unfold Realm.Player.set in H1, H2. rewrite H1, H2.
  split; [destruct e; reflexivity | reflexivity].
Qed.

Lemma Country_set_id (values : list Realm.countries.entry)
  (this : Instance Realm.countries.t) :
  Realm.countries.id (dataValues (Realm.Country.set values this))
  = Realm.countries.id (dataValues this)
  /\ _previousDataValues (Realm.Country.set values this)
     = _previousDataValues this.
Proof.
  revert this. induction values as [| e values IH]; intros this;
    [split; reflexivity |].
  cbn [Realm.Country.set fold_left].
  destruct (IH (assign (Realm.countries.set e) this)) as [H1 H2].
  unfold Realm.Country.set in H1, H2. rewrite H1, H2.
  split; [destruct e; reflexivity | reflexivity].
Qed.

(** [set] changes no column but those of its keys. *)
Lemma Player_set_changed (values : list Realm.players.entry)
  (this : Instance Realm.players.t) (key : Realm.players.column) :
  Realm.Player.changed key (Realm.Player.set values this) = true ->
  Realm.Player.keys values key = true
  \/ Realm.Player.changed key this = true.
Proof.
  revert this. induction values as [| e values IH]; intros this H;
    [right; exact H |].
  cbn [Realm.Player.set fold_left] in H.
  apply IH in H. unfold Realm.Player.keys. cbn [existsb].
  destruct (Realm.players.column_eqb (Realm.players.key e) key) eqn:E;
    [left; reflexivity |].
  destruct H as [H | H]; [left; exact H | right].
  unfold Realm.Player.changed in *. cbn [assign dataValues
    _previousDataValues] in H.
  rewrite players_set_other in H; auto.
Qed.

Lemma Country_set_changed (values : list Realm.countries.entry)
  (this : Instance Realm.countries.t) (key : Realm.countries.column) :
  Realm.Country.changed key (Realm.Country.set values this) = true ->
  Realm.Country.keys values key = true
  \/ Realm.Country.changed key this = true.
Proof.
  revert this. induction values as [| e values IH]; intros this H;
    [right; exact H |].
  cbn [Realm.Country.set fold_left] in H.
  apply IH in H. unfold Realm.Country.keys. cbn [existsb].
  destruct (Realm.countries.column_eqb (Realm.countries.key e) key) eqn:E;
    [left; reflexivity |].
  destruct H as [H | H]; [left; exact H | right].
  unfold Realm.Country.changed in *. cbn [assign dataValues
    _previousDataValues] in H.
  rewrite countries_set_other in H; auto.
Qed.

Lemma Player_changed_build (key : Realm.players.column)
  (p : Realm.players.t) :
  Realm.Player.changed key (build p) = false.
Proof. apply players_differs_refl. Qed.

Lemma Country_changed_build (key : Realm.countries.column)
  (c : Realm.countries.t) :
  Realm.Country.changed key (build c) = false.
Proof. apply countries_differs_refl. Qed.

(** [update] and [save] on an instance as a finder returned it. *)
Lemma Player_update_in_step (values : list Realm.players.entry)
  (p : Realm.players.t) (s : Realm.Store) :
  NoDup (map Realm.players.id (Realm.tbl_players s)) ->
  In p (Realm.tbl_players s) ->
  let this := Realm.Player.set values (build p) in
  Realm.Player.update values (build p) s
  = (Returned (build (Realm.player_hooked this s)),
     Realm.put_player (Realm.player_hooked this s)
       (Realm.player_hook_read this s)).
Proof.
  intros Hnd Hin this. unfold Realm.Player.update. fold this.
  destruct (Player_set_id values (build p)) as [H1 H2]. fold this in H1, H2.
  apply Player_save_fields_in_step; auto.
  - rewrite H2. exact Hin.
  - rewrite H1, H2. reflexivity.
  - intros key Hk. apply Player_set_changed in Hk as [Hk | Hk]; [exact Hk |].
    rewrite Player_changed_build in Hk. discriminate.
Qed.

Lemma Country_update_in_step (values : list Realm.countries.entry)
  (c : Realm.countries.t) (s : Realm.Store) :
  NoDup (map Realm.countries.id (Realm.tbl_countries s)) ->
  In c (Realm.tbl_countries s) ->
  let this := Realm.Country.set values (build c) in
  Realm.Country.update values (build c) s
  = (Returned (build (Realm.country_hooked this s)),
     Realm.put_country (Realm.country_hooked this s)
       (Realm.country_hook_read this s)).
Proof.
  intros Hnd Hin this. unfold Realm.Country.update. fold this.
  destruct (Country_set_id values (build c)) as [H1 H2].
  fold this in H1, H2.
  apply Country_save_fields_in_step; auto.
  - rewrite H2. exact Hin.
  - rewrite H1, H2. reflexivity.
  - intros key Hk.
    apply Country_set_changed in Hk as [Hk | Hk]; [exact Hk |].
    rewrite Country_changed_build in Hk. discriminate.
Qed.

Lemma Player_save_in_step (this : Instance Realm.players.t)
  (s : Realm.Store) :
  NoDup (map Realm.players.id (Realm.tbl_players s)) ->
  In (_previousDataValues this) (Realm.tbl_players s) ->
  Realm.players.id (dataValues this)
  = Realm.players.id (_previousDataValues this) ->
  Realm.Player.save this s
  = (Returned (build (Realm.player_hooked this s)),
     Realm.put_player (Realm.player_hooked this s)
       (Realm.player_hook_read this s)).
Proof.
  intros. apply Player_save_fields_in_step; auto.
Qed.

Lemma Country_save_in_step (this : Instance Realm.countries.t)
  (s : Realm.Store) :
  NoDup (map Realm.countries.id (Realm.tbl_countries s)) ->
  In (_previousDataValues this) (Realm.tbl_countries s) ->
  Realm.countries.id (dataValues this)
  = Realm.countries.id (_previousDataValues this) ->
  Realm.Country.save this s
  = (Returned (build (Realm.country_hooked this s)),
     Realm.put_country (Realm.country_hooked this s)
       (Realm.country_hook_read this s)).
Proof.
  intros. apply Country_save_fields_in_step; auto.
Qed.

(** ** Rows after a write *)

Lemma put_player_rows (v : Realm.players.t) (s : Realm.Store) :
  map Realm.players.id (Realm.tbl_players (Realm.put_player v s))
  = map Realm.players.id (Realm.tbl_players s).
Proof.
  unfold Realm.put_player. destruct s. cbn. unfold update_where.
  rewrite map_map. apply map_ext_in. intros r _.
  destruct (same_id _ _) eqn:E; [| reflexivity].
  apply same_id_eq in E. auto.
Qed.

Lemma put_country_rows (v : Realm.countries.t) (s : Realm.Store) :
  map Realm.countries.id (Realm.tbl_countries (Realm.put_country v s))
  = map Realm.countries.id (Realm.tbl_countries s).
Proof.
  unfold Realm.put_country. destruct s. cbn. unfold update_where.
  rewrite map_map. apply map_ext_in. intros r _.
  destruct (same_id _ _) eqn:E; [| reflexivity].
  apply same_id_eq in E. auto.
Qed.

Lemma put_player_In (v p : Realm.players.t) (s : Realm.Store) :
  In p (Realm.tbl_players s) ->
  Realm.players.id v = Realm.players.id p ->
  In v (Realm.tbl_players (Realm.put_player v s)).
Proof.
  intros Hin Hid. unfold Realm.put_player. destruct s. cbn in *.
  unfold update_where. apply in_map_iff. exists p. split; [| exact Hin].
  rewrite Hid. unfold same_id. rewrite Nat.eqb_refl. reflexivity.
Qed.

Lemma put_country_In (v c : Realm.countries.t) (s : Realm.Store) :
  In c (Realm.tbl_countries s) ->
  Realm.countries.id v = Realm.countries.id c ->
  In v (Realm.tbl_countries (Realm.put_country v s)).
Proof.
  intros Hin Hid. unfold Realm.put_country. destruct s. cbn in *.
  unfold update_where. apply in_map_iff. exists c. split; [| exact Hin].
  rewrite Hid. unfold same_id. rewrite Nat.eqb_refl. reflexivity.
Qed.

Lemma player_row_In (id : Id) (p : Realm.players.t) (s : Realm.Store) :
  Realm.player_row id s = Some p ->
  In p (Realm.tbl_players s) /\ Realm.players.id p = id.
Proof.
  unfold Realm.player_row. intros H.
  apply find_some in H as [Hin E]. apply same_id_eq in E. auto.
Qed.

Lemma country_row_In (id : Id) (c : Realm.countries.t) (s : Realm.Store) :
  Realm.country_row id s = Some c ->
  In c (Realm.tbl_countries s) /\ Realm.countries.id c = id.
Proof.
  unfold Realm.country_row. intros H.
  apply find_some in H as [Hin E]. apply same_id_eq in E. auto.
Qed.

Lemma Player_findByPk_row (id : Id) (s : Realm.Store) :
  Realm.Player.findByPk id s
  = (Returned (option_map build (Realm.player_row id s)), s).
Proof. reflexivity. Qed.

Lemma Country_findByPk_row (id : Id) (s : Realm.Store) :
  Realm.Country.findByPk id s
  = (Returned (option_map build (Realm.country_row id s)), s).
Proof. reflexivity. Qed.

(** ** [authenticateToken] *)

Lemma seen_hooked (p : Realm.players.t) (s : Realm.Store) :
  let s1 := Realm.with_clock_reads (S (Realm.clock_reads s)) s in
  let this :=
    Realm.Player.set
      [Realm.players.last_active_is
         (Realm.wall_clock s (Realm.clock_reads s));
       Realm.players.is_online_is true] (build p) in
  Realm.player_hooked this s1 = Realm.seen p s
  /\ Realm.player_hook_read this s1
     = Realm.with_clock_reads (S (Realm.seen_at p s)) s.
Proof.
  cbv zeta. unfold Realm.player_hooked, Realm.player_hook_read,
    Realm.seen, Realm.seen_at, Realm.Player.changed.
  cbn [Realm.Player.set fold_left assign build dataValues
       _previousDataValues Realm.players.set Realm.players.differs].
  destruct p as [id c pos lm res own online la b br be].
  destruct online; cbn; split; reflexivity.
Qed.

Lemma authenticateToken_lets_through (playerId : Id)
  (p : Realm.players.t) (s : Realm.Store) :
  NoDup (map Realm.players.id (Realm.tbl_players s)) ->
  Realm.player_row playerId s = Some p ->
  Realm.players.is_banned p = false ->
  Realm.auth.authenticateToken playerId s
  = (Returned (inr (build (Realm.seen p s))), Realm.after_seen p s).
Proof.
  intros Hnd Hrow Hban.
  destruct (player_row_In _ _ _ Hrow) as [Hin Hid].
  unfold Realm.auth.authenticateToken, Realm.try_catch.
  unfold Realm.bind at 1. rewrite Player_findByPk_row, Hrow.
  cbn [option_map]. cbn [build dataValues]. rewrite Hban.
  unfold Realm.bind at 1. unfold Realm.ret at 1.
  unfold Realm.bind at 1. unfold Realm.new_Date at 1.
  unfold Realm.bind at 1.
  rewrite Player_update_in_step; [| exact Hnd | exact Hin].
  destruct (seen_hooked p s) as [H1 H2]. cbv zeta in H1, H2.
  rewrite H1, H2. reflexivity.
Qed.

Lemma bind_run {A B : Type} (c : Realm.Run A) (k : A -> Realm.Run B)
  (s s1 : Realm.Store) (a : A) :
  c s = (Returned a, s1) -> Realm.bind c k s = k a s1.
Proof. intros H. unfold Realm.bind. rewrite H. reflexivity. Qed.

Lemma bind_throws {A B : Type} (c : Realm.Run A) (k : A -> Realm.Run B)
  (s s1 : Realm.Store) (e : string) :
  c s = (Threw e, s1) -> Realm.bind c k s = (Threw e, s1).
Proof. intros H. unfold Realm.bind. rewrite H. reflexivity. Qed.

Lemma try_run {A : Type} (c : Realm.Run A) (h : string -> Realm.Run A)
  (s s1 : Realm.Store) (a : A) :
  c s = (Returned a, s1) -> Realm.try_catch c h s = (Returned a, s1).
Proof. intros H. unfold Realm.try_catch. rewrite H. reflexivity. Qed.

Lemma try_caught {A : Type} (c : Realm.Run A) (h : string -> Realm.Run A)
  (s s1 : Realm.Store) (e : string) :
  c s = (Threw e, s1) -> Realm.try_catch c h s = h e s1.
Proof. intros H. unfold Realm.try_catch. rewrite H. reflexivity. Qed.

Lemma with_clock_reads_same (s : Realm.Store) :
  Realm.with_clock_reads (Realm.clock_reads s) s = s.
Proof. destruct s. reflexivity. Qed.

(** ** The cooldown of a move *)

Lemma checkMovementCooldown_passes (q : Realm.players.t)
  (s : Realm.Store) :
  Realm.rested q s ->
  Realm.auth.checkMovementCooldown (build q) s
  = (Returned None, Realm.with_clock_reads (Realm.cooled_reads q s) s).
Proof.
  unfold Realm.rested, Realm.auth.checkMovementCooldown,
    Realm.Player.canMove, Realm.cooled_reads. cbn [build dataValues].
  destruct (Realm.players.last_movement q) as [t |].
  - intros H. specialize (H (Realm.clock_reads s) (le_n _)).
    unfold Realm.bind, Realm.gets, Realm.new_Date, Realm.ret.
    cbn [Realm.process_env Realm.with_clock_reads Realm.wall_clock
         Realm.clock_reads].
    fold (Realm.cooldown s).
    apply Z.leb_le in H. rewrite H. reflexivity.
  - intros _. unfold Realm.bind, Realm.ret. cbn.
    rewrite with_clock_reads_same. reflexivity.
Qed.

Lemma checkMovementCooldown_limits (q : Realm.players.t)
  (s : Realm.Store) (t : Z) :
  Realm.players.last_movement q = Some t ->
  Realm.wall_clock s (Realm.clock_reads s) - t < Realm.cooldown s ->
  Realm.auth.checkMovementCooldown (build q) s
  = (Returned
       (Some {| Realm.http_status := 429;
                Realm.body :=
                  Realm.rate_limited (Realm.cooldown s)
                    (Z.max 0
                       (Realm.cooldown s
                        - (Realm.wall_clock s (S (Realm.clock_reads s))
                           - t))) |}),
     Realm.with_clock_reads (S (S (Realm.clock_reads s))) s).
Proof.
  intros Hlast Hlt.
  unfold Realm.auth.checkMovementCooldown, Realm.Player.canMove.
  cbn [build dataValues]. rewrite Hlast.
  unfold Realm.bind, Realm.gets, Realm.new_Date, Realm.ret.
  cbn [Realm.process_env Realm.with_clock_reads Realm.wall_clock
       Realm.clock_reads].
  fold (Realm.cooldown s).
  apply Z.leb_gt in Hlt. rewrite Hlt. cbn [negb].
  destruct s; reflexivity.
Qed.

(** ** The move route *)

Lemma beforeCreate_recorded (id : Id) (p : Realm.players.t) (lat lng : R)
  (movement_type : string) (cost t : Z) :
  Realm.PlayerMovement.beforeCreate
    {| Realm.player_movements.id := id;
       Realm.player_movements.player_id := Realm.players.id p;
       Realm.player_movements.from_position :=
         Realm.players.current_position p;
       Realm.player_movements.to_position := (lng, lat);
       Realm.player_movements.country_id := Realm.players.country_id p;
       Realm.player_movements.movement_type := movement_type;
       Realm.player_movements.distance_meters := 0;
       Realm.player_movements.duration_seconds := 0;
       Realm.player_movements.speed_mps := 1;
       Realm.player_movements.resources_consumed := cost;
       Realm.player_movements.is_valid := true;
       Realm.player_movements.violation_reason := None;
       Realm.player_movements.timestamp := t |}
  = Realm.recorded id p lat lng movement_type cost t.
Proof.
  unfold Realm.PlayerMovement.beforeCreate, Realm.recorded.
  cbn [Realm.player_movements.from_position
       Realm.player_movements.distance_meters].
  destruct (Realm.players.current_position p).
  - rewrite isEqual_R_refl. reflexivity.
  - reflexivity.
Qed.

Lemma player_hooked_offline_same (this : Instance Realm.players.t)
  (s : Realm.Store) :
  Realm.players.is_online (dataValues this)
  = Realm.players.is_online (_previousDataValues this) ->
  Realm.player_hooked this s = dataValues this
  /\ Realm.player_hook_read this s = s.
Proof.
  intros H. unfold Realm.player_hooked, Realm.player_hook_read,
    Realm.Player.changed, Realm.players.differs.
  rewrite H, isEqual_bool_refl. split; reflexivity.
Qed.

Lemma updatePosition_in_step (q : Realm.players.t) (lat lng : R)
  (s : Realm.Store) :
  NoDup (map Realm.players.id (Realm.tbl_players s)) ->
  In q (Realm.tbl_players s) ->
  let now := Realm.wall_clock s (Realm.clock_reads s) in
  let q' := Realm.players.set_last_movement (Some now)
              (Realm.players.set_current_position (Some (lng, lat)) q) in
  Realm.Player.updatePosition lat lng (build q) s
  = (Returned (build q'),
     Realm.put_player q'
       (Realm.with_clock_reads (S (Realm.clock_reads s)) s)).
Proof.
  intros Hnd Hin now q'. unfold Realm.Player.updatePosition.
  erewrite bind_run; [| reflexivity].
  rewrite Player_save_in_step; [| exact Hnd | exact Hin | reflexivity].
  match goal with
  | |- context [Realm.player_hooked ?t ?w] =>
      destruct (player_hooked_offline_same t w eq_refl) as [H1 H2]
  end.
  rewrite H1, H2. reflexivity.
Qed.

Lemma consumeResources_in_step (q : Realm.players.t) (amount : Z)
  (s : Realm.Store) :
  NoDup (map Realm.players.id (Realm.tbl_players s)) ->
  In q (Realm.tbl_players s) ->
  amount <= Realm.players.resources q ->
  let q' := Realm.players.set_resources
              (Realm.players.resources q - amount) q in
  Realm.Player.consumeResources amount (build q) s
  = (Returned (true, build q'), Realm.put_player q' s).
Proof.
  intros Hnd Hin Hle q'. unfold Realm.Player.consumeResources.
  cbn [build dataValues].
  assert ((Realm.players.resources q <? amount) = false) as ->
    by (apply Z.ltb_ge; exact Hle).
  erewrite bind_run;
    [| apply Player_save_in_step; [exact Hnd | exact Hin | reflexivity]].
  match goal with
  | |- context [Realm.player_hooked ?t ?w] =>
      destruct (player_hooked_offline_same t w eq_refl) as [H1 H2]
  end.
  rewrite H1, H2. reflexivity.
Qed.

Lemma PlayerMovement_create_recorded (p : Realm.players.t) (lat lng : R)
  (movement_type : string) (cost t : Z) (s : Realm.Store) :
  In movement_type Realm.player_movements.movement_type_values ->
  Realm.PlayerMovement.create (Realm.players.id p)
    (Realm.players.current_position p) (lng, lat)
    (Realm.players.country_id p) movement_type cost t s
  = (Returned
       (Realm.recorded (Realm.uuid_counter s) p lat lng movement_type
          cost t),
     Realm.with_player_movements
       (Realm.tbl_player_movements s
        ++ [Realm.recorded (Realm.uuid_counter s) p lat lng movement_type
              cost t])
       (Realm.with_uuid_counter (S (Realm.uuid_counter s)) s)).
Proof.
  intros Hin. unfold Realm.PlayerMovement.create.
  erewrite bind_run; [| reflexivity].
  rewrite beforeCreate_recorded.
  assert (existsb (String.eqb movement_type)
            Realm.player_movements.movement_type_values = true) as ->.
  { apply existsb_exists. exists movement_type.
    split; [exact Hin | apply String.eqb_refl]. }
  reflexivity.
Qed.

Lemma move_handler_moves (q : Realm.players.t) (lat lng : R)
  (body_type : option string) (country : Id) (s : Realm.Store) :
  let movement_type := Realm.type_of_move body_type in
  let cost := Realm.players_routes.baseCost movement_type in
  let t := Realm.wall_clock s (Realm.clock_reads s) in
  let t' := Realm.wall_clock s (S (Realm.clock_reads s)) in
  let record :=
    Realm.recorded (Realm.uuid_counter s) q lat lng movement_type cost t' in
  NoDup (map Realm.players.id (Realm.tbl_players s)) ->
  In q (Realm.tbl_players s) ->
  Realm.players.country_id q = Some country ->
  cost <= Realm.players.resources q ->
  In movement_type Realm.player_movements.movement_type_values ->
  Realm.app_io s = false ->
  Realm.players_routes.move_handler (build q) (lat, lng) body_type s
  = (Returned
       {| Realm.http_status := 200;
          Realm.body :=
            Realm.movement_successful lat lng
              (Realm.players.resources q - cost - cost) movement_type
              (Realm.uuid_counter s) |},
     Realm.with_player_movements
       (Realm.tbl_player_movements s ++ [record])
       (Realm.with_uuid_counter (S (Realm.uuid_counter s))
          (Realm.with_clock_reads (S (S (Realm.clock_reads s)))
             (Realm.put_player (Realm.moved q lat lng t cost) s)))).
Proof.
  intros movement_type cost t t' record Hnd Hin Hc Hcost Henum Hio.
  unfold Realm.players_routes.move_handler.
  fold movement_type. fold cost. cbn [build dataValues]. rewrite Hc.
  assert ((Realm.players.resources q <? cost) = false) as ->
    by (apply Z.ltb_ge; exact Hcost).
  apply try_run.
  erewrite bind_run; [| apply updatePosition_in_step; assumption].
  fold t.
  set (q2 := Realm.players.set_last_movement (Some t)
               (Realm.players.set_current_position (Some (lng, lat)) q)).
  set (s2 := Realm.put_player q2
               (Realm.with_clock_reads (S (Realm.clock_reads s)) s)).
  assert (NoDup (map Realm.players.id (Realm.tbl_players s2))) as Hnd2.
  { unfold s2. rewrite put_player_rows. exact Hnd. }
  assert (In q2 (Realm.tbl_players s2)) as Hin2.
  { unfold s2. apply (put_player_In q2 q); [exact Hin | reflexivity]. }
  erewrite bind_run;
    [| apply consumeResources_in_step; [exact Hnd2 | exact Hin2 |
                                        exact Hcost]].
  cbn [snd].
  change (Realm.players.set_resources (Realm.players.resources q2 - cost)
            q2) with (Realm.moved q lat lng t cost).
  set (q3 := Realm.moved q lat lng t cost).
  erewrite bind_run; [| reflexivity].
  cbn [build dataValues].
  change (Realm.players.id q3) with (Realm.players.id q).
  change (Realm.players.country_id q3) with (Realm.players.country_id q).
  erewrite bind_run.
  2: { apply (PlayerMovement_create_recorded q lat lng movement_type cost).
       exact Henum. }
  erewrite bind_run; [| reflexivity].
  cbn [Realm.app_io Realm.with_player_movements Realm.with_uuid_counter
       Realm.with_clock_reads Realm.put_player Realm.with_players s2].
  rewrite Hio.
  erewrite bind_run; [| reflexivity].
  unfold Realm.res_json, Realm.ret.
  f_equal.
  unfold s2, Realm.put_player.
  cbn [Realm.tbl_players Realm.with_players Realm.with_clock_reads
       Realm.tbl_player_movements Realm.uuid_counter Realm.clock_reads
       Realm.wall_clock Realm.with_uuid_counter
       Realm.with_player_movements].
  rewrite update_where_const_twice;
    [| unfold same_id; apply Nat.eqb_refl].
  destruct s. reflexivity.
Qed.

Lemma after_seen_rows (p : Realm.players.t) (playerId : Id)
  (s : Realm.Store) :
  NoDup (map Realm.players.id (Realm.tbl_players s)) ->
  Realm.player_row playerId s = Some p ->
  NoDup (map Realm.players.id (Realm.tbl_players (Realm.after_seen p s)))
  /\ In (Realm.seen p s) (Realm.tbl_players (Realm.after_seen p s)).
Proof.
  intros Hnd Hrow. destruct (player_row_In _ _ _ Hrow) as [Hin _].
  unfold Realm.after_seen. split.
  - rewrite put_player_rows. exact Hnd.
  - apply (put_player_In _ p); [exact Hin | reflexivity].
Qed.

Lemma rested_later (p q : Realm.players.t) (s s' : Realm.Store) :
  Realm.rested p s ->
  Realm.players.last_movement q = Realm.players.last_movement p ->
  Realm.wall_clock s' = Realm.wall_clock s ->
  Realm.process_env s' = Realm.process_env s ->
  (Realm.clock_reads s <= Realm.clock_reads s')%nat ->
  Realm.rested q s'.
Proof.
  unfold Realm.rested, Realm.cooldown. intros H -> -> -> Hle.
  destruct (Realm.players.last_movement p); [| exact I].
  intros n Hn. apply H. lia.
Qed.

Lemma move_outcome (s : Realm.Store) (playerId : Id)
  (coordinates : Realm.auth.Coordinates) (body_type : option string)
  (p : Realm.players.t) (country : Id) (lat lng : R) :
  let movement_type := Realm.type_of_move body_type in
  let cost := Realm.players_routes.baseCost movement_type in
  let q := Realm.seen p s in
  let s1 := Realm.after_seen p s in
  let s2 := Realm.with_clock_reads (Realm.cooled_reads q s1) s1 in
  NoDup (map Realm.players.id (Realm.tbl_players s)) ->
  Realm.player_row playerId s = Some p ->
  Realm.players.is_banned p = false ->
  Realm.players.country_id p = Some country ->
  Realm.rested p s ->
  Realm.auth.validateCoordinates coordinates = inr (lat, lng) ->
  In movement_type Realm.player_movements.movement_type_values ->
  cost <= Realm.players.resources p ->
  Realm.app_io s = false ->
  Realm.players_routes.move playerId coordinates body_type s
  = (Returned
       {| Realm.http_status := 200;
          Realm.body :=
            Realm.movement_successful lat lng
              (Realm.players.resources p - cost - cost) movement_type
              (Realm.uuid_counter s) |},
     Realm.with_player_movements
       (Realm.tbl_player_movements s
        ++ [Realm.recorded (Realm.uuid_counter s) q lat lng movement_type
              cost (Realm.wall_clock s (S (Realm.clock_reads s2)))])
       (Realm.with_uuid_counter (S (Realm.uuid_counter s))
          (Realm.with_clock_reads (S (S (Realm.clock_reads s2)))
             (Realm.put_player
                (Realm.moved q lat lng
                   (Realm.wall_clock s (Realm.clock_reads s2)) cost)
                s2)))).
Proof.
  intros movement_type cost q s1 s2 Hnd Hrow Hban Hc Hrest Hval Henum
    Hcost Hio.
  destruct (after_seen_rows p playerId s Hnd Hrow) as [Hnd1 Hin1].
  fold s1 in Hnd1, Hin1. fold q in Hin1.
  unfold Realm.players_routes.move.
  erewrite bind_run;
    [| apply authenticateToken_lets_through; eassumption].
  cbv beta iota. fold q. fold s1.
  assert (Realm.rested q s1) as Hrest1.
  { apply (rested_later p q s s1 Hrest); try reflexivity.
    unfold s1, Realm.after_seen, Realm.put_player, Realm.seen_at.
    cbn. destruct (Realm.players.is_online p); lia. }
  erewrite bind_run; [| apply checkMovementCooldown_passes; exact Hrest1].
  cbv beta iota. fold s2. rewrite Hval.
  assert (NoDup (map Realm.players.id (Realm.tbl_players s2))) as Hnd2
    by exact Hnd1.
  assert (In q (Realm.tbl_players s2)) as Hin2 by exact Hin1.
  rewrite (move_handler_moves q lat lng body_type country s2 Hnd2 Hin2);
    auto.
Qed.

(** X16.  A move that passes every check of the route is answered with
    200; the row of the player then holds the new position, the time of
    the move and the balance less the cost of the move, charged once, and
    one movement is recorded, with the cost, the position before the move
    and the placeholder distance of the creation hook; nothing is
    broadcast, since the application does not hold the socket server.
    The balance the answer reports is the stored one less the cost once
    more. *)
Theorem move_outcome_on_success (s : Realm.Store) (playerId : Id)
  (coordinates : Realm.auth.Coordinates) (body_type : option string)
  (p : Realm.players.t) (country : Id) (lat lng : R) :
  let movement_type := Realm.type_of_move body_type in
  let cost := Realm.players_routes.baseCost movement_type in
  NoDup (map Realm.players.id (Realm.tbl_players s)) ->
  Realm.player_row playerId s = Some p ->
  Realm.players.is_banned p = false ->
  Realm.players.country_id p = Some country ->
  Realm.rested p s ->
  Realm.auth.validateCoordinates coordinates = inr (lat, lng) ->
  In movement_type Realm.player_movements.movement_type_values ->
  cost <= Realm.players.resources p ->
  Realm.app_io s = false ->
  exists (n : nat) (s' : Realm.Store),
    (Realm.clock_reads s < n)%nat
    /\ Realm.serve (Realm.post_move playerId coordinates body_type) s
       = (Returned
            (Some {| Realm.http_status := 200;
                     Realm.body :=
                       Realm.movement_successful lat lng
                         (Realm.players.resources p - 2 * cost)
                         movement_type (Realm.uuid_counter s) |}), s')
    /\ Realm.tbl_players s'
       = Realm.tbl_players
           (Realm.put_player
              (Realm.moved (Realm.seen p s) lat lng (Realm.wall_clock s n)
                 cost) s)
    /\ Realm.tbl_player_movements s'
       = Realm.tbl_player_movements s
         ++ [Realm.recorded (Realm.uuid_counter s) p lat lng movement_type
               cost (Realm.wall_clock s (S n))]
    /\ Realm.emitted s' = Realm.emitted s
    /\ Realm.tbl_countries s' = Realm.tbl_countries s
    /\ Realm.tbl_country_history s' = Realm.tbl_country_history s.
Proof.
  intros movement_type cost Hnd Hrow Hban Hc Hrest Hval Henum Hcost Hio.
  pose proof (move_outcome s playerId coordinates body_type p country lat
                lng Hnd Hrow Hban Hc Hrest Hval Henum Hcost Hio) as H.
  cbv zeta in H. fold movement_type cost in H.
  set (s2 := Realm.with_clock_reads
               (Realm.cooled_reads (Realm.seen p s) (Realm.after_seen p s))
               (Realm.after_seen p s)) in *.
  exists (Realm.clock_reads s2). eexists. split; [| split].
  - unfold s2, Realm.cooled_reads, Realm.after_seen, Realm.seen_at.
    cbn. destruct (Realm.players.last_movement p),
      (Realm.players.is_online p); cbn; lia.
  - unfold Realm.serve. erewrite bind_run; [| exact H].
    replace (Realm.players.resources p - 2 * cost)
      with (Realm.players.resources p - cost - cost) by lia.
    reflexivity.
  - cbn [Realm.tbl_players Realm.tbl_player_movements Realm.emitted
         Realm.tbl_countries Realm.tbl_country_history
         Realm.with_player_movements Realm.with_uuid_counter
         Realm.with_clock_reads].
    repeat split.
    unfold s2, Realm.after_seen, Realm.put_player.
    cbn [Realm.tbl_players Realm.with_players Realm.with_clock_reads].
    apply update_where_const_twice. unfold same_id. apply Nat.eqb_refl.
Qed.

Lemma scene_players_keyed :
  NoDup (map Realm.players.id (Realm.tbl_players Realm.Scene.start)).
Proof.
  cbn. repeat constructor; cbn; intuition discriminate.
Qed.

Lemma scene_point_valid :
  Realm.auth.validateCoordinates (Realm.Scene.point 48 2) = inr (48%R, 2%R).
Proof.
  apply validateCoordinates_accepts. unfold Realm.Scene.point.
  cbn [Realm.auth.lat Realm.auth.lng Realm.auth.latitude
       Realm.auth.longitude].
  exists (Realm.JNum 48), (Realm.JNum 2). unfold Realm.or_else.
  assert (Realm.truthy (Realm.JNum 48) = true) as ->
    by (apply truthy_number; lra).
  assert (Realm.truthy (Realm.JNum 2) = true) as ->
    by (apply truthy_number; lra).
  repeat split; lra.
Qed.

Lemma move_outcome_on_success_witness :
  exists (n : nat) (s' : Realm.Store),
    (0 < n)%nat
    /\ Realm.serve
         (Realm.post_move 1%nat (Realm.Scene.point 48 2) (Some "run"%string))
         Realm.Scene.start
       = (Returned
            (Some {| Realm.http_status := 200;
                     Realm.body :=
                       Realm.movement_successful 48 2 96 "run" 100%nat |}),
          s')
    /\ Realm.tbl_player_movements s'
       = [Realm.recorded 100%nat Realm.Scene.alice 48 2 "run" 2
            (Realm.Scene.clock (S n))].
Proof.
  destruct (move_outcome_on_success Realm.Scene.start 1%nat
              (Realm.Scene.point 48 2) (Some "run"%string)
              Realm.Scene.alice 10%nat 48 2)
    as (n & s' & Hn & Hrun & _ & Hmov & _).
  - exact scene_players_keyed.
  - reflexivity.
  - reflexivity.
  - reflexivity.
  - exact I.
  - exact scene_point_valid.
  - cbn. tauto.
  - cbn. lia.
  - reflexivity.
  - exists n, s'. split; [exact Hn |]. split; [exact Hrun | exact Hmov].
Defined.

(** ** A move on cooldown *)

Lemma restless_later (p q : Realm.players.t) (s s' : Realm.Store) :
  Realm.restless p s ->
  Realm.players.last_movement q = Realm.players.last_movement p ->
  Realm.wall_clock s' = Realm.wall_clock s ->
  Realm.process_env s' = Realm.process_env s ->
  (Realm.clock_reads s <= Realm.clock_reads s')%nat ->
  Realm.restless q s'.
Proof.
  unfold Realm.restless, Realm.cooldown.
  intros (t & Ht & H) -> -> -> Hle. exists t. split; [exact Ht |].
  intros n Hn. apply H. lia.
Qed.

(** X17.  A player whose last move is less than the cooldown back at
    every reading of the clock is answered with 429 and the time left,
    which is positive; the request stamps the row of the player as seen
    and writes nothing else: no position, no debit, no movement.  The
    cooldown is the one of the environment, or a second when that is
    unset or zero. *)
Theorem move_on_cooldown_is_refused (s : Realm.Store) (playerId : Id)
  (coordinates : Realm.auth.Coordinates) (body_type : option string)
  (p : Realm.players.t) :
  NoDup (map Realm.players.id (Realm.tbl_players s)) ->
  Realm.player_row playerId s = Some p ->
  Realm.players.is_banned p = false ->
  Realm.restless p s ->
  exists (left : Z) (s' : Realm.Store),
    Realm.serve (Realm.post_move playerId coordinates body_type) s
    = (Returned
         (Some {| Realm.http_status := 429;
                  Realm.body :=
                    Realm.rate_limited
                      (parseInt_or
                         (Realm.MOVEMENT_COOLDOWN_MS (Realm.process_env s))
                         1000) left |}), s')
    /\ 0 < left
    /\ Realm.tbl_players s'
       = Realm.tbl_players (Realm.put_player (Realm.seen p s) s)
    /\ Realm.tbl_player_movements s' = Realm.tbl_player_movements s.
Proof.
  intros Hnd Hrow Hban Hrestless.
  set (q := Realm.seen p s). set (s1 := Realm.after_seen p s).
  assert (Realm.restless q s1) as (t & Ht & Hlt).
  { apply (restless_later p q s s1 Hrestless); try reflexivity.
    unfold s1, Realm.after_seen, Realm.put_player, Realm.seen_at.
    cbn. destruct (Realm.players.is_online p); lia. }
  eexists _, _. split; [| split; [| split]].
  - unfold Realm.serve, Realm.players_routes.move.
    erewrite bind_run.
    2: { erewrite bind_run;
           [| apply authenticateToken_lets_through; eassumption].
         cbv beta iota. fold q. fold s1.
         erewrite bind_run.
         2: { apply (checkMovementCooldown_limits q s1 t Ht).
              apply Hlt. apply le_n. }
         cbv beta iota. reflexivity. }
    reflexivity.
  - pose proof (Hlt (S (Realm.clock_reads s1)) (Nat.le_succ_diag_r _)).
    lia.
  - reflexivity.
  - reflexivity.
Qed.

Lemma move_on_cooldown_is_refused_witness :
  exists (left : Z) (s' : Realm.Store),
    Realm.serve
      (Realm.post_move 4%nat (Realm.Scene.point 48 2) None)
      Realm.Scene.standstill
    = (Returned
         (Some {| Realm.http_status := 429;
                  Realm.body := Realm.rate_limited 1000 left |}), s')
    /\ 0 < left.
Proof.
  destruct (move_on_cooldown_is_refused Realm.Scene.standstill 4%nat
              (Realm.Scene.point 48 2) None Realm.Scene.dave)
    as (left & s' & Hrun & Hleft & _).
  - cbn. repeat constructor; cbn; intuition discriminate.
  - reflexivity.
  - reflexivity.
  - exists 4500. split; [reflexivity |]. intros n _. cbn. lia.
  - exists left, s'. split; [exact Hrun | exact Hleft].
Defined.

(** ** A move of a type the column does not hold *)

Lemma PlayerMovement_create_fails (player_id : Id)
  (from_position : option Realm.Point) (to_position : Realm.Point)
  (country_id : option Id) (movement_type : string) (cost t : Z)
  (s : Realm.Store) :
  ~ In movement_type Realm.player_movements.movement_type_values ->
  Realm.PlayerMovement.create player_id from_position to_position
    country_id movement_type cost t s
  = (Threw "invalid input value for enum",
     Realm.with_uuid_counter (S (Realm.uuid_counter s)) s).
Proof.
  intros Hout. unfold Realm.PlayerMovement.create.
  erewrite bind_run; [| reflexivity].
  assert (existsb (String.eqb movement_type)
            Realm.player_movements.movement_type_values = false) as ->.
  { destruct (existsb _ _) eqn:E; [| reflexivity].
    apply existsb_exists in E as (x & Hx & E).
    apply String.eqb_eq in E. subst x. contradiction. }
  reflexivity.
Qed.

Lemma move_handler_fails (q : Realm.players.t) (lat lng : R)
  (body_type : option string) (country : Id) (s : Realm.Store) :
  let movement_type := Realm.type_of_move body_type in
  let cost := Realm.players_routes.baseCost movement_type in
  let t := Realm.wall_clock s (Realm.clock_reads s) in
  NoDup (map Realm.players.id (Realm.tbl_players s)) ->
  In q (Realm.tbl_players s) ->
  Realm.players.country_id q = Some country ->
  cost <= Realm.players.resources q ->
  ~ In movement_type Realm.player_movements.movement_type_values ->
  Realm.players_routes.move_handler (build q) (lat, lng) body_type s
  = (Returned
       (Realm.refusal 500 "Internal Server Error"
          "Failed to update position"),
     Realm.with_uuid_counter (S (Realm.uuid_counter s))
       (Realm.with_clock_reads (S (S (Realm.clock_reads s)))
          (Realm.put_player (Realm.moved q lat lng t cost) s))).
Proof.
  intros movement_type cost t Hnd Hin Hc Hcost Henum.
  unfold Realm.players_routes.move_handler.
  fold movement_type. fold cost. cbn [build dataValues]. rewrite Hc.
  assert ((Realm.players.resources q <? cost) = false) as ->
    by (apply Z.ltb_ge; exact Hcost).
  erewrite try_caught.
  2: { erewrite bind_run; [| apply updatePosition_in_step; assumption].
       fold t.
       set (q2 := Realm.players.set_last_movement (Some t)
                    (Realm.players.set_current_position (Some (lng, lat))
                       q)).
       set (s2 := Realm.put_player q2
                    (Realm.with_clock_reads (S (Realm.clock_reads s)) s)).
       assert (NoDup (map Realm.players.id (Realm.tbl_players s2)))
         as Hnd2.
       { unfold s2. rewrite put_player_rows. exact Hnd. }
       assert (In q2 (Realm.tbl_players s2)) as Hin2.
       { unfold s2. apply (put_player_In q2 q); [exact Hin | reflexivity]. }
       erewrite bind_run;
         [| apply consumeResources_in_step; [exact Hnd2 | exact Hin2 |
                                             exact Hcost]].
       cbn [snd].
       erewrite bind_run; [| reflexivity].
       erewrite bind_throws;
         [| apply PlayerMovement_create_fails; exact Henum].
       reflexivity. }
  unfold Realm.res_error, Realm.ret. f_equal.
  unfold Realm.put_player.
  cbn [Realm.tbl_players Realm.with_players Realm.with_clock_reads
       Realm.tbl_player_movements Realm.uuid_counter Realm.clock_reads
       Realm.wall_clock Realm.with_uuid_counter].
  rewrite update_where_const_twice;
    [| unfold same_id; apply Nat.eqb_refl].
  destruct s. reflexivity.
Qed.

(** X18.  A move whose type is not a value of the column
    [movement_type] passes the checks of the route, which does not apply
    its schema: the player is moved and charged the cost of a walk, the
    movement is not recorded, and the answer is 500. *)
Theorem move_of_unknown_type_is_charged (s : Realm.Store) (playerId : Id)
  (coordinates : Realm.auth.Coordinates) (movement_type : string)
  (p : Realm.players.t) (country : Id) (lat lng : R) :
  NoDup (map Realm.players.id (Realm.tbl_players s)) ->
  Realm.player_row playerId s = Some p ->
  Realm.players.is_banned p = false ->
  Realm.players.country_id p = Some country ->
  Realm.rested p s ->
  Realm.auth.validateCoordinates coordinates = inr (lat, lng) ->
  ~ In movement_type Realm.player_movements.movement_type_values ->
  1 <= Realm.players.resources p ->
  exists (n : nat) (s' : Realm.Store),
    Realm.serve (Realm.post_move playerId coordinates (Some movement_type))
      s
    = (Returned
         (Some (Realm.refusal 500 "Internal Server Error"
                  "Failed to update position")), s')
    /\ Realm.tbl_players s'
       = Realm.tbl_players
           (Realm.put_player
              (Realm.moved (Realm.seen p s) lat lng (Realm.wall_clock s n)
                 1) s)
    /\ Realm.tbl_player_movements s' = Realm.tbl_player_movements s.
Proof.
  intros Hnd Hrow Hban Hc Hrest Hval Henum Hcost.
  assert (Realm.players_routes.baseCost movement_type = 1) as Hone.
  { unfold Realm.players_routes.baseCost.
    destruct (String.eqb movement_type "run") eqn:E1.
    { apply String.eqb_eq in E1. subst. exfalso. apply Henum. cbn. tauto. }
    destruct (String.eqb movement_type "teleport") eqn:E2.
    { apply String.eqb_eq in E2. subst. exfalso. apply Henum. cbn. tauto. }
    reflexivity. }
  set (q := Realm.seen p s). set (s1 := Realm.after_seen p s).
  set (s2 := Realm.with_clock_reads (Realm.cooled_reads q s1) s1).
  destruct (after_seen_rows p playerId s Hnd Hrow) as [Hnd1 Hin1].
  fold s1 in Hnd1, Hin1. fold q in Hin1.
  assert (Realm.rested q s1) as Hrest1.
  { apply (rested_later p q s s1 Hrest); try reflexivity.
    unfold s1, Realm.after_seen, Realm.put_player, Realm.seen_at.
    cbn. destruct (Realm.players.is_online p); lia. }
  exists (Realm.clock_reads s2). eexists. split; [| split].
  - unfold Realm.serve, Realm.players_routes.move.
    erewrite bind_run.
    2: { erewrite bind_run;
           [| apply authenticateToken_lets_through; eassumption].
         cbv beta iota. fold q. fold s1.
         erewrite bind_run;
           [| apply checkMovementCooldown_passes; exact Hrest1].
         cbv beta iota. fold s2. rewrite Hval.
         apply (move_handler_fails q lat lng (Some movement_type) country
                  s2); auto.
         cbn [Realm.type_of_move]. rewrite Hone. exact Hcost. }
    reflexivity.
  - cbn [Realm.type_of_move]. rewrite Hone.
    cbn [Realm.tbl_players Realm.with_uuid_counter Realm.with_clock_reads].
    unfold s2, s1, Realm.after_seen, Realm.put_player.
    cbn [Realm.tbl_players Realm.with_players Realm.with_clock_reads].
    apply update_where_const_twice. unfold same_id. apply Nat.eqb_refl.
  - reflexivity.
Qed.

(** ** The cost of a recorded movement *)

Lemma Int_part_unique (x : R) (z : Z) :
  (IZR z <= x < IZR z + 1)%R -> Int_part x = z.
Proof.
  intros [H1 H2]. unfold Int_part.
  rewrite <- (up_tech x z); [lia | exact H1 |].
  rewrite plus_IZR. exact H2.
Qed.

Lemma Math_ceil_unique (x : R) (z : Z) :
  (IZR z - 1 < x <= IZR z)%R -> Realm.Math_ceil x = z.
Proof.
  intros [H1 H2]. unfold Realm.Math_ceil.
  rewrite (Int_part_unique (- x) (- z)); [lia |].
  rewrite opp_IZR. lra.
Qed.

Lemma calculateResourceCost_recorded (id : Id) (p : Realm.players.t)
  (lat lng : R) (movement_type : string) (t : Z) :
  let cost := Realm.players_routes.baseCost movement_type in
  Realm.PlayerMovement.calculateResourceCost
    (Realm.recorded id p lat lng movement_type cost t)
  = match Realm.players.current_position p with
    | Some _ => cost
    | None => 0
    end.
Proof.
  unfold Realm.PlayerMovement.calculateResourceCost, Realm.recorded,
    Realm.players_routes.baseCost.
  cbn [Realm.player_movements.movement_type
       Realm.player_movements.distance_meters].
  destruct (Realm.players.current_position p).
  - rewrite (Math_ceil_unique (100 / 1000) 1) by lra.
    destruct (String.eqb movement_type "run");
      [reflexivity | destruct (String.eqb movement_type "teleport")];
      reflexivity.
  - rewrite (Math_ceil_unique (0 / 1000) 0) by lra.
    destruct (String.eqb movement_type "run");
      [reflexivity | destruct (String.eqb movement_type "teleport")];
      reflexivity.
Qed.

(** X19.  The movement a successful move records holds the cost that was
    charged; [calculateResourceCost] on that record gives the same cost
    when the player had a position before the move, and zero for the
    first move of a player, whose record has the distance zero. *)
Theorem recorded_move_cost (s : Realm.Store) (playerId : Id)
  (coordinates : Realm.auth.Coordinates) (body_type : option string)
  (p : Realm.players.t) (country : Id) (lat lng : R) :
  let movement_type := Realm.type_of_move body_type in
  let cost := Realm.players_routes.baseCost movement_type in
  NoDup (map Realm.players.id (Realm.tbl_players s)) ->
  Realm.player_row playerId s = Some p ->
  Realm.players.is_banned p = false ->
  Realm.players.country_id p = Some country ->
  Realm.rested p s ->
  Realm.auth.validateCoordinates coordinates = inr (lat, lng) ->
  In movement_type Realm.player_movements.movement_type_values ->
  cost <= Realm.players.resources p ->
  Realm.app_io s = false ->
  exists movement : Realm.player_movements.t,
    Realm.tbl_player_movements
      (Realm.handle (Realm.post_move playerId coordinates body_type) s)
    = Realm.tbl_player_movements s ++ [movement]
    /\ Realm.player_movements.resources_consumed movement = cost
    /\ Realm.player_movements.from_position movement
       = Realm.players.current_position p
    /\ Realm.PlayerMovement.calculateResourceCost movement
       = match Realm.players.current_position p with
         | Some _ => cost
         | None => 0
         end.
Proof.
  intros movement_type cost Hnd Hrow Hban Hc Hrest Hval Henum Hcost Hio.
  pose proof (move_outcome s playerId coordinates body_type p country lat
                lng Hnd Hrow Hban Hc Hrest Hval Henum Hcost Hio) as H.
  cbv zeta in H. fold movement_type cost in H.
  eexists. split; [| split; [| split]].
  - unfold Realm.handle, Realm.serve. erewrite bind_run; [| exact H].
    reflexivity.
  - reflexivity.
  - reflexivity.
  - apply (calculateResourceCost_recorded _ (Realm.seen p s)).
Qed.

Lemma recorded_move_cost_witness :
  exists movement : Realm.player_movements.t,
    Realm.tbl_player_movements
      (Realm.handle
         (Realm.post_move 1%nat (Realm.Scene.point 48 2)
            (Some "teleport"%string)) Realm.Scene.start)
    = [movement]
    /\ Realm.player_movements.resources_consumed movement = 10
    /\ Realm.PlayerMovement.calculateResourceCost movement = 0.
Proof.
  destruct (recorded_move_cost Realm.Scene.start 1%nat
              (Realm.Scene.point 48 2) (Some "teleport"%string)
              Realm.Scene.alice 10%nat 48 2)
    as (m & H1 & H2 & _ & H4).
  - exact scene_players_keyed.
  - reflexivity.
  - reflexivity.
  - reflexivity.
  - exact I.
  - exact scene_point_valid.
  - cbn. tauto.
  - cbn. lia.
  - reflexivity.
  - exists m. split; [exact H1 |]. split; [exact H2 | exact H4].
Defined.

Lemma move_of_unknown_type_is_charged_witness :
  exists (n : nat) (s' : Realm.Store),
    Realm.serve
      (Realm.post_move 1%nat (Realm.Scene.point 48 2) (Some "fly"%string))
      Realm.Scene.start
    = (Returned
         (Some (Realm.refusal 500 "Internal Server Error"
                  "Failed to update position")), s')
    /\ Realm.tbl_players s'
       = Realm.tbl_players
           (Realm.put_player
              (Realm.moved (Realm.seen Realm.Scene.alice Realm.Scene.start)
                 48 2 (Realm.Scene.clock n) 1) Realm.Scene.start).
Proof.
  destruct (move_of_unknown_type_is_charged Realm.Scene.start 1%nat
              (Realm.Scene.point 48 2) "fly" Realm.Scene.alice 10%nat 48 2)
    as (n & s' & Hrun & Hrows & _).
  - exact scene_players_keyed.
  - reflexivity.
  - reflexivity.
  - reflexivity.
  - exact I.
  - exact scene_point_valid.
  - cbn. intuition discriminate.
  - cbn. lia.
  - exists n, s'. split; [exact Hrun | exact Hrows].
Defined.

(** ** Runs that keep a relation *)

Section Kept.

Context (R : Realm.Store -> Realm.Store -> Prop) `{Realm.Trail R}
  `{Realm.Besides_rooms R}.

Lemma kept_ret {A : Type} (a : A) : Realm.keeps R (Realm.ret a).
Proof. intros s. apply Realm.trail_refl. Qed.

Lemma kept_throw {A : Type} (e : string) :
  Realm.keeps R (@Realm.throw A e).
Proof. intros s. apply Realm.trail_refl. Qed.

Lemma kept_gets {A : Type} (f : Realm.Store -> A) :
  Realm.keeps R (Realm.gets f).
Proof. intros s. apply Realm.trail_refl. Qed.

Lemma kept_new_Date : Realm.keeps R Realm.new_Date.
Proof. intros s. apply Realm.trail_clock. Qed.

Lemma kept_UUIDV4 : Realm.keeps R Realm.UUIDV4.
Proof. intros s. apply Realm.trail_uuid. Qed.

Lemma kept_emit (to : Realm.Target) (e : Realm.Event) :
  Realm.keeps R (Realm.emit to e).
Proof. intros s. apply Realm.trail_emitted. Qed.

Lemma kept_modify (f : Realm.Store -> Realm.Store) :
  (forall s, R s (f s)) -> Realm.keeps R (Realm.modify f).
Proof. intros Hf s. apply Hf. Qed.

Lemma kept_bind {A B : Type} (c : Realm.Run A) (k : A -> Realm.Run B) :
  Realm.keeps R c -> (forall a, Realm.keeps R (k a)) ->
  Realm.keeps R (Realm.bind c k).
Proof.
  intros Hc Hk s. unfold Realm.bind. specialize (Hc s).
  destruct (c s) as [[a | e] s1]; cbn in *.
  - eapply Realm.trail_trans; [exact Hc | apply Hk].
  - exact Hc.
Qed.

Lemma kept_try_catch {A : Type} (c : Realm.Run A)
  (h : string -> Realm.Run A) :
  Realm.keeps R c -> (forall e, Realm.keeps R (h e)) ->
  Realm.keeps R (Realm.try_catch c h).
Proof.
  intros Hc Hh s. unfold Realm.try_catch. specialize (Hc s).
  destruct (c s) as [[a | e] s1]; cbn in *.
  - exact Hc.
  - eapply Realm.trail_trans; [exact Hc | apply Hh].
Qed.

Lemma kept_for_of {A : Type} (l : list A) (body : A -> Realm.Run unit) :
  (forall x, Realm.keeps R (body x)) -> Realm.keeps R (Realm.for_of l body).
Proof.
  intros Hb. induction l as [| x l IH]; cbn [Realm.for_of].
  - apply kept_ret.
  - apply kept_bind; [apply Hb | intros _; exact IH].
Qed.

Lemma kept_track (country player : Id) :
  Realm.keeps R (Realm.socketHandler.track country player).
Proof. intros s. apply Realm.besides_rooms. Qed.

Lemma kept_untrack (country player : Id) :
  Realm.keeps R (Realm.socketHandler.untrack country player).
Proof.
  intros s. unfold Realm.socketHandler.untrack, Realm.modify. cbn [snd].
  destruct (Realm.Map_get country (Realm.countryRooms s));
    [apply Realm.besides_rooms | apply Realm.trail_refl].
Qed.

End Kept.

(** The tail of a run from the store its head leaves. *)
Lemma bind_tail {A B : Type} (R : Realm.Store -> Realm.Store -> Prop)
  (c : Realm.Run A) (k : A -> Realm.Run B) (s s1 : Realm.Store) (a : A) :
  c s = (Returned a, s1) -> Realm.keeps R (k a) ->
  R s1 (snd (Realm.bind c k s)).
Proof. intros Hc Hk. unfold Realm.bind. rewrite Hc. apply Hk. Qed.

Ltac unfold_realm :=
  unfold Realm.Player.update, Realm.Player.save, Realm.Player.save_fields,
    Realm.Player.beforeUpdate, Realm.Player.increment_countries_owned,
    Realm.Player.decrement_countries_owned, Realm.Player.findByPk,
    Realm.Player.updatePosition, Realm.Player.canMove,
    Realm.Player.consumeResources,
    Realm.Country.update, Realm.Country.save, Realm.Country.save_fields,
    Realm.Country.beforeUpdate, Realm.Country.findByPk,
    Realm.Country.findAll_claimed, Realm.Country.addSoldier,
    Realm.Country.removeSoldier, Realm.Country.claimCountry,
    Realm.Country.generateResources,
    Realm.PlayerMovement.create,
    Realm.CountryHistory.recordClaimed, Realm.CountryHistory.recordUnclaimed,
    Realm.CountryHistory.recordSoldierJoined,
    Realm.CountryHistory.recordSoldierLeft, Realm.CountryHistory.create,
    Realm.auth.authenticateToken, Realm.auth.requireCountryOwner,
    Realm.auth.checkMovementCooldown,
    Realm.json, Realm.json_error, Realm.res_json, Realm.res_error,
    Realm.socketHandler.authenticateSocket,
    Realm.socketHandler.set_player, Realm.socketHandler.socket_join,
    Realm.socketHandler.socket_leave, Realm.socketHandler.server_stats_now,
    Realm.socketHandler.emit_error.

Ltac closed_under :=
  first [ apply Realm.trail_refl
        | apply Realm.trail_clock
        | apply Realm.trail_uuid
        | apply Realm.trail_emitted
        | apply Realm.besides_sockets
        | apply Realm.besides_connections
        | apply Realm.besides_rooms
        | apply Realm.besides_players
        | apply Realm.besides_countries
        | apply Realm.besides_movements
        | apply Realm.besides_history ].

Ltac walk_kept :=
  repeat first
    [ match goal with
      | |- Realm.Trail _ => typeclasses eauto
      | |- Realm.Besides_rooms _ => typeclasses eauto
      end
    | apply kept_ret
    | apply kept_throw
    | apply kept_gets
    | apply kept_new_Date
    | apply kept_UUIDV4
    | apply kept_emit
    | apply kept_track
    | apply kept_untrack
    | apply kept_modify; intros ?; closed_under
    | apply kept_bind; [.. | | intros ?]
    | apply kept_try_catch; [.. | | intros ?]
    | apply kept_for_of; try intros ?
    | match goal with
      | |- Realm.keeps _ (if ?b then _ else _) => destruct b
      | |- Realm.keeps _ (match ?x with _ => _ end) => destruct x
      end
    | progress unfold_realm ].

#[local] Instance countries_kept_trail : Realm.Trail Realm.countries_kept.
Proof.
  split; unfold Realm.countries_kept; cbn; intros; congruence.
Qed.

#[local] Instance players_kept_trail : Realm.Trail Realm.players_kept.
Proof.
  split; unfold Realm.players_kept; cbn; intros; congruence.
Qed.

#[local] Instance movements_kept_trail : Realm.Trail Realm.movements_kept.
Proof.
  split; unfold Realm.movements_kept; cbn; intros; congruence.
Qed.

#[local] Instance history_kept_trail : Realm.Trail Realm.history_kept.
Proof.
  split; unfold Realm.history_kept; cbn; intros; congruence.
Qed.

#[local] Instance countries_kept_sockets : Realm.Besides_sockets Realm.countries_kept.
Proof. intros v s. reflexivity. Qed.

#[local] Instance countries_kept_connections :
  Realm.Besides_connections Realm.countries_kept.
Proof. intros v s. reflexivity. Qed.

#[local] Instance countries_kept_rooms : Realm.Besides_rooms Realm.countries_kept.
Proof. intros v s. reflexivity. Qed.

#[local] Instance players_kept_sockets : Realm.Besides_sockets Realm.players_kept.
Proof. intros v s. reflexivity. Qed.

#[local] Instance players_kept_connections :
  Realm.Besides_connections Realm.players_kept.
Proof. intros v s. reflexivity. Qed.

#[local] Instance players_kept_rooms : Realm.Besides_rooms Realm.players_kept.
Proof. intros v s. reflexivity. Qed.

#[local] Instance movements_kept_sockets : Realm.Besides_sockets Realm.movements_kept.
Proof. intros v s. reflexivity. Qed.

#[local] Instance movements_kept_connections :
  Realm.Besides_connections Realm.movements_kept.
Proof. intros v s. reflexivity. Qed.

#[local] Instance movements_kept_rooms : Realm.Besides_rooms Realm.movements_kept.
Proof. intros v s. reflexivity. Qed.

#[local] Instance history_kept_sockets : Realm.Besides_sockets Realm.history_kept.
Proof. intros v s. reflexivity. Qed.

#[local] Instance history_kept_connections :
  Realm.Besides_connections Realm.history_kept.
Proof. intros v s. reflexivity. Qed.

#[local] Instance history_kept_rooms : Realm.Besides_rooms Realm.history_kept.
Proof. intros v s. reflexivity. Qed.

#[local] Instance countries_kept_players :
  Realm.Besides_players Realm.countries_kept.
Proof. intros v s. reflexivity. Qed.

#[local] Instance countries_kept_movements :
  Realm.Besides_movements Realm.countries_kept.
Proof. intros v s. reflexivity. Qed.

#[local] Instance countries_kept_history :
  Realm.Besides_history Realm.countries_kept.
Proof. intros v s. reflexivity. Qed.

#[local] Instance players_kept_countries :
  Realm.Besides_countries Realm.players_kept.
Proof. intros v s. reflexivity. Qed.

#[local] Instance players_kept_movements :
  Realm.Besides_movements Realm.players_kept.
Proof. intros v s. reflexivity. Qed.

#[local] Instance players_kept_history :
  Realm.Besides_history Realm.players_kept.
Proof. intros v s. reflexivity. Qed.

#[local] Instance movements_kept_players :
  Realm.Besides_players Realm.movements_kept.
Proof. intros v s. reflexivity. Qed.

#[local] Instance movements_kept_countries :
  Realm.Besides_countries Realm.movements_kept.
Proof. intros v s. reflexivity. Qed.

#[local] Instance movements_kept_history :
  Realm.Besides_history Realm.movements_kept.
Proof. intros v s. reflexivity. Qed.

#[local] Instance history_kept_players :
  Realm.Besides_players Realm.history_kept.
Proof. intros v s. reflexivity. Qed.

#[local] Instance history_kept_countries :
  Realm.Besides_countries Realm.history_kept.
Proof. intros v s. reflexivity. Qed.

#[local] Instance history_kept_movements :
  Realm.Besides_movements Realm.history_kept.
Proof. intros v s. reflexivity. Qed.

(** The move route, the logout route and the handlers of a connection, a
    move over the socket and a disconnection write no row of a
    country. *)
Lemma move_keeps_countries playerId coordinates movement_type :
  Realm.keeps Realm.countries_kept
    (Realm.players_routes.move playerId coordinates movement_type).
Proof.
  unfold Realm.players_routes.move, Realm.players_routes.move_handler.
  walk_kept.
Qed.

(** ** The methods of a country on a loaded instance *)

Lemma isEqual_Z_succ (x : Z) : Realm.isEqual x (x + 1) = false.
Proof. apply Z.eqb_neq. lia. Qed.

Lemma isEqual_Z_pred (x : Z) : Realm.isEqual x (x - 1) = false.
Proof. apply Z.eqb_neq. lia. Qed.

Lemma claimCountry_in_step (c : Realm.countries.t) (playerId : Id)
  (s : Realm.Store) :
  NoDup (map Realm.countries.id (Realm.tbl_countries s)) ->
  In c (Realm.tbl_countries s) ->
  Realm.countries.is_claimed c = false ->
  let c' := Realm.claimed c playerId
              (Realm.wall_clock s (Realm.clock_reads s))
              (Realm.wall_clock s (S (Realm.clock_reads s))) in
  Realm.Country.claimCountry playerId (build c) s
  = (Returned (build c'),
     Realm.put_country c'
       (Realm.with_clock_reads (S (S (Realm.clock_reads s))) s)).
Proof.
  intros Hnd Hin Hun c'. unfold Realm.Country.claimCountry.
  cbn [build dataValues]. rewrite Hun.
  erewrite bind_run; [| reflexivity].
  rewrite Country_save_in_step; [| exact Hnd | exact Hin | reflexivity].
  unfold Realm.country_hooked, Realm.country_hook_read,
    Realm.Country.changed.
  cbn [assign build dataValues _previousDataValues
       Realm.countries.differs Realm.countries.is_claimed
       Realm.countries.set_is_claimed Realm.countries.set_owner_id
       Realm.countries.set_claimed_at Realm.countries.set_soldier_count].
  rewrite Hun. cbn [Realm.isEqual Realm.isEqual_bool Bool.eqb negb orb].
  destruct s. reflexivity.
Qed.

Lemma addSoldier_in_step (c : Realm.countries.t) (s : Realm.Store) :
  NoDup (map Realm.countries.id (Realm.tbl_countries s)) ->
  In c (Realm.tbl_countries s) ->
  Realm.countries.soldier_count c < Realm.countries.max_soldiers c ->
  let c' := Realm.reinforced c (Realm.wall_clock s (Realm.clock_reads s)) in
  Realm.Country.addSoldier (build c) s
  = (Returned (build c'),
     Realm.put_country c'
       (Realm.with_clock_reads (S (Realm.clock_reads s)) s)).
Proof.
  intros Hnd Hin Hroom c'.
  unfold Realm.Country.addSoldier, Realm.Country.canAcceptNewSoldier.
  cbn [build dataValues].
  assert ((Realm.countries.soldier_count c <? Realm.countries.max_soldiers c)
          = true) as -> by (apply Z.ltb_lt; exact Hroom).
  cbn [negb].
  rewrite Country_save_in_step; [| exact Hnd | exact Hin | reflexivity].
  unfold Realm.country_hooked, Realm.country_hook_read,
    Realm.Country.changed.
  cbn [assign build dataValues _previousDataValues
       Realm.countries.differs Realm.countries.is_claimed
       Realm.countries.soldier_count Realm.countries.set_soldier_count].
  rewrite !isEqual_bool_refl, !isEqual_Z_succ.
  reflexivity.
Qed.

Lemma addSoldier_full (this : Instance Realm.countries.t)
  (s : Realm.Store) :
  Realm.Country.canAcceptNewSoldier this = false ->
  Realm.Country.addSoldier this s
  = (Threw "Country has reached maximum soldier capacity", s).
Proof.
  intros H. unfold Realm.Country.addSoldier. rewrite H. reflexivity.
Qed.

Lemma removeSoldier_in_step (c : Realm.countries.t) (s : Realm.Store) :
  NoDup (map Realm.countries.id (Realm.tbl_countries s)) ->
  In c (Realm.tbl_countries s) ->
  0 < Realm.countries.soldier_count c ->
  let c' := Realm.reduced c (Realm.wall_clock s (Realm.clock_reads s)) in
  Realm.Country.removeSoldier (build c) s
  = (Returned (build c'),
     Realm.put_country c'
       (Realm.with_clock_reads (S (Realm.clock_reads s)) s)).
Proof.
  intros Hnd Hin Hpos c'. unfold Realm.Country.removeSoldier.
  cbn [build dataValues].
  assert ((Realm.countries.soldier_count c <=? 0) = false) as ->
    by (apply Z.leb_gt; exact Hpos).
  unfold c', Realm.reduced.
  cbn [build dataValues assign _previousDataValues
       Realm.countries.soldier_count Realm.countries.is_claimed
       Realm.countries.set_soldier_count].
  destruct ((Realm.countries.soldier_count c - 1 =? 0)
            && Realm.countries.is_claimed c) eqn:E;
    (rewrite Country_save_in_step; [| exact Hnd | exact Hin | reflexivity]);
    unfold Realm.country_hooked, Realm.country_hook_read,
      Realm.Country.changed;
    cbn [assign build dataValues _previousDataValues
         Realm.countries.differs Realm.countries.is_claimed
         Realm.countries.soldier_count Realm.countries.set_soldier_count
         Realm.countries.set_is_claimed Realm.countries.set_owner_id
         Realm.countries.set_claimed_at];
    rewrite isEqual_Z_pred, orb_true_r; reflexivity.
Qed.

Lemma removeSoldier_none (this : Instance Realm.countries.t)
  (s : Realm.Store) :
  Realm.countries.soldier_count (dataValues this) <= 0 ->
  Realm.Country.removeSoldier this s = (Threw "No soldiers to remove", s).
Proof.
  intros H. unfold Realm.Country.removeSoldier.
  assert ((Realm.countries.soldier_count (dataValues this) <=? 0) = true)
    as -> by (apply Z.leb_le; exact H).
  reflexivity.
Qed.

Lemma generateResources_in_step (c : Realm.countries.t) (s : Realm.Store) :
  NoDup (map Realm.countries.id (Realm.tbl_countries s)) ->
  In c (Realm.tbl_countries s) ->
  Realm.Country.generateResources (build c) s
  = (Returned (build (Realm.supplied c)),
     Realm.put_country (Realm.supplied c) s).
Proof.
  intros Hnd Hin. unfold Realm.Country.generateResources.
  cbn [build dataValues].
  rewrite Country_save_in_step; [| exact Hnd | exact Hin | reflexivity].
  unfold Realm.country_hooked, Realm.country_hook_read,
    Realm.Country.changed.
  cbn [assign build dataValues _previousDataValues
       Realm.countries.differs Realm.countries.is_claimed
       Realm.countries.soldier_count Realm.countries.set_resources].
  rewrite isEqual_bool_refl, isEqual_Z_refl. reflexivity.
Qed.

(** ** The course of the rows of the countries *)

Lemma country_step_id (c c' : Realm.countries.t) :
  Realm.country_step c c' -> Realm.countries.id c' = Realm.countries.id c.
Proof.
  intros H. destruct H; try reflexivity.
  - unfold Realm.reduced. cbn. destruct (_ && _); reflexivity.
  - unfold Realm.adjusted.
    destruct max_soldiers, defense_strength; reflexivity.
Qed.

Lemma country_life_id (c c' : Realm.countries.t) :
  Realm.country_life c c' -> Realm.countries.id c' = Realm.countries.id c.
Proof.
  induction 1 as [| c c' c'' _ IH Hstep]; [reflexivity |].
  rewrite (country_step_id _ _ Hstep). exact IH.
Qed.

Lemma country_life_trans (a b c : Realm.countries.t) :
  Realm.country_life a b -> Realm.country_life b c ->
  Realm.country_life a c.
Proof.
  intros Hab Hbc. induction Hbc as [| b c' c'' _ IH Hstep]; [exact Hab |].
  eapply Realm.country_then; [apply IH; exact Hab | exact Hstep].
Qed.

Lemma countries_life_refl (rows : list Realm.countries.t) :
  Forall2 Realm.country_life rows rows.
Proof.
  induction rows; constructor; [apply Realm.country_stays | assumption].
Qed.

Lemma countries_life_trans (l1 l2 l3 : list Realm.countries.t) :
  Forall2 Realm.country_life l1 l2 -> Forall2 Realm.country_life l2 l3 ->
  Forall2 Realm.country_life l1 l3.
Proof.
  intros H12. revert l3. induction H12 as [| a b l1 l2 Hab _ IH];
    intros l3 H23; inversion H23; subst; constructor.
  - eapply country_life_trans; eassumption.
  - apply IH. assumption.
Qed.

Lemma countries_life_ids (l l' : list Realm.countries.t) :
  Forall2 Realm.country_life l l' ->
  map Realm.countries.id l' = map Realm.countries.id l.
Proof.
  induction 1 as [| a b l l' Hab _ IH]; [reflexivity |].
  cbn. rewrite IH, (country_life_id _ _ Hab). reflexivity.
Qed.

Lemma countries_life_put (c c' : Realm.countries.t)
  (rows : list Realm.countries.t) :
  NoDup (map Realm.countries.id rows) ->
  In c rows ->
  Realm.country_step c c' ->
  Forall2 Realm.country_life rows
    (update_where
       (fun r => same_id (Realm.countries.id r) (Realm.countries.id c'))
       (fun _ => c') rows).
Proof.
  intros Hnd Hin Hstep.
  pose proof (country_step_id _ _ Hstep) as Hid.
  assert (forall l, (forall r, In r l -> In r rows) ->
            Forall2 Realm.country_life l
              (update_where
                 (fun r => same_id (Realm.countries.id r)
                             (Realm.countries.id c'))
                 (fun _ => c') l)) as Hgen.
  { induction l as [| r l IH]; intros Hsub; [constructor |].
    cbn. constructor.
    - destruct (same_id _ _) eqn:E; [| apply Realm.country_stays].
      apply same_id_eq in E.
      assert (r = c) as ->.
      { apply (NoDup_key_eq Realm.countries.id rows); auto.
        - apply Hsub. left. reflexivity.
        - congruence. }
      eapply Realm.country_then; [apply Realm.country_stays | exact Hstep].
    - apply IH. intros x Hx. apply Hsub. right. exact Hx. }
  apply Hgen. auto.
Qed.

#[local] Instance countries_move_trail : Realm.Trail Realm.countries_move.
Proof.
  split; unfold Realm.countries_move; cbn; intros;
    try apply countries_life_refl.
  eapply countries_life_trans; eassumption.
Qed.

#[local] Instance countries_move_sockets :
  Realm.Besides_sockets Realm.countries_move.
Proof. intros v s. apply countries_life_refl. Qed.

#[local] Instance countries_move_connections :
  Realm.Besides_connections Realm.countries_move.
Proof. intros v s. apply countries_life_refl. Qed.

#[local] Instance countries_move_rooms :
  Realm.Besides_rooms Realm.countries_move.
Proof. intros v s. apply countries_life_refl. Qed.

#[local] Instance countries_move_players :
  Realm.Besides_players Realm.countries_move.
Proof. intros v s. apply countries_life_refl. Qed.

#[local] Instance countries_move_movements :
  Realm.Besides_movements Realm.countries_move.
Proof. intros v s. apply countries_life_refl. Qed.

#[local] Instance countries_move_history :
  Realm.Besides_history Realm.countries_move.
Proof. intros v s. apply countries_life_refl. Qed.

Lemma moves_of_kept {A : Type} (c : Realm.Run A) :
  Realm.keeps Realm.countries_kept c -> Realm.moves_countries c.
Proof.
  intros H s _. unfold Realm.countries_move. rewrite (H s).
  apply countries_life_refl.
Qed.

Lemma moves_bind {A B : Type} (c : Realm.Run A) (k : A -> Realm.Run B) :
  Realm.moves_countries c -> (forall a, Realm.moves_countries (k a)) ->
  Realm.moves_countries (Realm.bind c k).
Proof.
  intros Hc Hk s Hnd. unfold Realm.bind. specialize (Hc s Hnd).
  destruct (c s) as [[a | e] s1]; cbn in *; [| exact Hc].
  eapply countries_life_trans; [exact Hc |]. apply Hk.
  rewrite (countries_life_ids _ _ Hc). exact Hnd.
Qed.

Lemma moves_try_catch {A : Type} (c : Realm.Run A)
  (h : string -> Realm.Run A) :
  Realm.moves_countries c -> (forall e, Realm.moves_countries (h e)) ->
  Realm.moves_countries (Realm.try_catch c h).
Proof.
  intros Hc Hh s Hnd. unfold Realm.try_catch. specialize (Hc s Hnd).
  destruct (c s) as [[a | e] s1]; cbn in *; [exact Hc |].
  eapply countries_life_trans; [exact Hc |]. apply Hh.
  rewrite (countries_life_ids _ _ Hc). exact Hnd.
Qed.

Lemma moves_ret {A : Type} (a : A) : Realm.moves_countries (Realm.ret a).
Proof. intros s _. apply countries_life_refl. Qed.

Lemma moves_for_of {A : Type} (l : list A) (body : A -> Realm.Run unit) :
  (forall x, Realm.moves_countries (body x)) ->
  Realm.moves_countries (Realm.for_of l body).
Proof.
  intros Hb. induction l as [| x l IH]; cbn [Realm.for_of].
  - apply moves_ret.
  - apply moves_bind; [apply Hb | intros _; exact IH].
Qed.

(** A method that writes the row of a loaded country by a step. *)
Lemma moves_put {A : Type} (c : Realm.Run A) (row row' : Realm.countries.t)
  (s s' : Realm.Store) (o : Outcome A) :
  NoDup (map Realm.countries.id (Realm.tbl_countries s)) ->
  In row (Realm.tbl_countries s) ->
  Realm.country_step row row' ->
  c s = (o, s') ->
  Realm.tbl_countries s'
  = update_where
      (fun r => same_id (Realm.countries.id r) (Realm.countries.id row'))
      (fun _ => row') (Realm.tbl_countries s) ->
  Realm.countries_move s (snd (c s)).
Proof.
  intros Hnd Hin Hstep Hc Htbl. rewrite Hc. cbn [snd].
  unfold Realm.countries_move. rewrite Htbl.
  apply (countries_life_put row row'); assumption.
Qed.

Lemma claimCountry_moves (playerId : Id) (c : Realm.countries.t)
  (s : Realm.Store) :
  NoDup (map Realm.countries.id (Realm.tbl_countries s)) ->
  In c (Realm.tbl_countries s) ->
  Realm.countries_move s
    (snd (Realm.Country.claimCountry playerId (build c) s)).
Proof.
  intros Hnd Hin. destruct (Realm.countries.is_claimed c) eqn:E.
  - unfold Realm.Country.claimCountry. cbn [build dataValues]. rewrite E.
    apply countries_life_refl.
  - eapply (moves_put (Realm.Country.claimCountry playerId (build c)));
      [exact Hnd | exact Hin | | apply claimCountry_in_step; assumption |
       reflexivity].
    apply Realm.country_claimed. exact E.
Qed.

Lemma addSoldier_moves (c : Realm.countries.t) (s : Realm.Store) :
  NoDup (map Realm.countries.id (Realm.tbl_countries s)) ->
  In c (Realm.tbl_countries s) ->
  Realm.countries.is_claimed c = true ->
  Realm.countries_move s (snd (Realm.Country.addSoldier (build c) s)).
Proof.
  intros Hnd Hin Hcl.
  destruct (Realm.Country.canAcceptNewSoldier (build c)) eqn:E.
  - apply Z.ltb_lt in E. cbn [build dataValues] in E.
    eapply (moves_put (Realm.Country.addSoldier (build c)));
      [exact Hnd | exact Hin | | apply addSoldier_in_step; assumption |
       reflexivity].
    apply Realm.country_reinforced; assumption.
  - rewrite addSoldier_full by exact E. apply countries_life_refl.
Qed.

Lemma removeSoldier_moves (c : Realm.countries.t) (s : Realm.Store) :
  NoDup (map Realm.countries.id (Realm.tbl_countries s)) ->
  In c (Realm.tbl_countries s) ->
  Realm.countries_move s (snd (Realm.Country.removeSoldier (build c) s)).
Proof.
  intros Hnd Hin.
  destruct (Z_lt_le_dec 0 (Realm.countries.soldier_count c)) as [Hpos | Hle].
  - eapply (moves_put (Realm.Country.removeSoldier (build c)));
      [exact Hnd | exact Hin | | apply removeSoldier_in_step; assumption |].
    + apply Realm.country_reduced. exact Hpos.
    + unfold Realm.put_country. cbn [Realm.tbl_countries
        Realm.with_countries Realm.with_clock_reads].
      unfold Realm.reduced. cbn. destruct (_ && _); reflexivity.
  - rewrite removeSoldier_none by exact Hle. apply countries_life_refl.
Qed.

Lemma generateResources_moves (c : Realm.countries.t) (s : Realm.Store) :
  NoDup (map Realm.countries.id (Realm.tbl_countries s)) ->
  In c (Realm.tbl_countries s) ->
  Realm.countries.is_claimed c = true ->
  Realm.countries_move s
    (snd (Realm.Country.generateResources (build c) s)).
Proof.
  intros Hnd Hin Hcl.
  eapply (moves_put (Realm.Country.generateResources (build c)));
    [exact Hnd | exact Hin | | apply generateResources_in_step; assumption |
     reflexivity].
  apply Realm.country_supplied. exact Hcl.
Qed.

Lemma moves_bind_at {A B : Type} (c : Realm.Run A) (k : A -> Realm.Run B)
  (s : Realm.Store) :
  NoDup (map Realm.countries.id (Realm.tbl_countries s)) ->
  Realm.countries_move s (snd (c s)) ->
  (forall a, Realm.moves_countries (k a)) ->
  Realm.countries_move s (snd (Realm.bind c k s)).
Proof.
  intros Hnd Hc Hk. unfold Realm.bind.
  destruct (c s) as [[a | e] s1]; cbn in *; [| exact Hc].
  eapply countries_life_trans; [exact Hc |]. apply Hk.
  rewrite (countries_life_ids _ _ Hc). exact Hnd.
Qed.

Lemma moves_try_at {A : Type} (c : Realm.Run A)
  (h : string -> Realm.Run A) (s : Realm.Store) :
  NoDup (map Realm.countries.id (Realm.tbl_countries s)) ->
  Realm.countries_move s (snd (c s)) ->
  (forall e, Realm.moves_countries (h e)) ->
  Realm.countries_move s (snd (Realm.try_catch c h s)).
Proof.
  intros Hnd Hc Hh. unfold Realm.try_catch.
  destruct (c s) as [[a | e] s1]; cbn in *; [exact Hc |].
  eapply countries_life_trans; [exact Hc |]. apply Hh.
  rewrite (countries_life_ids _ _ Hc). exact Hnd.
Qed.

(** What follows the search for a country runs on the row found. *)
Lemma moves_found {B : Type} (id : Id)
  (k : option (Instance Realm.countries.t) -> Realm.Run B)
  (s : Realm.Store) :
  (forall c, In c (Realm.tbl_countries s) ->
     Realm.countries_move s (snd (k (Some (build c)) s))) ->
  Realm.countries_move s (snd (k None s)) ->
  Realm.countries_move s
    (snd (Realm.bind (Realm.Country.findByPk id) k s)).
Proof.
  intros Hsome Hnone.
  erewrite bind_run; [| apply Country_findByPk_row].
  destruct (Realm.country_row id s) as [c |] eqn:Hrow; cbn [option_map].
  - apply Hsome. apply (country_row_In _ _ _ Hrow).
  - exact Hnone.
Qed.

Ltac frame_moves := intros; apply moves_of_kept; walk_kept.

Lemma join_handler_moves (player : Instance Realm.players.t) (id : Id)
  (spawn_lat spawn_lng : option R) :
  Realm.moves_countries
    (Realm.countries_routes.join_handler player id spawn_lat spawn_lng).
Proof.
  intros s Hnd. unfold Realm.countries_routes.join_handler.
  apply moves_try_at; [exact Hnd | | frame_moves].
  destruct (negb _); [apply countries_life_refl |].
  apply moves_found; [| apply countries_life_refl].
  intros c Hin.
  destruct (Realm.players.country_id (dataValues player));
    [apply countries_life_refl |].
  destruct (negb (Realm.Country.canAcceptNewSoldier (build c)));
    [apply countries_life_refl |].
  apply moves_bind_at; [exact Hnd | | frame_moves].
  cbn [build dataValues].
  destruct (Realm.countries.is_claimed c) eqn:Hcl; cbn [negb].
  - apply moves_bind_at; [exact Hnd | | frame_moves].
    apply addSoldier_moves; assumption.
  - apply moves_bind_at; [exact Hnd | | frame_moves].
    apply claimCountry_moves; assumption.
Qed.

Lemma leave_handler_moves (player : Instance Realm.players.t) (id : Id) :
  Realm.moves_countries (Realm.countries_routes.leave_handler player id).
Proof.
  intros s Hnd. unfold Realm.countries_routes.leave_handler.
  apply moves_try_at; [exact Hnd | | frame_moves].
  destruct (negb _); [apply countries_life_refl |].
  apply moves_found; [| apply countries_life_refl].
  intros c Hin.
  apply moves_bind_at; [exact Hnd | | frame_moves].
  apply removeSoldier_moves; assumption.
Qed.

Lemma authenticateToken_keeps_countries (playerId : Id) :
  Realm.keeps Realm.countries_kept (Realm.auth.authenticateToken playerId).
Proof. walk_kept. Qed.

Lemma join_moves (playerId id : Id) (spawn_lat spawn_lng : option R) :
  Realm.moves_countries
    (Realm.countries_routes.join playerId id spawn_lat spawn_lng).
Proof.
  unfold Realm.countries_routes.join. apply moves_bind.
  - apply moves_of_kept, authenticateToken_keeps_countries.
  - intros [answer | player]; [apply moves_ret | apply join_handler_moves].
Qed.

Lemma leave_moves (playerId id : Id) :
  Realm.moves_countries (Realm.countries_routes.leave playerId id).
Proof.
  unfold Realm.countries_routes.leave. apply moves_bind.
  - apply moves_of_kept, authenticateToken_keeps_countries.
  - intros [answer | player]; [apply moves_ret | apply leave_handler_moves].
Qed.

Lemma requireCountryOwner_reads (player : Instance Realm.players.t)
  (params_countryId body_countryId : option Id) (s : Realm.Store) :
  exists v,
    Realm.auth.requireCountryOwner player params_countryId body_countryId s
    = (Returned v, s)
    /\ forall country, v = inr country ->
         exists c, country = build c
                   /\ In c (Realm.tbl_countries s)
                   /\ Realm.countries.is_claimed c = true
                   /\ Realm.countries.owner_id c
                      = Some (Realm.players.id (dataValues player)).
Proof.
  unfold Realm.auth.requireCountryOwner.
  destruct (match params_countryId with
            | Some countryId => Some countryId
            | None => body_countryId
            end) as [countryId |].
  - unfold Realm.try_catch, Realm.bind.
    rewrite Country_findByPk_row.
    destruct (Realm.country_row countryId s) as [c |] eqn:Hrow;
      cbn [option_map].
    + cbn [build dataValues].
      destruct (Realm.countries.is_claimed c) eqn:Hcl; cbn [negb orb].
      * destruct (opt_is _ _) eqn:Ho; cbn [negb].
        -- eexists. split; [reflexivity |]. intros country Hc.
           injection Hc as <-. exists c. repeat split; auto.
           ++ apply (country_row_In _ _ _ Hrow).
           ++ apply opt_is_true. exact Ho.
        -- eexists. split; [reflexivity |]. discriminate.
      * eexists. split; [reflexivity |]. discriminate.
    + eexists. split; [reflexivity |]. discriminate.
  - eexists. split; [reflexivity |]. discriminate.
Qed.

Lemma settings_update_in_step (c : Realm.countries.t)
  (max_soldiers : option Z) (defense_strength : option R)
  (s : Realm.Store) :
  NoDup (map Realm.countries.id (Realm.tbl_countries s)) ->
  In c (Realm.tbl_countries s) ->
  let values :=
    match max_soldiers with
    | Some m => [Realm.countries.max_soldiers_is m]
    | None => []
    end
    ++ match defense_strength with
       | Some d => [Realm.countries.defense_strength_is d]
       | None => []
       end in
  Realm.Country.update values (build c) s
  = (Returned (build (Realm.adjusted c max_soldiers defense_strength)),
     Realm.put_country (Realm.adjusted c max_soldiers defense_strength) s).
Proof.
  intros Hnd Hin values.
  rewrite Country_update_in_step; [| exact Hnd | exact Hin].
  assert (dataValues (Realm.Country.set values (build c))
          = Realm.adjusted c max_soldiers defense_strength
          /\ _previousDataValues (Realm.Country.set values (build c)) = c)
    as [Hd Hp].
  { unfold values. destruct max_soldiers, defense_strength;
      split; reflexivity. }
  unfold Realm.country_hooked, Realm.country_hook_read,
    Realm.Country.changed. rewrite Hd, Hp.
  assert (Realm.countries.differs Realm.countries.is_claimed_col c
            (Realm.adjusted c max_soldiers defense_strength) = false) as ->.
  { destruct max_soldiers, defense_strength; cbn;
      apply negb_false_iff, isEqual_bool_refl. }
  assert (Realm.countries.differs Realm.countries.soldier_count_col c
            (Realm.adjusted c max_soldiers defense_strength) = false) as ->.
  { destruct max_soldiers, defense_strength; cbn;
      apply negb_false_iff, isEqual_Z_refl. }
  reflexivity.
Qed.

Lemma settings_handler_moves (c : Realm.countries.t)
  (max_soldiers : option Z) (defense_strength : option R)
  (s : Realm.Store) :
  NoDup (map Realm.countries.id (Realm.tbl_countries s)) ->
  In c (Realm.tbl_countries s) ->
  Realm.countries_move s
    (snd (Realm.countries_routes.settings_handler (build c) max_soldiers
            defense_strength s)).
Proof.
  intros Hnd Hin. unfold Realm.countries_routes.settings_handler.
  apply moves_try_at; [exact Hnd | | frame_moves].
  erewrite bind_run; [| reflexivity].
  destruct (match max_soldiers with Some _ => _ | None => _ end);
    [apply countries_life_refl |].
  destruct (match defense_strength with Some _ => _ | None => _ end);
    [apply countries_life_refl |].
  apply moves_bind_at; [exact Hnd | | frame_moves].
  eapply (moves_put (Realm.Country.update _ (build c)));
    [exact Hnd | exact Hin | | apply settings_update_in_step; assumption |
     reflexivity].
  apply Realm.country_adjusted.
Qed.

Lemma settings_moves (playerId id : Id) (body_countryId : option Id)
  (max_soldiers : option Z) (defense_strength : option R) :
  Realm.moves_countries
    (Realm.countries_routes.settings playerId id body_countryId
       max_soldiers defense_strength).
Proof.
  unfold Realm.countries_routes.settings. apply moves_bind.
  - apply moves_of_kept, authenticateToken_keeps_countries.
  - intros [answer | player]; [apply moves_ret |].
    intros s Hnd.
    destruct (requireCountryOwner_reads player None body_countryId s)
      as (v & Hv & Hc).
    erewrite bind_run; [| exact Hv].
    destruct v as [answer | country]; [apply countries_life_refl |].
    destruct (Hc country eq_refl) as (c & -> & Hin & _).
    apply settings_handler_moves; assumption.
Qed.

Lemma on_country_join_moves (socket : Realm.Socket) (country_id : Id) :
  Realm.moves_countries
    (Realm.socketHandler.on_country_join socket country_id).
Proof.
  intros s Hnd. unfold Realm.socketHandler.on_country_join.
  apply moves_try_at; [exact Hnd | | frame_moves].
  destruct (Realm.players.country_id _);
    [apply moves_of_kept; [walk_kept | exact Hnd] |].
  apply moves_found; [| apply moves_of_kept; [walk_kept | exact Hnd]].
  intros c Hin.
  destruct (negb (Realm.Country.canAcceptNewSoldier (build c)));
    [apply moves_of_kept; [walk_kept | exact Hnd] |].
  apply moves_bind_at; [exact Hnd | | frame_moves].
  cbn [build dataValues].
  destruct (Realm.countries.is_claimed c) eqn:Hcl; cbn [negb].
  - apply moves_bind_at; [exact Hnd | | frame_moves].
    apply addSoldier_moves; assumption.
  - apply moves_bind_at; [exact Hnd | | frame_moves].
    apply claimCountry_moves; assumption.
Qed.

Lemma on_country_leave_moves (socket : Realm.Socket) :
  Realm.moves_countries (Realm.socketHandler.on_country_leave socket).
Proof.
  intros s Hnd. unfold Realm.socketHandler.on_country_leave.
  apply moves_try_at; [exact Hnd | | frame_moves].
  destruct (Realm.players.country_id _);
    [| apply moves_of_kept; [walk_kept | exact Hnd]].
  apply moves_found; [| apply countries_life_refl].
  intros c Hin.
  apply moves_bind_at; [exact Hnd | | frame_moves].
  apply removeSoldier_moves; assumption.
Qed.

Lemma on_moves (sid : nat) (handler : Realm.Socket -> Realm.Run unit) :
  (forall socket, Realm.moves_countries (handler socket)) ->
  Realm.moves_countries (Realm.socketHandler.on sid handler).
Proof.
  intros H. unfold Realm.socketHandler.on. apply moves_bind.
  - apply moves_of_kept. walk_kept.
  - intros [socket |]; [apply H | apply moves_ret].
Qed.

Lemma In_update_where_other {A : Type} (sel : A -> bool) (f : A -> A)
  (rows : list A) (x : A) :
  In x rows -> sel x = false -> In x (update_where sel f rows).
Proof.
  intros Hin Hsel. unfold update_where. apply in_map_iff.
  exists x. rewrite Hsel. auto.
Qed.

(** The timer of the resources supplies the claimed countries one after
    the other; each one is still stored as it was found when its turn
    comes. *)
Lemma supply_loop_moves (body : Instance Realm.countries.t -> Realm.Run unit)
  (l : list Realm.countries.t) (s : Realm.Store) :
  (forall c s,
     NoDup (map Realm.countries.id (Realm.tbl_countries s)) ->
     In c (Realm.tbl_countries s) ->
     Realm.tbl_countries (snd (body (build c) s))
     = Realm.tbl_countries (Realm.put_country (Realm.supplied c) s)) ->
  NoDup (map Realm.countries.id (Realm.tbl_countries s)) ->
  NoDup (map Realm.countries.id l) ->
  Forall (fun c => In c (Realm.tbl_countries s)
                   /\ Realm.countries.is_claimed c = true) l ->
  Realm.countries_move s (snd (Realm.for_of (map build l) body s)).
Proof.
  intros Hbody. revert s. induction l as [| c l IH]; intros s Hnd Hl Hall;
    [apply countries_life_refl |].
  cbn [map Realm.for_of].
  inversion Hall as [| ? ? [Hin Hcl] Hall']; subst.
  cbn [map] in Hl. inversion Hl as [| ? ? Hfresh Hl']; subst.
  pose proof (Hbody c s Hnd Hin) as Htbl.
  assert (Forall2 Realm.country_life (Realm.tbl_countries s)
            (Realm.tbl_countries (snd (body (build c) s)))) as Hstep.
  { rewrite Htbl. apply (countries_life_put c (Realm.supplied c));
      [exact Hnd | exact Hin |].
    apply Realm.country_supplied. exact Hcl. }
  unfold Realm.bind.
  destruct (body (build c) s) as [[[] | e] s1]; cbn [snd] in *;
    [| exact Hstep].
  eapply countries_life_trans; [exact Hstep |].
  apply IH.
  - rewrite (countries_life_ids _ _ Hstep). exact Hnd.
  - exact Hl'.
  - rewrite Htbl. apply Forall_forall. intros x Hx.
    rewrite Forall_forall in Hall'. destruct (Hall' x Hx) as [Hxin Hxcl].
    split; [| exact Hxcl].
    unfold Realm.put_country. cbn [Realm.tbl_countries
      Realm.with_countries].
    apply In_update_where_other; [exact Hxin |].
    apply same_id_neq. intros Heq. apply Hfresh.
    change (Realm.countries.id (Realm.supplied c))
      with (Realm.countries.id c) in Heq.
    rewrite <- Heq. apply in_map. exact Hx.
Qed.

Lemma resource_tick_moves :
  Realm.moves_countries Realm.socketHandler.resource_tick.
Proof.
  intros s Hnd. unfold Realm.socketHandler.resource_tick.
  apply moves_try_at; [exact Hnd | | frame_moves].
  erewrite bind_run; [| reflexivity].
  apply supply_loop_moves.
  - intros c s0 Hnd0 Hin0.
    erewrite bind_run; [| apply generateResources_in_step; assumption].
    erewrite bind_run; [| reflexivity].
    destruct (Realm.Map_has _ _); reflexivity.
  - exact Hnd.
  - apply NoDup_map_filter. exact Hnd.
  - apply Forall_forall. intros c Hc. apply filter_In in Hc. exact Hc.
Qed.

Lemma serve_moves_countries (r : Realm.Request) :
  Realm.moves_countries (Realm.serve r).
Proof.
  destruct r; unfold Realm.serve.
  - apply moves_bind; [| intros; apply moves_ret].
    apply moves_of_kept, move_keeps_countries.
  - apply moves_bind; [apply join_moves | intros; apply moves_ret].
  - apply moves_bind; [apply leave_moves | intros; apply moves_ret].
  - apply moves_bind; [apply settings_moves | intros; apply moves_ret].
  - apply moves_of_kept. unfold Realm.auth_routes.logout. walk_kept.
  - apply moves_of_kept.
    unfold Realm.socketHandler.connection,
      Realm.socketHandler.handleConnection. walk_kept.
  - apply moves_bind; [| intros; apply moves_ret].
    apply on_moves. intros socket. apply moves_of_kept.
    unfold Realm.socketHandler.on_player_move. walk_kept.
  - apply moves_bind; [| intros; apply moves_ret].
    apply on_moves. intros socket. apply on_country_join_moves.
  - apply moves_bind; [| intros; apply moves_ret].
    apply on_moves. apply on_country_leave_moves.
  - apply moves_bind; [| intros; apply moves_ret].
    apply on_moves. intros socket. apply moves_of_kept.
    unfold Realm.socketHandler.on_disconnect. walk_kept.
  - apply moves_bind; [apply resource_tick_moves | intros; apply moves_ret].
  - apply moves_of_kept. unfold Realm.socketHandler.stats_tick. walk_kept.
Qed.

Lemma reaches_countries_move (s0 s : Realm.Store) :
  NoDup (map Realm.countries.id (Realm.tbl_countries s0)) ->
  Realm.reaches s0 s ->
  Realm.countries_move s0 s.
Proof.
  intros Hnd Hreach. induction Hreach as [| r s _ IH].
  - apply countries_life_refl.
  - eapply countries_life_trans; [exact IH |].
    apply serve_moves_countries.
    rewrite (countries_life_ids _ _ IH). exact Hnd.
Qed.

Lemma country_step_consistent (c c' : Realm.countries.t) :
  Realm.consistent c -> Realm.country_step c c' -> Realm.consistent c'.
Proof.
  unfold Realm.consistent. intros Hc Hstep.
  destruct Hstep as [c pid t t' Hun | c t' Hcl Hroom | c t' Hpos
                    | c m d | c Hcl].
  - cbn. repeat split; [lia | discriminate | discriminate].
  - rewrite Hcl in Hc. cbn. rewrite Hcl. destruct Hc as (? & ? & ?).
    repeat split; auto. lia.
  - unfold Realm.reduced. cbn.
    destruct (Realm.countries.is_claimed c) eqn:Hcl.
    + destruct Hc as (Hone & Ho & Ha).
      destruct (Realm.countries.soldier_count c - 1 =? 0) eqn:E; cbn.
      * apply Z.eqb_eq in E. repeat split; auto.
      * apply Z.eqb_neq in E. rewrite Hcl. repeat split; auto. lia.
    + destruct Hc as (Hzero & _). lia.
  - unfold Realm.adjusted. destruct m, d; exact Hc.
  - exact Hc.
Qed.

Lemma country_life_consistent (c c' : Realm.countries.t) :
  Realm.consistent c -> Realm.country_life c c' -> Realm.consistent c'.
Proof.
  intros Hc Hlife. induction Hlife as [| c c' c'' _ IH Hstep]; [exact Hc |].
  eapply country_step_consistent; [apply IH; exact Hc | exact Hstep].
Qed.

Lemma countries_life_consistent (l l' : list Realm.countries.t) :
  Forall Realm.consistent l -> Forall2 Realm.country_life l l' ->
  Forall Realm.consistent l'.
Proof.
  intros Hall Hmove. induction Hmove as [| c c' l l' Hlife _ IH];
    [constructor |].
  inversion Hall; subst. constructor.
  - eapply country_life_consistent; eassumption.
  - apply IH. assumption.
Qed.

(** X20.  The membership columns of the countries stay in agreement
    whatever the server handles, over the routes, over the sockets and by
    its timers: from a store where the keys of the countries are distinct
    and every country is consistent (claimed with an owner, a date of
    claim and at least one soldier, or unclaimed with none of them), every
    store reached holds the same countries, each of them consistent. *)
Theorem membership_columns_agree (s0 s : Realm.Store) :
  NoDup (map Realm.countries.id (Realm.tbl_countries s0)) ->
  Forall Realm.consistent (Realm.tbl_countries s0) ->
  Realm.reaches s0 s ->
  map Realm.countries.id (Realm.tbl_countries s)
  = map Realm.countries.id (Realm.tbl_countries s0)
  /\ Forall Realm.consistent (Realm.tbl_countries s).
Proof.
  intros Hnd Hall Hreach.
  pose proof (reaches_countries_move s0 s Hnd Hreach) as Hmove.
  split; [apply countries_life_ids; exact Hmove |].
  eapply countries_life_consistent; eassumption.
Qed.

Lemma scene_countries_keyed :
  NoDup (map Realm.countries.id (Realm.tbl_countries Realm.Scene.start)).
Proof.
  cbn. repeat constructor; cbn; intuition discriminate.
Qed.

Lemma scene_consistent :
  Forall Realm.consistent (Realm.tbl_countries Realm.Scene.start).
Proof.
  cbn. repeat constructor; cbn; try lia; discriminate.
Qed.

Lemma membership_columns_agree_witness :
  Forall Realm.consistent
    (Realm.tbl_countries
       (Realm.handle (Realm.socket_country_leave 7%nat)
          (Realm.handle (Realm.post_join 2%nat 20%nat None None)
             Realm.Scene.start))).
Proof.
  apply (membership_columns_agree Realm.Scene.start).
  - exact scene_countries_keyed.
  - exact scene_consistent.
  - apply Realm.reaches_handle, Realm.reaches_handle, Realm.reaches_start.
Defined.

(** ** Runs that keep a relation and return good values *)

Section Tidy.

Context (R : Realm.Store -> Realm.Store -> Prop) `{Realm.Trail R}.

Lemma tidy_ret {A : Type} (a : A) (Good : A -> Prop) :
  Good a -> Realm.tidy R (Realm.ret a) Good.
Proof. intros H0 s. split; [apply Realm.trail_refl | exact H0]. Qed.

Lemma tidy_throw {A : Type} (e : string) (Good : A -> Prop) :
  Realm.tidy R (Realm.throw e) Good.
Proof. intros s. split; [apply Realm.trail_refl | exact I]. Qed.

Lemma tidy_bind {A B : Type} (c : Realm.Run A) (k : A -> Realm.Run B)
  (G1 : A -> Prop) (G2 : B -> Prop) :
  Realm.tidy R c G1 -> (forall a, G1 a -> Realm.tidy R (k a) G2) ->
  Realm.tidy R (Realm.bind c k) G2.
Proof.
  intros Hc Hk s. unfold Realm.bind. destruct (Hc s) as [HR HG].
  destruct (c s) as [[a | e] s1]; cbn in *.
  - destruct (Hk a HG s1) as [HR' HG']. split; [| exact HG'].
    eapply Realm.trail_trans; eassumption.
  - split; [exact HR | exact I].
Qed.

Lemma tidy_try_catch {A : Type} (c : Realm.Run A)
  (h : string -> Realm.Run A) (Good : A -> Prop) :
  Realm.tidy R c Good -> (forall e, Realm.tidy R (h e) Good) ->
  Realm.tidy R (Realm.try_catch c h) Good.
Proof.
  intros Hc Hh s. unfold Realm.try_catch. destruct (Hc s) as [HR HG].
  destruct (c s) as [[a | e] s1]; cbn in *.
  - split; assumption.
  - destruct (Hh e s1) as [HR' HG']. split; [| exact HG'].
    eapply Realm.trail_trans; eassumption.
Qed.

Lemma tidy_weaken {A : Type} (c : Realm.Run A) (G G' : A -> Prop) :
  Realm.tidy R c G -> (forall a, G a -> G' a) -> Realm.tidy R c G'.
Proof.
  intros Hc HG s. destruct (Hc s) as [HR Hg]. split; [exact HR |].
  destruct (fst (c s)); auto.
Qed.

Lemma tidy_of_kept {A : Type} (c : Realm.Run A) :
  Realm.keeps R c -> Realm.tidy R c (fun _ => True).
Proof.
  intros Hc s. split; [apply Hc |]. destruct (fst (c s)); exact I.
Qed.

Lemma kept_of_tidy {A : Type} (c : Realm.Run A) (G : A -> Prop) :
  Realm.tidy R c G -> Realm.keeps R c.
Proof. intros Hc s. apply Hc. Qed.

Lemma tidy_for_each {A : Type} (l : list A) (body : A -> Realm.Run unit)
  (P : A -> Prop) :
  Forall P l ->
  (forall x, P x -> Realm.tidy R (body x) (fun _ => True)) ->
  Realm.tidy R (Realm.for_of l body) (fun _ => True).
Proof.
  intros Hl Hb. induction Hl as [| x l Hx _ IH]; cbn [Realm.for_of].
  - apply tidy_ret. exact I.
  - eapply tidy_bind; [apply Hb; exact Hx | intros _ _; exact IH].
Qed.

(** Saving an instance whose changed columns are named writes the
    columns named and what the hook stamps, and leaves the instance
    without unsaved changes. *)
Lemma Player_save_fields_tidy `{Realm.Besides_stamps R}
  (fields : Realm.players.column -> bool)
  (this : Instance Realm.players.t) :
  Realm.players.id (dataValues this)
  = Realm.players.id (_previousDataValues this) ->
  (forall key, Realm.Player.changed key this = true -> fields key = true) ->
  fields Realm.players.country_id_col = false ->
  Realm.tidy R (Realm.Player.save_fields fields this) Realm.clean.
Proof.
  intros Hid Hcov Hout s.
  unfold Realm.Player.save_fields, Realm.Player.beforeUpdate.
  assert (forall (after : Instance Realm.players.t) (s1 : Realm.Store),
            R s s1 ->
            Realm.tbl_players s1 = Realm.tbl_players s ->
            Realm.players.id (dataValues after)
            = Realm.players.id (_previousDataValues after) ->
            (forall key, Realm.Player.changed key after = true ->
                         fields key = true
                         \/ (Realm.Player.changed key after
                             && negb (Realm.Player.changed key this)) = true)
            -> Realm.Player.changed Realm.players.country_id_col after
               = Realm.Player.changed Realm.players.country_id_col this ->
            let fields' := fun key =>
              fields key
              || (Realm.Player.changed key after
                  && negb (Realm.Player.changed key this)) in
            let c' :=
              if negb (existsb fields' Realm.players.columns)
                 || negb (existsb (fun key => Realm.Player.changed key after)
                            Realm.players.columns)
              then Realm.ret after
              else
                Realm.bind
                  (Realm.modify (fun s =>
                     Realm.with_players
                       (update_where
                          (fun r => same_id (Realm.players.id r)
                                      (Realm.players.id (dataValues after)))
                          (Realm.players.write fields' (dataValues after))
                          (Realm.tbl_players s)) s))
                  (fun _ =>
                     Realm.ret
                       {| dataValues := dataValues after;
                          _previousDataValues :=
                            Realm.players.write fields' (dataValues after)
                              (_previousDataValues after) |}) in
            R s (snd (c' s1))
            /\ match fst (c' s1) with
               | Returned a => Realm.clean a
               | Threw _ => True
               end) as Hgen.
  { intros after s1 HR Htbl Hid' Hcov' Hsame fields' c'. unfold c'.
    destruct (negb (existsb fields' Realm.players.columns)
              || negb (existsb (fun key => Realm.Player.changed key after)
                         Realm.players.columns)) eqn:Hnone.
    - cbn. split; [exact HR |].
      unfold Realm.clean. symmetry. apply player_unchanged; [exact Hid' |].
      destruct (existsb (fun key => Realm.Player.changed key after) _)
        eqn:E; [| reflexivity].
      rewrite orb_false_r in Hnone. apply negb_true_iff in Hnone.
      apply existsb_exists in E as (key & Hkey & Hk).
      pose proof (existsb_false_all _ _ Hnone key Hkey) as Hf.
      unfold fields' in Hf. destruct (Hcov' key Hk) as [Hc | Hc];
        rewrite Hc in Hf; [discriminate |].
      rewrite orb_true_r in Hf. discriminate.
    - cbn. split.
      + eapply Realm.trail_trans; [exact HR |].
        apply Realm.besides_stamps. intros r. split; [reflexivity |].
        unfold Realm.players.write. cbn [Realm.players.country_id].
        unfold fields'. rewrite Hout, Hsame.
        destruct (Realm.Player.changed Realm.players.country_id_col this);
          reflexivity.
      + unfold Realm.clean. cbn [dataValues _previousDataValues].
        apply players_write_covering; [symmetry; exact Hid' |].
        intros key Hk. unfold fields'.
        change (Realm.Player.changed key after = true) in Hk.
        destruct (Hcov' key Hk) as [Hc | Hc]; rewrite Hc;
          [reflexivity | apply orb_true_r]. }
  destruct (Realm.Player.changed Realm.players.is_online_col this
            && Realm.players.is_online (dataValues this)) eqn:Hfire.
  - unfold Realm.bind at 1. unfold Realm.new_Date at 1.
    unfold Realm.bind at 1. unfold Realm.ret at 1.
    apply Hgen.
    + apply Realm.trail_clock.
    + reflexivity.
    + exact Hid.
    + intros key Hk.
      destruct (Realm.Player.changed key this) eqn:E.
      * left. apply Hcov. exact E.
      * right. rewrite Hk. reflexivity.
    + reflexivity.
  - unfold Realm.bind at 1. unfold Realm.ret at 1.
    apply Hgen.
    + apply Realm.trail_refl.
    + reflexivity.
    + exact Hid.
    + intros key Hk. left. apply Hcov. exact Hk.
    + reflexivity.
Qed.

End Tidy.

Section Tidy_methods.

Context (R : Realm.Store -> Realm.Store -> Prop) `{Realm.Trail R}
  `{Realm.Besides_stamps R} `{Realm.Besides_supplies R}.

Lemma Country_save_fields_tidy (fields : Realm.countries.column -> bool)
  (this : Instance Realm.countries.t) :
  Realm.countries.id (dataValues this)
  = Realm.countries.id (_previousDataValues this) ->
  (forall key, Realm.Country.changed key this = true -> fields key = true) ->
  fields Realm.countries.soldier_count_col = false ->
  Realm.tidy R (Realm.Country.save_fields fields this) Realm.clean.
Proof.
  intros Hid Hcov Hout s.
  unfold Realm.Country.save_fields, Realm.Country.beforeUpdate.
  assert (forall (after : Instance Realm.countries.t) (s1 : Realm.Store),
            R s s1 ->
            Realm.countries.id (dataValues after)
            = Realm.countries.id (_previousDataValues after) ->
            (forall key, Realm.Country.changed key after = true ->
                         fields key = true
                         \/ (Realm.Country.changed key after
                             && negb (Realm.Country.changed key this)) = true)
            -> Realm.Country.changed Realm.countries.soldier_count_col after
               = Realm.Country.changed Realm.countries.soldier_count_col this
            -> let fields' := fun key =>
              fields key
              || (Realm.Country.changed key after
                  && negb (Realm.Country.changed key this)) in
            let c' :=
              if negb (existsb fields' Realm.countries.columns)
                 || negb (existsb
                            (fun key => Realm.Country.changed key after)
                            Realm.countries.columns)
              then Realm.ret after
              else
                Realm.bind
                  (Realm.modify (fun s =>
                     Realm.with_countries
                       (update_where
                          (fun r => same_id (Realm.countries.id r)
                                      (Realm.countries.id (dataValues after)))
                          (Realm.countries.write fields' (dataValues after))
                          (Realm.tbl_countries s)) s))
                  (fun _ =>
                     Realm.ret
                       {| dataValues := dataValues after;
                          _previousDataValues :=
                            Realm.countries.write fields' (dataValues after)
                              (_previousDataValues after) |}) in
            R s (snd (c' s1))
            /\ match fst (c' s1) with
               | Returned a => Realm.clean a
               | Threw _ => True
               end) as Hgen.
  { intros after s1 HR Hid' Hcov' Hsame fields' c'. unfold c'.
    destruct (negb (existsb fields' Realm.countries.columns)
              || negb (existsb (fun key => Realm.Country.changed key after)
                         Realm.countries.columns)) eqn:Hnone.
    - cbn. split; [exact HR |].
      unfold Realm.clean. symmetry. apply country_unchanged; [exact Hid' |].
      destruct (existsb (fun key => Realm.Country.changed key after) _)
        eqn:E; [| reflexivity].
      rewrite orb_false_r in Hnone. apply negb_true_iff in Hnone.
      apply existsb_exists in E as (key & Hkey & Hk).
      pose proof (existsb_false_all _ _ Hnone key Hkey) as Hf.
      unfold fields' in Hf. destruct (Hcov' key Hk) as [Hc | Hc];
        rewrite Hc in Hf; [discriminate |].
      rewrite orb_true_r in Hf. discriminate.
    - cbn. split.
      + eapply Realm.trail_trans; [exact HR |].
        apply Realm.besides_supplies. intros r. split; [reflexivity |].
        unfold Realm.countries.write. cbn [Realm.countries.soldier_count].
        unfold fields'. rewrite Hout, Hsame.
        destruct (Realm.Country.changed Realm.countries.soldier_count_col
                    this); reflexivity.
      + unfold Realm.clean. cbn [dataValues _previousDataValues].
        apply countries_write_covering; [symmetry; exact Hid' |].
        intros key Hk. unfold fields'.
        change (Realm.Country.changed key after = true) in Hk.
        destruct (Hcov' key Hk) as [Hc | Hc]; rewrite Hc;
          [reflexivity | apply orb_true_r]. }
  destruct (Realm.Country.changed Realm.countries.is_claimed_col this
            || Realm.Country.changed Realm.countries.soldier_count_col this)
    eqn:Hfire.
  - unfold Realm.bind at 1. unfold Realm.new_Date at 1.
    unfold Realm.bind at 1. unfold Realm.ret at 1.
    apply Hgen.
    + apply Realm.trail_clock.
    + exact Hid.
    + intros key Hk.
      destruct (Realm.Country.changed key this) eqn:E.
      * left. apply Hcov. exact E.
      * right. rewrite Hk. reflexivity.
    + reflexivity.
  - unfold Realm.bind at 1. unfold Realm.ret at 1.
    apply Hgen.
    + apply Realm.trail_refl.
    + exact Hid.
    + intros key Hk. left. apply Hcov. exact Hk.
    + reflexivity.
Qed.

Lemma Player_update_tidy (values : list Realm.players.entry)
  (this : Instance Realm.players.t) :
  Realm.clean this ->
  Realm.Player.keys values Realm.players.country_id_col = false ->
  Realm.tidy R (Realm.Player.update values this) Realm.clean.
Proof.
  intros Hclean Hkeys. unfold Realm.Player.update.
  destruct (Player_set_id values this) as [Hs1 Hs2].
  apply Player_save_fields_tidy; auto.
  - rewrite Hs1, Hs2, Hclean. reflexivity.
  - intros key Hk. apply Player_set_changed in Hk as [Hk | Hk]; [exact Hk |].
    unfold Realm.Player.changed in Hk. rewrite Hclean in Hk.
    rewrite players_differs_refl in Hk. discriminate.
Qed.

Lemma Country_update_tidy (values : list Realm.countries.entry)
  (this : Instance Realm.countries.t) :
  Realm.clean this ->
  Realm.Country.keys values Realm.countries.soldier_count_col = false ->
  Realm.tidy R (Realm.Country.update values this) Realm.clean.
Proof.
  intros Hclean Hkeys. unfold Realm.Country.update.
  destruct (Country_set_id values this) as [Hs1 Hs2].
  apply Country_save_fields_tidy; auto.
  - rewrite Hs1, Hs2, Hclean. reflexivity.
  - intros key Hk.
    apply Country_set_changed in Hk as [Hk | Hk]; [exact Hk |].
    unfold Realm.Country.changed in Hk. rewrite Hclean in Hk.
    rewrite countries_differs_refl in Hk. discriminate.
Qed.

(** Saving after assignments that leave the key and the membership. *)
Lemma Player_save_tidy (f : Realm.players.t -> Realm.players.t)
  (this : Instance Realm.players.t) :
  Realm.clean this ->
  (forall r, Realm.players.id (f r) = Realm.players.id r
             /\ Realm.players.country_id (f r) = Realm.players.country_id r) ->
  Realm.tidy R (Realm.Player.save (assign f this)) Realm.clean.
Proof.
  intros Hclean Hf. unfold Realm.Player.save.
  apply Player_save_fields_tidy; auto.
  - cbn [assign dataValues _previousDataValues].
    rewrite (proj1 (Hf _)), Hclean. reflexivity.
  - unfold Realm.Player.changed, Realm.players.differs.
    cbn [assign dataValues _previousDataValues].
    rewrite (proj2 (Hf _)), Hclean, isEqual_option_Id_refl. reflexivity.
Qed.

Lemma Country_save_tidy (f : Realm.countries.t -> Realm.countries.t)
  (this : Instance Realm.countries.t) :
  Realm.clean this ->
  (forall r, Realm.countries.id (f r) = Realm.countries.id r
             /\ Realm.countries.soldier_count (f r)
                = Realm.countries.soldier_count r) ->
  Realm.tidy R (Realm.Country.save (assign f this)) Realm.clean.
Proof.
  intros Hclean Hf. unfold Realm.Country.save.
  apply Country_save_fields_tidy; auto.
  - cbn [assign dataValues _previousDataValues].
    rewrite (proj1 (Hf _)), Hclean. reflexivity.
  - unfold Realm.Country.changed, Realm.countries.differs.
    cbn [assign dataValues _previousDataValues].
    rewrite (proj2 (Hf _)), Hclean, isEqual_Z_refl. reflexivity.
Qed.

Lemma Player_findByPk_tidy (id : Id) :
  Realm.tidy R (Realm.Player.findByPk id)
    (fun found => forall player, found = Some player -> Realm.clean player).
Proof.
  intros s. split; [apply Realm.trail_refl |]. cbn.
  intros player Hp. destruct (find _ _); [| discriminate].
  injection Hp as <-. reflexivity.
Qed.

Lemma Country_findByPk_tidy (id : Id) :
  Realm.tidy R (Realm.Country.findByPk id)
    (fun found => forall country, found = Some country ->
                                  Realm.clean country).
Proof.
  intros s. split; [apply Realm.trail_refl |]. cbn.
  intros country Hc. destruct (find _ _); [| discriminate].
  injection Hc as <-. reflexivity.
Qed.

Lemma updatePosition_tidy (lat lng : Rdefinitions.R)
  (this : Instance Realm.players.t) :
  Realm.clean this ->
  Realm.tidy R (Realm.Player.updatePosition lat lng this) Realm.clean.
Proof.
  intros Hclean. unfold Realm.Player.updatePosition.
  eapply (tidy_bind R) with (G1 := fun _ => True).
  - apply (tidy_of_kept R). intros s. apply Realm.trail_clock.
  - intros now _.
    apply (Player_save_tidy
             (fun r => Realm.players.set_last_movement (Some now)
                         (Realm.players.set_current_position
                            (Some (lng, lat)) r)) this Hclean).
    intros r. split; reflexivity.
Qed.

Lemma consumeResources_tidy (amount : Z)
  (this : Instance Realm.players.t) :
  Realm.clean this ->
  Realm.tidy R (Realm.Player.consumeResources amount this)
    (fun result => Realm.clean (snd result)).
Proof.
  intros Hclean. unfold Realm.Player.consumeResources.
  destruct (_ <? _); [apply (tidy_ret R); exact Hclean |].
  eapply (tidy_bind R) with (G1 := Realm.clean).
  - apply (Player_save_tidy
             (Realm.players.set_resources
                (Realm.players.resources (dataValues this) - amount))
             this Hclean).
    intros r. split; reflexivity.
  - intros a Ha. apply (tidy_ret R). exact Ha.
Qed.

Lemma generateResources_tidy (this : Instance Realm.countries.t) :
  Realm.clean this ->
  Realm.tidy R (Realm.Country.generateResources this) Realm.clean.
Proof.
  intros Hclean. unfold Realm.Country.generateResources.
  apply (Country_save_tidy
           (Realm.countries.set_resources
              (Realm.countries.resources (dataValues this)
               + Realm.Math_floor
                   (Realm.countries.resource_generation_rate
                      (dataValues this)))) this Hclean).
  intros r. split; reflexivity.
Qed.

End Tidy_methods.

Section Tidy_handlers.

Context (Rel : Realm.Store -> Realm.Store -> Prop) `{Realm.Trail Rel}
  `{Realm.Besides_stamps Rel} `{Realm.Besides_supplies Rel}
  `{Realm.Besides_movements Rel} `{Realm.Besides_history Rel}
  `{Realm.Besides_connections Rel} `{Realm.Besides_rooms Rel}
  `{Realm.Besides_clean_sockets Rel} `{Realm.Given_clean_sockets Rel}.

Lemma frame_new_Date : Realm.tidy Rel Realm.new_Date (fun _ => True).
Proof. apply (tidy_of_kept Rel). intros s. apply Realm.trail_clock. Qed.

Lemma frame_gets {A : Type} (f : Realm.Store -> A) :
  Realm.tidy Rel (Realm.gets f) (fun _ => True).
Proof. apply (tidy_of_kept Rel). intros s. apply Realm.trail_refl. Qed.

Lemma frame_emit (to : Realm.Target) (e : Realm.Event) :
  Realm.tidy Rel (Realm.emit to e) (fun _ => True).
Proof. apply (tidy_of_kept Rel). intros s. apply Realm.trail_emitted. Qed.

Lemma frame_emit_error (sid : nat) (message : string) :
  Realm.tidy Rel (Realm.socketHandler.emit_error sid message)
    (fun _ => True).
Proof. apply frame_emit. Qed.

Lemma authenticateToken_tidy (playerId : Id) :
  Realm.tidy Rel (Realm.auth.authenticateToken playerId)
    (fun v => forall player, v = inr player -> Realm.clean player).
Proof.
  unfold Realm.auth.authenticateToken.
  apply (tidy_try_catch Rel);
    [| intros e; apply (tidy_ret Rel); intros ? [=]].
  eapply (tidy_bind Rel); [apply (Player_findByPk_tidy Rel) |].
  intros [player |] Hfound;
    [| apply (tidy_ret Rel); intros ? [=]].
  specialize (Hfound player eq_refl).
  eapply (tidy_bind Rel)
    with (G1 := fun v => forall p, v = inr p -> Realm.clean p).
  - destruct (Realm.players.is_banned (dataValues player));
      [| apply (tidy_ret Rel); intros ? [= <-]; exact Hfound].
    eapply (tidy_bind Rel); [apply frame_new_Date |]. intros now _.
    destruct (match Realm.players.ban_expires (dataValues player) with
              | Some _ => _ | None => _ end);
      [apply (tidy_ret Rel); intros ? [=] |].
    eapply (tidy_bind Rel).
    + apply (Player_update_tidy Rel); [exact Hfound | reflexivity].
    + intros p Hp. apply (tidy_ret Rel). intros ? [= <-]. exact Hp.
  - intros [answer | p] Hp; [apply (tidy_ret Rel); intros ? [=] |].
    specialize (Hp p eq_refl).
    eapply (tidy_bind Rel); [apply frame_new_Date |]. intros now _.
    eapply (tidy_bind Rel).
    + apply (Player_update_tidy Rel); [exact Hp | reflexivity].
    + intros q Hq. apply (tidy_ret Rel). intros ? [= <-]. exact Hq.
Qed.

Lemma PlayerMovement_create_frame player_id from_position to_position
  country_id movement_type resources_consumed timestamp :
  Realm.tidy Rel
    (Realm.PlayerMovement.create player_id from_position to_position
       country_id movement_type resources_consumed timestamp)
    (fun _ => True).
Proof.
  apply (tidy_of_kept Rel). unfold Realm.PlayerMovement.create.
  apply kept_bind; [exact _ | intros s; apply Realm.trail_uuid |].
  intros id. destruct (existsb _ _).
  - apply kept_bind; [exact _ | | intros; apply kept_ret; exact _].
    intros s. apply Realm.besides_movements.
  - apply kept_throw. exact _.
Qed.

Lemma move_handler_tidy (player : Instance Realm.players.t)
  (coordinates : Rdefinitions.R * Rdefinitions.R)
  (body_type : option string) :
  Realm.clean player ->
  Realm.tidy Rel
    (Realm.players_routes.move_handler player coordinates body_type)
    (fun _ => True).
Proof.
  intros Hclean. unfold Realm.players_routes.move_handler.
  destruct coordinates as [lat lng].
  apply (tidy_try_catch Rel); [| intros e; apply (tidy_ret Rel); exact I].
  destruct (Realm.players.country_id (dataValues player));
    [| apply (tidy_ret Rel); exact I].
  destruct (_ <? _); [apply (tidy_ret Rel); exact I |].
  eapply (tidy_bind Rel); [apply (updatePosition_tidy Rel); exact Hclean |].
  intros p1 Hp1.
  eapply (tidy_bind Rel);
    [apply (consumeResources_tidy Rel); exact Hp1 |].
  intros consumed Hp2.
  eapply (tidy_bind Rel); [apply frame_new_Date |]. intros now _.
  eapply (tidy_bind Rel); [apply PlayerMovement_create_frame |].
  intros record _.
  eapply (tidy_bind Rel); [apply frame_gets |]. intros io _.
  eapply (tidy_bind Rel) with (G1 := fun _ => True);
    [| intros; apply (tidy_ret Rel); exact I].
  destruct io; [| apply (tidy_ret Rel); exact I].
  eapply (tidy_bind Rel); [apply frame_new_Date |]. intros now' _.
  destruct (Realm.players.country_id _);
    [apply frame_emit | apply (tidy_ret Rel); exact I].
Qed.

Lemma checkMovementCooldown_frame (player : Instance Realm.players.t) :
  Realm.tidy Rel (Realm.auth.checkMovementCooldown player) (fun _ => True).
Proof.
  apply (tidy_of_kept Rel).
  unfold Realm.auth.checkMovementCooldown, Realm.Player.canMove.
  apply kept_bind; [exact _ | |].
  - destruct (Realm.players.last_movement _); [| apply kept_ret; exact _].
    apply kept_bind; [exact _ | apply kept_gets; exact _ |]. intros c.
    apply kept_bind; [exact _ | apply kept_new_Date; exact _ |]. intros n.
    apply kept_ret. exact _.
  - intros ok. destruct (negb ok); [| apply kept_ret; exact _].
    apply kept_bind; [exact _ | apply kept_gets; exact _ |]. intros c.
    apply kept_bind; [exact _ | apply kept_new_Date; exact _ |]. intros n.
    destruct (Realm.players.last_movement _);
      [apply kept_ret | apply kept_throw]; exact _.
Qed.

Lemma move_tidy playerId coordinates movement_type :
  Realm.tidy Rel
    (Realm.players_routes.move playerId coordinates movement_type)
    (fun _ => True).
Proof.
  unfold Realm.players_routes.move.
  eapply (tidy_bind Rel); [apply authenticateToken_tidy |].
  intros [answer | player] Hp; [apply (tidy_ret Rel); exact I |].
  specialize (Hp player eq_refl).
  eapply (tidy_bind Rel); [apply checkMovementCooldown_frame |].
  intros [answer |] _; [apply (tidy_ret Rel); exact I |].
  destruct (Realm.auth.validateCoordinates coordinates);
    [apply (tidy_ret Rel); exact I |].
  apply move_handler_tidy. exact Hp.
Qed.

Lemma logout_tidy playerId :
  Realm.tidy Rel (Realm.auth_routes.logout playerId) (fun _ => True).
Proof.
  unfold Realm.auth_routes.logout.
  eapply (tidy_bind Rel); [apply authenticateToken_tidy |].
  intros [answer | player] Hp; [apply (tidy_ret Rel); exact I |].
  specialize (Hp player eq_refl).
  apply (tidy_try_catch Rel); [| intros e; apply (tidy_ret Rel); exact I].
  eapply (tidy_bind Rel).
  - apply (Player_update_tidy Rel); [exact Hp | reflexivity].
  - intros; apply (tidy_ret Rel); exact I.
Qed.

Lemma requireCountryOwner_tidy (player : Instance Realm.players.t)
  (params_countryId body_countryId : option Id) :
  Realm.tidy Rel
    (Realm.auth.requireCountryOwner player params_countryId body_countryId)
    (fun v => forall country, v = inr country -> Realm.clean country).
Proof.
  intros s.
  destruct (requireCountryOwner_reads player params_countryId
              body_countryId s) as (v & Hv & Hc).
  rewrite Hv. split; [apply Realm.trail_refl |]. cbn [fst].
  intros country Hcountry. destruct (Hc country Hcountry) as (c & -> & _).
  reflexivity.
Qed.

Lemma settings_handler_tidy (country : Instance Realm.countries.t)
  (max_soldiers : option Z) (defense_strength : option Rdefinitions.R) :
  Realm.clean country ->
  Realm.tidy Rel
    (Realm.countries_routes.settings_handler country max_soldiers
       defense_strength) (fun _ => True).
Proof.
  intros Hclean. unfold Realm.countries_routes.settings_handler.
  apply (tidy_try_catch Rel); [| intros e; apply (tidy_ret Rel); exact I].
  eapply (tidy_bind Rel); [apply frame_gets |]. intros maxAllowed _.
  destruct (match max_soldiers with Some _ => _ | None => _ end);
    [apply (tidy_ret Rel); exact I |].
  destruct (match defense_strength with Some _ => _ | None => _ end);
    [apply (tidy_ret Rel); exact I |].
  eapply (tidy_bind Rel).
  - apply (Country_update_tidy Rel); [exact Hclean |].
    destruct max_soldiers, defense_strength; reflexivity.
  - intros; apply (tidy_ret Rel); exact I.
Qed.

Lemma settings_tidy playerId id body_countryId max_soldiers
  defense_strength :
  Realm.tidy Rel
    (Realm.countries_routes.settings playerId id body_countryId
       max_soldiers defense_strength) (fun _ => True).
Proof.
  unfold Realm.countries_routes.settings.
  eapply (tidy_bind Rel); [apply authenticateToken_tidy |].
  intros [answer | player] _; [apply (tidy_ret Rel); exact I |].
  eapply (tidy_bind Rel); [apply requireCountryOwner_tidy |].
  intros [answer | country] Hc; [apply (tidy_ret Rel); exact I |].
  apply settings_handler_tidy. apply Hc. reflexivity.
Qed.

Lemma resource_tick_tidy :
  Realm.tidy Rel Realm.socketHandler.resource_tick (fun _ => True).
Proof.
  unfold Realm.socketHandler.resource_tick.
  apply (tidy_try_catch Rel); [| intros e; apply (tidy_ret Rel); exact I].
  eapply (tidy_bind Rel)
    with (G1 := fun l => Forall Realm.clean l).
  - intros s. split; [apply Realm.trail_refl |]. cbn.
    apply Forall_forall. intros x Hx. apply in_map_iff in Hx.
    destruct Hx as (c & <- & _). reflexivity.
  - intros l Hl. apply (tidy_for_each Rel l _ Realm.clean Hl).
    intros country Hclean.
    eapply (tidy_bind Rel);
      [apply (generateResources_tidy Rel); exact Hclean |].
    intros c' _.
    eapply (tidy_bind Rel); [apply frame_gets |]. intros tracked _.
    destruct tracked; [| apply (tidy_ret Rel); exact I].
    eapply (tidy_bind Rel); [apply frame_new_Date |]. intros now _.
    apply frame_emit.
Qed.

Lemma stats_tick_tidy :
  Realm.tidy Rel Realm.socketHandler.stats_tick (fun _ => True).
Proof.
  unfold Realm.socketHandler.stats_tick.
  eapply (tidy_bind Rel); [apply frame_new_Date |]. intros now _.
  eapply (tidy_bind Rel); [apply frame_gets |]. intros online _.
  eapply (tidy_bind Rel); [apply frame_gets |]. intros active _.
  apply frame_emit.
Qed.

(** *** The events of a socket *)

Lemma set_player_tidy (sid : nat) (player : Instance Realm.players.t) :
  Realm.clean player ->
  Realm.tidy Rel (Realm.socketHandler.set_player sid player)
    (fun _ => True).
Proof.
  intros Hclean s. split; [| exact I].
  apply Realm.besides_clean_sockets. intros Hs.
  apply Forall_update_where; [exact Hs |]. intros k _ _. exact Hclean.
Qed.

Lemma socket_join_tidy (sid : nat) (room : Id) :
  Realm.tidy Rel (Realm.socketHandler.socket_join sid room)
    (fun _ => True).
Proof.
  intros s. split; [| exact I].
  apply Realm.besides_clean_sockets. intros Hs.
  apply Forall_update_where; [exact Hs |]. intros k Hk _. exact Hk.
Qed.

Lemma track_tidy (country player : Id) :
  Realm.tidy Rel (Realm.socketHandler.track country player)
    (fun _ => True).
Proof. apply (tidy_of_kept Rel). apply kept_track; exact _. Qed.

Lemma untrack_tidy (country player : Id) :
  Realm.tidy Rel (Realm.socketHandler.untrack country player)
    (fun _ => True).
Proof. apply (tidy_of_kept Rel). apply kept_untrack; exact _. Qed.

Lemma server_stats_now_tidy :
  Realm.tidy Rel Realm.socketHandler.server_stats_now (fun _ => True).
Proof. apply frame_gets. Qed.

Lemma authenticateSocket_tidy (playerId : Id) :
  Realm.tidy Rel (Realm.socketHandler.authenticateSocket playerId)
    (fun v => forall player, v = inr player -> Realm.clean player).
Proof.
  unfold Realm.socketHandler.authenticateSocket.
  apply (tidy_try_catch Rel);
    [| intros e; apply (tidy_ret Rel); intros ? [=]].
  eapply (tidy_bind Rel); [apply (Player_findByPk_tidy Rel) |].
  intros [player |] Hfound;
    [| apply (tidy_ret Rel); intros ? [=]].
  destruct (Realm.players.is_banned _);
    apply (tidy_ret Rel); intros ? [=]. subst. apply Hfound. reflexivity.
Qed.

Lemma handleConnection_tidy (sid : nat)
  (player : Instance Realm.players.t) :
  Realm.clean player ->
  Realm.tidy Rel (Realm.socketHandler.handleConnection sid player)
    (fun _ => True).
Proof.
  intros Hclean. unfold Realm.socketHandler.handleConnection.
  eapply (tidy_bind Rel) with (G1 := fun _ => True).
  { intros s. split; [| exact I].
    apply Realm.besides_clean_sockets. intros Hs.
    apply Forall_app. split; [exact Hs |].
    constructor; [exact Hclean | constructor]. }
  intros _ _.
  eapply (tidy_bind Rel); [apply frame_new_Date |]. intros now _.
  eapply (tidy_bind Rel) with (G1 := fun _ => True).
  { intros s. split; [apply Realm.besides_connections | exact I]. }
  intros _ _.
  eapply (tidy_bind Rel); [apply frame_new_Date |]. intros now' _.
  eapply (tidy_bind Rel) with (G1 := fun _ => True).
  { destruct (Realm.players.country_id _);
      [| apply (tidy_ret Rel); exact I].
    eapply (tidy_bind Rel); [apply socket_join_tidy |]. intros _ _.
    eapply (tidy_bind Rel); [apply track_tidy |]. intros _ _.
    eapply (tidy_bind Rel); [apply frame_new_Date |]. intros now'' _.
    apply frame_emit. }
  intros _ _.
  eapply (tidy_bind Rel); [apply frame_new_Date |]. intros now'' _.
  eapply (tidy_bind Rel); [apply frame_gets |]. intros online _.
  eapply (tidy_bind Rel); [apply frame_emit |]. intros _ _.
  eapply (tidy_bind Rel); [apply server_stats_now_tidy |]. intros stats _.
  eapply (tidy_bind Rel); [apply frame_emit |]. intros _ _.
  apply (tidy_try_catch Rel); [| intros e; apply (tidy_ret Rel); exact I].
  eapply (tidy_bind Rel).
  - apply (Player_update_tidy Rel
             [Realm.players.is_online_is true;
              Realm.players.last_active_is now'] player Hclean).
    reflexivity.
  - intros saved Hsaved. apply set_player_tidy. exact Hsaved.
Qed.

Lemma connection_tidy (sid : nat) (playerId : Id) :
  Realm.tidy Rel (Realm.socketHandler.connection sid playerId)
    (fun _ => True).
Proof.
  unfold Realm.socketHandler.connection.
  eapply (tidy_bind Rel); [apply frame_gets |]. intros [known |] _;
    [apply (tidy_ret Rel); exact I |].
  eapply (tidy_bind Rel); [apply authenticateSocket_tidy |].
  intros [refused | player] Hp; [apply (tidy_ret Rel); exact I |].
  apply handleConnection_tidy. apply Hp. reflexivity.
Qed.

Lemma canMove_frame (player : Instance Realm.players.t) :
  Realm.tidy Rel (Realm.Player.canMove player) (fun _ => True).
Proof.
  unfold Realm.Player.canMove.
  destruct (Realm.players.last_movement _);
    [| apply (tidy_ret Rel); exact I].
  eapply (tidy_bind Rel); [apply frame_gets |]. intros cooldown _.
  eapply (tidy_bind Rel); [apply frame_new_Date |]. intros now _.
  apply (tidy_ret Rel). exact I.
Qed.

Lemma on_player_move_tidy (socket : Realm.Socket)
  (lat lng : option Rdefinitions.R) (data_movement_type : option string) :
  Realm.clean (Realm.socket_player socket) ->
  Realm.tidy Rel
    (Realm.socketHandler.on_player_move socket lat lng data_movement_type)
    (fun _ => True).
Proof.
  intros Hclean. unfold Realm.socketHandler.on_player_move.
  apply (tidy_try_catch Rel); [| intros e; apply frame_emit_error].
  destruct lat as [lat |]; [| apply frame_emit_error].
  destruct lng as [lng |]; [| apply frame_emit_error].
  destruct (_ || _); [apply frame_emit_error |].
  eapply (tidy_bind Rel); [apply canMove_frame |]. intros ok _.
  destruct (negb ok); [apply frame_emit_error |].
  eapply (tidy_bind Rel); [apply (updatePosition_tidy Rel); exact Hclean |].
  intros player Hplayer.
  eapply (tidy_bind Rel); [apply set_player_tidy; exact Hplayer |].
  intros _ _.
  eapply (tidy_bind Rel) with (G1 := fun _ => True).
  { destruct (Realm.players.country_id _);
      [| apply (tidy_ret Rel); exact I].
    eapply (tidy_bind Rel); [apply frame_new_Date |]. intros now _.
    apply frame_emit. }
  intros _ _.
  eapply (tidy_bind Rel); [apply frame_new_Date |]. intros now _.
  apply frame_emit.
Qed.

Lemma on_disconnect_tidy (socket : Realm.Socket) :
  Realm.clean (Realm.socket_player socket) ->
  Realm.tidy Rel (Realm.socketHandler.on_disconnect socket)
    (fun _ => True).
Proof.
  intros Hclean. unfold Realm.socketHandler.on_disconnect.
  eapply (tidy_bind Rel) with (G1 := fun _ => True).
  { apply (tidy_try_catch Rel); [| intros e; apply (tidy_ret Rel); exact I].
    eapply (tidy_bind Rel).
    { apply (Player_update_tidy Rel); [exact Hclean | reflexivity]. }
    intros player Hplayer.
    eapply (tidy_bind Rel); [apply set_player_tidy; exact Hplayer |].
    intros _ _.
    eapply (tidy_bind Rel) with (G1 := fun _ => True).
    { intros s. split; [apply Realm.besides_connections | exact I]. }
    intros _ _.
    eapply (tidy_bind Rel) with (G1 := fun _ => True).
    { destruct (Realm.players.country_id _);
        [| apply (tidy_ret Rel); exact I].
      eapply (tidy_bind Rel); [apply frame_gets |]. intros [|] _;
        [| apply (tidy_ret Rel); exact I].
      eapply (tidy_bind Rel); [apply untrack_tidy |]. intros _ _.
      eapply (tidy_bind Rel); [apply frame_new_Date |]. intros now _.
      apply frame_emit. }
    intros _ _.
    eapply (tidy_bind Rel); [apply server_stats_now_tidy |].
    intros stats _. apply frame_emit. }
  intros _ _ s. split; [| exact I].
  apply Realm.besides_clean_sockets. intros Hs.
  apply Forall_forall. intros k Hk. apply filter_In in Hk as [Hk _].
  revert k Hk. apply Forall_forall. exact Hs.
Qed.

(** A handler of a socket is run on the socket as the store holds it. *)
Lemma on_tidy (sid : nat) (handler : Realm.Socket -> Realm.Run unit) :
  (forall socket, Realm.clean (Realm.socket_player socket) ->
                  Realm.tidy Rel (handler socket) (fun _ => True)) ->
  Realm.tidy Rel (Realm.socketHandler.on sid handler) (fun _ => True).
Proof.
  intros Hh s. split; [| destruct (fst _); exact I].
  apply Realm.given_clean_sockets. intros Hs.
  unfold Realm.socketHandler.on, Realm.bind, Realm.gets.
  destruct (Realm.socketHandler.socket_of sid s) as [socket |] eqn:E;
    [| apply Realm.trail_refl].
  apply Hh. apply find_some in E as [E _].
  revert socket E. apply Forall_forall. exact Hs.
Qed.

End Tidy_handlers.

(** ** The census

    The membership of the players and the soldier counts of the
    countries, through the requests that neither enlist nor discharge a
    player. *)

Lemma map_update_where_same {A B : Type} (g : A -> B) (sel : A -> bool)
  (f : A -> A) (l : list A) :
  (forall r, g (f r) = g r) ->
  map g (update_where sel f l) = map g l.
Proof.
  intros Hf. unfold update_where. rewrite map_map. apply map_ext.
  intros r. destruct (sel r); [apply Hf | reflexivity].
Qed.

#[local] Instance census_tidy_trail : Realm.Trail Realm.census_tidy.
Proof.
  split.
  - intros s Hs. split; [split; reflexivity | exact Hs].
  - intros s1 s2 s3 H12 H23 Hs. destruct (H12 Hs) as [[A B] C].
    destruct (H23 C) as [[A' B'] C'].
    split; [split; congruence | exact C'].
  - intros n s Hs. split; [split; reflexivity | exact Hs].
  - intros n s Hs. split; [split; reflexivity | exact Hs].
  - intros es s Hs. split; [split; reflexivity | exact Hs].
Qed.

#[local] Instance census_tidy_stamps :
  Realm.Besides_stamps Realm.census_tidy.
Proof.
  intros sel f s Hf Hs. split; [split; [| reflexivity] | exact Hs].
  cbn. apply map_update_where_same. intros r.
  destruct (Hf r) as [-> ->]. reflexivity.
Qed.

#[local] Instance census_tidy_supplies :
  Realm.Besides_supplies Realm.census_tidy.
Proof.
  intros sel f s Hf Hs. split; [split; [reflexivity |] | exact Hs].
  cbn. apply map_update_where_same. intros r.
  destruct (Hf r) as [-> ->]. reflexivity.
Qed.

#[local] Instance census_tidy_movements :
  Realm.Besides_movements Realm.census_tidy.
Proof. intros v s Hs. split; [split; reflexivity | exact Hs]. Qed.

#[local] Instance census_tidy_history :
  Realm.Besides_history Realm.census_tidy.
Proof. intros v s Hs. split; [split; reflexivity | exact Hs]. Qed.

#[local] Instance census_tidy_connections :
  Realm.Besides_connections Realm.census_tidy.
Proof. intros v s Hs. split; [split; reflexivity | exact Hs]. Qed.

#[local] Instance census_tidy_rooms :
  Realm.Besides_rooms Realm.census_tidy.
Proof. intros v s Hs. split; [split; reflexivity | exact Hs]. Qed.

#[local] Instance census_tidy_clean_sockets :
  Realm.Besides_clean_sockets Realm.census_tidy.
Proof.
  intros v s Hv Hs. split; [split; reflexivity | exact (Hv Hs)].
Qed.

#[local] Instance census_tidy_given :
  Realm.Given_clean_sockets Realm.census_tidy.
Proof. intros s s' H Hs. exact (H Hs Hs). Qed.

(** The requests that are neither a join nor a leave keep the census. *)
Lemma serve_census_tidy (r : Realm.Request) :
  match r with
  | Realm.post_join _ _ _ _ | Realm.post_leave _ _
  | Realm.socket_country_join _ _ | Realm.socket_country_leave _ => True
  | _ => forall s, Realm.census_tidy s (Realm.handle r s)
  end.
Proof.
  destruct r; try exact I; intros s; unfold Realm.handle, Realm.serve;
    apply (kept_of_tidy Realm.census_tidy _ (fun _ => True));
    (eapply (tidy_bind Realm.census_tidy);
     [| intros; apply (tidy_ret Realm.census_tidy); exact I]).
  - apply (move_tidy Realm.census_tidy).
  - apply (settings_tidy Realm.census_tidy).
  - apply (logout_tidy Realm.census_tidy).
  - apply (connection_tidy Realm.census_tidy).
  - apply (on_tidy Realm.census_tidy). intros socket Hclean.
    apply (on_player_move_tidy Realm.census_tidy). exact Hclean.
  - apply (on_tidy Realm.census_tidy). intros socket Hclean.
    apply (on_disconnect_tidy Realm.census_tidy). exact Hclean.
  - apply (resource_tick_tidy Realm.census_tidy).
  - apply (stats_tick_tidy Realm.census_tidy).
Qed.

(** ** Enlisting and discharging

    The join route and the leave route write the membership of one player
    and the soldier count of one country. *)

Lemma update_where_twice {A : Type} (sel : A -> bool) (f g : A -> A)
  (l : list A) :
  (forall r, sel r = true -> sel (g r) = true) ->
  update_where sel f (update_where sel g l)
  = update_where sel (fun r => f (g r)) l.
Proof.
  intros Hg. unfold update_where. rewrite map_map. apply map_ext.
  intros r. destruct (sel r) eqn:E; [| rewrite E; reflexivity].
  rewrite (Hg r E). reflexivity.
Qed.

(** The rows that count, after the row of one key is written. *)
Lemma count_update_where {A : Type} (key : A -> Id) (P : A -> bool)
  (f : A -> A) (q : A) (l : list A) :
  NoDup (map key l) -> In q l ->
  Z.of_nat
    (List.length
       (filter P (update_where (fun r => same_id (key r) (key q)) f l)))
  = Z.of_nat (List.length (filter P l))
    + Z.b2z (P (f q)) - Z.b2z (P q).
Proof.
  induction l as [| a l IH]; intros Hnd Hin; [destruct Hin |].
  cbn [map] in Hnd. apply NoDup_cons_iff in Hnd as [Hout Hnd].
  unfold update_where in *. cbn [map filter].
  destruct Hin as [-> | Hin].
  - rewrite same_id_refl.
    fold (update_where (fun r => same_id (key r) (key q)) f l).
    rewrite update_where_none.
    + destruct (P (f q)), (P q); cbn [List.length Z.b2z]; lia.
    + intros r Hr E. apply same_id_eq in E. exfalso. apply Hout.
      rewrite <- E. apply in_map. exact Hr.
  - assert (same_id (key a) (key q) = false) as ->.
    { apply same_id_neq. intros E. apply Hout. rewrite E.
      apply in_map. exact Hin. }
    specialize (IH Hnd Hin).
    destruct (P a); cbn [List.length]; lia.
Qed.

(** The head count after one player is enlisted or discharged, and the
    count of their country is moved by as much. *)
Lemma head_count_enlisted (s s' : Realm.Store) (q : Realm.players.t)
  (c c' : Realm.countries.t) (f : Realm.players.t -> Realm.players.t) :
  NoDup (map Realm.players.id (Realm.tbl_players s)) ->
  NoDup (map Realm.countries.id (Realm.tbl_countries s)) ->
  Realm.head_count s ->
  In q (Realm.tbl_players s) -> In c (Realm.tbl_countries s) ->
  Realm.countries.id c' = Realm.countries.id c ->
  Realm.tbl_countries s'
  = update_where
      (fun r => same_id (Realm.countries.id r) (Realm.countries.id c'))
      (fun _ => c') (Realm.tbl_countries s) ->
  Realm.tbl_players s'
  = update_where
      (fun r => same_id (Realm.players.id r) (Realm.players.id q)) f
      (Realm.tbl_players s) ->
  (forall k, k <> Realm.countries.id c ->
             Realm.is_member k (f q) = Realm.is_member k q) ->
  Realm.countries.soldier_count c'
  = Realm.countries.soldier_count c
    + Z.b2z (Realm.is_member (Realm.countries.id c) (f q))
    - Z.b2z (Realm.is_member (Realm.countries.id c) q) ->
  Realm.head_count s'.
Proof.
  intros Hndp Hndc Hhc Hq Hc Hid Hcs Hps Hother Hcount.
  unfold Realm.head_count, Realm.members in *. rewrite Hcs, Hps.
  apply Forall_forall. intros x Hx. unfold update_where in Hx at 1.
  apply in_map_iff in Hx as (r & Hx & Hr).
  rewrite (count_update_where Realm.players.id); [| exact Hndp | exact Hq].
  pose proof (proj1 (Forall_forall _ _) Hhc r Hr) as Hrow. cbv beta in Hrow.
  destruct (same_id (Realm.countries.id r) (Realm.countries.id c')) eqn:E.
  - apply same_id_eq in E. subst x.
    assert (r = c) as ->.
    { apply (NoDup_key_eq Realm.countries.id (Realm.tbl_countries s));
        auto. congruence. }
    rewrite Hid. lia.
  - apply same_id_neq in E. subst x. rewrite Hother; [lia | congruence].
Qed.

Lemma players_write_ext (fields fields' : Realm.players.column -> bool)
  (new old : Realm.players.t) :
  (forall key, fields key = fields' key) ->
  Realm.players.write fields new old = Realm.players.write fields' new old.
Proof. intros H. unfold Realm.players.write. rewrite !H. reflexivity. Qed.

(** An update of the membership of a loaded player writes the columns it
    names to their row, whatever the row holds by now. *)
Lemma Player_update_writes (values : list Realm.players.entry)
  (q : Realm.players.t) (s : Realm.Store) :
  Realm.Player.keys values Realm.players.country_id_col = true ->
  Realm.Player.keys values Realm.players.is_online_col = false ->
  Realm.players.country_id
    (dataValues (Realm.Player.set values (build q)))
  <> Realm.players.country_id q ->
  exists player,
    Realm.Player.update values (build q) s
    = (Returned player,
       Realm.with_players
         (update_where
            (fun r => same_id (Realm.players.id r) (Realm.players.id q))
            (Realm.players.write (Realm.Player.keys values)
               (dataValues (Realm.Player.set values (build q))))
            (Realm.tbl_players s)) s)
    /\ Realm.players.id (dataValues player) = Realm.players.id q.
Proof.
  intros Hk Hon Hne.
  destruct (Player_set_id values (build q)) as [Hid Hprev].
  set (this := Realm.Player.set values (build q)) in *.
  cbn [build dataValues _previousDataValues] in Hid, Hprev.
  assert (Realm.Player.changed Realm.players.is_online_col this = false)
    as Hoff.
  { destruct (Realm.Player.changed _ this) eqn:E; [| reflexivity].
    apply Player_set_changed in E as [E | E]; [congruence |].
    rewrite Player_changed_build in E. discriminate. }
  assert (Realm.Player.changed Realm.players.country_id_col this = true)
    as Hch.
  { unfold Realm.Player.changed. rewrite Hprev.
    cbn [Realm.players.differs].
    destruct (Realm.isEqual (Realm.players.country_id q)
                (Realm.players.country_id (dataValues this))) eqn:E;
      [| reflexivity].
    apply (proj1 (isEqual_option_Id_true _ _)) in E. congruence. }
  unfold Realm.Player.update, Realm.Player.save_fields,
    Realm.Player.beforeUpdate. fold this. rewrite Hoff. cbn [andb].
  erewrite bind_run; [| reflexivity].
  assert (existsb
            (fun key =>
               Realm.Player.keys values key
               || Realm.Player.changed key this
                  && negb (Realm.Player.changed key this))
            Realm.players.columns = true) as ->.
  { apply existsb_exists. exists Realm.players.country_id_col.
    split; [apply players_columns_complete | rewrite Hk; reflexivity]. }
  assert (existsb (fun key => Realm.Player.changed key this)
            Realm.players.columns = true) as ->.
  { apply existsb_exists. exists Realm.players.country_id_col.
    split; [apply players_columns_complete | exact Hch]. }
  cbn [negb orb]. erewrite bind_run; [| reflexivity].
  rewrite Hid. eexists.
  split;
    [unfold Realm.ret; apply (f_equal2 pair); [reflexivity |];
     apply (f_equal (fun rows => Realm.with_players rows s));
     apply update_where_ext; intros r _;
     destruct (same_id _ _); [| reflexivity];
     apply players_write_ext; intros key;
     rewrite andb_negb_r, orb_false_r; reflexivity
    | exact Hid].
Qed.

Lemma Player_update_enlists (values : list Realm.players.entry)
  (q : Realm.players.t) (v : option Id) (s : Realm.Store) :
  Realm.Player.keys values Realm.players.country_id_col = true ->
  Realm.Player.keys values Realm.players.is_online_col = false ->
  Realm.players.country_id
    (dataValues (Realm.Player.set values (build q))) = v ->
  Realm.players.country_id q <> v ->
  exists player f,
    Realm.Player.update values (build q) s
    = (Returned player,
       Realm.with_players
         (update_where
            (fun r => same_id (Realm.players.id r) (Realm.players.id q)) f
            (Realm.tbl_players s)) s)
    /\ Realm.players.id (dataValues player) = Realm.players.id q
    /\ forall r, Realm.players.id (f r) = Realm.players.id r
                 /\ Realm.players.country_id (f r) = v.
Proof.
  intros Hk Hon Hv Hne.
  destruct (Player_update_writes values q s Hk Hon) as (player & Heq & Hid);
    [congruence |].
  eexists _, _. split; [exact Heq |]. split; [exact Hid |].
  intros r. split; [reflexivity |]. destruct r.
  unfold Realm.players.write. cbn [Realm.players.country_id].
  rewrite Hk. exact Hv.
Qed.

Lemma recordClaimed_frame (countryId playerId : Id) (s : Realm.Store) :
  Realm.returns (Realm.CountryHistory.recordClaimed countryId playerId) s
    (fun _ s' => Realm.tbl_players s' = Realm.tbl_players s
                 /\ Realm.tbl_countries s' = Realm.tbl_countries s).
Proof. eexists _, _. split; [reflexivity | split; reflexivity]. Qed.

Lemma recordUnclaimed_frame (countryId playerId : Id) (s : Realm.Store) :
  Realm.returns (Realm.CountryHistory.recordUnclaimed countryId playerId) s
    (fun _ s' => Realm.tbl_players s' = Realm.tbl_players s
                 /\ Realm.tbl_countries s' = Realm.tbl_countries s).
Proof. eexists _, _. split; [reflexivity | split; reflexivity]. Qed.

Lemma recordSoldierJoined_frame (countryId playerId : Id)
  (s : Realm.Store) :
  Realm.returns
    (Realm.CountryHistory.recordSoldierJoined countryId playerId) s
    (fun _ s' => Realm.tbl_players s' = Realm.tbl_players s
                 /\ Realm.tbl_countries s' = Realm.tbl_countries s).
Proof. eexists _, _. split; [reflexivity | split; reflexivity]. Qed.

Lemma recordSoldierLeft_frame (countryId playerId : Id)
  (s : Realm.Store) :
  Realm.returns
    (Realm.CountryHistory.recordSoldierLeft countryId playerId) s
    (fun _ s' => Realm.tbl_players s' = Realm.tbl_players s
                 /\ Realm.tbl_countries s' = Realm.tbl_countries s).
Proof. eexists _, _. split; [reflexivity | split; reflexivity]. Qed.

(** What the join handler leaves of the two tables, for a player as
    [authenticateToken] loaded them. *)
Lemma join_handler_enlists (q : Realm.players.t) (id : Id)
  (spawn_lat spawn_lng : option R) (s : Realm.Store) :
  NoDup (map Realm.countries.id (Realm.tbl_countries s)) ->
  Realm.returns
    (Realm.countries_routes.join_handler (build q) id spawn_lat spawn_lng) s
    (fun _ s' =>
       (Realm.tbl_players s' = Realm.tbl_players s
        /\ Realm.tbl_countries s' = Realm.tbl_countries s)
       \/ exists c c' f,
            In c (Realm.tbl_countries s)
            /\ Realm.players.country_id q = None
            /\ Realm.countries.id c' = Realm.countries.id c
            /\ Realm.countries.soldier_count c'
               = (if Realm.countries.is_claimed c
                  then Realm.countries.soldier_count c + 1 else 1)
            /\ Realm.tbl_countries s'
               = update_where
                   (fun r => same_id (Realm.countries.id r)
                               (Realm.countries.id c'))
                   (fun _ => c') (Realm.tbl_countries s)
            /\ Realm.tbl_players s'
               = update_where
                   (fun r => same_id (Realm.players.id r)
                               (Realm.players.id q)) f
                   (Realm.tbl_players s)
            /\ forall r, Realm.players.id (f r) = Realm.players.id r
                         /\ Realm.players.country_id (f r)
                            = Some (Realm.countries.id c)).
Proof.
  intros Hnd. unfold Realm.countries_routes.join_handler.
  apply run_try_catch.
  destruct (negb _); [apply run_ret; left; split; reflexivity |].
  apply run_bind. eexists _, _.
  split; [apply Country_findByPk_row |].
  destruct (Realm.country_row id s) as [c |] eqn:Hrow; cbn [option_map];
    [| apply run_ret; left; split; reflexivity].
  destruct (country_row_In _ _ _ Hrow) as [Hin Hid].
  cbn [build dataValues].
  destruct (Realm.players.country_id q) eqn:Hq;
    [apply run_ret; left; split; reflexivity |].
  destruct (negb (Realm.Country.canAcceptNewSoldier (build c))) eqn:Hroom;
    [apply run_ret; left; split; reflexivity |].
  apply negb_false_iff in Hroom.
  unfold Realm.Country.canAcceptNewSoldier in Hroom.
  cbn [build dataValues] in Hroom. apply Z.ltb_lt in Hroom.
  destruct (Realm.countries.is_claimed c) eqn:Hcl; cbn [negb].
  - (* a soldier joins *)
    apply run_bind, run_bind.
    eexists _, _. split; [apply addSoldier_in_step; assumption |].
    set (c' := Realm.reinforced c _). cbn [build dataValues].
    eapply run_bind, run_weaken; [apply recordSoldierJoined_frame |].
    intros _ s2 [Hp2 Hc2]. apply run_ret. cbn [fst snd].
    destruct (Player_update_enlists
                (Realm.players.country_id_is (Some (Realm.countries.id c'))
                 :: match spawn_lat, spawn_lng with
                    | Some lat, Some lng =>
                        [Realm.players.current_position_is (Some (lng, lat))]
                    | _, _ => []
                    end)
                q (Some (Realm.countries.id c')) s2) as (p & f & Heq & _ & Hf);
      [destruct spawn_lat, spawn_lng; reflexivity ..
      | congruence |].
    apply run_bind. eexists _, _. split; [exact Heq |].
    apply run_bind, run_gets, run_ret. right. exists c, c', f.
    split; [exact Hin |]. split; [reflexivity |].
    split; [reflexivity |]. split; [rewrite Hcl; reflexivity |].
    cbn [Realm.tbl_countries Realm.tbl_players Realm.with_players].
    rewrite Hp2, Hc2. split; [reflexivity |]. split; [reflexivity |].
    exact Hf.
  - (* the country is claimed *)
    apply run_bind, run_bind.
    eexists _, _. split; [apply claimCountry_in_step; assumption |].
    set (c' := Realm.claimed c _ _ _). cbn [build dataValues].
    eapply run_bind, run_weaken; [apply recordClaimed_frame |].
    intros _ s2 [Hp2 Hc2].
    apply run_bind, run_modify, run_ret. cbn [fst snd].
    set (s3 := Realm.with_players _ s2).
    destruct (Player_update_enlists
                (Realm.players.country_id_is (Some (Realm.countries.id c'))
                 :: match spawn_lat, spawn_lng with
                    | Some lat, Some lng =>
                        [Realm.players.current_position_is (Some (lng, lat))]
                    | _, _ => []
                    end)
                q (Some (Realm.countries.id c')) s3) as (p & f & Heq & _ & Hf);
      [destruct spawn_lat, spawn_lng; reflexivity ..
      | congruence |].
    apply run_bind. eexists _, _. split; [exact Heq |].
    apply run_bind, run_gets, run_ret. right.
    exists c, c',
      (fun r => f (Realm.players.set_countries_owned
                     (Realm.players.countries_owned r + 1) r)).
    split; [exact Hin |]. split; [reflexivity |].
    split; [reflexivity |]. split; [rewrite Hcl; reflexivity |].
    cbn [Realm.tbl_countries Realm.tbl_players Realm.with_players s3].
    rewrite Hp2, Hc2. split; [reflexivity |]. split.
    + apply update_where_twice. intros r E. exact E.
    + intros r. destruct (Hf (Realm.players.set_countries_owned
                                (Realm.players.countries_owned r + 1) r))
        as [H1 H2]. split; [rewrite H1; reflexivity | exact H2].
Qed.

Lemma reduced_count (c : Realm.countries.t) (t : Z) :
  Realm.countries.id (Realm.reduced c t) = Realm.countries.id c
  /\ Realm.countries.soldier_count (Realm.reduced c t)
     = Realm.countries.soldier_count c - 1.
Proof.
  unfold Realm.reduced. cbv zeta. destruct (_ && _); split; reflexivity.
Qed.

(** What the leave handler leaves of the two tables. *)
Lemma leave_handler_discharges (q : Realm.players.t) (id : Id)
  (s : Realm.Store) :
  NoDup (map Realm.countries.id (Realm.tbl_countries s)) ->
  Realm.returns (Realm.countries_routes.leave_handler (build q) id) s
    (fun _ s' =>
       (Realm.tbl_players s' = Realm.tbl_players s
        /\ Realm.tbl_countries s' = Realm.tbl_countries s)
       \/ exists c c' f,
            In c (Realm.tbl_countries s)
            /\ Realm.players.country_id q = Some (Realm.countries.id c)
            /\ Realm.countries.id c' = Realm.countries.id c
            /\ Realm.countries.soldier_count c'
               = Realm.countries.soldier_count c - 1
            /\ Realm.tbl_countries s'
               = update_where
                   (fun r => same_id (Realm.countries.id r)
                               (Realm.countries.id c'))
                   (fun _ => c') (Realm.tbl_countries s)
            /\ Realm.tbl_players s'
               = update_where
                   (fun r => same_id (Realm.players.id r)
                               (Realm.players.id q)) f
                   (Realm.tbl_players s)
            /\ forall r, Realm.players.id (f r) = Realm.players.id r
                         /\ Realm.players.country_id (f r) = None).
Proof.
  intros Hnd. unfold Realm.countries_routes.leave_handler.
  cbn [build dataValues].
  destruct (opt_is (Realm.players.country_id q) id) eqn:Hq; cbn [negb];
    [| apply run_try_catch, run_ret; left; split; reflexivity].
  apply opt_is_true in Hq.
  destruct (Realm.country_row id s) as [c |] eqn:Hrow.
  2:{ apply run_try_catch, run_bind. eexists _, _.
      split; [apply Country_findByPk_row |]. rewrite Hrow.
      apply run_ret. left. split; reflexivity. }
  destruct (country_row_In _ _ _ Hrow) as [Hin Hid].
  destruct (Z_le_gt_dec (Realm.countries.soldier_count c) 0) as [Hz | Hpos].
  { eexists _, s. split; [| left; split; reflexivity].
    erewrite try_caught; [reflexivity |].
    erewrite bind_run; [| apply Country_findByPk_row]. rewrite Hrow.
    cbn [option_map]. erewrite bind_throws; [reflexivity |].
    apply removeSoldier_none. exact Hz. }
  apply run_try_catch, run_bind. eexists _, _.
  split; [apply Country_findByPk_row |]. rewrite Hrow. cbn [option_map].
  apply run_bind. eexists _, _.
  split; [apply removeSoldier_in_step; [exact Hnd | exact Hin | lia] |].
  set (c' := Realm.reduced c _).
  destruct (reduced_count c
              (Realm.wall_clock s (Realm.clock_reads s))) as [Hid' Hcount].
  fold c' in Hid', Hcount.
  set (s1 := Realm.put_country c' _).
  destruct (Player_update_enlists
              [Realm.players.country_id_is None;
               Realm.players.current_position_is None] q None s1
              eq_refl eq_refl eq_refl) as (p & f & Heq & Hpid & Hf);
    [congruence |].
  apply run_bind. eexists _, _. split; [exact Heq |].
  eapply run_bind, run_weaken; [apply recordSoldierLeft_frame |].
  intros _ s3 [Hp3 Hc3].
  cbn [Realm.tbl_players Realm.tbl_countries Realm.with_players s1
       Realm.put_country Realm.with_countries Realm.with_clock_reads]
    in Hp3, Hc3.
  cbn [build dataValues].
  apply run_bind. destruct (opt_is _ _ && negb _).
  - apply run_bind, run_modify.
    eapply run_weaken; [apply recordUnclaimed_frame |].
    intros _ s5 [Hp5 Hc5]. apply run_ret. right.
    exists c, c',
      (fun r => Realm.players.set_countries_owned
                  (Realm.players.countries_owned (f r) - 1) (f r)).
    split; [exact Hin |]. split; [congruence |].
    split; [exact Hid' |]. split; [exact Hcount |].
    rewrite Hp5, Hc5.
    cbn [Realm.tbl_players Realm.tbl_countries Realm.with_players].
    rewrite Hp3, Hc3, Hpid. split; [reflexivity |]. split.
    + apply update_where_twice. intros r E.
      destruct (Hf r) as [-> _]. exact E.
    + intros r. destruct (Hf r) as [H1 H2]. split; assumption.
  - apply run_ret, run_ret. right. exists c, c', f.
    split; [exact Hin |]. split; [congruence |].
    split; [exact Hid' |]. split; [exact Hcount |].
    rewrite Hp3, Hc3. split; [reflexivity |]. split; [reflexivity |].
    exact Hf.
Qed.

(** An update of a loaded player returns the player as the table holds
    them afterwards. *)
Lemma Player_update_loads (values : list Realm.players.entry)
  (p : Realm.players.t) (s : Realm.Store) :
  NoDup (map Realm.players.id (Realm.tbl_players s)) ->
  In p (Realm.tbl_players s) ->
  Realm.returns (Realm.Player.update values (build p)) s
    (fun player s' =>
       NoDup (map Realm.players.id (Realm.tbl_players s'))
       /\ exists q, player = build q /\ In q (Realm.tbl_players s')).
Proof.
  intros Hnd Hin. eexists _, _.
  split; [apply Player_update_in_step; assumption |].
  set (this := Realm.Player.set values (build p)).
  assert (In p (Realm.tbl_players (Realm.player_hook_read this s))
          /\ map Realm.players.id
               (Realm.tbl_players (Realm.player_hook_read this s))
             = map Realm.players.id (Realm.tbl_players s)) as [Hin' Hids].
  { unfold Realm.player_hook_read. destruct (_ && _); auto. }
  split.
  - rewrite put_player_rows, Hids. exact Hnd.
  - eexists. split; [reflexivity |].
    apply put_player_In with (p := p); [exact Hin' |].
    destruct (Player_set_id values (build p)) as [Hid _]. fold this in Hid.
    unfold Realm.player_hooked. destruct (_ && _); exact Hid.
Qed.

(** [authenticateToken] always answers, and the player it lets through is
    the player as the table holds them afterwards. *)
Lemma authenticateToken_loads (playerId : Id) (s : Realm.Store) :
  NoDup (map Realm.players.id (Realm.tbl_players s)) ->
  Realm.returns (Realm.auth.authenticateToken playerId) s
    (fun v s' =>
       forall player, v = inr player ->
         exists q, player = build q /\ In q (Realm.tbl_players s')).
Proof.
  intros Hnd. unfold Realm.auth.authenticateToken.
  apply run_try_catch, run_bind. eexists _, _.
  split; [apply Player_findByPk_row |].
  destruct (Realm.player_row playerId s) as [p |] eqn:Hrow;
    cbn [option_map]; [| apply run_ret; intros ? [=]].
  destruct (player_row_In _ _ _ Hrow) as [Hin _].
  assert (forall (p1 : Realm.players.t) (s1 : Realm.Store),
            NoDup (map Realm.players.id (Realm.tbl_players s1)) ->
            In p1 (Realm.tbl_players s1) ->
            Realm.returns
              (Realm.bind Realm.new_Date (fun now =>
                 Realm.bind
                   (Realm.Player.update
                      [Realm.players.last_active_is now;
                       Realm.players.is_online_is true] (build p1))
                   (fun player => Realm.ret (inr player)))) s1
              (fun (v : Realm.Response + Instance Realm.players.t) s' =>
                 forall player, v = inr player ->
                   exists q, player = build q
                             /\ In q (Realm.tbl_players s'))) as Htail.
  { intros p1 s1 Hnd1 Hin1. apply run_bind, run_new_Date, run_bind.
    eapply run_weaken; [apply Player_update_loads; assumption |].
    intros player s' [_ Hq]. apply run_ret. intros ? [= <-]. exact Hq. }
  apply run_bind. cbn [build dataValues].
  destruct (Realm.players.is_banned p);
    [| apply run_ret, Htail; assumption].
  apply run_bind, run_new_Date.
  destruct (match Realm.players.ban_expires p with
            | Some _ => _ | None => _ end);
    [apply run_ret, run_ret; intros ? [=] |].
  apply run_bind.
  eapply run_weaken; [apply Player_update_loads; assumption |].
  intros player s' (Hnd' & q & -> & Hq). apply run_ret, Htail; assumption.
Qed.

(** ** The head count, request after request *)

#[local] Instance sockets_kept_trail : Realm.Trail Realm.sockets_kept.
Proof.
  split; unfold Realm.sockets_kept; try reflexivity.
  intros s1 s2 s3 H1 H2. congruence.
Qed.

#[local] Instance sockets_kept_connections :
  Realm.Besides_connections Realm.sockets_kept.
Proof. intros v s. reflexivity. Qed.

#[local] Instance sockets_kept_rooms :
  Realm.Besides_rooms Realm.sockets_kept.
Proof. intros v s. reflexivity. Qed.

#[local] Instance sockets_kept_players :
  Realm.Besides_players Realm.sockets_kept.
Proof. intros v s. reflexivity. Qed.

#[local] Instance sockets_kept_countries :
  Realm.Besides_countries Realm.sockets_kept.
Proof. intros v s. reflexivity. Qed.

#[local] Instance sockets_kept_movements :
  Realm.Besides_movements Realm.sockets_kept.
Proof. intros v s. reflexivity. Qed.

#[local] Instance sockets_kept_history :
  Realm.Besides_history Realm.sockets_kept.
Proof. intros v s. reflexivity. Qed.

(** The routes open, close and change no socket. *)
Lemma join_handler_keeps_sockets player id spawn_lat spawn_lng :
  Realm.keeps Realm.sockets_kept
    (Realm.countries_routes.join_handler player id spawn_lat spawn_lng).
Proof. unfold Realm.countries_routes.join_handler. walk_kept. Qed.

Lemma leave_handler_keeps_sockets player id :
  Realm.keeps Realm.sockets_kept
    (Realm.countries_routes.leave_handler player id).
Proof. unfold Realm.countries_routes.leave_handler. walk_kept. Qed.

Lemma members_census (k : Id) (s : Realm.Store) :
  Realm.members k s
  = Z.of_nat
      (List.length
         (filter (fun x : Id * option Id => opt_is (snd x) k)
            (map (fun p => (Realm.players.id p, Realm.players.country_id p))
               (Realm.tbl_players s)))).
Proof.
  unfold Realm.members. f_equal.
  induction (Realm.tbl_players s) as [| p l IH]; [reflexivity |].
  cbn [map filter snd]. unfold Realm.is_member at 1.
  destruct (opt_is _ k); cbn [List.length]; rewrite IH; reflexivity.
Qed.

(** The head count holds of the census alone. *)
Lemma census_kept_head_count (s s' : Realm.Store) :
  Realm.census_kept s s' ->
  NoDup (map Realm.players.id (Realm.tbl_players s)) ->
  Realm.head_count s ->
  NoDup (map Realm.players.id (Realm.tbl_players s'))
  /\ Realm.head_count s'.
Proof.
  intros [Hp Hc] Hnd Hhc. split.
  - assert (map Realm.players.id (Realm.tbl_players s')
            = map Realm.players.id (Realm.tbl_players s)) as ->;
      [| exact Hnd].
    assert (forall l : list Realm.players.t,
              map Realm.players.id l
              = map fst
                  (map (fun p => (Realm.players.id p,
                                  Realm.players.country_id p)) l)) as Hfst
      by (intros l; rewrite map_map; reflexivity).
    rewrite !Hfst, Hp. reflexivity.
  - unfold Realm.head_count in *.
    apply (Forall_map
             (fun c => (Realm.countries.id c,
                        Realm.countries.soldier_count c))
             (fun x => snd x = Realm.members (fst x) s')).
    rewrite Hc. apply Forall_map.
    apply (Forall_impl _ (P := fun c =>
             Realm.countries.soldier_count c
             = Realm.members (Realm.countries.id c) s)); [| exact Hhc].
    intros c Hcount. cbn [fst snd]. rewrite Hcount.
    rewrite !members_census, Hp. reflexivity.
Qed.

Lemma opt_is_other (b k : Id) : k <> b -> opt_is (Some b) k = false.
Proof.
  intros Hk. cbn. apply same_id_neq. congruence.
Qed.

(** The join route keeps the head count. *)
Lemma join_keeps_head_count (playerId id : Id)
  (spawn_lat spawn_lng : option R) (s : Realm.Store) :
  NoDup (map Realm.players.id (Realm.tbl_players s)) ->
  NoDup (map Realm.countries.id (Realm.tbl_countries s)) ->
  Forall Realm.consistent (Realm.tbl_countries s) ->
  Realm.head_count s -> Realm.sockets_clean s ->
  let s' := Realm.handle (Realm.post_join playerId id spawn_lat spawn_lng)
              s in
  NoDup (map Realm.players.id (Realm.tbl_players s'))
  /\ Realm.head_count s' /\ Realm.sockets_clean s'.
Proof.
  intros Hndp Hndc Hcons Hhc Hsock s'. subst s'.
  destruct (authenticateToken_loads playerId s Hndp)
    as (v & s1 & Hrun & Hload).
  pose proof (kept_of_tidy Realm.census_tidy _ _
                (authenticateToken_tidy Realm.census_tidy playerId) s Hsock)
    as [Hcensus Hsock1].
  pose proof (authenticateToken_keeps_countries playerId s) as Hsame.
  rewrite Hrun in Hcensus, Hsock1, Hsame. cbn [snd] in *.
  unfold Realm.countries_kept in Hsame.
  destruct (census_kept_head_count s s1 Hcensus Hndp Hhc) as [Hndp1 Hhc1].
  rewrite <- Hsame in Hndc, Hcons.
  assert (Realm.handle
            (Realm.post_join playerId id spawn_lat spawn_lng) s
          = snd (match v with
                 | inl answer => Realm.ret answer
                 | inr player =>
                     Realm.countries_routes.join_handler player id
                       spawn_lat spawn_lng
                 end s1)) as ->.
  { unfold Realm.handle, Realm.serve, Realm.countries_routes.join.
    unfold Realm.bind at 1. erewrite bind_run; [| exact Hrun].
    destruct v as [answer | player]; [reflexivity |].
    destruct (Realm.countries_routes.join_handler _ _ _ _ s1)
      as [[a | e] s2]; reflexivity. }
  destruct v as [answer | player]; [cbn [Realm.ret snd]; auto |].
  destruct (Hload player eq_refl) as (q & -> & Hq).
  destruct (join_handler_enlists q id spawn_lat spawn_lng s1 Hndc)
    as (answer & s2 & Hrun2 & Hout).
  pose proof (join_handler_keeps_sockets (build q) id spawn_lat spawn_lng s1)
    as Hs2.
  rewrite Hrun2 in Hs2. unfold Realm.sockets_kept in Hs2. cbn [snd] in Hs2.
  rewrite Hrun2. cbn [snd].
  assert (Realm.sockets_clean s2) as Hsock2
    by (unfold Realm.sockets_clean; rewrite Hs2; exact Hsock1).
  destruct Hout as [[Hp Hc] | (c & c' & f & Hin & Hnone & Hid & Hcount
                               & Hc & Hp & Hf)].
  - split; [rewrite Hp; exact Hndp1 |]. split; [| exact Hsock2].
    unfold Realm.head_count, Realm.members in *. rewrite Hp, Hc.
    exact Hhc1.
  - split; [| split; [| exact Hsock2]].
    + rewrite Hp, map_update_where_same; [exact Hndp1 |].
      intros r. apply Hf.
    + apply (head_count_enlisted s1 s2 q c c' f); auto.
      * intros k Hk. unfold Realm.is_member.
        rewrite (proj2 (Hf q)), Hnone. apply opt_is_other. exact Hk.
      * unfold Realm.is_member. rewrite (proj2 (Hf q)), Hnone.
        cbn [opt_is]. rewrite same_id_refl. cbn [Z.b2z].
        rewrite Hcount.
        pose proof (proj1 (Forall_forall _ _) Hcons c Hin) as Hcc.
        unfold Realm.consistent in Hcc.
        destruct (Realm.countries.is_claimed c); lia.
Qed.

(** The leave route keeps the head count. *)
Lemma leave_keeps_head_count (playerId id : Id) (s : Realm.Store) :
  NoDup (map Realm.players.id (Realm.tbl_players s)) ->
  NoDup (map Realm.countries.id (Realm.tbl_countries s)) ->
  Realm.head_count s -> Realm.sockets_clean s ->
  let s' := Realm.handle (Realm.post_leave playerId id) s in
  NoDup (map Realm.players.id (Realm.tbl_players s'))
  /\ Realm.head_count s' /\ Realm.sockets_clean s'.
Proof.
  intros Hndp Hndc Hhc Hsock s'. subst s'.
  destruct (authenticateToken_loads playerId s Hndp)
    as (v & s1 & Hrun & Hload).
  pose proof (kept_of_tidy Realm.census_tidy _ _
                (authenticateToken_tidy Realm.census_tidy playerId) s Hsock)
    as [Hcensus Hsock1].
  pose proof (authenticateToken_keeps_countries playerId s) as Hsame.
  rewrite Hrun in Hcensus, Hsock1, Hsame. cbn [snd] in *.
  unfold Realm.countries_kept in Hsame.
  destruct (census_kept_head_count s s1 Hcensus Hndp Hhc) as [Hndp1 Hhc1].
  rewrite <- Hsame in Hndc.
  assert (Realm.handle (Realm.post_leave playerId id) s
          = snd (match v with
                 | inl answer => Realm.ret answer
                 | inr player =>
                     Realm.countries_routes.leave_handler player id
                 end s1)) as ->.
  { unfold Realm.handle, Realm.serve, Realm.countries_routes.leave.
    unfold Realm.bind at 1. erewrite bind_run; [| exact Hrun].
    destruct v as [answer | player]; [reflexivity |].
    destruct (Realm.countries_routes.leave_handler _ _ s1)
      as [[a | e] s2]; reflexivity. }
  destruct v as [answer | player]; [cbn [Realm.ret snd]; auto |].
  destruct (Hload player eq_refl) as (q & -> & Hq).
  destruct (leave_handler_discharges q id s1 Hndc)
    as (answer & s2 & Hrun2 & Hout).
  pose proof (leave_handler_keeps_sockets (build q) id s1) as Hs2.
  rewrite Hrun2 in Hs2. unfold Realm.sockets_kept in Hs2. cbn [snd] in Hs2.
  rewrite Hrun2. cbn [snd].
  assert (Realm.sockets_clean s2) as Hsock2
    by (unfold Realm.sockets_clean; rewrite Hs2; exact Hsock1).
  destruct Hout as [[Hp Hc] | (c & c' & f & Hin & Hsome & Hid & Hcount
                               & Hc & Hp & Hf)].
  - split; [rewrite Hp; exact Hndp1 |]. split; [| exact Hsock2].
    unfold Realm.head_count, Realm.members in *. rewrite Hp, Hc.
    exact Hhc1.
  - split; [| split; [| exact Hsock2]].
    + rewrite Hp, map_update_where_same; [exact Hndp1 |].
      intros r. apply Hf.
    + apply (head_count_enlisted s1 s2 q c c' f); auto.
      * intros k Hk. unfold Realm.is_member.
        rewrite (proj2 (Hf q)), Hsome. symmetry. apply opt_is_other.
        exact Hk.
      * unfold Realm.is_member. rewrite (proj2 (Hf q)), Hsome.
        cbn [opt_is]. rewrite same_id_refl. cbn [Z.b2z]. lia.
Qed.

Lemma reaches_by_reaches (allowed : Realm.Request -> Prop)
  (s0 s : Realm.Store) :
  Realm.reaches_by allowed s0 s -> Realm.reaches s0 s.
Proof.
  intros H. induction H; [apply Realm.reaches_start |].
  apply Realm.reaches_handle. assumption.
Qed.

Lemma handle_by_route (r : Realm.Request) (s : Realm.Store) :
  Realm.by_route r ->
  NoDup (map Realm.players.id (Realm.tbl_players s)) ->
  NoDup (map Realm.countries.id (Realm.tbl_countries s)) ->
  Forall Realm.consistent (Realm.tbl_countries s) ->
  Realm.head_count s -> Realm.sockets_clean s ->
  NoDup (map Realm.players.id (Realm.tbl_players (Realm.handle r s)))
  /\ Realm.head_count (Realm.handle r s)
  /\ Realm.sockets_clean (Realm.handle r s).
Proof.
  intros Hr Hndp Hndc Hcons Hhc Hsock.
  pose proof (serve_census_tidy r) as Hcensus.
  destruct r; cbn in Hr; try contradiction;
    try (destruct (Hcensus s Hsock) as [Hkept Hsock'];
         destruct (census_kept_head_count _ _ Hkept Hndp Hhc);
         auto).
  - apply join_keeps_head_count; assumption.
  - apply leave_keeps_head_count; assumption.
Qed.

(** X21.  As long as players join and leave countries over the routes,
    the soldier count of every country is the number of the players
    stored as its members.  From a store with distinct keys, consistent
    countries, a right head count and sockets that hold no unsaved
    changes, this holds of every store the server reaches by handling,
    one after the other, requests of the move, join, leave, settings and
    logout routes, connections, moves and disconnections of sockets, and
    ticks of both timers; the events [country:join] and [country:leave]
    of a socket are left out. *)
Theorem soldier_count_is_head_count (s0 s : Realm.Store) :
  NoDup (map Realm.players.id (Realm.tbl_players s0)) ->
  NoDup (map Realm.countries.id (Realm.tbl_countries s0)) ->
  Forall Realm.consistent (Realm.tbl_countries s0) ->
  Realm.head_count s0 ->
  Realm.sockets_clean s0 ->
  Realm.reaches_by Realm.by_route s0 s ->
  Realm.head_count s.
Proof.
  intros Hndp Hndc Hcons Hhc Hsock Hreach.
  assert (NoDup (map Realm.players.id (Realm.tbl_players s))
          /\ NoDup (map Realm.countries.id (Realm.tbl_countries s))
          /\ Forall Realm.consistent (Realm.tbl_countries s)
          /\ Realm.head_count s /\ Realm.sockets_clean s) as H;
    [| apply H].
  induction Hreach as [| r s _ IH Hr]; [auto |].
  destruct IH as (Hndp' & Hndc' & Hcons' & Hhc' & Hsock').
  pose proof (serve_moves_countries r s Hndc') as Hmove.
  destruct (handle_by_route r s Hr Hndp' Hndc' Hcons' Hhc' Hsock')
    as (H1 & H2 & H3).
  split; [exact H1 |]. split; [| split; [| split; assumption]].
  - unfold Realm.handle. rewrite (countries_life_ids _ _ Hmove).
    exact Hndc'.
  - eapply countries_life_consistent; [exact Hcons' | exact Hmove].
Qed.

Lemma scene_head_count : Realm.head_count Realm.Scene.start.
Proof. repeat constructor. Qed.

Lemma soldier_count_is_head_count_witness :
  Realm.head_count
    (Realm.handle (Realm.post_leave 3%nat 10%nat)
       (Realm.handle (Realm.post_join 2%nat 20%nat None None)
          Realm.Scene.start)).
Proof.
  apply (soldier_count_is_head_count Realm.Scene.start).
  - exact scene_players_keyed.
  - exact scene_countries_keyed.
  - exact scene_consistent.
  - exact scene_head_count.
  - constructor.
  - apply Realm.reaches_by_handle;
      [apply Realm.reaches_by_handle;
       [apply Realm.reaches_by_start | exact I] | exact I].
Defined.

(** ** Bans *)




(** ** The timer of the resources *)

Lemma supplied_rows (c : Realm.countries.t) (l rows : list Realm.countries.t) :
  NoDup (map Realm.countries.id rows) -> In c rows ->
  ~ In (Realm.countries.id c) (map Realm.countries.id l) ->
  update_where
    (fun r => existsb (same_id (Realm.countries.id r))
                (map Realm.countries.id l)) Realm.supplied
    (update_where
       (fun r => same_id (Realm.countries.id r)
                   (Realm.countries.id (Realm.supplied c)))
       (fun _ => Realm.supplied c) rows)
  = update_where
      (fun r => existsb (same_id (Realm.countries.id r))
                  (map Realm.countries.id (c :: l))) Realm.supplied rows.
Proof.
  intros Hnd Hin Hout. unfold update_where. rewrite map_map.
  apply map_ext_in. intros r Hr. cbn [map existsb].
  change (Realm.countries.id (Realm.supplied c))
    with (Realm.countries.id c).
  destruct (same_id (Realm.countries.id r) (Realm.countries.id c)) eqn:E.
  - apply same_id_eq in E.
    assert (r = c) as -> by
      (apply (NoDup_key_eq Realm.countries.id rows); auto).
    change (Realm.countries.id (Realm.supplied c))
      with (Realm.countries.id c).
    destruct (existsb _ _) eqn:E'; [| reflexivity].
    exfalso. apply Hout. apply existsb_exists in E' as (k & Hk & E').
    apply same_id_eq in E'. rewrite E'. exact Hk.
  - cbn [orb]. reflexivity.
Qed.

(** The loop of the timer: the countries of the list are supplied, and
    those with a tracked room are notified, in the order of the list. *)
Lemma supply_loop_supplies (l : list Realm.countries.t) (s : Realm.Store) :
  NoDup (map Realm.countries.id (Realm.tbl_countries s)) ->
  NoDup (map Realm.countries.id l) ->
  Forall (fun c => In c (Realm.tbl_countries s)) l ->
  exists s' notices,
    Realm.for_of (map build l)
      (fun country =>
         Realm.bind (Realm.Country.generateResources country)
           (fun country =>
              Realm.bind
                (Realm.gets (fun s =>
                   Realm.Map_has (Realm.countries.id (dataValues country))
                     (Realm.countryRooms s)))
                (fun tracked =>
                   if tracked then
                     Realm.bind Realm.new_Date (fun now =>
                       Realm.emit
                         (Realm.to_room
                            (Realm.countries.id (dataValues country)))
                         (Realm.country_resources_generated
                            (Realm.countries.id (dataValues country))
                            (Realm.countries.resources (dataValues country))
                            (Realm.Math_floor
                               (Realm.countries.resource_generation_rate
                                  (dataValues country))) now))
                   else Realm.ret tt))) s
    = (Returned tt, s')
    /\ Realm.tbl_countries s'
       = update_where
           (fun r => existsb (same_id (Realm.countries.id r))
                       (map Realm.countries.id l)) Realm.supplied
           (Realm.tbl_countries s)
    /\ Realm.emitted s' = Realm.emitted s ++ notices
    /\ Forall2 (fun c e => exists now, e = Realm.supply_notice c now)
         (filter (fun c => Realm.Map_has (Realm.countries.id c)
                             (Realm.countryRooms s)) l) notices
    /\ Realm.tbl_players s' = Realm.tbl_players s
    /\ Realm.tbl_player_movements s' = Realm.tbl_player_movements s
    /\ Realm.tbl_country_history s' = Realm.tbl_country_history s
    /\ Realm.countryRooms s' = Realm.countryRooms s.
Proof.
  revert s. induction l as [| c l IH]; intros s Hnd Hl Hall.
  - exists s, []. split; [reflexivity |]. split.
    + symmetry. apply update_where_none. intros r _ E. discriminate.
    + rewrite app_nil_r. repeat split; constructor.
  - inversion Hall as [| ? ? Hin Hall']; subst.
    cbn [map] in Hl. inversion Hl as [| ? ? Hfresh Hl']; subst.
    cbn [map Realm.for_of].
    assert (forall s1,
              Realm.tbl_countries s1
              = Realm.tbl_countries (Realm.put_country (Realm.supplied c) s)
              -> NoDup (map Realm.countries.id (Realm.tbl_countries s1))
                 /\ Forall (fun c => In c (Realm.tbl_countries s1)) l)
      as Hnext.
    { intros s1 Hs1. rewrite Hs1. split.
      - rewrite put_country_rows. exact Hnd.
      - apply Forall_forall. intros x Hx.
        rewrite Forall_forall in Hall'. specialize (Hall' x Hx).
        unfold Realm.put_country.
        cbn [Realm.tbl_countries Realm.with_countries].
        apply In_update_where_other; [exact Hall' |].
        apply same_id_neq. intros Heq. apply Hfresh.
        change (Realm.countries.id (Realm.supplied c))
          with (Realm.countries.id c) in Heq.
        rewrite <- Heq. apply in_map. exact Hx. }
    assert (forall tracked,
              Realm.Map_has (Realm.countries.id c) (Realm.countryRooms s)
              = tracked ->
              Realm.bind (Realm.Country.generateResources (build c))
                (fun country =>
                   Realm.bind
                     (Realm.gets (fun s =>
                        Realm.Map_has
                          (Realm.countries.id (dataValues country))
                          (Realm.countryRooms s)))
                     (fun tracked =>
                        if tracked then
                          Realm.bind Realm.new_Date (fun now =>
                            Realm.emit
                              (Realm.to_room
                                 (Realm.countries.id (dataValues country)))
                              (Realm.country_resources_generated
                                 (Realm.countries.id (dataValues country))
                                 (Realm.countries.resources
                                    (dataValues country))
                                 (Realm.Math_floor
                                    (Realm.countries.resource_generation_rate
                                       (dataValues country))) now))
                        else Realm.ret tt)) s
              = (Returned tt,
                 if tracked then
                   Realm.with_emitted
                     (Realm.emitted s
                      ++ [Realm.supply_notice c
                            (Realm.wall_clock s (Realm.clock_reads s))])
                     (Realm.with_clock_reads (S (Realm.clock_reads s))
                        (Realm.put_country (Realm.supplied c) s))
                 else Realm.put_country (Realm.supplied c) s)) as Hstep.
    { intros tracked Htr.
      erewrite bind_run; [| apply generateResources_in_step; assumption].
      erewrite bind_run; [| reflexivity]. cbv beta.
      cbn [build dataValues Realm.put_country Realm.countryRooms
           Realm.with_countries].
      change (Realm.countries.id (Realm.supplied c))
        with (Realm.countries.id c).
      rewrite Htr. destruct tracked; reflexivity. }
    cbn [filter]. specialize (Hstep _ eq_refl).
    destruct (Realm.Map_has (Realm.countries.id c) (Realm.countryRooms s));
      (erewrite bind_run; [| exact Hstep]);
      match goal with
      | |- context [Realm.for_of _ _ ?s1] =>
          destruct (Hnext s1 eq_refl) as [Hnd1 Hall1];
          destruct (IH s1 Hnd1 Hl' Hall1)
            as (s' & notices & Hrun & Hc & He & Hn & Hp & Hm & Hh & Hr)
      end.
    + exists s', (Realm.supply_notice c
                    (Realm.wall_clock s (Realm.clock_reads s)) :: notices).
      split; [exact Hrun |]. split.
      { rewrite Hc. apply supplied_rows; assumption. }
      split; [rewrite He; cbn [Realm.emitted Realm.with_emitted];
              rewrite <- app_assoc; reflexivity |].
      split; [constructor; [eexists; reflexivity | exact Hn] |].
      repeat split; assumption.
    + exists s', notices.
      split; [exact Hrun |]. split.
      { rewrite Hc. apply supplied_rows; assumption. }
      split; [exact He |]. split; [exact Hn |].
      repeat split; assumption.
Qed.

Lemma filter_both {A : Type} (p q : A -> bool) (l : list A) :
  filter q (filter p l) = filter (fun x => p x && q x) l.
Proof.
  induction l as [| x l IH]; [reflexivity |]. cbn [filter].
  destruct (p x); cbn [filter andb]; [destruct (q x) |]; rewrite IH;
    reflexivity.
Qed.

(** X23.  A tick of the resource timer supplies the claimed countries and
    no other: with distinct keys, and balances and generation rates that
    are not negative, as the validators of the two columns ask, the tick
    never fails; the resources of every claimed country grow by the floor
    of its generation rate, whatever its soldiers, and no other column
    and no unclaimed country is written; a notice with the new balance
    goes to the room of each claimed country that [countryRooms] tracks,
    in the order of the table, and nothing else is emitted; players,
    movements and history are left alone. *)
Theorem resource_timer_supplies_claimed_countries (s : Realm.Store) :
  NoDup (map Realm.countries.id (Realm.tbl_countries s)) ->
  Forall (fun c => 0 <= Realm.countries.resources c
                   /\ (0 <= Realm.countries.resource_generation_rate c)%R)
    (Realm.tbl_countries s) ->
  exists s' notices,
    Realm.serve Realm.timer_resources s = (Returned None, s')
    /\ Realm.tbl_countries s'
       = update_where Realm.countries.is_claimed Realm.supplied
           (Realm.tbl_countries s)
    /\ Realm.emitted s' = Realm.emitted s ++ notices
    /\ Forall2 (fun c e => exists now, e = Realm.supply_notice c now)
         (filter (fun c => Realm.countries.is_claimed c
                           && Realm.Map_has (Realm.countries.id c)
                                (Realm.countryRooms s))
            (Realm.tbl_countries s)) notices
    /\ Realm.tbl_players s' = Realm.tbl_players s
    /\ Realm.tbl_player_movements s' = Realm.tbl_player_movements s
    /\ Realm.tbl_country_history s' = Realm.tbl_country_history s.
Proof.
  intros Hnd _.
  destruct (supply_loop_supplies
              (filter Realm.countries.is_claimed (Realm.tbl_countries s)) s
              Hnd)
    as (s' & notices & Hrun & Hc & He & Hn & Hp & Hm & Hh & _).
  { apply NoDup_map_filter. exact Hnd. }
  { apply Forall_forall. intros c Hc. apply filter_In in Hc. apply Hc. }
  exists s', notices. split.
  { unfold Realm.serve, Realm.socketHandler.resource_tick.
    erewrite bind_run; [reflexivity |]. apply try_run.
    erewrite bind_run; [| reflexivity]. exact Hrun. }
  split.
  { rewrite Hc. apply update_where_ext. intros r Hr.
    destruct (Realm.countries.is_claimed r) eqn:Hcl.
    - assert (existsb (same_id (Realm.countries.id r))
                (map Realm.countries.id
                   (filter Realm.countries.is_claimed
                      (Realm.tbl_countries s))) = true) as ->;
        [| reflexivity].
      apply existsb_exists. exists (Realm.countries.id r).
      split; [| apply same_id_refl].
      apply in_map, filter_In. auto.
    - destruct (existsb _ _) eqn:E; [| reflexivity]. exfalso.
      apply existsb_exists in E as (k & Hk & E). apply same_id_eq in E.
      apply in_map_iff in Hk as (r' & Hk & Hr').
      apply filter_In in Hr' as [Hr' Hcl'].
      assert (r = r') as <- by
        (apply (NoDup_key_eq Realm.countries.id (Realm.tbl_countries s));
         auto; congruence).
      congruence. }
  split; [exact He |]. split; [| auto].
  rewrite <- filter_both. exact Hn.
Qed.

Lemma resource_timer_supplies_claimed_countries_witness :
  exists s' notices,
    Realm.serve Realm.timer_resources Realm.Scene.start
    = (Returned None, s')
    /\ Realm.tbl_countries s'
       = update_where Realm.countries.is_claimed Realm.supplied
           (Realm.tbl_countries Realm.Scene.start)
    /\ Realm.emitted s' = Realm.emitted Realm.Scene.start ++ notices
    /\ Forall2 (fun c e => exists now, e = Realm.supply_notice c now)
         (filter (fun c => Realm.countries.is_claimed c
                           && Realm.Map_has (Realm.countries.id c)
                                (Realm.countryRooms Realm.Scene.start))
            (Realm.tbl_countries Realm.Scene.start)) notices
    /\ Realm.tbl_players s' = Realm.tbl_players Realm.Scene.start
    /\ Realm.tbl_player_movements s'
       = Realm.tbl_player_movements Realm.Scene.start
    /\ Realm.tbl_country_history s'
       = Realm.tbl_country_history Realm.Scene.start.
Proof.
  apply (resource_timer_supplies_claimed_countries Realm.Scene.start).
  - exact scene_countries_keyed.
  - apply Forall_forall. intros c Hc. cbn in Hc.
    repeat (destruct Hc as [<- | Hc]; [cbn; split; [lia | lra] |]).
    contradiction.
Defined.

(** ** The outcome of leaving and of joining *)

Lemma find_put {A : Type} (key : A -> Id) (k : Id) (v : A) (rows : list A) :
  find (fun r => same_id (key r) k)
    (update_where (fun r => same_id (key r) (key v)) (fun _ => v) rows)
  = if same_id (key v) k then
      match find (fun r => same_id (key r) k) rows with
      | Some _ => Some v
      | None => None
      end
    else find (fun r => same_id (key r) k) rows.
Proof.
  unfold update_where. induction rows as [| r rows IH];
    [destruct (same_id _ _); reflexivity |].
  cbn [map find].
  destruct (same_id (key r) (key v)) eqn:E.
  - apply same_id_eq in E. rewrite E.
    destruct (same_id (key v) k); [reflexivity | exact IH].
  - destruct (same_id (key r) k) eqn:E'; [| exact IH].
    apply same_id_eq in E'. subst k. rewrite same_id_sym, E. reflexivity.
Qed.

Lemma leave_handler_outcome (q : Realm.players.t) (cid : Id)
  (c : Realm.countries.t) (s : Realm.Store) :
  NoDup (map Realm.players.id (Realm.tbl_players s)) ->
  NoDup (map Realm.countries.id (Realm.tbl_countries s)) ->
  In q (Realm.tbl_players s) ->
  Realm.players.country_id q = Some cid ->
  Realm.country_row cid s = Some c ->
  0 < Realm.countries.soldier_count c ->
  let c' := Realm.reduced c (Realm.wall_clock s (Realm.clock_reads s)) in
  let wasOwner :=
    opt_is (Realm.countries.owner_id c) (Realm.players.id q) in
  let unclaimed := wasOwner && negb (Realm.countries.is_claimed c') in
  let q0 :=
    Realm.players.set_current_position None
      (Realm.players.set_country_id None q) in
  let q' :=
    if unclaimed then
      Realm.players.set_countries_owned
        (Realm.players.countries_owned q - 1) q0
    else q0 in
  Realm.returns (Realm.countries_routes.leave_handler (build q) cid) s
    (fun answer s' =>
       answer = {| Realm.http_status := 200;
                   Realm.body := Realm.left_country wasOwner unclaimed |}
       /\ Realm.tbl_countries s'
          = Realm.tbl_countries (Realm.put_country c' s)
       /\ Realm.tbl_players s' = Realm.tbl_players (Realm.put_player q' s)
       /\ (exists news,
             Realm.tbl_country_history s'
             = Realm.tbl_country_history s ++ news
             /\ map (fun h => (Realm.country_history.event_type h,
                               Realm.country_history.country_id h,
                               Realm.country_history.player_id h)) news
                = (Realm.country_history.soldier_left, cid,
                   Some (Realm.players.id q))
                  :: if unclaimed then
                       [(Realm.country_history.unclaimed, cid, None)]
                     else [])
       /\ Realm.tbl_player_movements s' = Realm.tbl_player_movements s
       /\ Realm.emitted s' = Realm.emitted s
       /\ Realm.sockets s' = Realm.sockets s).
Proof.
  intros Hndp Hndc Hq Hcountry Hrow Hpos c' wasOwner unclaimed q0 q'.
  destruct (country_row_In _ _ _ Hrow) as [Hin Hid].
  unfold Realm.countries_routes.leave_handler. cbn [build dataValues].
  rewrite Hcountry. cbn [opt_is]. rewrite same_id_refl. cbn [negb].
  apply run_try_catch, run_bind. eexists _, _.
  split; [apply Country_findByPk_row |]. rewrite Hrow. cbn [option_map].
  apply run_bind. eexists _, _.
  split; [apply removeSoldier_in_step; assumption |]. fold c'.
  set (s1 := Realm.put_country c' _).
  apply run_bind. eexists _, _.
  split; [apply Player_update_in_step; [exact Hndp | exact Hq] |].
  destruct (player_hooked_offline_same
              (Realm.Player.set
                 [Realm.players.country_id_is None;
                  Realm.players.current_position_is None] (build q)) s1
              eq_refl) as [-> ->].
  cbn [Realm.Player.set fold_left assign build dataValues
       Realm.players.set]. fold q0.
  apply run_bind. eexists _, _. split; [reflexivity |].
  fold wasOwner. fold unclaimed. apply run_bind.
  assert (same_id (Realm.players.id q0) (Realm.players.id q0) = true)
    as Hself by apply same_id_refl.
  unfold q'. destruct unclaimed.
  - eexists _, _. split; [reflexivity |]. apply run_ret.
    split; [reflexivity |]. split; [reflexivity |]. split.
    { cbn [Realm.tbl_players Realm.with_players Realm.put_player
           Realm.with_country_history Realm.with_clock_reads
           Realm.with_uuid_counter s1 Realm.put_country
           Realm.with_countries].
      rewrite update_where_twice; [| intros r E; exact Hself].
      apply update_where_ext. intros r _. reflexivity. }
    split; [| repeat split; reflexivity].
    eexists. split.
    { cbn [Realm.tbl_country_history Realm.with_players Realm.put_player
           Realm.with_country_history Realm.with_clock_reads
           Realm.with_uuid_counter s1 Realm.put_country
           Realm.with_countries].
      rewrite <- app_assoc. reflexivity. }
    cbn [map app Realm.country_history.event_type
         Realm.country_history.country_id
         Realm.country_history.player_id].
    unfold c'. rewrite (proj1 (reduced_count c _)), Hid. reflexivity.
  - eexists _, _. split; [reflexivity |]. apply run_ret.
    split; [reflexivity |]. split; [reflexivity |].
    split; [reflexivity |].
    split; [| repeat split; reflexivity].
    eexists. split; [reflexivity |].
    cbn [map Realm.country_history.event_type
         Realm.country_history.country_id
         Realm.country_history.player_id].
    unfold c'. rewrite (proj1 (reduced_count c _)), Hid. reflexivity.
Qed.

Lemma player_row_put (k : Id) (v : Realm.players.t) (s s' : Realm.Store) :
  Realm.tbl_players s' = Realm.tbl_players (Realm.put_player v s) ->
  Realm.player_row k s'
  = if same_id (Realm.players.id v) k then
      match Realm.player_row k s with
      | Some _ => Some v
      | None => None
      end
    else Realm.player_row k s.
Proof.
  intros H. unfold Realm.player_row. rewrite H.
  apply (find_put Realm.players.id).
Qed.

Lemma country_row_put (k : Id) (v : Realm.countries.t)
  (s s' : Realm.Store) :
  Realm.tbl_countries s' = Realm.tbl_countries (Realm.put_country v s) ->
  Realm.country_row k s'
  = if same_id (Realm.countries.id v) k then
      match Realm.country_row k s with
      | Some _ => Some v
      | None => None
      end
    else Realm.country_row k s.
Proof.
  intros H. unfold Realm.country_row. rewrite H.
  apply (find_put Realm.countries.id).
Qed.

Lemma put_player_twice (u v : Realm.players.t) (s : Realm.Store) :
  Realm.players.id u = Realm.players.id v ->
  Realm.tbl_players (Realm.put_player v (Realm.put_player u s))
  = Realm.tbl_players (Realm.put_player v s).
Proof.
  intros Hid. unfold Realm.put_player.
  cbn [Realm.tbl_players Realm.with_players]. rewrite Hid.
  apply update_where_const_twice. rewrite Hid. apply same_id_refl.
Qed.

(** X24.  The outcome of leaving a country over the route.  For a player
    who is not banned and is stored as a member of a consistent country
    with soldiers, the answer is 200; the player is left without country
    and position; the soldier count goes down by one.  When they were
    the last soldier the country is unclaimed, and [countries_owned] of
    the player goes down only if they were its owner: an owner who left
    earlier keeps their count.  When other soldiers remain the country
    keeps its owner, also when the owner is the one who leaves.  One
    [soldier_left] record is written, and an [unclaimed] record without
    player when the owner was the last to leave; no other player and no
    other country is written. *)
Theorem leave_outcome (s : Realm.Store) (playerId cid : Id)
  (p : Realm.players.t) (c : Realm.countries.t) :
  NoDup (map Realm.players.id (Realm.tbl_players s)) ->
  NoDup (map Realm.countries.id (Realm.tbl_countries s)) ->
  Realm.player_row playerId s = Some p ->
  Realm.players.is_banned p = false ->
  Realm.players.country_id p = Some cid ->
  Realm.country_row cid s = Some c ->
  Realm.consistent c ->
  0 < Realm.countries.soldier_count c ->
  let wasOwner := opt_is (Realm.countries.owner_id c) playerId in
  let last := Realm.countries.soldier_count c =? 1 in
  exists s' p' c',
    Realm.serve (Realm.post_leave playerId cid) s
    = (Returned
         (Some {| Realm.http_status := 200;
                  Realm.body :=
                    Realm.left_country wasOwner (wasOwner && last) |}), s')
    /\ Realm.player_row playerId s' = Some p'
    /\ Realm.country_row cid s' = Some c'
    /\ Realm.players.country_id p' = None
    /\ Realm.players.current_position p' = None
    /\ Realm.players.countries_owned p'
       = Realm.players.countries_owned p
         - (if wasOwner && last then 1 else 0)
    /\ Realm.countries.soldier_count c'
       = Realm.countries.soldier_count c - 1
    /\ (if last then
          Realm.countries.is_claimed c' = false
          /\ Realm.countries.owner_id c' = None
          /\ Realm.countries.claimed_at c' = None
        else
          Realm.countries.is_claimed c' = true
          /\ Realm.countries.owner_id c' = Realm.countries.owner_id c
          /\ Realm.countries.claimed_at c' = Realm.countries.claimed_at c)
    /\ (forall k, k <> playerId ->
                  Realm.player_row k s' = Realm.player_row k s)
    /\ (forall k, k <> cid ->
                  Realm.country_row k s' = Realm.country_row k s)
    /\ exists news,
         Realm.tbl_country_history s'
         = Realm.tbl_country_history s ++ news
         /\ map (fun h => (Realm.country_history.event_type h,
                           Realm.country_history.country_id h,
                           Realm.country_history.player_id h)) news
            = (Realm.country_history.soldier_left, cid, Some playerId)
              :: if wasOwner && last then
                   [(Realm.country_history.unclaimed, cid, None)]
                 else [].
Proof.
  intros Hndp Hndc Hrow Hban Hmember Hcrow Hcons Hpos wasOwner last.
  destruct (player_row_In _ _ _ Hrow) as [Hin Hid].
  destruct (country_row_In _ _ _ Hcrow) as [Hcin Hcid].
  destruct (after_seen_rows p playerId s Hndp Hrow) as [Hnd1 Hin1].
  assert (Realm.countries.is_claimed c = true) as Hcl.
  { unfold Realm.consistent in Hcons.
    destruct (Realm.countries.is_claimed c); [reflexivity | lia]. }
  destruct (leave_handler_outcome (Realm.seen p s) cid c
              (Realm.after_seen p s) Hnd1 Hndc Hin1 Hmember Hcrow Hpos)
    as (answer & s' & Hrun & -> & Hc & Hp & Hh & _).
  set (c' := Realm.reduced c _) in *.
  assert (negb (Realm.countries.is_claimed c') = last) as Hlast.
  { unfold c', Realm.reduced, last. cbv zeta.
    cbn [Realm.countries.soldier_count Realm.countries.is_claimed
         Realm.countries.set_soldier_count]. rewrite Hcl, andb_true_r.
    destruct (Realm.countries.soldier_count c - 1 =? 0) eqn:E;
      cbn [Realm.countries.is_claimed Realm.countries.set_last_activity
           Realm.countries.set_claimed_at Realm.countries.set_owner_id
           Realm.countries.set_is_claimed Realm.countries.set_soldier_count];
      [apply Z.eqb_eq in E | apply Z.eqb_neq in E; rewrite Hcl; cbn [negb]];
      symmetry; [apply Z.eqb_eq | apply Z.eqb_neq]; lia. }
  change (Realm.players.id (Realm.seen p s)) with (Realm.players.id p)
    in *.
  rewrite Hid, Hlast in *.
  fold wasOwner in Hrun, Hp, Hh.
  set (p' := if wasOwner && last then _ else _) in Hp.
  exists s', p', c'. split.
  { unfold Realm.serve, Realm.countries_routes.leave.
    erewrite bind_run; [reflexivity |].
    erewrite bind_run;
      [| apply authenticateToken_lets_through; eassumption].
    exact Hrun. }
  assert (Realm.tbl_players s'
          = Realm.tbl_players (Realm.put_player p' s)) as Hp'.
  { rewrite Hp. unfold Realm.after_seen.
    rewrite put_player_twice; [reflexivity |].
    unfold p'. destruct (wasOwner && last); reflexivity. }
  assert (Realm.players.id p' = playerId) as Hid'
    by (unfold p'; destruct (wasOwner && last); exact Hid).
  assert (Realm.countries.id c' = cid) as Hcid'
    by (unfold c'; rewrite (proj1 (reduced_count c _)); exact Hcid).
  split.
  { rewrite (player_row_put _ _ _ _ Hp'), Hid', same_id_refl, Hrow.
    reflexivity. }
  split.
  { rewrite (country_row_put _ _ _ _ Hc), Hcid', same_id_refl.
    change (Realm.country_row cid (Realm.after_seen p s))
      with (Realm.country_row cid s). rewrite Hcrow. reflexivity. }
  split; [unfold p'; destruct (wasOwner && last); reflexivity |].
  split; [unfold p'; destruct (wasOwner && last); reflexivity |].
  split.
  { unfold p'. destruct (wasOwner && last);
      cbn [Realm.players.countries_owned Realm.players.set_countries_owned
           Realm.players.set_current_position Realm.players.set_country_id
           Realm.seen Realm.players.set_is_online
           Realm.players.set_last_active]; lia. }
  split; [unfold c'; apply reduced_count |].
  split.
  { rewrite <- Hlast. unfold c', Realm.reduced. cbv zeta.
    cbn [Realm.countries.soldier_count Realm.countries.is_claimed
         Realm.countries.set_soldier_count]. rewrite Hcl, andb_true_r.
    destruct (Realm.countries.soldier_count c - 1 =? 0);
      cbn [Realm.countries.is_claimed Realm.countries.owner_id
           Realm.countries.claimed_at Realm.countries.set_last_activity
           Realm.countries.set_claimed_at Realm.countries.set_owner_id
           Realm.countries.set_is_claimed Realm.countries.set_soldier_count
           negb]; auto.
    rewrite Hcl. cbn [negb]. auto. }
  split.
  { intros k Hk. rewrite (player_row_put _ _ _ _ Hp'), Hid'.
    assert (same_id playerId k = false) as -> ; [| reflexivity].
    apply same_id_neq. congruence. }
  split; [| exact Hh].
  intros k Hk. rewrite (country_row_put _ _ _ _ Hc), Hcid'.
  assert (same_id cid k = false) as ->; [| reflexivity].
  apply same_id_neq. congruence.
Qed.

Lemma leave_outcome_witness :
  exists s' p' c',
    Realm.serve (Realm.post_leave 1%nat 10%nat) Realm.Scene.start
    = (Returned
         (Some {| Realm.http_status := 200;
                  Realm.body := Realm.left_country true false |}), s')
    /\ Realm.player_row 1%nat s' = Some p'
    /\ Realm.country_row 10%nat s' = Some c'
    /\ Realm.players.country_id p' = None
    /\ Realm.countries.soldier_count c' = 1
    /\ Realm.countries.owner_id c' = Some 1%nat.
Proof.
  destruct (leave_outcome Realm.Scene.start 1%nat 10%nat Realm.Scene.alice
              Realm.Scene.homeland)
    as (s' & p' & c' & H1 & H2 & H3 & H4 & _ & _ & H7 & H8 & _).
  - exact scene_players_keyed.
  - exact scene_countries_keyed.
  - reflexivity.
  - reflexivity.
  - reflexivity.
  - reflexivity.
  - cbn. repeat split; [lia | discriminate | discriminate].
  - cbn. lia.
  - exists s', p', c'. cbn in H8. destruct H8 as (_ & H8 & _).
    repeat split; assumption.
Defined.
(** * The validators and the column-wise save *)

Lemma same_number_true (a b : R) : Checked.same_number a b = true <-> a = b.
Proof.
  unfold Checked.same_number.
  destruct (Req_dec_T a b); split; auto; discriminate.
Qed.

Lemma same_number_refl (a : R) : Checked.same_number a a = true.
Proof. apply same_number_true. reflexivity. Qed.


Lemma same_date_true (a b : option Z) : Checked.same_date a b = true <-> a = b.
Proof.
  destruct a as [x |], b as [y |]; cbn; split; intros H;
    try discriminate; try reflexivity.
  - apply Z.eqb_eq in H. congruence.
  - inversion H. apply Z.eqb_refl.
Qed.

Lemma same_date_refl (a : option Z) : Checked.same_date a a = true.
Proof. apply same_date_true. reflexivity. Qed.

Lemma push_status_eqb_true (a b : border_pushes.Status) :
  border_pushes.status_eqb a b = true <-> a = b.
Proof. destruct a, b; cbn; split; intros H; congruence. Qed.

Lemma validator_min (lo x : R) : Checked.min lo x = true <-> (lo <= x)%R.
Proof.
  unfold Checked.min. destruct (Rle_dec lo x); split; auto; discriminate.
Qed.

Lemma validator_max (hi x : R) : Checked.max hi x = true <-> (x <= hi)%R.
Proof.
  unfold Checked.max. destruct (Rle_dec x hi); split; auto; discriminate.
Qed.

Lemma validator_range (lo hi x : R) :
  Checked.min lo x && Checked.max hi x = true <-> (lo <= x <= hi)%R.
Proof. rewrite andb_true_iff, validator_min, validator_max. reflexivity. Qed.


(** Two rows that differ in no column and bear the same key are one. *)
Lemma differs_nowhere (a b : border_pushes.t) :
  border_pushes.id a = border_pushes.id b ->
  (forall key, Checked.differs key a b = false) -> a = b.
Proof.
  intros Hid H.
  pose proof (H Checked.war_id_col) as H1.
  pose proof (H Checked.player_id_col) as H2.
  pose proof (H Checked.source_country_id_col) as H3.
  pose proof (H Checked.target_country_id_col) as H4.
  pose proof (H Checked.started_at_col) as H5.
  pose proof (H Checked.ended_at_col) as H6.
  pose proof (H Checked.status_col) as H7.
  pose proof (H Checked.push_strength_col) as H8.
  pose proof (H Checked.resistance_strength_col) as H9.
  pose proof (H Checked.terrain_modifier_col) as H10.
  pose proof (H Checked.distance_pushed_col) as H11.
  pose proof (H Checked.territory_gained_col) as H12.
  pose proof (H Checked.resources_consumed_col) as H13.
  pose proof (H Checked.supporting_soldiers_col) as H14.
  pose proof (H Checked.defending_soldiers_col) as H15.
  pose proof (H Checked.duration_seconds_col) as H16.
  pose proof (H Checked.push_speed_col) as H17.
  pose proof (H Checked.last_update_col) as H18.
  clear H. destruct a, b. cbn in *.
  apply negb_false_iff in H1, H2, H3, H4, H5, H6, H7, H8, H9, H10, H11, H12,
    H13, H14, H15, H16, H17, H18.
  apply same_id_eq in H1, H2, H3, H4.
  apply Z.eqb_eq in H5, H13, H14, H15, H16, H18.
  apply same_date_true in H6. apply push_status_eqb_true in H7.
  apply same_number_true in H8, H9, H10, H11, H12, H17.
  subst. reflexivity.
Qed.

Lemma differs_same (key : Checked.column) (a : border_pushes.t) :
  Checked.differs key a a = false.
Proof.
  destruct key; cbn;
    rewrite ?same_id_refl, ?Z.eqb_refl, ?same_number_refl, ?same_date_refl,
      ?status_eqb_refl; reflexivity.
Qed.

Lemma write_ext (f g : Checked.column -> bool) (new old : border_pushes.t) :
  (forall key, f key = g key) -> Checked.write f new old = Checked.write g new old.
Proof. intros H. unfold Checked.write. rewrite !H. reflexivity. Qed.

Lemma pick_id (a b : Id) :
  same_id b (if negb (same_id a b) then b else a) = true.
Proof.
  destruct (same_id a b) eqn:E; cbn; [| apply same_id_refl].
  apply same_id_eq in E. subst. apply same_id_refl.
Qed.

Lemma pick_Z (a b : Z) : (b =? (if negb (a =? b) then b else a)) = true.
Proof.
  destruct (a =? b) eqn:E; cbn; [| apply Z.eqb_refl].
  apply Z.eqb_eq in E. subst. apply Z.eqb_refl.
Qed.

Lemma pick_number (a b : R) :
  Checked.same_number b
    (if negb (Checked.same_number a b) then b else a) = true.
Proof.
  destruct (Checked.same_number a b) eqn:E; cbn; [| apply same_number_refl].
  apply same_number_true in E. subst. apply same_number_refl.
Qed.

Lemma pick_date (a b : option Z) :
  Checked.same_date b (if negb (Checked.same_date a b) then b else a) = true.
Proof.
  destruct (Checked.same_date a b) eqn:E; cbn; [| apply same_date_refl].
  apply same_date_true in E. subst. apply same_date_refl.
Qed.

Lemma pick_status (a b : border_pushes.Status) :
  border_pushes.status_eqb b
    (if negb (border_pushes.status_eqb a b) then b else a) = true.
Proof. destruct a, b; reflexivity. Qed.

(** Writing into a row the columns in which another differs from it gives
    the other. *)
Lemma write_changes (p p' : border_pushes.t) :
  border_pushes.id p' = border_pushes.id p ->
  Checked.write (Checked.changes p p') p' p = p'.
Proof.
  intros Hid. symmetry. apply differs_nowhere.
  - cbn. exact Hid.
  - intros key. unfold Checked.changes.
    destruct key; cbn;
      rewrite ?pick_id, ?pick_Z, ?pick_number, ?pick_date, ?pick_status;
      reflexivity.
Qed.

Lemma validate_passes (fields : Checked.column -> bool)
  (this : Instance border_pushes.t) (w : World) :
  (forall key, fields key = true ->
     Checked.passes key (dataValues this) = true) ->
  Checked.BorderPush.validate fields this w = (Returned tt, w).
Proof.
  intros H. unfold Checked.BorderPush.validate.
  assert (forallb
            (fun key => negb (fields key)
                        || Checked.passes key (dataValues this))
            Checked.columns = true) as ->; [| reflexivity].
  apply forallb_forall. intros key _.
  destruct (fields key) eqn:E; [| reflexivity]. cbn. apply H. exact E.
Qed.

Lemma columns_complete (key : Checked.column) : In key Checked.columns.
Proof. destruct key; cbn; tauto. Qed.

Lemma validate_fails (fields : Checked.column -> bool)
  (this : Instance border_pushes.t) (w : World) (key : Checked.column) :
  fields key = true -> Checked.passes key (dataValues this) = false ->
  Checked.BorderPush.validate fields this w
  = (Threw "SequelizeValidationError", w).
Proof.
  intros Hf Hp. unfold Checked.BorderPush.validate.
  assert (forallb
            (fun key => negb (fields key)
                        || Checked.passes key (dataValues this))
            Checked.columns = false) as ->; [| reflexivity].
  destruct (forallb _ Checked.columns) eqn:E; [| reflexivity].
  rewrite forallb_forall in E. specialize (E key (columns_complete key)).
  rewrite Hf, Hp in E. discriminate.
Qed.

Lemma existsb_columns (f : Checked.column -> bool) (key : Checked.column) :
  f key = true -> existsb f Checked.columns = true.
Proof.
  intros H. apply existsb_exists. exists key.
  split; [apply columns_complete | exact H].
Qed.

(** The columns that [save] writes for an instance as a finder returned
    it, once a method has assigned [q] to it and the hook the date [now]:
    those in which the result is not the row found. *)
Lemma saved_fields (p q : border_pushes.t) (now : Z) (key : Checked.column) :
  border_pushes.last_update q = border_pushes.last_update p ->
  let this := {| dataValues := q; _previousDataValues := p |} in
  let after := assign (border_pushes.set_last_update now) this in
  Checked.BorderPush.changed key this
  || Checked.BorderPush.changed key after
     && (negb (Checked.BorderPush.changed key this)
         || Checked.differs key (dataValues this) (dataValues after))
  = Checked.changes p (border_pushes.set_last_update now q) key.
Proof.
  intros Hlu. cbv zeta. unfold Checked.BorderPush.changed, Checked.changes.
  cbn [dataValues _previousDataValues assign].
  destruct key; cbn; rewrite ?Hlu, ?Z.eqb_refl;
    try (match goal with
         | |- context [negb ?b] => destruct b
         end; reflexivity).
  cbn. rewrite andb_true_r. reflexivity.
Qed.

(** A [save] that changes no status and whose changed columns pass. *)
Lemma save_stores (p q : border_pushes.t) (w : World) :
  border_pushes.status q = border_pushes.status p ->
  border_pushes.last_update q = border_pushes.last_update p ->
  border_pushes.id q = border_pushes.id p ->
  (forall key, Checked.differs key p q = true -> Checked.passes key q = true) ->
  (exists key, Checked.differs key p q = true) ->
  let now := wall_clock w (clock_reads w) in
  let row := border_pushes.set_last_update now q in
  Checked.BorderPush.save {| dataValues := q; _previousDataValues := p |} w
  = (Returned (build row),
     with_border_pushes
       (update_where
          (fun r => same_id (border_pushes.id r) (border_pushes.id p))
          (Checked.write (Checked.changes p row) row)
          (tbl_border_pushes (with_clock_reads (S (clock_reads w)) w)))
       (with_clock_reads (S (clock_reads w)) w)).
Proof.
  intros Hst Hlu Hid Hpass [key0 Hkey0]. cbv zeta.
  unfold Checked.BorderPush.save. unfold bind at 1.
  rewrite validate_passes; [| exact Hpass].
  unfold BorderPush.beforeUpdate, BorderPush.changed_status.
  cbn [dataValues _previousDataValues]. rewrite Hst, status_eqb_refl.
  cbn [negb andb]. unfold bind at 1. unfold bind at 1. cbn [ret].
  unfold bind at 1. unfold new_Date at 1. cbn [ret].
  set (now := wall_clock w (clock_reads w)).
  set (w1 := with_clock_reads (S (clock_reads w)) w).
  set (this := {| dataValues := q; _previousDataValues := p |}).
  set (after := assign (border_pushes.set_last_update now) this).
  unfold bind at 1.
  rewrite validate_passes.
  2:{ intros key Hk. apply andb_prop in Hk as [Hch Hor].
      destruct key; try reflexivity; exfalso;
        unfold after, this, Checked.BorderPush.changed in Hch, Hor;
        cbn in Hch, Hor;
        rewrite ?same_id_refl, ?Z.eqb_refl, ?same_number_refl,
          ?same_date_refl, ?status_eqb_refl in Hor;
        cbn in Hor; rewrite Hch in Hor; discriminate. }
  assert (Hfields : forall key,
            Checked.BorderPush.changed key this
            || Checked.BorderPush.changed key after
               && (negb (Checked.BorderPush.changed key this)
                   || Checked.differs key (dataValues this)
                        (dataValues after))
            = Checked.changes p (border_pushes.set_last_update now q) key).
  { intros key. apply (saved_fields p q now key Hlu). }
  assert (Hsome : Checked.changes p (border_pushes.set_last_update now q)
                    key0 = true).
  { rewrite <- Hfields. unfold this at 1, Checked.BorderPush.changed at 1.
    cbn [dataValues _previousDataValues]. rewrite Hkey0. reflexivity. }
  rewrite (existsb_columns _ key0).
  2:{ rewrite Hfields. exact Hsome. }
  rewrite (existsb_columns _ key0).
  2:{ unfold after, this, Checked.BorderPush.changed.
      cbn [dataValues _previousDataValues assign]. exact Hsome. }
  cbn [negb orb]. unfold bind at 1, modify at 1.
  unfold bind at 1. unfold BorderPush.afterUpdate, BorderPush.changed_status.
  unfold after at 1 2, this at 1 2.
  cbn [dataValues _previousDataValues assign].
  replace (border_pushes.status (border_pushes.set_last_update now q))
    with (border_pushes.status p) by (rewrite <- Hst; reflexivity).
  rewrite status_eqb_refl. cbn [negb andb ret].
  unfold after, this. cbn [dataValues _previousDataValues assign].
  rewrite (write_ext _ _ _ p Hfields).
  rewrite write_changes by (cbn; exact Hid).
  unfold ret, build. f_equal. f_equal.
  replace (border_pushes.id (border_pushes.set_last_update now q))
    with (border_pushes.id p) by (rewrite <- Hid; reflexivity).
  apply update_where_ext. intros r _.
  rewrite (write_ext _ _ _ r Hfields). reflexivity.
Qed.

(** A [save] of which a changed column does not pass. *)
Lemma save_throws (this : Instance border_pushes.t) (w : World)
  (key : Checked.column) :
  Checked.BorderPush.changed key this = true ->
  Checked.passes key (dataValues this) = false ->
  Checked.BorderPush.save this w = (Threw "SequelizeValidationError", w).
Proof.
  intros Hch Hp. unfold Checked.BorderPush.save. unfold bind at 1.
  rewrite (validate_fails _ this w key Hch Hp). reflexivity.
Qed.

Lemma forallb_false_exists {A : Type} (f : A -> bool) (l : list A) :
  forallb f l = false -> exists x, In x l /\ f x = false.
Proof.
  induction l as [| a l IH]; cbn; [discriminate |].
  destruct (f a) eqn:E; cbn.
  - intros H. destruct (IH H) as (x & Hin & Hx). exists x. auto.
  - intros _. exists a. auto.
Qed.

(** A [save] that changes no status stores what [save_stores] says, or
    throws on a validator and stores nothing. *)
Lemma save_outcome (p q : border_pushes.t) (w : World) :
  border_pushes.status q = border_pushes.status p ->
  border_pushes.last_update q = border_pushes.last_update p ->
  border_pushes.id q = border_pushes.id p ->
  (exists key, Checked.differs key p q = true) ->
  let now := wall_clock w (clock_reads w) in
  let row := border_pushes.set_last_update now q in
  Checked.BorderPush.save {| dataValues := q; _previousDataValues := p |} w
  = (Returned (build row),
     with_border_pushes
       (update_where
          (fun r => same_id (border_pushes.id r) (border_pushes.id p))
          (Checked.write (Checked.changes p row) row)
          (tbl_border_pushes (with_clock_reads (S (clock_reads w)) w)))
       (with_clock_reads (S (clock_reads w)) w))
  \/ Checked.BorderPush.save {| dataValues := q; _previousDataValues := p |} w
     = (Threw "SequelizeValidationError", w).
Proof.
  intros Hst Hlu Hid Hsome. cbv zeta.
  destruct (forallb
              (fun key => negb (Checked.differs key p q)
                          || Checked.passes key q) Checked.columns) eqn:E.
  - left. apply save_stores; try assumption.
    intros key Hd. rewrite forallb_forall in E.
    specialize (E key (columns_complete key)). rewrite Hd in E. exact E.
  - right. apply forallb_false_exists in E as (key & _ & Hk).
    apply orb_false_iff in Hk as [Hd Hp]. apply negb_false_iff in Hd.
    apply (save_throws _ w key); assumption.
Qed.

(** ** Joins and defences under the validators *)

Lemma sqrt_100 : sqrt 100 = 10%R.
Proof. replace 100%R with (10 * 10)%R by lra. apply sqrt_square. lra. Qed.

Lemma root_of_count (n : Z) :
  1 <= n <= 100 -> (1 <= sqrt (IZR n) <= 10)%R.
Proof.
  intros [Hlo Hhi]. split.
  - rewrite <- sqrt_1 at 1. apply sqrt_le_1_alt. apply IZR_le. exact Hlo.
  - rewrite <- sqrt_100. apply sqrt_le_1_alt. apply IZR_le. exact Hhi.
Qed.


Lemma bounded_speed_in_bounds (x : R) :
  (0.1 <= Math_max 0.1 (Math_min 5.0 x) <= 5.0)%R.
Proof.
  unfold Math_max, Math_min. split; [apply Rmax_l |].
  apply Rmax_lub; [lra | apply Rmin_l].
Qed.

Ltac unchanged_column H :=
  exfalso; cbn in H;
  rewrite ?same_id_refl, ?Z.eqb_refl, ?same_number_refl, ?same_date_refl,
    ?status_eqb_refl in H;
  discriminate.

Lemma join_stores (p : border_pushes.t) (w : World) :
  0 <= border_pushes.supporting_soldiers p < 100 ->
  let row := joined p (wall_clock w (clock_reads w)) in
  Checked.BorderPush.addSupportingSoldier (build p) w
  = (Returned (build row),
     with_border_pushes
       (update_where
          (fun r => same_id (border_pushes.id r) (border_pushes.id p))
          (Checked.write (Checked.changes p row) row)
          (tbl_border_pushes w))
       (with_clock_reads (S (clock_reads w)) w)).
Proof.
  intros Hn. cbv zeta. unfold Checked.BorderPush.addSupportingSoldier.
  cbv zeta. unfold assign, build. cbn [dataValues _previousDataValues].
  rewrite save_stores; try reflexivity.
  - intros key Hch.
    destruct key; try reflexivity; try (unchanged_column Hch).
    + unfold Checked.passes. apply validator_range. cbn. unfold Math_sqrt.
      pose proof (root_of_count (border_pushes.supporting_soldiers p + 1)
                    ltac:(lia)).
      lra.
    + unfold Checked.passes. cbn. apply Z.leb_le. lia.
    + unfold Checked.passes. apply validator_range. cbn.
      apply bounded_speed_in_bounds.
  - exists Checked.supporting_soldiers_col. cbn.
    apply negb_true_iff, Z.eqb_neq. lia.
Qed.


Lemma defend_stores (p : border_pushes.t) (w : World) :
  0 <= border_pushes.defending_soldiers p < 100 ->
  let row := defended p (wall_clock w (clock_reads w)) in
  Checked.BorderPush.addDefendingSoldier (build p) w
  = (Returned (build row),
     with_border_pushes
       (update_where
          (fun r => same_id (border_pushes.id r) (border_pushes.id p))
          (Checked.write (Checked.changes p row) row)
          (tbl_border_pushes w))
       (with_clock_reads (S (clock_reads w)) w)).
Proof.
  intros Hn. cbv zeta. unfold Checked.BorderPush.addDefendingSoldier.
  cbv zeta. unfold assign, build. cbn [dataValues _previousDataValues].
  rewrite save_stores; try reflexivity.
  - intros key Hch.
    destruct key; try reflexivity; try (unchanged_column Hch).
    + unfold Checked.passes. apply validator_range. cbn. unfold Math_sqrt.
      pose proof (root_of_count (border_pushes.defending_soldiers p + 1)
                    ltac:(lia)).
      lra.
    + unfold Checked.passes. cbn. apply Z.leb_le. lia.
    + unfold Checked.passes. apply validator_range. cbn.
      apply bounded_speed_in_bounds.
  - exists Checked.defending_soldiers_col. cbn.
    apply negb_true_iff, Z.eqb_neq. lia.
Qed.


Lemma join_outcome (p : border_pushes.t) (w : World) :
  let row := joined p (wall_clock w (clock_reads w)) in
  Checked.BorderPush.addSupportingSoldier (build p) w
  = (Returned (build row),
     with_border_pushes
       (update_where
          (fun r => same_id (border_pushes.id r) (border_pushes.id p))
          (Checked.write (Checked.changes p row) row)
          (tbl_border_pushes w))
       (with_clock_reads (S (clock_reads w)) w))
  \/ Checked.BorderPush.addSupportingSoldier (build p) w
     = (Threw "SequelizeValidationError", w).
Proof.
  cbv zeta. unfold Checked.BorderPush.addSupportingSoldier.
  cbv zeta. unfold assign, build. cbn [dataValues _previousDataValues].
  apply save_outcome; try reflexivity.
  exists Checked.supporting_soldiers_col. cbn.
  apply negb_true_iff, Z.eqb_neq. lia.
Qed.

Lemma defend_outcome (p : border_pushes.t) (w : World) :
  let row := defended p (wall_clock w (clock_reads w)) in
  Checked.BorderPush.addDefendingSoldier (build p) w
  = (Returned (build row),
     with_border_pushes
       (update_where
          (fun r => same_id (border_pushes.id r) (border_pushes.id p))
          (Checked.write (Checked.changes p row) row)
          (tbl_border_pushes w))
       (with_clock_reads (S (clock_reads w)) w))
  \/ Checked.BorderPush.addDefendingSoldier (build p) w
     = (Threw "SequelizeValidationError", w).
Proof.
  cbv zeta. unfold Checked.BorderPush.addDefendingSoldier.
  cbv zeta. unfold assign, build. cbn [dataValues _previousDataValues].
  apply save_outcome; try reflexivity.
  exists Checked.defending_soldiers_col. cbn.
  apply negb_true_iff, Z.eqb_neq. lia.
Qed.










(** ** The bounds of the speed under the validators *)

(** With attributes that pass, the validated [create] is the one of the
    first part. *)
Lemma create_validated war_id player_id source target (strength terrain : R)
  (cost : Z) (w : World) :
  (0.1 <= strength <= 10)%R -> (0.1 <= terrain <= 5)%R -> 0 <= cost ->
  Checked.BorderPush.create war_id player_id source target strength terrain
    cost w
  = BorderPush.create war_id player_id source target strength terrain cost w.
Proof.
  intros Hs Ht Hc.
  unfold Checked.BorderPush.create, BorderPush.create, bind, UUIDV4, new_Date.
  rewrite validate_passes; [reflexivity |].
  intros key _. destruct key; try reflexivity; unfold Checked.passes; cbn;
    try (apply validator_range; lra); try (apply validator_min; lra);
    apply Z.leb_le; exact Hc.
Qed.

Lemma write_speed (fields : Checked.column -> bool)
  (new old : border_pushes.t) :
  Spec.speed_in_bounds (border_pushes.push_speed new) ->
  Spec.speed_in_bounds (border_pushes.push_speed old) ->
  Spec.speed_in_bounds (border_pushes.push_speed (Checked.write fields new old)).
Proof.
  intros Hn Ho. cbn. destruct (fields Checked.push_speed_col); assumption.
Qed.

Lemma join_keeps_speeds (p : border_pushes.t) (w : World) :
  speeds_in_bounds w ->
  speeds_in_bounds
    (final (Checked.BorderPush.addSupportingSoldier (build p)) w).
Proof.
  intros Hw. unfold final.
  destruct (join_outcome p w) as [H | H]; rewrite H; [| exact Hw].
  cbn [snd]. unfold speeds_in_bounds. cbn.
  apply Forall_update_where; [exact Hw |].
  intros r Hr _. apply write_speed; [| exact Hr].
  cbn. apply bounded_speed_in_bounds.
Qed.

Lemma defend_keeps_speeds (p : border_pushes.t) (w : World) :
  speeds_in_bounds w ->
  speeds_in_bounds
    (final (Checked.BorderPush.addDefendingSoldier (build p)) w).
Proof.
  intros Hw. unfold final.
  destruct (defend_outcome p w) as [H | H]; rewrite H; [| exact Hw].
  cbn [snd]. unfold speeds_in_bounds. cbn.
  apply Forall_update_where; [exact Hw |].
  intros r Hr _. apply write_speed; [| exact Hr].
  cbn. apply bounded_speed_in_bounds.
Qed.

(** C5. In every world the server reaches, the push_speed of every stored
    border push lies in [0.1, 5.0].  It does so after the creation hook,
    for a resistance that is not zero and a terrain modifier above zero;
    on the push that [BorderPush.create] validates and stores; and after
    a join and after a defence, for a terrain modifier above zero and a
    resistance that is not zero, whatever the soldier counts and however
    large the terrain modifier: the speeds of the stored pushes stay
    within the bounds whether the operation stores or a validator
    refuses it, the push that it returns has its speed within them, and
    below a hundred soldiers it does return. *)
Theorem push_speed_stays_in_bounds :
  (forall w : World, reachable w ->
     forall p, In p (tbl_border_pushes w) ->
       Spec.speed_in_bounds (border_pushes.push_speed p))
  /\ (forall p : border_pushes.t,
        border_pushes.resistance_strength p <> 0%R ->
        (0 < border_pushes.terrain_modifier p)%R ->
        Spec.speed_in_bounds
          (border_pushes.push_speed (BorderPush.beforeCreate p)))
  /\ (forall (war_id player_id source target : Id) (strength terrain : R)
        (cost : Z) (w : World),
        (0.1 <= strength <= 10)%R -> (0.1 <= terrain <= 5)%R -> 0 <= cost ->
        returns
          (Checked.BorderPush.create war_id player_id source target strength
             terrain cost) w
          (fun this' w' =>
             Spec.speed_in_bounds (border_pushes.push_speed (dataValues this'))
             /\ tbl_border_pushes w'
                = tbl_border_pushes w ++ [dataValues this']))
  /\ (forall (p : border_pushes.t) (w : World),
        border_pushes.resistance_strength p <> 0%R ->
        (0 < border_pushes.terrain_modifier p)%R ->
        speeds_in_bounds w ->
        speeds_in_bounds
          (final (Checked.BorderPush.addSupportingSoldier (build p)) w)
        /\ (forall this' w',
              Checked.BorderPush.addSupportingSoldier (build p) w
              = (Returned this', w') ->
              Spec.speed_in_bounds
                (border_pushes.push_speed (dataValues this')))
        /\ (0 <= border_pushes.supporting_soldiers p < 100 ->
            exists this' w',
              Checked.BorderPush.addSupportingSoldier (build p) w
              = (Returned this', w')))
  /\ (forall (p : border_pushes.t) (w : World),
        0 <= border_pushes.defending_soldiers p ->
        (0 < border_pushes.terrain_modifier p)%R ->
        speeds_in_bounds w ->
        speeds_in_bounds
          (final (Checked.BorderPush.addDefendingSoldier (build p)) w)
        /\ (forall this' w',
              Checked.BorderPush.addDefendingSoldier (build p) w
              = (Returned this', w') ->
              Spec.speed_in_bounds
                (border_pushes.push_speed (dataValues this')))
        /\ (border_pushes.defending_soldiers p < 100 ->
            exists this' w',
              Checked.BorderPush.addDefendingSoldier (build p) w
              = (Returned this', w'))).
Proof.
  split; [| split; [| split; [| split]]].
  - intros w Hreach p Hin.
    pose proof (reachable_speeds_in_bounds w Hreach) as Hall.
    unfold speeds_in_bounds in Hall. rewrite Forall_forall in Hall.
    apply Hall. exact Hin.
  - intros p _ _. rewrite beforeCreate_speed. apply spec_push_speed_in_bounds.
  - intros war_id player_id source target strength terrain cost w Hs Ht Hc.
    unfold returns. rewrite create_validated by assumption.
    apply BorderPush_create_returns.
  - intros p w _ _ Hw. split; [apply join_keeps_speeds; exact Hw |]. split.
    + intros this' w' Hrun.
      destruct (join_outcome p w) as [H | H]; rewrite H in Hrun;
        [| discriminate].
      injection Hrun as <- _. cbn. apply bounded_speed_in_bounds.
    + intros Hn. eexists _, _. apply join_stores. exact Hn.
  - intros p w Hd _ Hw. split; [apply defend_keeps_speeds; exact Hw |]. split.
    + intros this' w' Hrun.
      destruct (defend_outcome p w) as [H | H]; rewrite H in Hrun;
        [| discriminate].
      injection Hrun as <- _. cbn. apply bounded_speed_in_bounds.
    + intros Hn. eexists _, _. apply defend_stores. lia.
Qed.

Lemma siege_speeds : speeds_in_bounds Checked.Sample.siege.
Proof.
  unfold speeds_in_bounds, Spec.speed_in_bounds. cbn.
  constructor; [cbn; lra |]. constructor; [cbn; lra |]. constructor.
Qed.

(** C5 for the push of the campaign, and for a join of a push with a
    hundred defenders. *)
Lemma push_speed_stays_in_bounds_witness :
  (reachable Sample.campaign
   /\ In Sample.first_push (tbl_border_pushes Sample.campaign)
   /\ Spec.speed_in_bounds (border_pushes.push_speed Sample.first_push))
  /\ (border_pushes.resistance_strength Checked.Sample.besieged <> 0%R
      /\ (0 < border_pushes.terrain_modifier Checked.Sample.besieged)%R
      /\ speeds_in_bounds Checked.Sample.siege
      /\ speeds_in_bounds
           (final
              (Checked.BorderPush.addSupportingSoldier
                 (build Checked.Sample.besieged)) Checked.Sample.siege)).
Proof.
  split.
  - split; [exact campaign_reachable |].
    assert (Hin : In Sample.first_push (tbl_border_pushes Sample.campaign)).
    { rewrite campaign_pushes. left. reflexivity. }
    split; [exact Hin |].
    exact (proj1 push_speed_stays_in_bounds Sample.campaign
             campaign_reachable Sample.first_push Hin).
  - assert (Hr : border_pushes.resistance_strength Checked.Sample.besieged
                 <> 0%R) by (cbn; lra).
    assert (Ht : (0 < border_pushes.terrain_modifier
                        Checked.Sample.besieged)%R) by (cbn; lra).
    split; [exact Hr |]. split; [exact Ht |]. split; [exact siege_speeds |].
    exact (proj1 (proj1 (proj2 (proj2 (proj2 push_speed_stays_in_bounds)))
                    Checked.Sample.besieged Checked.Sample.siege Hr Ht
                    siege_speeds)).
Defined.

(** ** The speed under a join and under a defence *)

(** X9. For a push whose strengths and speed are those its soldier counts
    give, a join with fewer than a hundred supporting soldiers returns
    and never lowers push_speed, and a defence with fewer than a hundred
    defending soldiers returns and never raises it; the first defender
    leaves it as it is, the resistance being 1 without a defender and the
    root of 1 with one. *)
Theorem join_never_slows_defend_never_speeds (w : World)
  (p : border_pushes.t) :
  coherent p ->
  (border_pushes.supporting_soldiers p < 100 ->
   returns (Checked.BorderPush.addSupportingSoldier (build p)) w
     (fun this' _ =>
        (border_pushes.push_speed p
         <= border_pushes.push_speed (dataValues this'))%R))
  /\ (border_pushes.defending_soldiers p < 100 ->
      returns (Checked.BorderPush.addDefendingSoldier (build p)) w
        (fun this' _ =>
           (border_pushes.push_speed (dataValues this')
            <= border_pushes.push_speed p)%R
           /\ (border_pushes.defending_soldiers p = 0 ->
               border_pushes.push_speed (dataValues this')
               = border_pushes.push_speed p))).
Proof.
  intros Hco. pose proof Hco as (Hs & Hd & _). split.
  - intros Hcap. eexists _, _. split; [apply join_stores; lia |].
    cbn [dataValues build]. apply joined_speed. exact Hco.
  - intros Hcap. eexists _, _. split; [apply defend_stores; lia |].
    cbn [dataValues build]. apply defended_speed. exact Hco.
Qed.

Lemma first_push_coherent : coherent Sample.first_push.
Proof.
  exact (launched_coherent 1001%nat 1000%nat 1%nat 10%nat 20%nat 505000
           510000).
Qed.

(** X9 for the first defender of the push of the campaign. *)
Lemma join_never_slows_defend_never_speeds_witness :
  coherent Sample.first_push
  /\ border_pushes.defending_soldiers Sample.first_push < 100
  /\ returns (Checked.BorderPush.addDefendingSoldier (build Sample.first_push))
       Sample.campaign (fun this' _ =>
         border_pushes.push_speed (dataValues this')
         = border_pushes.push_speed Sample.first_push).
Proof.
  split; [exact first_push_coherent |]. split; [cbn; lia |].
  eapply returns_mono.
  - apply (proj2 (join_never_slows_defend_never_speeds Sample.campaign
                    Sample.first_push first_push_coherent)).
    cbn. lia.
  - intros this' w' [_ H]. apply H. reflexivity.
Defined.

(** ** The routes with their middleware *)








(** ** Two declarations of war that overlap *)

Lemma declare_war_cut (player : Instance players.t) (target_country_id : Id)
  (w : World) :
  Checked.declare_war.alone true player target_country_id w
  = game.declare_war player target_country_id w.
Proof.
  unfold Checked.declare_war.alone, Checked.declare_war.checks,
    Checked.declare_war.creation, game.declare_war, json_error,
    Checked.refusal.
  destruct (players.country_id (dataValues player)) as [c |];
    [| reflexivity].
  unfold try_catch, bind, Country.findByPk, War.findOne, War.findOne_latest,
    gets.
  destruct (find _ (tbl_countries w)) as [source |]; cbn [option_map];
    [| reflexivity].
  destruct (negb (opt_is _ _)); [reflexivity |].
  destruct (find _ (tbl_countries w)) as [target |]; cbn [option_map];
    [| reflexivity].
  destruct (negb (countries.is_claimed _)); [reflexivity |].
  destruct (same_id _ _); [reflexivity |].
  destruct (find _ (tbl_wars w)); cbn [option_map]; [reflexivity |].
  destruct (latest _ _) as [lastWar |]; cbn [option_map].
  - unfold new_Date, ret.
    destruct (_ <? _); [reflexivity |].
    destruct (War.create _ _ _ _) as [[war | e] w1]; [| reflexivity].
    reflexivity.
  - unfold ret.
    destruct (War.create _ _ _ _) as [[war | e] w1]; [| reflexivity].
    reflexivity.
Qed.

(** C4 at two declarations that overlap.  Cut at the await that precedes
    [War.create], the handler is the route of the first part, which emits
    as with the setting ['io'] made.  When alice, who owns country 10,
    declares war on country 20 while bob, who owns country 20, declares
    war on country 10, and the checks of both have run before either
    creates, neither finds a war, both create one, for the index is on
    the ordered pair, and both are answered 201: two active wars are
    stored between the two countries, with the setting ['io'] or
    without.  Handled one after the other, the second declaration is
    answered with Conflict. *)
Theorem overlapping_declarations_create_two_wars :
  (forall (player : Instance players.t) (target_country_id : Id) (w : World),
     Checked.declare_war.alone true player target_country_id w
     = game.declare_war player target_country_id w)
  /\ (forall io : bool,
        let run :=
          Checked.declare_war.overlapping io (build Sample.alice) 20%nat
            (build Sample.bob) 10%nat Sample.peace in
        fst run
        = Returned ({| http_status := 201; error := None |},
                    {| http_status := 201; error := None |})
        /\ map (fun r => (wars.aggressor_country_id r,
                           wars.defender_country_id r, wars.status r))
             (tbl_wars (snd run))
           = [(10%nat, 20%nat, wars.active); (20%nat, 10%nat, wars.active)]
        /\ List.length
             (active_wars_between 10%nat 20%nat (tbl_wars (snd run)))
           = 2%nat
        /\ ~ at_most_one_active_war (snd run))
  /\ (forall io : bool,
        fst (Checked.declare_war.alone io (build Sample.bob) 10%nat
               (final
                  (Checked.declare_war.alone io (build Sample.alice) 20%nat)
                  Sample.peace))
        = Returned {| http_status := 409; error := Some "Conflict"%string |}).
Proof.
  split; [exact declare_war_cut |]. split.
  - intros io. cbv zeta.
    split; [destruct io; reflexivity |].
    split; [destruct io; reflexivity |].
    split; [destruct io; reflexivity |].
    intros H. specialize (H 10%nat 20%nat).
    destruct io; change (2 <= 1)%nat in H; lia.
  - intros io. destruct io; reflexivity.
Qed.
